(* ===== verification/_CoqProject ===== *)
-Q . S2P
Prelude.v
Timer.v
TimerSpec.v
Fiber.v
Scheduler.v
SchedulerThreads.v
SchedulerProps.v
SchedulerLive.v
Posix.v
FdManager.v
IOManager.v
IOManagerInv.v
IOManagerProps.v
IOManagerSched.v
Hook.v
HookProps.v
HookDemo.v
HookEquiv.v
HookCompose.v
HookTime.v
HookSched.v
Log.v
LogProps.v
LogInv.v
Mutex.v
LogThreads.v
LogThreadsProps.v
LogArrival.v
ExampleLogging.v
ExampleThread.v
Thread.v
Util.v
