(* ===== verification/Prelude.v ===== *)
(** * EVA01: a verified model of the fiber, scheduling, I/O and logging library

    EVA01 (C++, src/src/) runs client functions as fibers on a pool of worker
    threads.  This development models all of its components and proves what
    makes each of them correct; where the code does not do what it means to, the
    theorem states what it does.

    ** The program and its files

    - Timer.v ([TimerManager], timer.h/.cpp).  Timers are objects behind shared
      pointers ([timer_heap]); the [std::set] ordered by [cmp] is a list of
      pointers, searched and changed the way the tree is, through the current
      deadlines.  [deadlines] is the abstract view: a map from armed timers to
      deadlines.  TimerSpec.v is the service a client sees, as a step relation
      over operations and results, and its refinement.
    - Fiber.v ([Fiber], fiber.h/.cpp).  Fibers, the per-thread [t_fiber] and
      [t_main_fiber], and contexts as saved resume points; [swapcontext] is
      explicit, and a ghost field [running] says which stack really executes.
    - Scheduler.v and SchedulerThreads.v ([Scheduler], scheduler.h/.cpp).  The
      object with its operations under [m_mutex]; then [run] and [idle] cut at
      every critical section and atomic operation, for any number of workers,
      with client code, outside threads and the kernel as labels of [exec].
      SchedulerProps.v has its safety, SchedulerLive.v its progress.
    - Posix.v: what the library uses of the kernel and the C library, as classes
      of operations ([FileOps], [EpollOps], [LibcOps]) with their documented laws
      ([FileLaws], [EpollLaws], [LibcLaws], [LibcEpollLaws]), and a simulated
      kernel that satisfies them.  This code is not the library's; every theorem
      about the library is proved against the classes.
    - FdManager.v ([FdCtx], [FdManager], fd_manager.h/.cpp).
    - IOManager.v, IOManagerInv.v, IOManagerProps.v ([IOManager],
      iomanager.h/.cpp): operations, invariant and specifications, theorems.
      The fd contexts are heap objects, so the copies the code makes of their
      slots are visible as copies.  IOManagerSched.v runs the IOManager and the
      workers of its scheduler as one system.
    - Hook.v, HookProps.v, HookDemo.v (hook.h/.cpp): the replaced system calls
      over one state with the descriptor table, the IOManager, its scheduler's
      timers, the fibers and the kernel.  A call is split at its [Fiber::Yield].
      HookEquiv.v has the table of original functions that [hook_init] fills and
      the threads that are not hooked; HookCompose.v follows a blocking call
      through all components, HookTime.v the calls that end by a timer, and
      HookSched.v shows every call as a task of the scheduler model.
    - Log.v, LogProps.v, LogInv.v (log.h/.cpp, singleton.h): pattern parser,
      items, appenders, loggers, the registry behind its singleton, the macros;
      their properties; the well-formedness of the object graph.
    - LogThreads.v: threads that execute logging statements, with the mutexes of
      loggers, appenders and the program as separate steps and output character
      by character; LogThreadsProps.v: it ends, without deadlock, and a common
      mutex makes blocks atomic; LogArrival.v: lines at one appender.
    - ExampleLogging.v, ExampleThread.v (src/examples/): the two programs of the
      repository and what they write.
    - Mutex.v (mutex.h), Thread.v (thread.h/.cpp, semaphore.h/.cpp), Util.v
      (util.h/.cpp).

    Code that can fail returns [res] (this file): a failed [ASSERT], undefined
    behaviour, an exception, the end of a thread; stateful code is in the monad
    [M].  Machine integers are [Z] with [u64], [u32], [i32] at every place where
    the C++ type wraps or converts.  Objects are allocated at addresses that are
    arguments of the operations, so theorems hold for every allocator that
    returns a free address.  Time is an argument [now] wherever the code reads
    the clock.

    ** What the theorems show

    - Timers: the set stays ordered under any interleaving
      ([timers_always_ordered]); [addTimer], [cancel], [refresh],
      [getExpiredFuncs] and [getNextTimeMs] refine operations on [deadlines], and
      whole histories of them are exactly those of the abstract timer service
      ([timer_service_refines]).
    - Fibers: no fiber on two threads ([fiber_runs_on_one_thread]); call and
      yield are a round trip ([call_yield_roundtrip]); nested calls and calls of
      failed fibers ([nested_call_loses_main],
      [call_of_failed_fiber_exits_thread]).
    - Scheduler: the queue is an exact FIFO ([tasks_fifo_exactly_once]), the
      counters count ([shouldStop_sound]), a closed program drains its queue
      ([stop_drains_queue]), the idle loop does not oversleep
      ([idle_never_oversleeps]), the states used by the scheduler are those of
      Fiber.v ([fiber_refines_states]); [stop] ends in a bounded number of steps
      whatever the schedule ([stop_terminates]), a waiting worker starts the next
      task in a bounded number of its own steps ([waiting_worker_runs_task]); and
      its defects
      ([pinned_task_blocks_forever], [finished_fiber_task_blocks_stop],
      [stop_race_loses_timer], [wakeup_can_be_lost],
      [wake_before_yield_aborts]).
    - Descriptors: [get] and [del] refine a partial map
      ([fd_manager_refines_map], [fd_table_invariant],
      [get_makes_socket_nonblocking]); [concurrent_get_loses_context] and
      [negative_fd_undefined] are the limits.
    - Events: interest list and counter follow the contexts
      ([interest_and_count_follow_events]); every operation is specified on
      every branch ([addEvent_registers], [del_and_cancel_refine],
      [cancelAll_refines], [scheduleEvent_refines]); their effect on a scheduler
      is a sequence of labels of the scheduler model ([iomanager_simulated]), so
      that in the joint system workers do not stop while an event is registered
      ([scheduler_waits_for_events]); [event_registers_once],
      [concurrent_resize_drops_event], [uninitialised_events_abort] and
      [event_without_scheduler_crashes] are its defects.
    - Hooked calls: pass-through, suspension, wake-up, timeout and EINTR of
      [do_io] (the [do_io_] theorems), the sleep family, [fcntl] as a round trip,
      [setsockopt], [ioctl] and [close]; a blocking call end to end, through
      IOManager, scheduler queue and fiber switch ([blocked_call_completes]), the
      same for a call that times out ([timed_out_call_returns]) and for the sleep
      family ([sleeping_fiber_wakes]), through the expiry pass of the idle loop
      ([idle_expire], the two labels of the scheduler model); what any of the
      calls and closures does to the scheduler is a sequence of labels of the
      worker it runs on, so the scheduler's theorems hold of programs that block
      in them ([hooked_calls_simulated]); what the functions are on a thread that is not hooked ([unhooked_is_libc],
      [unhooked_accept_makes_nonblocking]).
    - Logging: the pattern parser inverts printing ([pattern_roundtrip]) and what
      it does with malformed patterns; delivery to appenders
      ([event_reaches_its_appenders]); the registry ([getLogger_is_stable]); no
      operation leaves a dangling pointer ([logging_well_formed]).
    - Threads that log: every interleaving ends and none deadlocks
      ([logging_threads_finish]); whole lines in each thread's order at an
      appender of its own destination ([lines_arrive_whole]), but not on the
      [std::cout] that two loggers share ([cout_lines_mix]); under one mutex of
      the program the outcome is that of a sequential run
      ([guarded_logging_serialises]); so the outputs of the examples are known
      ([logging_example_output], [thread_example_output]).
    - Locks and threads: mutual exclusion of guarded blocks
      ([guarded_blocks_exclude]), readers and writers under the guards of the
      read-write lock ([rw_guards_exclude]), the constructor handshake
      ([thread_handshake]) and its limit ([detached_thread_uses_freed_object]).

    ** Bounds and fuel

    Few definitions take fuel.  [initItems_loop] gets the length of the pattern
    plus one, and [pattern_roundtrip] proves that this always suffices.  The
    EINTR loop of [do_io] has no bound in the code either;
    [do_io_repeats_interrupted] proves that fuel above the number of
    interruptions suffices, and running out is an outcome of its own ([IoFuel]).
    [Backtrace_loop] gets the number of symbols, and the loops of the example
    programs get one more than their rounds.  Descriptors are below 2^30
    ([fd_ok]), so that [fd * 1.5] fits an [int]; the limits of real systems are
    far below.

    ** Not modelled

    [dlsym] (a parameter of [hook_init]), [NonCopyable] (deletes the copy
    operations), the contents of fiber stacks, weak memory and the lifetime of
    reference counts except where a theorem is about it ([timer_info], [Thread]),
    log output of the library itself, and the tests.  Loggers are not
    reconfigured while the threads of LogThreads.v run, and [files] holds what was
    given to the file streams, which write it out at each [std::endl] (the end of
    every line of the default pattern).  The model of the threads is sequentially consistent at the
    granularity of locked blocks and atomics; unlocked reads that race (the check
    in [addEvent]) are steps of their own.  Which worker moves next is left open
    and no fairness is assumed: [stop_terminates] holds for every schedule, and
    [waiting_worker_runs_task] counts the steps of the one worker.

    This file: outcomes, the monad, record update, machine integers, closures,
    reachability and the lemmas the components share. *)

From Stdlib Require Export ZArith Lia Sorted.
From stdpp Require Export base strings numbers gmap sorting list.

#[global] Open Scope Z_scope.

(** ** Outcomes of a piece of C++ code

    A call either returns normally, or the process stops being described by
    the source: a failed [ASSERT] (which ends in [assert] and [abort]), an
    operation the C++ standard leaves undefined, an exception that leaves the
    function, or [std::terminate] / thread exit.  The string names the site. *)
Inductive res (A : Type) : Type :=
| Ok (a : A)
| AssertFailed (site : string)
| Undefined (site : string)
| Thrown (what : string)
| Terminated (site : string).
Arguments Ok {A} a.
Arguments AssertFailed {A} site.
Arguments Undefined {A} site.
Arguments Thrown {A} what.
Arguments Terminated {A} site.

(** Stateful code: explicit state passing with the outcomes above. *)
Definition M (S A : Type) : Type := S -> res (A * S).

Definition mret_M {S A} (a : A) : M S A := fun s => Ok (a, s).

Definition mbind_M {S A B} (k : A -> M S B) (m : M S A) : M S B :=
  fun s => match m s with
           | Ok (a, s') => k a s'
           | AssertFailed w => AssertFailed w
           | Undefined w => Undefined w
           | Thrown w => Thrown w
           | Terminated w => Terminated w
           end.

(** [ASSERT(x)] of src/src/macro.h: log, then [assert(x)].  The build of
    CMakeLists.txt does not define NDEBUG, so a false argument aborts. *)
Definition ASSERT {S} (site : string) (b : bool) : M S unit :=
  fun s => if b then Ok (tt, s) else AssertFailed site.

Definition mget {S} : M S S := fun s => Ok (s, s).

Definition mput {S} (s' : S) : M S unit := fun _ => Ok (tt, s').

Definition mmodify {S} (f : S -> S) : M S unit := fun s => Ok (tt, f s).

Definition mgets {S A} (f : S -> A) : M S A := fun s => Ok (f s, s).

Definition mfail {S A} (r : res (A * S)) : M S A := fun _ => r.

(** Reading through a pointer that may be null or dangling. *)
Definition mderef {S A} (site : string) (o : S -> option A) : M S A :=
  fun s => match o s with Some a => Ok (a, s) | None => Undefined site end.

(** Running code of a base-class or member object inside its owner. *)
Definition mzoom {S T A} (get : S -> T) (put : T -> S -> S) (m : M T A) : M S A :=
  fun s => match m (get s) with
           | Ok (a, t') => Ok (a, put t' s)
           | AssertFailed w => AssertFailed w
           | Undefined w => Undefined w
           | Thrown w => Thrown w
           | Terminated w => Terminated w
           end.

Declare Scope cpp_scope.
Delimit Scope cpp_scope with cpp.
Notation "'let!' x ':=' m 'in' k" := (mbind_M (fun x => k) m)
  (at level 10, x name, m at level 100, k at level 200) : cpp_scope.
Notation "m ';;;' k" := (mbind_M (fun _ => k) m)
  (at level 100, k at level 200, right associativity) : cpp_scope.
#[global] Open Scope cpp_scope.

(** ** Record update

    [r <| f := v |>] rebuilds the record [r] with field [f] replaced; a
    record type declares its eta-expansion once ([Eta]) and the setters are
    derived from it on demand. *)
Class Eta (R : Type) := eta_rec : R -> R.
Class Setter {R T : Type} (p : R -> T) := upd_field : (T -> T) -> R -> R.
Arguments upd_field {R T} p {_} _ _ /.

Ltac derive_setter :=
  match goal with
  | |- @Setter ?R ?T ?p =>
      let e := constr:(_ : Eta R) in
      let e := eval unfold eta_rec in (@eta_rec R e) in
      let e := eval red in e in
      exact (fun (g : T -> T) (r : R) =>
        ltac:(let b := eval cbv beta in (e r) in
              match eval pattern (p r) in b with
              | ?c _ => let b' := eval cbv beta in (c (g (p r))) in exact b'
              end))
  end.
#[global] Hint Extern 1 (@Setter _ _ _) => derive_setter : typeclass_instances.

#[warnings="-postfix-notation-not-level-1"]
Notation "r '<|' f ':=' v '|>'" := (upd_field f (fun _ => v) r)
  (at level 12, left associativity, f at level 11, v at level 200,
   format "r  '<|'  f  ':='  v  '|>'") : cpp_scope.

(** ** Machine integers *)

(** Unsigned arithmetic wraps around; conversions to a signed type are modulo
    the width (two's complement, the behaviour of the compilers the build
    supports). *)
Definition u64 (z : Z) : Z := Z.modulo z (2 ^ 64).
Definition u32 (z : Z) : Z := Z.modulo z (2 ^ 32).
Definition i32 (z : Z) : Z :=
  let m := Z.modulo z (2 ^ 32) in if m <? 2 ^ 31 then m else m - 2 ^ 32.

Definition is_u64 (z : Z) : Prop := 0 <= z < 2 ^ 64.
Definition is_u32 (z : Z) : Prop := 0 <= z < 2 ^ 32.

(** [~0ull] *)
Definition u64_max : Z := 2 ^ 64 - 1.

(** [(size_t)(fd * 1.5)] for a non-negative [int] (exact in a double). *)
Definition times_1_5 (fd : Z) : Z := Z.div (fd * 3) 2.

(** A C [int] used as a condition. *)
Definition truthy (z : Z) : bool := negb (z =? 0).

(** ** Closures

    [std::function<void()>] values, defunctionalised: what the library itself
    binds is spelled out, what the client passes is an opaque identifier. *)
Definition ptr := nat.

Inductive closure : Type :=
| User (id : nat)                          (* a function of the client *)
| OnTimerBind (weak_cond : ptr) (cb : closure) (* std::bind(&OnTimer, weak_cond, cb), timer.cpp *)
| ScheduleFiber (fiber : ptr)              (* iom->schedule(fiber), hook.cpp sleep family *)
| OnTimeout (winfo : ptr) (fd event : Z)   (* the timeout lambda of do_io and connect_with_timeout *)
| IdleLoop.                                (* std::bind(&Scheduler::idle, this) *)

#[export] Instance closure_eq_dec : EqDecision closure.
Proof. solve_decision. Defined.

(** ** Shared automation *)

Create HintDb eva discriminated.

(** Case analysis on the scrutinee of a match or an [if] in the goal or in a
    hypothesis, keeping the equation. *)
Ltac case_on :=
  match goal with
  | |- context [match ?x with _ => _ end] => destruct x eqn:?
  | H : context [match ?x with _ => _ end] |- _ => destruct x eqn:?
  end.

(** Unfold the monad so that definitions compute. *)
Ltac munfold :=
  unfold mbind_M, mret_M, mget, mput, mmodify, mgets, mfail, mderef, mzoom, ASSERT in *.

(** ** Reachability *)
Section Star.
Context {A : Type} (R : A -> A -> Prop).

Inductive star : A -> A -> Prop :=
| star_refl a : star a a
| star_step a b c : R a b -> star b c -> star a c.

(** An inductive invariant holds in every reachable state. *)
Lemma star_invariant (P : A -> Prop) :
  (forall a b, P a -> R a b -> P b) ->
  forall a b, star a b -> P a -> P b.
Proof. intros HR a b H; induction H; eauto. Qed.

Lemma star_trans a b c : star a b -> star b c -> star a c.
Proof. induction 1; eauto using star. Qed.

Lemma star_one a b : R a b -> star a b.
Proof. eauto using star. Qed.
End Star.

(** ** Generic lemmas *)

(** Sums over the values of a map. *)
Section MapTotal.
Context {K V : Type} `{Countable K}.
Implicit Type m : gmap K V.

Definition map_total (f : V -> nat) m : nat := map_fold (fun _ x n => f x + n)%nat 0%nat m.

Lemma map_total_insert_None f m i x : m !! i = None -> map_total f (<[i := x]> m) = (f x + map_total f m)%nat.
Proof. intros. unfold map_total. rewrite map_fold_insert_L; [done|intros; lia|done]. Qed.

Lemma map_total_update f m i x x' :
  m !! i = Some x -> (f x + map_total f (<[i := x']> m) = f x' + map_total f m)%nat.
Proof.
  intros Hi. rewrite <- (insert_delete_id m i x Hi) at 2. rewrite <- (insert_delete_eq m i x').
  rewrite !map_total_insert_None by apply lookup_delete_eq. lia.
Qed.

Lemma map_total_ext f f' m : (forall i x, m !! i = Some x -> f x = f' x) -> map_total f m = map_total f' m.
Proof.
  induction m as [|i x m Hi IH] using map_ind; [done|]. intros Hf. rewrite !map_total_insert_None by done.
  rewrite (Hf i x), IH; [done| |apply lookup_insert_eq].
  intros j y Hj. apply (Hf j). rewrite lookup_insert_ne; [done|congruence].
Qed.
End MapTotal.

Lemma u64_small z : is_u64 z -> u64 z = z.
Proof. unfold is_u64, u64. intros. apply Z.mod_small. lia. Qed.

Lemma u64_range z : is_u64 (u64 z).
Proof. unfold is_u64, u64. apply Z.mod_pos_bound. lia. Qed.

Lemma u64_add_l a b : u64 (u64 a + b) = u64 (a + b).
Proof. unfold u64. apply Zplus_mod_idemp_l. Qed.

Lemma u64_sub_l a b : u64 (u64 a - b) = u64 (a - b).
Proof. unfold u64. apply Zminus_mod_idemp_l. Qed.

Lemma u32_small z : is_u32 z -> u32 z = z.
Proof. unfold is_u32, u32. intros. apply Z.mod_small. lia. Qed.

Lemma u32_range z : is_u32 (u32 z).
Proof. unfold is_u32, u32. apply Z.mod_pos_bound. lia. Qed.

Lemma times_1_5_gt fd : 2 <= fd -> fd < times_1_5 fd.
Proof. unfold times_1_5. intros. pose proof (Z.div_le_lower_bound (fd * 3) 2 (fd + 1)). lia. Qed.

#[export] Hint Resolve u64_range u32_range times_1_5_gt : eva.

