(* ===== verification/Timer.v ===== *)
(** * TimerManager (src/src/timer.h, src/src/timer.cpp)

    Timer objects live on a heap and are shared; the manager keeps an ordered
    set of pointers to them whose order is read {e through} the pointers.  The
    set is the list of its elements in iteration order, and insertion and
    erasure search it with [cmp] exactly as [std::set] does.  Every operation
    is one definition per critical section of [m_mutex]; [refresh] and
    [getExpiredFuncs], which take the lock twice, are given both as their two
    sections and as the composition. *)

From S2P Require Import Prelude.

(** ** Data *)

(** [TimerManager::Timer]; [m_manager] is the manager the heap belongs to. *)
Record Timer := mkTimer {
  m_period : Z;       (* uint64_t, in ms *)
  m_next : Z;         (* uint64_t, in ms *)
  m_func : closure;
  m_recurring : bool;
}.
#[export] Instance eta_Timer : Eta Timer :=
  fun t => mkTimer (m_period t) (m_next t) (m_func t) (m_recurring t).

(** The manager: the heap of its timers and [m_timers]. *)
Record TimerManager := mkTimerManager {
  timer_heap : gmap ptr Timer;
  m_timers : list ptr;
}.
#[export] Instance eta_TimerManager : Eta TimerManager :=
  fun m => mkTimerManager (timer_heap m) (m_timers m).

Definition empty_TimerManager : TimerManager := mkTimerManager ∅ [].

(** ** Order *)

Definition next_of (h : gmap ptr Timer) (p : ptr) : Z := from_option m_next 0 (h !! p).

(** [Timer::cmp::operator()] *)
Definition cmp (h : gmap ptr Timer) (a b : option ptr) : bool :=
  match a, b with
  | None, None => false
  | None, Some _ => true
  | Some _, None => false
  | Some a, Some b =>
      if next_of h a <? next_of h b then true
      else if next_of h b <? next_of h a then false
      else (a <? b)%nat
  end.

#[global] Arguments cmp : simpl never.

(** [std::set::insert] *)
Fixpoint set_insert (h : gmap ptr Timer) (x : ptr) (l : list ptr) : list ptr :=
  match l with
  | [] => [x]
  | y :: l' =>
      if cmp h (Some x) (Some y) then x :: l
      else if cmp h (Some y) (Some x) then y :: set_insert h x l'
      else l
  end.

(** [std::set::erase(key)]: the set without the element equivalent to the key
    and the number of erased elements. *)
Fixpoint set_erase (h : gmap ptr Timer) (x : ptr) (l : list ptr) : list ptr * nat :=
  match l with
  | [] => ([], 0%nat)
  | y :: l' =>
      if cmp h (Some x) (Some y) then (l, 0%nat)
      else if cmp h (Some y) (Some x)
           then let (r, n) := set_erase h x l' in (y :: r, n)
           else (l', 1%nat)
  end.

(** ** Operations *)

(** [Timer::Timer] *)
Definition new_Timer (now period : Z) (func : closure) (recurring : bool) : Timer :=
  mkTimer period (u64 (now + period)) func recurring.

(** [TimerManager::addTimer(Timer::ptr)]: the critical section, returning
    [changed] (whether the virtual [onFirstTimerChanged] is called). *)
Definition addTimer_ptr (timer : ptr) (tm : TimerManager) : bool * TimerManager :=
  let l' := set_insert (timer_heap tm) timer (m_timers tm) in
  (bool_decide (head l' = Some timer), tm <| m_timers := l' |>).

(** [TimerManager::addTimer(period, func, recurring)]; [addr] is where
    [make_shared] puts the object, [now] what [GetCurrentMs] returns. *)
Definition addTimer (addr : ptr) (now period : Z) (func : closure) (recurring : bool)
    (tm : TimerManager) : ptr * bool * TimerManager :=
  let tm1 := tm <| timer_heap := <[addr := new_Timer now period func recurring]> (timer_heap tm) |> in
  let (changed, tm2) := addTimer_ptr addr tm1 in
  (addr, changed, tm2).

(** [OnTimer]: what it calls, given which shared objects are still alive. *)
Definition OnTimer (alive : ptr -> bool) (weak_cond : ptr) (cb : closure) : option closure :=
  if alive weak_cond then Some cb else None.

(** [TimerManager::addConditionTimer] *)
Definition addConditionTimer (addr : ptr) (now ms : Z) (cb : closure) (weak_cond : ptr)
    (recurring : bool) (tm : TimerManager) : ptr * bool * TimerManager :=
  addTimer addr now ms (OnTimerBind weak_cond cb) recurring tm.

(** [Timer::cancel] *)
Definition cancel (this : ptr) (tm : TimerManager) : bool * TimerManager :=
  let (l', n) := set_erase (timer_heap tm) this (m_timers tm) in
  (bool_decide (n = 1%nat), tm <| m_timers := l' |>).

(** [Timer::refresh], first critical section. *)
Definition refresh_erase (this : ptr) (now : Z) (tm : TimerManager) : bool * TimerManager :=
  let (l', n) := set_erase (timer_heap tm) this (m_timers tm) in
  if bool_decide (n = 1%nat)
  then (true, mkTimerManager
                (alter (fun t => t <| m_next := u64 (now + m_period t) |>) this (timer_heap tm)) l')
  else (false, tm <| m_timers := l' |>).

(** [Timer::refresh]: the result and, when it re-inserts, [addTimer]'s
    [changed]. *)
Definition refresh (this : ptr) (now : Z) (tm : TimerManager) : bool * bool * TimerManager :=
  let (ok, tm1) := refresh_erase this now tm in
  if ok then let (changed, tm2) := addTimer_ptr this tm1 in (true, changed, tm2)
  else (false, false, tm1).

(** [TimerManager::getNextTimeMs] *)
Definition getNextTimeMs (now : Z) (tm : TimerManager) : Z :=
  match m_timers tm with
  | [] => u64_max
  | timer :: _ =>
      if next_of (timer_heap tm) timer >? now then next_of (timer_heap tm) timer - now else 0
  end.

(** [TimerManager::hasTimers] *)
Definition hasTimers (tm : TimerManager) : bool := negb (bool_decide (m_timers tm = [])).

(** The first loop of [getExpiredFuncs]: what stays in the set, and the expired
    timers in iteration order. *)
Fixpoint take_expired (h : gmap ptr Timer) (now : Z) (it : list ptr) : list ptr * list ptr :=
  match it with
  | [] => ([], [])
  | timer :: it' =>
      let (kept, expired) := take_expired h now it' in
      if next_of h timer <=? now then (kept, timer :: expired) else (timer :: kept, expired)
  end.

(** Its second loop: recurring timers move to their next period and go back. *)
Fixpoint reinsert (expired : list ptr) (tm : TimerManager) : TimerManager :=
  match expired with
  | [] => tm
  | timer :: rest =>
      match timer_heap tm !! timer with
      | Some t =>
          if m_recurring t then
            let h' := <[timer := t <| m_next := u64 (m_next t + m_period t) |>]> (timer_heap tm) in
            reinsert rest (mkTimerManager h' (set_insert h' timer (m_timers tm)))
          else reinsert rest tm
      | None => reinsert rest tm
      end
  end.

(** The write-locked section of [getExpiredFuncs]. *)
Definition getExpired_collect (now : Z) (funcs : list closure) (tm : TimerManager)
    : list closure * TimerManager :=
  let (kept, expired) := take_expired (timer_heap tm) now (m_timers tm) in
  (funcs ++ omap (fun p => m_func <$> timer_heap tm !! p) expired,
   reinsert expired (tm <| m_timers := kept |>)).

(** [TimerManager::getExpiredFuncs] *)
Definition getExpiredFuncs (now : Z) (funcs : list closure) (tm : TimerManager)
    : list closure * TimerManager :=
  if bool_decide (m_timers tm = []) then (funcs, tm) else getExpired_collect now funcs tm.

(** ** Specification

    What the manager promises: a finite map from armed timers to deadlines. *)

Definition deadlines (tm : TimerManager) : gmap ptr Z :=
  list_to_map ((fun p => (p, next_of (timer_heap tm) p)) <$> m_timers tm).

(** The strict order [cmp] decides, and the invariant of the ordered set. *)
Definition klt (h : gmap ptr Timer) (a b : ptr) : Prop :=
  next_of h a < next_of h b \/ (next_of h a = next_of h b /\ (a < b)%nat).

Definition timers_wf (tm : TimerManager) : Prop :=
  StronglySorted (klt (timer_heap tm)) (m_timers tm)
  /\ (forall p, p ∈ m_timers tm -> is_Some (timer_heap tm !! p)).

(** One timer's deadline after the expiry pass at [now]. *)
Definition expire_one (h : gmap ptr Timer) (now : Z) (p : ptr) (d : Z) : option Z :=
  if d <=? now then
    match h !! p with
    | Some t => if m_recurring t then Some (u64 (d + m_period t)) else None
    | None => None
    end
  else Some d.

(** The critical sections of [m_mutex], as threads interleave them. *)
Inductive timer_step : TimerManager -> TimerManager -> Prop :=
| TsNew addr now period func recurring tm :
    timer_heap tm !! addr = None ->
    timer_step tm (addTimer addr now period func recurring tm).2
| TsInsert p tm :
    is_Some (timer_heap tm !! p) -> timer_step tm (addTimer_ptr p tm).2
| TsCancel p tm : timer_step tm (cancel p tm).2
| TsRefreshErase p now tm : timer_step tm (refresh_erase p now tm).2
| TsCollect now funcs tm : timer_step tm (getExpired_collect now funcs tm).2.

(** ** The order *)

Lemma cmp_klt h a b : cmp h (Some a) (Some b) = true <-> klt h a b.
Proof.
  unfold cmp, klt. destruct (Z.ltb_spec (next_of h a) (next_of h b)); [naive_solver|].
  destruct (Z.ltb_spec (next_of h b) (next_of h a)); [naive_solver lia|].
  rewrite Nat.ltb_lt. naive_solver lia.
Qed.

Lemma cmp_not_klt h a b : cmp h (Some a) (Some b) = false <-> ~ klt h a b.
Proof. rewrite <- cmp_klt. destruct (cmp h (Some a) (Some b)); naive_solver. Qed.

#[export] Instance klt_strict h : StrictOrder (klt h).
Proof. split; unfold klt; [intros x ?|intros x y z ? ?]; lia. Qed.

Lemma klt_total h a b : klt h a b \/ a = b \/ klt h b a.
Proof. unfold klt. lia. Qed.

Lemma klt_irrefl h a : ~ klt h a a.
Proof. unfold klt. lia. Qed.

(** The three outcomes of the comparisons [std::set] makes. *)
Lemma cmp_cases h x y :
  (cmp h (Some x) (Some y) = true /\ klt h x y)
  \/ (cmp h (Some x) (Some y) = false /\ cmp h (Some y) (Some x) = true /\ klt h y x)
  \/ (cmp h (Some x) (Some y) = false /\ cmp h (Some y) (Some x) = false /\ x = y).
Proof.
  destruct (cmp h (Some x) (Some y)) eqn:E1; [left; by rewrite <- cmp_klt|].
  destruct (cmp h (Some y) (Some x)) eqn:E2; [right; left; by rewrite <- cmp_klt|].
  apply cmp_not_klt in E1, E2. destruct (klt_total h x y) as [|[|]]; naive_solver.
Qed.

Ltac cmp_case h x y :=
  destruct (cmp_cases h x y) as [[-> ?]|[(-> & -> & ?)|(-> & -> & ->)]].

(** [klt] only looks at the deadlines of the two timers. *)
Lemma klt_ext h h' a b :
  next_of h a = next_of h' a -> next_of h b = next_of h' b -> klt h a b -> klt h' a b.
Proof. unfold klt. intros -> ->. done. Qed.

(** ** The ordered set *)

Lemma elem_of_set_insert h x y l : y ∈ set_insert h x l <-> y = x \/ y ∈ l.
Proof.
  induction l as [|z l IH]; simpl; [set_solver|].
  cmp_case h x z; set_solver.
Qed.

Lemma sorted_set_insert h x l :
  StronglySorted (klt h) l -> StronglySorted (klt h) (set_insert h x l).
Proof.
  induction 1 as [|z l Hl IH Hz]; simpl; [repeat constructor|].
  cmp_case h x z; [|constructor; [done|]|by constructor].
  - constructor; [by constructor|]. constructor; [done|].
    rewrite Forall_forall in *. intros y Hy. etransitivity; [done|by apply Hz].
  - apply Forall_forall. intros y [->|?]%elem_of_set_insert; [done|].
    by eapply Forall_forall in Hz.
Qed.

Lemma sorted_NoDup h l : StronglySorted (klt h) l -> NoDup l.
Proof.
  induction 1 as [|z l _ IH Hz]; constructor; [|done].
  intros Hin. rewrite Forall_forall in Hz. by eapply klt_irrefl, Hz.
Qed.

Lemma filter_neq_id (x : ptr) (l : list ptr) : x ∉ l -> filter (fun y => y <> x) l = l.
Proof.
  induction l as [|z l IH]; intros Hx; [done|].
  rewrite filter_cons_True by set_solver. rewrite IH; set_solver.
Qed.

Lemma sorted_head_notin h x z l :
  klt h x z -> Forall (klt h z) l -> x ∉ z :: l.
Proof.
  intros Hxz Hz [->|Hin]%elem_of_cons; [by eapply klt_irrefl|].
  rewrite Forall_forall in Hz. eapply (klt_irrefl h x). etransitivity; [done|auto].
Qed.

(** On an ordered list, [erase] removes the pointer itself and nothing else. *)
Lemma set_erase_spec h x l :
  StronglySorted (klt h) l ->
  set_erase h x l = (filter (fun y => y <> x) l, if decide (x ∈ l) then 1%nat else 0%nat).
Proof.
  induction 1 as [|z l Hl IH Hz]; cbn [set_erase]; [case_decide; [set_solver|done]|].
  cmp_case h x z.
  - pose proof (sorted_head_notin _ _ _ _ H Hz).
    rewrite filter_neq_id by done. clear IH. by case_decide.
  - rewrite IH. assert (z <> x) by (intros ->; by eapply klt_irrefl).
    rewrite filter_cons_True by done. repeat case_decide; set_solver.
  - clear IH. rewrite filter_cons_False by naive_solver. case_decide; [|set_solver].
    rewrite filter_neq_id; [done|]. intros ?. rewrite Forall_forall in Hz.
    by eapply klt_irrefl, Hz.
Qed.

Lemma sorted_filter h (P : ptr -> Prop) `{!forall x, Decision (P x)} l :
  StronglySorted (klt h) l -> StronglySorted (klt h) (filter P l).
Proof.
  induction 1 as [|z l Hl IH Hz]; [constructor|].
  rewrite filter_cons. case_decide; [|done]. constructor; [done|].
  rewrite Forall_forall in *. intros y [? ?]%list_elem_of_filter. auto.
Qed.

Lemma sorted_ext h h' l :
  (forall p, p ∈ l -> next_of h p = next_of h' p) ->
  StronglySorted (klt h) l -> StronglySorted (klt h') l.
Proof.
  intros Hext; induction 1 as [|z l Hl IH Hz]; constructor; [apply IH; set_solver|].
  rewrite Forall_forall in *. intros y Hy. eapply klt_ext; [..|by apply Hz]; apply Hext; set_solver.
Qed.

(** ** Heap updates *)

Lemma next_of_insert_eq h p t : next_of (<[p := t]> h) p = m_next t.
Proof. unfold next_of. by rewrite lookup_insert_eq. Qed.

Lemma next_of_insert_ne h p q t : p <> q -> next_of (<[p := t]> h) q = next_of h q.
Proof. intros. unfold next_of. by rewrite lookup_insert_ne. Qed.

Lemma next_of_alter_ne h f p q : p <> q -> next_of (alter f p h) q = next_of h q.
Proof. intros. unfold next_of. by rewrite lookup_alter_ne. Qed.

Lemma lookup_deadlines tm p :
  deadlines tm !! p =
  if decide (p ∈ m_timers tm) then Some (next_of (timer_heap tm) p) else None.
Proof.
  unfold deadlines. induction (m_timers tm) as [|q l IH].
  { by rewrite decide_False by set_solver. }
  csimpl. destruct (decide (q = p)) as [->|Hne].
  - rewrite lookup_insert_eq. by rewrite decide_True by set_solver.
  - rewrite lookup_insert_ne by done. rewrite IH. clear IH.
    by rewrite (decide_ext (p ∈ l) (p ∈ q :: l)) by set_solver.
Qed.

Lemma deadlines_Some tm p d :
  deadlines tm !! p = Some d <-> p ∈ m_timers tm /\ next_of (timer_heap tm) p = d.
Proof. rewrite lookup_deadlines. case_decide; naive_solver. Qed.

Lemma deadlines_None tm p : deadlines tm !! p = None <-> p ∉ m_timers tm.
Proof. rewrite lookup_deadlines. case_decide; naive_solver. Qed.

(** Moving a timer that is outside the set does not disturb the set. *)
Lemma sorted_insert_heap h p t l :
  p ∉ l -> StronglySorted (klt h) l -> StronglySorted (klt (<[p := t]> h)) l.
Proof.
  intros Hp. apply sorted_ext. intros q Hq. rewrite next_of_insert_ne; [done|set_solver].
Qed.

Lemma sorted_alter_heap h p f l :
  p ∉ l -> StronglySorted (klt h) l -> StronglySorted (klt (alter f p h)) l.
Proof.
  intros Hp. apply sorted_ext. intros q Hq. rewrite next_of_alter_ne; [done|set_solver].
Qed.

#[export] Hint Resolve sorted_set_insert sorted_filter sorted_insert_heap sorted_alter_heap : eva.

(** A well-formed set is strictly ordered from its head. *)
Lemma sorted_head_least h p l q :
  StronglySorted (klt h) (p :: l) -> q ∈ l -> klt h p q.
Proof. intros [_ Hp]%StronglySorted_inv Hq. rewrite Forall_forall in Hp. auto. Qed.

Lemma head_set_insert h x l :
  StronglySorted (klt h) l ->
  head (set_insert h x l) = Some x <-> forall y, y ∈ l -> y = x \/ klt h x y.
Proof.
  intros Hl. destruct l as [|z l]; simpl; [set_solver|].
  pose proof (sorted_head_least h z l) as Hz.
  cmp_case h x z; simpl; split.
  - intros _ y [->|?]%elem_of_cons; [by right|right; etransitivity; eauto].
  - done.
  - intros [= ->]. by apply klt_irrefl in H.
  - intros Hy. destruct (Hy z) as [->|?]; [set_solver|done|].
    exfalso. eapply (klt_irrefl h z). by etransitivity.
  - intros _ y [->|?]%elem_of_cons; [by left|right; eauto].
  - done.
Qed.

(** ** Operations against the specification *)

Lemma addTimer_ptr_wf p tm :
  timers_wf tm -> is_Some (timer_heap tm !! p) -> timers_wf (addTimer_ptr p tm).2.
Proof.
  intros [Hs Hh] Hp. split; simpl; [by apply sorted_set_insert|].
  intros q [->|?]%elem_of_set_insert; auto.
Qed.

Lemma addTimer_ptr_deadlines p tm :
  deadlines (addTimer_ptr p tm).2 = <[p := next_of (timer_heap tm) p]> (deadlines tm).
Proof.
  apply map_eq. intros q. rewrite lookup_deadlines; simpl.
  destruct (decide (p = q)) as [->|Hne].
  - rewrite lookup_insert_eq. rewrite decide_True; [done|]. rewrite elem_of_set_insert. auto.
  - rewrite lookup_insert_ne, lookup_deadlines by done. repeat case_decide; try done;
      rewrite elem_of_set_insert in *; naive_solver.
Qed.

Lemma wf_new_timer addr t tm :
  timers_wf tm -> timer_heap tm !! addr = None ->
  timers_wf (tm <| timer_heap := <[addr := t]> (timer_heap tm) |>)
  /\ deadlines (tm <| timer_heap := <[addr := t]> (timer_heap tm) |>) = deadlines tm.
Proof.
  intros [Hs Hh] Ha.
  assert (addr ∉ m_timers tm) by (intros Hin; apply Hh in Hin as [? ?]; congruence).
  split; [split; simpl|]; [by apply sorted_insert_heap| |].
  - intros p Hp. destruct (decide (addr = p)) as [->|]; simplify_map_eq; eauto.
  - apply map_eq. intros p. rewrite !lookup_deadlines; simpl. case_decide; [|done].
    rewrite next_of_insert_ne by set_solver. done.
Qed.

Lemma cancel_eq this tm :
  timers_wf tm ->
  cancel this tm = (bool_decide (this ∈ m_timers tm),
                    tm <| m_timers := filter (fun y => y <> this) (m_timers tm) |>).
Proof.
  intros [Hs _]. unfold cancel. rewrite set_erase_spec by done.
  f_equal. case_decide; by repeat case_bool_decide.
Qed.

Lemma filter_timers_wf this tm :
  timers_wf tm -> timers_wf (tm <| m_timers := filter (fun y => y <> this) (m_timers tm) |>).
Proof.
  intros [Hs Hh]. split; simpl; [by apply sorted_filter|].
  intros p [_ ?]%list_elem_of_filter; auto.
Qed.

Lemma filter_timers_deadlines this tm :
  deadlines (tm <| m_timers := filter (fun y => y <> this) (m_timers tm) |>)
  = delete this (deadlines tm).
Proof.
  apply map_eq. intros p. rewrite lookup_delete, !lookup_deadlines; simpl.
  repeat case_decide; try done; rewrite list_elem_of_filter in *; naive_solver.
Qed.

Lemma refresh_erase_eq this now tm :
  timers_wf tm ->
  refresh_erase this now tm =
  (bool_decide (this ∈ m_timers tm),
   if decide (this ∈ m_timers tm)
   then mkTimerManager (alter (fun t => t <| m_next := u64 (now + m_period t) |>) this (timer_heap tm))
                       (filter (fun y => y <> this) (m_timers tm))
   else tm).
Proof.
  intros [Hs _]. unfold refresh_erase. rewrite set_erase_spec by done.
  destruct (decide (this ∈ m_timers tm)).
  - rewrite bool_decide_true by done. by rewrite bool_decide_true.
  - rewrite bool_decide_false by done. rewrite bool_decide_false by done.
    rewrite filter_neq_id by done. by destruct tm.
Qed.

Lemma refresh_erase_wf this now tm : timers_wf tm -> timers_wf (refresh_erase this now tm).2.
Proof.
  intros Hwf. rewrite refresh_erase_eq by done. destruct Hwf as [Hs Hh]. simpl.
  case_decide; [|done]. split; simpl.
  - apply sorted_alter_heap; [|by apply sorted_filter].
    intros [? _]%list_elem_of_filter. done.
  - intros p [? Hp]%list_elem_of_filter. rewrite lookup_alter_ne by done. auto.
Qed.

Lemma take_expired_eq h now l :
  take_expired h now l =
  (filter (fun p => now < next_of h p) l, filter (fun p => next_of h p <= now) l).
Proof.
  induction l as [|p l IH]; [done|]. cbn [take_expired]. rewrite IH. clear IH.
  rewrite !filter_cons. destruct (Z.leb_spec (next_of h p) now); repeat case_decide; done || lia.
Qed.

(** The re-insertion loop on timers outside the set. *)
Lemma reinsert_spec expired tm :
  timers_wf tm -> NoDup expired ->
  (forall p, p ∈ expired -> p ∉ m_timers tm /\ is_Some (timer_heap tm !! p)) ->
  timers_wf (reinsert expired tm)
  /\ (forall p, p ∉ expired -> deadlines (reinsert expired tm) !! p = deadlines tm !! p)
  /\ (forall p t, p ∈ expired -> timer_heap tm !! p = Some t ->
        deadlines (reinsert expired tm) !! p
        = if m_recurring t then Some (u64 (m_next t + m_period t)) else None).
Proof.
  revert tm. induction expired as [|x l IH]; intros tm Hwf Hnd Hout; [set_solver|].
  apply NoDup_cons in Hnd as [Hx Hnd].
  destruct (Hout x) as [Hxout [t Ht]]; [set_solver|]. cbn [reinsert]. rewrite Ht.
  destruct (m_recurring t) eqn:Hrec.
  - set (t' := t <| m_next := _ |>). set (h' := <[x := t']> (timer_heap tm)).
    set (tm' := mkTimerManager h' _).
    assert (timers_wf tm') as Hwf'.
    { destruct Hwf as [Hs Hh]. split; simpl.
      - by apply sorted_set_insert, sorted_insert_heap.
      - intros q [->|Hq]%elem_of_set_insert; [unfold h'; rewrite lookup_insert_eq; eauto|].
        unfold h'. rewrite lookup_insert_ne by set_solver. auto. }
    assert (forall q, q <> x -> deadlines tm' !! q = deadlines tm !! q) as Hother.
    { intros q Hq. rewrite !lookup_deadlines; simpl. unfold h'.
      rewrite next_of_insert_ne by done.
      repeat case_decide; try done; rewrite elem_of_set_insert in *; naive_solver. }
    destruct (IH tm') as (? & Hk & He); [done|done| |].
    { intros q Hq. destruct (Hout q) as [? ?]; [set_solver|]. assert (q <> x) by set_solver.
      simpl. rewrite elem_of_set_insert. unfold h'. rewrite lookup_insert_ne by done. naive_solver. }
    split; [done|]. split.
    + intros p Hp. rewrite Hk by set_solver. apply Hother. set_solver.
    + intros p t0 [->|Hp]%elem_of_cons Ht0.
      * rewrite Hk by done. simplify_eq. rewrite Hrec. apply deadlines_Some. simpl.
        rewrite elem_of_set_insert. unfold h'. rewrite next_of_insert_eq. auto.
      * apply He; [done|]. simpl. unfold h'. rewrite lookup_insert_ne; [done|set_solver].
  - destruct (IH tm) as (? & Hk & He); [done|done|set_solver|]. split; [done|]. split.
    + intros p Hp. apply Hk. set_solver.
    + intros p t0 [->|Hp]%elem_of_cons Ht0; [|by apply He].
      simplify_eq. rewrite Hrec, Hk by done. by apply deadlines_None.
Qed.

(** Timers that do not expire are not touched. *)
Lemma reinsert_heap expired tm p :
  p ∉ expired -> timer_heap (reinsert expired tm) !! p = timer_heap tm !! p.
Proof.
  revert tm. induction expired as [|x l IH]; intros tm Hp; cbn [reinsert]; [done|].
  apply not_elem_of_cons in Hp as [Hx Hp]. destruct (timer_heap tm !! x) as [t|]; [|by apply IH].
  destruct (m_recurring t); [|by apply IH]. rewrite IH by done. cbn. by rewrite lookup_insert_ne.
Qed.

Lemma getExpiredFuncs_heap now funcs tm p :
  now < next_of (timer_heap tm) p -> timer_heap (getExpiredFuncs now funcs tm).2 !! p = timer_heap tm !! p.
Proof.
  intros Hp. unfold getExpiredFuncs, getExpired_collect. case_bool_decide; [done|]. rewrite take_expired_eq. cbn [snd].
  rewrite reinsert_heap; [done|]. rewrite list_elem_of_filter. lia.
Qed.

Lemma getExpired_collect_spec now funcs tm :
  timers_wf tm ->
  timers_wf (getExpired_collect now funcs tm).2
  /\ (getExpired_collect now funcs tm).1
     = funcs ++ omap (fun p => m_func <$> timer_heap tm !! p)
                     (filter (fun p => next_of (timer_heap tm) p <= now) (m_timers tm))
  /\ (forall p, deadlines (getExpired_collect now funcs tm).2 !! p
                = deadlines tm !! p ≫= expire_one (timer_heap tm) now p).
Proof.
  intros Hwf. unfold getExpired_collect. rewrite take_expired_eq; simpl.
  set (tm1 := mkTimerManager _ _).
  set (ex := filter (fun p => next_of (timer_heap tm) p <= now) (m_timers tm)).
  pose proof Hwf as [Hs Hh].
  destruct (reinsert_spec ex tm1) as (Hwf' & Hk & He).
  - split; simpl; [by apply sorted_filter|]. intros p [_ ?]%list_elem_of_filter; auto.
  - by eapply NoDup_filter, sorted_NoDup.
  - intros p [? ?]%list_elem_of_filter. simpl. split; [|auto].
    intros [? _]%list_elem_of_filter. lia.
  - split; [done|]. split; [done|]. intros p. rewrite (lookup_deadlines tm).
    case_decide as Hin; simpl.
    + destruct (Hh p Hin) as [t Ht]. unfold expire_one. rewrite Ht.
      assert (next_of (timer_heap tm) p = m_next t) as Hn by (unfold next_of; by rewrite Ht).
      destruct (Z.leb_spec (next_of (timer_heap tm) p) now).
      * rewrite (He p t); [by rewrite Hn|by apply list_elem_of_filter|done].
      * rewrite Hk; [|intros [? _]%list_elem_of_filter; lia].
        apply deadlines_Some. split; [by apply list_elem_of_filter|done].
    + rewrite Hk; [|by intros [_ ?]%list_elem_of_filter].
      apply deadlines_None. simpl. by intros [_ ?]%list_elem_of_filter.
Qed.

Lemma addTimer_wf addr now period func recurring tm :
  timers_wf tm -> timer_heap tm !! addr = None ->
  timers_wf (addTimer addr now period func recurring tm).2.
Proof.
  intros Hwf Ha. destruct (wf_new_timer addr (new_Timer now period func recurring) tm Hwf Ha) as [Hwf1 _].
  unfold addTimer. apply (addTimer_ptr_wf addr) in Hwf1; [exact Hwf1|].
  simpl. rewrite lookup_insert_eq. eauto.
Qed.

Lemma addTimer_deadlines addr now period func recurring tm :
  timers_wf tm -> timer_heap tm !! addr = None ->
  deadlines (addTimer addr now period func recurring tm).2 = <[addr := u64 (now + period)]> (deadlines tm).
Proof.
  intros Hwf Ha. set (t := new_Timer now period func recurring).
  destruct (wf_new_timer addr t tm Hwf Ha) as [Hwf1 Hd1].
  pose proof (addTimer_ptr_deadlines addr (tm <| timer_heap := <[addr := t]> (timer_heap tm) |>)) as Hd2.
  rewrite Hd1 in Hd2. cbn [timer_heap upd_field] in Hd2. rewrite next_of_insert_eq in Hd2. exact Hd2.
Qed.

Lemma timer_step_wf tm tm' : timers_wf tm -> timer_step tm tm' -> timers_wf tm'.
Proof.
  intros Hwf Hst; revert Hwf;
    destruct Hst as [addr now period func recurring tm Ha|p tm Hp|p tm|p now tm|now funcs tm]; intros Hwf.
  - by apply addTimer_wf.
  - by apply addTimer_ptr_wf.
  - rewrite cancel_eq by done. by apply filter_timers_wf.
  - by apply refresh_erase_wf.
  - by apply getExpired_collect_spec.
Qed.

(** ** Properties *)

(** C16: whatever the interleaving of the manager's critical sections by any
    number of threads (new timers, the late re-insertion of [refresh],
    cancellations, expiry passes), the set stays strictly ordered by
    (deadline, address) and points to live timers only, although deadlines are
    mutated through shared pointers. *)
Theorem timers_always_ordered tm :
  star timer_step empty_TimerManager tm -> timers_wf tm.
Proof.
  intros H. eapply star_invariant; [apply timer_step_wf|exact H|].
  split; [constructor|set_solver].
Qed.

Definition demo_timers : TimerManager :=
  (addTimer 2%nat 1000 50 (User 2) true
    (addTimer 1%nat 1000 100 (User 1) false empty_TimerManager).2).2.

Lemma demo_timers_reachable : star timer_step empty_TimerManager demo_timers.
Proof.
  eapply star_step; [apply (TsNew 1%nat 1000 100 (User 1) false); reflexivity|].
  eapply star_step; [apply (TsNew 2%nat 1000 50 (User 2) true); reflexivity|apply star_refl].
Qed.

Lemma timers_always_ordered_witness : timers_wf demo_timers.
Proof. apply timers_always_ordered. apply demo_timers_reachable. Defined.

Lemma demo_timers_wf : timers_wf demo_timers.
Proof. eapply star_invariant; [apply timer_step_wf|apply demo_timers_reachable|]. split; [constructor|set_solver]. Qed.

(** [addTimer] arms the new timer at [now + period] (modulo 2^64) and no
    other, keeps the order invariant, returns the new timer, and calls
    [onFirstTimerChanged] exactly when the new timer became the first to
    expire. *)
Theorem addTimer_refines addr now period func recurring tm :
  timers_wf tm -> timer_heap tm !! addr = None ->
  let '(timer, changed, tm') := addTimer addr now period func recurring tm in
  timer = addr
  /\ timers_wf tm'
  /\ deadlines tm' = <[addr := u64 (now + period)]> (deadlines tm)
  /\ (changed = true <->
      forall q d, deadlines tm !! q = Some d ->
        u64 (now + period) < d \/ (u64 (now + period) = d /\ (addr < q)%nat)).
Proof.
  intros Hwf Ha. set (t := new_Timer now period func recurring).
  destruct (wf_new_timer addr t tm Hwf Ha) as [Hwf1 Hd1].
  pose proof (addTimer_wf addr now period func recurring tm Hwf Ha) as Hwf2.
  assert (addr ∉ m_timers tm) as Hout by (intros Hin; apply Hwf in Hin as [? ?]; congruence).
  split; [done|]. split; [exact Hwf2|]. split.
  { exact (addTimer_deadlines addr now period func recurring tm Hwf Ha). }
  cbn [timer_heap m_timers upd_field]. fold t.
  rewrite bool_decide_eq_true, head_set_insert by apply Hwf1.
  split.
  - intros Hall q d [Hq <-]%deadlines_Some. destruct (Hall q Hq) as [->|Hk]; [done|].
    unfold klt in Hk. rewrite next_of_insert_eq, next_of_insert_ne in Hk by set_solver. exact Hk.
  - intros Hall q Hq. right. unfold klt.
    rewrite next_of_insert_eq, next_of_insert_ne by set_solver.
    apply (Hall q). by apply deadlines_Some.
Qed.

Lemma addTimer_refines_witness :
  let '(timer, changed, tm') := addTimer 3%nat 1000 10 (User 3) false demo_timers in
  timer = 3%nat /\ timers_wf tm'
  /\ deadlines tm' = <[3%nat := u64 (1000 + 10)]> (deadlines demo_timers)
  /\ (changed = true <->
      forall q d, deadlines demo_timers !! q = Some d ->
        u64 (1000 + 10) < d \/ (u64 (1000 + 10) = d /\ (3 < q)%nat)).
Proof. apply (addTimer_refines 3%nat 1000 10 (User 3) false demo_timers); [apply demo_timers_wf|reflexivity]. Defined.

(** [Timer::cancel] returns true exactly for an armed timer, disarms it and
    only it, and leaves the timer objects untouched. *)
Theorem cancel_refines this tm :
  timers_wf tm ->
  let (ok, tm') := cancel this tm in
  (ok = true <-> is_Some (deadlines tm !! this))
  /\ deadlines tm' = delete this (deadlines tm)
  /\ timers_wf tm' /\ timer_heap tm' = timer_heap tm.
Proof.
  intros Hwf. rewrite cancel_eq by done.
  rewrite bool_decide_eq_true, filter_timers_deadlines. repeat split; try by apply filter_timers_wf.
  - intros Hin. exists (next_of (timer_heap tm) this). by apply deadlines_Some.
  - by intros [d [? _]%deadlines_Some].
Qed.

Lemma cancel_refines_witness :
  let (ok, tm') := cancel 2%nat demo_timers in
  (ok = true <-> is_Some (deadlines demo_timers !! 2%nat))
  /\ deadlines tm' = delete 2%nat (deadlines demo_timers)
  /\ timers_wf tm' /\ timer_heap tm' = timer_heap demo_timers.
Proof. apply (cancel_refines 2%nat demo_timers). apply demo_timers_wf. Defined.

(** [Timer::refresh] returns true exactly for an armed timer, which it
    re-arms one period after [now]; every other deadline is unchanged and a
    disarmed timer stays disarmed. *)
Theorem refresh_refines this now tm t :
  timers_wf tm -> timer_heap tm !! this = Some t ->
  let '(ok, _, tm') := refresh this now tm in
  (ok = true <-> is_Some (deadlines tm !! this))
  /\ timers_wf tm'
  /\ deadlines tm' = (if ok then <[this := u64 (now + m_period t)]> (deadlines tm) else deadlines tm).
Proof.
  intros Hwf Ht. unfold refresh. pose proof (refresh_erase_wf this now tm Hwf) as Hwf1.
  rewrite refresh_erase_eq in Hwf1 |- * by done. destruct (decide (this ∈ m_timers tm)) as [Hin|Hin].
  - rewrite bool_decide_true in Hwf1 |- * by done. simpl in Hwf1.
    set (tm1 := mkTimerManager _ _) in *.
    assert (timer_heap tm1 !! this = Some (t <| m_next := u64 (now + m_period t) |>)) as Hl
      by (simpl; rewrite lookup_alter_eq, Ht; done).
    pose proof (addTimer_ptr_deadlines this tm1) as Hd.
    pose proof (addTimer_ptr_wf this tm1 Hwf1 (mk_is_Some _ _ Hl)) as Hwf2.
    destruct (addTimer_ptr this tm1) as [changed tm2]. simpl in Hd, Hwf2.
    split; [split; [|done]; intros _; exists (next_of (timer_heap tm) this); by apply deadlines_Some|].
    split; [done|]. rewrite Hd. unfold next_of at 1. simpl in Hl. rewrite Hl. simpl.
    apply map_eq. intros q. destruct (decide (this = q)) as [->|Hne]; [by rewrite !lookup_insert_eq|].
    rewrite !lookup_insert_ne by done. rewrite !lookup_deadlines. simpl.
    rewrite next_of_alter_ne by done.
    repeat case_decide; try done; rewrite list_elem_of_filter in *; naive_solver.
  - rewrite bool_decide_false by done. split; [|done]. split; [done|].
    by intros [d [? _]%deadlines_Some].
Qed.

Lemma refresh_refines_witness :
  let '(ok, _, tm') := refresh 2%nat 1020 demo_timers in
  (ok = true <-> is_Some (deadlines demo_timers !! 2%nat))
  /\ timers_wf tm'
  /\ deadlines tm' = (if ok then <[2%nat := u64 (1020 + 50)]> (deadlines demo_timers) else deadlines demo_timers).
Proof.
  apply (refresh_refines 2%nat 1020 demo_timers (mkTimer 50 1050 (User 2) true));
    [apply demo_timers_wf|reflexivity].
Defined.

(** an expiry pass at [now] hands out exactly the callbacks of the timers
    whose deadline has passed, in deadline order and after those already in
    the vector; one-shot timers are disarmed, recurring ones move on by
    exactly one period (so they do not drift), the others keep their
    deadline. *)
Theorem getExpiredFuncs_refines now funcs tm :
  timers_wf tm ->
  let (funcs', tm') := getExpiredFuncs now funcs tm in
  timers_wf tm'
  /\ (exists expired, funcs' = funcs ++ omap (fun p => m_func <$> timer_heap tm !! p) expired
       /\ StronglySorted (klt (timer_heap tm)) expired
       /\ (forall p, p ∈ expired <-> exists d, deadlines tm !! p = Some d /\ d <= now))
  /\ (forall p, deadlines tm' !! p = deadlines tm !! p ≫= expire_one (timer_heap tm) now p).
Proof.
  intros Hwf. destruct (getExpired_collect_spec now funcs tm Hwf) as (H1 & H2 & H3).
  set (ex := filter (fun p => next_of (timer_heap tm) p <= now) (m_timers tm)) in *.
  assert (forall p, p ∈ ex <-> exists d, deadlines tm !! p = Some d /\ d <= now) as Hex.
  { intros p. unfold ex. rewrite list_elem_of_filter. split.
    - intros [? ?]. eexists. by rewrite deadlines_Some.
    - intros (d & [? <-]%deadlines_Some & ?). done. }
  unfold getExpiredFuncs. case_bool_decide as Hemp.
  - split; [done|]. split; [exists []; rewrite app_nil_r|].
    + split; [done|]. split; [constructor|]. intros p. rewrite <- Hex. unfold ex. by rewrite Hemp.
    + intros p. rewrite lookup_deadlines, Hemp. by rewrite decide_False by set_solver.
  - destruct (getExpired_collect now funcs tm) as [funcs' tm'].
    split; [done|]. split; [|done]. exists ex. split; [done|]. split; [|done].
    apply sorted_filter, Hwf.
Qed.

Lemma getExpiredFuncs_refines_witness :
  let (funcs', tm') := getExpiredFuncs 1060 [] demo_timers in
  timers_wf tm'
  /\ (exists expired, funcs' = [] ++ omap (fun p => m_func <$> timer_heap demo_timers !! p) expired
       /\ StronglySorted (klt (timer_heap demo_timers)) expired
       /\ (forall p, p ∈ expired <-> exists d, deadlines demo_timers !! p = Some d /\ d <= 1060))
  /\ (forall p, deadlines tm' !! p = deadlines demo_timers !! p ≫= expire_one (timer_heap demo_timers) 1060 p).
Proof. apply (getExpiredFuncs_refines 1060 [] demo_timers). apply demo_timers_wf. Defined.

(** [getNextTimeMs] is [~0ull] when no timer is armed and otherwise the
    time left until the earliest of all deadlines, clamped at zero. *)
Theorem getNextTimeMs_least now tm :
  timers_wf tm ->
  (deadlines tm = ∅ -> getNextTimeMs now tm = u64_max)
  /\ (deadlines tm <> ∅ -> exists p d,
        deadlines tm !! p = Some d
        /\ (forall q e, deadlines tm !! q = Some e -> d <= e)
        /\ getNextTimeMs now tm = Z.max 0 (d - now)).
Proof.
  intros [Hs _]. unfold getNextTimeMs. destruct (m_timers tm) as [|p l] eqn:Hl.
  - split; [done|]. intros []. apply map_empty. intros q. apply deadlines_None. rewrite Hl. set_solver.
  - assert (deadlines tm !! p = Some (next_of (timer_heap tm) p)) as Hp
      by (apply deadlines_Some; rewrite Hl; set_solver).
    split; [intros He; by rewrite He in Hp|]. intros _. exists p, (next_of (timer_heap tm) p).
    split; [done|]. split.
    + intros q e [Hq <-]%deadlines_Some. rewrite Hl in Hq. apply elem_of_cons in Hq as [->|Hq]; [lia|].
      pose proof (sorted_head_least _ _ _ _ Hs Hq) as Hk. unfold klt in Hk. lia.
    + destruct (Z.gtb_spec (next_of (timer_heap tm) p) now); lia.
Qed.

Lemma getNextTimeMs_least_witness :
  (deadlines demo_timers = ∅ -> getNextTimeMs 1020 demo_timers = u64_max)
  /\ (deadlines demo_timers <> ∅ -> exists p d,
        deadlines demo_timers !! p = Some d
        /\ (forall q e, deadlines demo_timers !! q = Some e -> d <= e)
        /\ getNextTimeMs 1020 demo_timers = Z.max 0 (d - 1020)).
Proof. apply (getNextTimeMs_least 1020 demo_timers). apply demo_timers_wf. Defined.
