(* ===== verification/TimerSpec.v ===== *)
(** * The timer service, without its data structure

    What a client of TimerManager may rely on, stated without heap, set or
    order: which timers are armed, and for when.  Every history of operations
    on the manager of Timer.v is shown to be a history of this specification,
    and the only one. *)

From S2P Require Import Prelude Timer.

(** ** Histories *)

(** The operations of the manager, with the clock each reads. *)
Inductive timer_op :=
| OAdd (addr : ptr) (now period : Z) (func : closure) (recurring : bool)
| OCancel (p : ptr)
| ORefresh (p : ptr) (now : Z)
| ONext (now : Z)
| OHas
| OExpire (now : Z).

(** What the caller sees: results, and whether [onFirstTimerChanged] was
    called. *)
Inductive timer_out :=
| RAdd (changed : bool)
| RCancel (ok : bool)
| RRefresh (ok changed : bool)
| RNext (ms : Z)
| RHas (b : bool)
| RExpire (funcs : list closure).

Definition exec_op (o : timer_op) (tm : TimerManager) : timer_out * TimerManager :=
  match o with
  | OAdd addr now period func recurring =>
      let '(_, changed, tm') := addTimer addr now period func recurring tm in (RAdd changed, tm')
  | OCancel p => let (ok, tm') := cancel p tm in (RCancel ok, tm')
  | ORefresh p now => let '(ok, changed, tm') := refresh p now tm in (RRefresh ok changed, tm')
  | ONext now => (RNext (getNextTimeMs now tm), tm)
  | OHas => (RHas (hasTimers tm), tm)
  | OExpire now => let (funcs, tm') := getExpiredFuncs now [] tm in (RExpire funcs, tm')
  end.

Fixpoint exec_ops (os : list timer_op) (tm : TimerManager) : list timer_out * TimerManager :=
  match os with
  | [] => ([], tm)
  | o :: os =>
      let (r, tm1) := exec_op o tm in
      let (rs, tm2) := exec_ops os tm1 in
      (r :: rs, tm2)
  end.

(** The addresses a history allocates. *)
Definition op_addr (o : timer_op) : option ptr := match o with OAdd addr _ _ _ _ => Some addr | _ => None end.

(** ** The specification *)

(** A timer as the client made it, and the armed timers with their deadlines. *)
Record timer_spec := mkTimerSpec {
  sp_timers : gmap ptr (Z * closure * bool);
  sp_armed : gmap ptr Z;
}.

Definition spec_empty : timer_spec := mkTimerSpec ∅ ∅.

(** [p] expires before every other armed timer; ties go by address. *)
Definition before (m : gmap ptr Z) (p q : ptr) : Prop :=
  exists d e : Z, m !! p = Some d /\ m !! q = Some e /\ (d < e \/ (d = e /\ (p < q)%nat)).
Definition first (m : gmap ptr Z) (p : ptr) : Prop :=
  is_Some (m !! p) /\ forall q : ptr, is_Some (m !! q) -> q = p \/ before m p q.

(** The deadline of [p] after an expiry pass. *)
Definition spec_expire (s : timer_spec) (now : Z) (p : ptr) (d : Z) : option Z :=
  if d <=? now then
    match (sp_timers s !! p : option (Z * closure * bool)) with
    | Some (period, _, recurring) => if recurring then Some (u64 (d + period)) else None
    | None => None
    end
  else Some d.

Inductive spec_step (s : timer_spec) : timer_op -> timer_out -> timer_spec -> Prop :=
| SpAdd addr now period func recurring changed :
    let m := <[addr := u64 (now + period)]> (sp_armed s) in
    sp_timers s !! addr = None ->
    (changed = true <-> first m addr) ->
    spec_step s (OAdd addr now period func recurring) (RAdd changed)
      (mkTimerSpec (<[addr := (period, func, recurring)]> (sp_timers s)) m)
| SpCancel p ok :
    (ok = true <-> is_Some (sp_armed s !! p)) ->
    spec_step s (OCancel p) (RCancel ok) (mkTimerSpec (sp_timers s) (delete p (sp_armed s)))
| SpRefresh p now d period func recurring changed :
    let m := <[p := u64 (now + period)]> (sp_armed s) in
    sp_armed s !! p = Some d -> sp_timers s !! p = Some (period, func, recurring) ->
    (changed = true <-> first m p) ->
    spec_step s (ORefresh p now) (RRefresh true changed) (mkTimerSpec (sp_timers s) m)
| SpRefreshNone p now :
    sp_armed s !! p = None -> spec_step s (ORefresh p now) (RRefresh false false) s
| SpNextNone now : sp_armed s = ∅ -> spec_step s (ONext now) (RNext u64_max) s
| SpNext now p d :
    first (sp_armed s) p -> sp_armed s !! p = Some d -> spec_step s (ONext now) (RNext (Z.max 0 (d - now))) s
| SpHas b : (b = true <-> sp_armed s <> ∅) -> spec_step s OHas (RHas b) s
| SpExpire now expired m :
    StronglySorted (before (sp_armed s)) expired ->
    (forall p, p ∈ expired <-> exists d, sp_armed s !! p = Some d /\ d <= now) ->
    (forall p, m !! p = sp_armed s !! p ≫= spec_expire s now p) ->
    spec_step s (OExpire now) (RExpire (omap (fun p => (fun x => x.1.2) <$> sp_timers s !! p) expired))
      (mkTimerSpec (sp_timers s) m).

Inductive spec_run : timer_spec -> list timer_op -> list timer_out -> timer_spec -> Prop :=
| SrNil s : spec_run s [] [] s
| SrCons s o r s1 os rs s2 : spec_step s o r s1 -> spec_run s1 os rs s2 -> spec_run s (o :: os) (r :: rs) s2.

(** The specification's view of a manager. *)
Definition made_as (t : Timer) : Z * closure * bool := (m_period t, m_func t, m_recurring t).
Definition view (tm : TimerManager) : timer_spec := mkTimerSpec (made_as <$> timer_heap tm) (deadlines tm).

(** ** The specification determines everything *)

#[export] Instance before_trans m : Transitive (before m).
Proof. intros p q r (d & e & Hp & Hq & H1) (d' & e' & Hq' & Hr & H2). exists d, e'. simplify_eq. split; [done|]. split; [done|lia]. Qed.

Lemma before_irrefl m p : ~ before m p p.
Proof. intros (d & e & ? & ? & H). simplify_eq. lia. Qed.

Lemma first_unique m p q : first m p -> first m q -> p = q.
Proof.
  intros [Hp Hp'] [Hq Hq']. destruct (Hp' q Hq) as [->|H1]; [done|]. destruct (Hq' p Hp) as [->|H2]; [done|].
  destruct (before_irrefl m p). by transitivity q.
Qed.

Lemma first_nonempty m p : first m p -> m <> ∅.
Proof. intros [[d Hd] _] ->. by rewrite lookup_empty in Hd. Qed.

(** A strictly ordered list is determined by its elements. *)
Lemma sorted_unique m l l' :
  StronglySorted (before m) l -> StronglySorted (before m) l' -> (forall p, p ∈ l <-> p ∈ l') -> l = l'.
Proof.
  intros Hl. revert l'. induction Hl as [|x l Hl IH Hx]; intros l' Hl' Heq.
  { destruct l' as [|y l']; [done|]. destruct (not_elem_of_nil y). apply Heq. left. }
  destruct Hl' as [|y l' Hl' Hy]. { destruct (not_elem_of_nil x). apply Heq. left. }
  rewrite Forall_forall in Hx, Hy.
  assert (x = y) as ->.
  { assert (x ∈ y :: l') as Hin by (apply Heq; left). apply elem_of_cons in Hin as [|Hin]; [done|].
    assert (y ∈ x :: l) as Hin' by (apply Heq; left). apply elem_of_cons in Hin' as [|Hin']; [done|].
    destruct (before_irrefl m x). transitivity y; auto. }
  f_equal. apply IH; [done|]. intros p. specialize (Heq p). rewrite !elem_of_cons in Heq.
  assert (p ∈ l -> p <> y) by (intros Hp ->; by apply (before_irrefl m y), Hx).
  assert (p ∈ l' -> p <> y) by (intros Hp ->; by apply (before_irrefl m y), Hy). tauto.
Qed.

Lemma bool_iff (b b' : bool) (P : Prop) : (b = true <-> P) -> (b' = true <-> P) -> b = b'.
Proof. destruct b, b'; naive_solver. Qed.

Lemma spec_step_det s o r s1 r' s2 : spec_step s o r s1 -> spec_step s o r' s2 -> r = r' /\ s1 = s2.
Proof.
  intros H1 H2. destruct H1; inversion H2; subst; clear H2; simplify_eq; try done.
  - by erewrite (bool_iff changed changed0).
  - by erewrite (bool_iff ok ok0).
  - by erewrite (bool_iff changed changed0).
  - exfalso. eapply first_nonempty; done.
  - exfalso. eapply first_nonempty; done.
  - match goal with Ha : first _ p, Hb : first _ p0 |- _ => pose proof (first_unique _ _ _ Ha Hb) as -> end.
    by simplify_eq.
  - by erewrite (bool_iff b b0).
  - assert (expired = expired0) as ->.
    { eapply sorted_unique; [done..|]. intros p. naive_solver. }
    split; [done|]. f_equal. apply map_eq. intros p. congruence.
Qed.

Lemma spec_run_det s os rs s1 rs' s2 : spec_run s os rs s1 -> spec_run s os rs' s2 -> rs = rs' /\ s1 = s2.
Proof.
  intros H1. revert rs' s2. induction H1 as [s|s o r s1 os rs s2 Hst _ IH]; intros rs' s3 H2; inversion H2; subst; [done|].
  match goal with H : spec_step s o _ _ |- _ => destruct (spec_step_det _ _ _ _ _ _ Hst H) as [-> ->] end.
  edestruct IH as [-> ->]; done.
Qed.

(** ** The manager implements it *)

Lemma armed_in tm p : is_Some (deadlines tm !! p) <-> p ∈ m_timers tm.
Proof. rewrite lookup_deadlines. case_decide; [naive_solver|]. by split; [intros [? ?]|]. Qed.

Lemma klt_before tm p q : p ∈ m_timers tm -> q ∈ m_timers tm -> klt (timer_heap tm) p q -> before (deadlines tm) p q.
Proof. intros Hp Hq Hk. eexists _, _. rewrite !deadlines_Some. done. Qed.

Lemma sorted_before tm l :
  (forall p, p ∈ l -> p ∈ m_timers tm) ->
  StronglySorted (klt (timer_heap tm)) l -> StronglySorted (before (deadlines tm)) l.
Proof.
  intros Hin Hl. induction Hl as [|x l Hl IH Hx]; constructor; [apply IH; set_solver|].
  rewrite Forall_forall in *. intros y Hy. apply klt_before; [set_solver..|auto].
Qed.

(** The head of the set is the first to expire. *)
Lemma head_first tm p : timers_wf tm -> head (m_timers tm) = Some p <-> first (deadlines tm) p.
Proof.
  intros [Hs _]. split.
  - destruct (m_timers tm) as [|x l] eqn:Hl; [done|]. intros [= ->]. split; [by rewrite armed_in, Hl; left|].
    intros q Hq. rewrite armed_in, Hl in Hq. apply elem_of_cons in Hq as [->|Hq]; [by left|right].
    apply klt_before; [rewrite Hl; set_solver..|]. by eapply sorted_head_least.
  - intros [Hp Hq]. rewrite armed_in in Hp. destruct (m_timers tm) as [|x l] eqn:Hl; [set_solver|].
    apply elem_of_cons in Hp as [->|Hp]; [done|]. destruct (Hq x) as [->|Hb]; [by rewrite armed_in, Hl; left|done|].
    destruct (before_irrefl (deadlines tm) p). transitivity x; [done|].
    apply klt_before; [rewrite Hl; set_solver..|]. by eapply sorted_head_least.
Qed.

Lemma insert_first p tm :
  timers_wf tm -> is_Some (timer_heap tm !! p) ->
  (addTimer_ptr p tm).1 = true <-> first (deadlines (addTimer_ptr p tm).2) p.
Proof.
  intros Hwf Hp. pose proof (addTimer_ptr_wf p tm Hwf Hp) as Hwf'. rewrite <- (head_first _ p Hwf').
  cbn. apply bool_decide_eq_true.
Qed.

(** The timers as they were made never change. *)
Lemma made_as_alter (h : gmap ptr Timer) (p : ptr) d : made_as <$> alter (fun t => t <| m_next := d t |>) p h = made_as <$> h.
Proof.
  apply map_eq. intros q. rewrite !lookup_fmap, lookup_alter. case_decide; [subst|done].
  by destruct (h !! q).
Qed.

Lemma made_as_reinsert l tm : made_as <$> timer_heap (reinsert l tm) = made_as <$> timer_heap tm.
Proof.
  revert tm. induction l as [|p l IH]; intros tm; cbn [reinsert]; [done|].
  destruct (timer_heap tm !! p) as [t|] eqn:Ht; [|done]. destruct (m_recurring t); [|done].
  rewrite IH. cbn. rewrite fmap_insert. apply insert_id. by rewrite lookup_fmap, Ht.
Qed.

Lemma made_as_expired now funcs tm :
  made_as <$> timer_heap (getExpiredFuncs now funcs tm).2 = made_as <$> timer_heap tm.
Proof.
  unfold getExpiredFuncs, getExpired_collect. case_bool_decide; [done|].
  destruct (take_expired _ _ _) as [kept expired]. cbn [snd]. by rewrite made_as_reinsert.
Qed.

(** One operation. *)
Definition fresh_op (o : timer_op) (tm : TimerManager) : Prop :=
  forall addr, op_addr o = Some addr -> timer_heap tm !! addr = None.

Lemma add_refines addr now period func recurring tm :
  timers_wf tm -> timer_heap tm !! addr = None ->
  timers_wf (addTimer addr now period func recurring tm).2
  /\ spec_step (view tm) (OAdd addr now period func recurring)
       (RAdd (addTimer addr now period func recurring tm).1.2) (view (addTimer addr now period func recurring tm).2).
Proof.
  intros Hwf Ha. split; [by apply addTimer_wf|]. set (t := new_Timer now period func recurring).
  destruct (wf_new_timer addr t tm Hwf Ha) as [Hwf1 Hd1]. set (tm1 := tm <| timer_heap := _ |>) in *.
  assert (timer_heap tm1 !! addr = Some t) as Ht by apply lookup_insert_eq.
  change (addTimer addr now period func recurring tm) with
    (addr, (addTimer_ptr addr tm1).1, (addTimer_ptr addr tm1).2). cbn [fst snd].
  assert (view (addTimer_ptr addr tm1).2 = mkTimerSpec (<[addr := (period, func, recurring)]> (sp_timers (view tm)))
    (<[addr := u64 (now + period)]> (sp_armed (view tm)))) as Hv.
  { unfold view. rewrite addTimer_ptr_deadlines, Hd1. cbn [timer_heap upd_field addTimer_ptr fst snd sp_timers sp_armed].
    apply (f_equal2 mkTimerSpec); [exact (fmap_insert made_as (timer_heap tm) addr t)|]. unfold next_of. by rewrite Ht. }
  rewrite Hv. apply SpAdd; [cbn; by rewrite lookup_fmap, Ha|].
  rewrite (insert_first addr tm1 Hwf1 (mk_is_Some _ _ Ht)).
  by rewrite (f_equal sp_armed Hv : deadlines _ = _).
Qed.

Lemma refresh_step p now tm :
  timers_wf tm ->
  timers_wf (refresh p now tm).2
  /\ spec_step (view tm) (ORefresh p now) (RRefresh (refresh p now tm).1.1 (refresh p now tm).1.2) (view (refresh p now tm).2).
Proof.
  intros Hwf. unfold refresh. pose proof (refresh_erase_wf p now tm Hwf) as Hwf1.
  rewrite refresh_erase_eq in Hwf1 |- * by done. destruct (decide (p ∈ m_timers tm)) as [Hin|Hin].
  2:{ rewrite bool_decide_false by done. split; [done|]. apply SpRefreshNone. by apply deadlines_None. }
  rewrite bool_decide_true in Hwf1 |- * by done. cbn [snd] in Hwf1. set (tm1 := mkTimerManager _ _) in *.
  destruct (proj2 Hwf p Hin) as [t Ht].
  assert (timer_heap tm1 !! p = Some (t <| m_next := u64 (now + m_period t) |>)) as Ht1
    by (cbn; by rewrite lookup_alter_eq, Ht).
  pose proof (addTimer_ptr_wf p tm1 Hwf1 (mk_is_Some _ _ Ht1)) as Hwf2.
  pose proof (insert_first p tm1 Hwf1 (mk_is_Some _ _ Ht1)) as Hf.
  assert (view (addTimer_ptr p tm1).2 = mkTimerSpec (sp_timers (view tm)) (<[p := u64 (now + m_period t)]> (sp_armed (view tm)))) as Hv.
  { unfold view. rewrite addTimer_ptr_deadlines. apply (f_equal2 mkTimerSpec); [apply made_as_alter|].
    assert (deadlines tm1 = delete p (deadlines tm)) as ->.
    { apply map_eq. intros q. rewrite lookup_delete, !lookup_deadlines. cbn.
      destruct (decide (p = q)) as [->|Hne]; [by rewrite decide_False by (rewrite list_elem_of_filter; naive_solver)|].
      rewrite next_of_alter_ne by done. apply decide_ext. rewrite list_elem_of_filter. naive_solver. }
    rewrite insert_delete_eq. unfold next_of. by rewrite Ht1. }
  destruct (addTimer_ptr p tm1) as [changed tm2]. cbn [fst snd] in *. split; [done|]. rewrite Hv.
  eapply SpRefresh; [by apply deadlines_Some|cbn; by rewrite lookup_fmap, Ht|].
  rewrite Hf. by rewrite (f_equal sp_armed Hv : deadlines _ = _).
Qed.

Lemma expire_step now tm :
  timers_wf tm ->
  timers_wf (getExpiredFuncs now [] tm).2
  /\ spec_step (view tm) (OExpire now) (RExpire (getExpiredFuncs now [] tm).1) (view (getExpiredFuncs now [] tm).2).
Proof.
  intros Hwf. destruct (getExpired_collect_spec now [] tm Hwf) as (H1 & H2 & H3).
  set (ex := filter (fun p => next_of (timer_heap tm) p <= now) (m_timers tm)) in *.
  assert (getExpiredFuncs now [] tm = getExpired_collect now [] tm) as E.
  { unfold getExpiredFuncs. case_bool_decide as Hemp; [|done]. unfold getExpired_collect. rewrite Hemp. cbn.
    destruct tm as [h l]. cbn in Hemp. by subst. }
  pose proof (made_as_expired now [] tm) as Hm. rewrite E in *. split; [done|]. rewrite H2.
  assert (omap (fun p => m_func <$> timer_heap tm !! p) ex
    = omap (fun p => (fun x => x.1.2) <$> sp_timers (view tm) !! p) ex) as ->.
  { apply list_omap_ext, Forall_Forall2_diag, Forall_forall. intros p _. cbn. rewrite lookup_fmap.
    by destruct (timer_heap tm !! p). }
  unfold view at 3. rewrite Hm. apply SpExpire.
  - apply sorted_before; [by intros p [_ ?]%list_elem_of_filter|]. apply sorted_filter, Hwf.
  - intros p. unfold ex. rewrite list_elem_of_filter. cbn. split.
    + intros [? ?]. eexists. by rewrite deadlines_Some.
    + by intros (d & [? <-]%deadlines_Some & ?).
  - intros p. rewrite H3. cbn. destruct (deadlines tm !! p) as [d|]; [|done]. cbn.
    unfold expire_one, spec_expire. cbn. rewrite lookup_fmap. by destruct (timer_heap tm !! p).
Qed.

Lemma next_step now tm : timers_wf tm -> spec_step (view tm) (ONext now) (RNext (getNextTimeMs now tm)) (view tm).
Proof.
  intros Hwf. unfold getNextTimeMs. destruct (m_timers tm) as [|p l] eqn:Hl.
  - apply SpNextNone. apply map_empty. intros p. apply deadlines_None. rewrite Hl. set_solver.
  - assert (first (deadlines tm) p) as Hf by (apply head_first; [done|by rewrite Hl]).
    assert (deadlines tm !! p = Some (next_of (timer_heap tm) p)) as Hp by (apply deadlines_Some; rewrite Hl; set_solver).
    assert ((if next_of (timer_heap tm) p >? now then next_of (timer_heap tm) p - now else 0)
      = Z.max 0 (next_of (timer_heap tm) p - now)) as -> by (destruct (Z.gtb_spec (next_of (timer_heap tm) p) now); lia).
    by apply (SpNext (view tm) now p).
Qed.

Lemma has_step tm : spec_step (view tm) OHas (RHas (hasTimers tm)) (view tm).
Proof.
  apply SpHas. unfold hasTimers. rewrite Bool.negb_true_iff, bool_decide_eq_false. cbn. split; intros Hne He; apply Hne.
  - destruct (m_timers tm) as [|p l] eqn:Hl; [done|].
    assert (is_Some (deadlines tm !! p)) as [d Hd] by (apply armed_in; rewrite Hl; left).
    by rewrite He, lookup_empty in Hd.
  - apply map_empty. intros p. apply deadlines_None. rewrite He. set_solver.
Qed.

(** The simulation step. *)
Lemma exec_op_refines o tm :
  timers_wf tm -> fresh_op o tm ->
  timers_wf (exec_op o tm).2 /\ spec_step (view tm) o (exec_op o tm).1 (view (exec_op o tm).2).
Proof.
  intros Hwf Hfr. destruct o as [addr now period func recurring|p|p now|now| |now]; cbn [exec_op].
  - destruct (add_refines addr now period func recurring tm Hwf (Hfr addr eq_refl)) as [H1 H2].
    by destruct (addTimer addr now period func recurring tm) as [[? ?] ?].
  - rewrite cancel_eq by done. split; [by apply filter_timers_wf|].
    unfold view at 2. cbn [snd]. rewrite filter_timers_deadlines. apply SpCancel.
    rewrite bool_decide_eq_true. cbn. by rewrite armed_in.
  - destruct (refresh_step p now tm Hwf) as [H1 H2]. by destruct (refresh p now tm) as [[? ?] ?].
  - split; [done|by apply next_step].
  - split; [done|apply has_step].
  - destruct (expire_step now tm Hwf) as [H1 H2]. by destruct (getExpiredFuncs now [] tm).
Qed.

(** Only additions allocate. *)
Lemma spec_step_dom s o r s' p :
  spec_step s o r s' -> sp_timers s !! p = None -> op_addr o <> Some p -> sp_timers s' !! p = None.
Proof. intros Hst Hp Ho. destruct Hst; cbn in *; try done. rewrite lookup_insert_ne; [done|congruence]. Qed.

Lemma view_None tm p : sp_timers (view tm) !! p = None <-> timer_heap tm !! p = None.
Proof. cbn. rewrite lookup_fmap. by destruct (timer_heap tm !! p). Qed.

Lemma exec_ops_refines os tm :
  timers_wf tm -> NoDup (omap op_addr os) -> (forall p, p ∈ omap op_addr os -> timer_heap tm !! p = None) ->
  spec_run (view tm) os (exec_ops os tm).1 (view (exec_ops os tm).2).
Proof.
  revert tm. induction os as [|o os IH]; intros tm Hwf Hnd Hfr; [constructor|]. cbn [exec_ops].
  destruct (exec_op_refines o tm Hwf) as [Hwf1 Hst].
  { intros addr Ha. apply Hfr. cbn. rewrite Ha. left. }
  destruct (exec_op o tm) as [r tm1]. cbn [fst snd] in *.
  specialize (IH tm1 Hwf1). destruct (exec_ops os tm1) as [rs tm2]. cbn [fst snd] in *.
  eapply SrCons; [done|]. cbn in Hnd, Hfr. destruct (op_addr o) as [addr|] eqn:Ho.
  - apply NoDup_cons in Hnd as [Hn Hnd]. apply IH; [done|]. intros p Hp. apply view_None.
    eapply spec_step_dom; [done|apply view_None, Hfr; by right|]. rewrite Ho. intros [= ->]. done.
  - apply IH; [done|]. intros p Hp. apply view_None.
    eapply spec_step_dom; [done|apply view_None, Hfr, Hp|]. by rewrite Ho.
Qed.

(** ** Property *)

(** C8: the timer manager refines the timer service.  For every history of
    additions (at distinct addresses), cancellations, refreshes, expiry passes
    and queries, with any clock readings, the results and notifications of the
    ordered set of shared timers are those of the specification, which knows
    only which timers are armed for when, and the specification allows no
    others: additions arm one timer at [now + period], cancel and refresh
    succeed exactly for armed timers, [onFirstTimerChanged] is called exactly
    when the timer put in became the first to expire, [getNextTimeMs] is the
    distance to the first deadline, and an expiry pass hands out the callbacks
    of exactly the timers that are due, in the order of their deadlines, and
    moves recurring ones on by one period. *)
Theorem timer_service_refines os :
  NoDup (omap op_addr os) ->
  let (rs, tm) := exec_ops os empty_TimerManager in
  spec_run spec_empty os rs (view tm)
  /\ forall rs' s', spec_run spec_empty os rs' s' -> rs' = rs /\ s' = view tm.
Proof.
  intros Hnd. assert (view empty_TimerManager = spec_empty) as Hv by reflexivity.
  pose proof (exec_ops_refines os empty_TimerManager) as Hr. rewrite Hv in Hr.
  destruct (exec_ops os empty_TimerManager) as [rs tm]. cbn [fst snd] in Hr.
  assert (spec_run spec_empty os rs (view tm)) as Hrun.
  { apply Hr; [split; [constructor|set_solver]|done|]. intros p _. apply lookup_empty. }
  split; [done|]. intros rs' s' Hrun'. exact (spec_run_det _ _ _ _ _ _ Hrun' Hrun).
Qed.

(** A recurring and a one-shot timer, a refresh, an expiry pass, and a
    cancellation of the timer that has already expired. *)
Definition demo_history : list timer_op :=
  [OAdd 1%nat 1000 100 (User 1) false; OAdd 2%nat 1000 50 (User 2) true; ONext 1020; ORefresh 1%nat 1030;
   OExpire 1140; OCancel 1%nat; ONext 1140; OHas].

Lemma timer_service_refines_witness :
  exec_ops demo_history empty_TimerManager
  = ([RAdd true; RAdd true; RNext 30; RRefresh true false; RExpire [User 2; User 1]; RCancel false; RNext 0; RHas true],
     (exec_ops demo_history empty_TimerManager).2)
  /\ forall rs' s', spec_run spec_empty demo_history rs' s' ->
       rs' = [RAdd true; RAdd true; RNext 30; RRefresh true false; RExpire [User 2; User 1]; RCancel false; RNext 0; RHas true].
Proof.
  split; [vm_compute; reflexivity|]. intros rs' s' Hrun.
  assert (NoDup (omap op_addr demo_history)) as Hnd by (apply (bool_decide_unpack _); vm_compute; reflexivity).
  pose proof (timer_service_refines demo_history Hnd) as Ht.
  destruct (exec_ops demo_history empty_TimerManager) as [rs tm] eqn:E.
  destruct (proj2 Ht rs' s' Hrun) as [-> _].
  assert (rs = (exec_ops demo_history empty_TimerManager).1) as -> by (by rewrite E). vm_compute. reflexivity.
Defined.
