(* ===== verification/Fiber.v ===== *)
(** * Fiber (src/src/fiber.h, src/src/fiber.cpp)

    Fibers live on a heap shared by the threads; each thread has its
    thread-local [t_fiber] and [t_main_fiber].  A [ucontext_t] is modelled by
    what it restores: the stack that was saved in it and the place in the code
    where that stack continues.  [swapcontext] saves the stack the thread is
    executing and switches to the saved one, so an operation that ends in it
    returns the place where execution continues on the new stack; the [ucontext]
    calls of the C library succeed.  The code of [MainFunc] before and after the
    fiber's function are two definitions; what the function itself does is the
    client's, which the step relation leaves open. *)

From S2P Require Import Prelude.

Definition tid := nat.

(** [Fiber::State] *)
Inductive State := READY | SUSPEND | RUNNING | TERM | EXCEPT.

#[export] Instance State_eq_dec : EqDecision State.
Proof. solve_decision. Defined.

(** Where a saved stack continues. *)
Inductive resume :=
| REntry   (* makecontext: the first line of MainFunc *)
| RBody    (* in the fiber's function, behind the swapcontext of Yield/YieldReady *)
| REnd     (* in MainFunc, behind its final yield() *)
| RCall.   (* behind the swapcontext of call() *)

#[export] Instance resume_eq_dec : EqDecision resume.
Proof. solve_decision. Defined.

(** [ucontext_t]: the saved stack (named by the fiber it belongs to), its
    continuation, and [uc_link] as seen by [makecontext]. *)
Record ucontext := mkCtx {
  ctx_of : ptr;
  resume_at : resume;
  uc_link : option ptr;
}.
#[export] Instance eta_ucontext : Eta ucontext :=
  fun c => mkCtx (ctx_of c) (resume_at c) (uc_link c).

Record Fiber := mkFiber {
  m_id : Z;                       (* uint64_t *)
  m_ctx : ucontext;
  m_func : option closure;        (* an empty std::function is None *)
  m_main : bool;
  m_state : State;
}.
#[export] Instance eta_Fiber : Eta Fiber :=
  fun f => mkFiber (m_id f) (m_ctx f) (m_func f) (m_main f) (m_state f).

(** The thread-local variables, and the stack the thread executes: that of a
    fiber, or the thread's own stack before a main fiber stands for it. *)
Record TLS := mkTLS {
  t_fiber : option ptr;
  t_main_fiber : option ptr;
  running : option ptr;
}.
#[export] Instance eta_TLS : Eta TLS :=
  fun t => mkTLS (t_fiber t) (t_main_fiber t) (running t).

Record fiber_sys := mkFiberSys {
  fibers : gmap ptr Fiber;
  s_fiber_id : Z;                 (* std::atomic<uint64_t> *)
  s_fiber_count : Z;              (* std::atomic<uint64_t> *)
  tls : gmap tid TLS;
}.
#[export] Instance eta_fiber_sys : Eta fiber_sys :=
  fun s => mkFiberSys (fibers s) (s_fiber_id s) (s_fiber_count s) (tls s).

Definition tls_init : TLS := mkTLS None None None.
Definition fiber_sys_init : fiber_sys := mkFiberSys ∅ 0 0 ∅.

Definition tls_of (s : fiber_sys) (t : tid) : TLS := default tls_init (tls s !! t).
Definition set_tls (t : tid) (f : TLS -> TLS) (s : fiber_sys) : fiber_sys :=
  s <| tls := <[t := f (tls_of s t)]> (tls s) |>.
Definition set_fiber (p : ptr) (f : Fiber -> Fiber) (s : fiber_sys) : fiber_sys :=
  s <| fibers := alter f p (fibers s) |>.

(** [isDone], [getState] *)
Definition isDone (f : Fiber) : bool :=
  match m_state f with TERM | EXCEPT => true | _ => false end.

(** ** Construction *)

(** [Fiber::Fiber(func, is_main)]; [addr] is where the object is allocated. *)
Definition Fiber_ctor (t : tid) (addr : ptr) (func : option closure) (is_main : bool)
    : M fiber_sys unit :=
  mmodify (fun s => s <| s_fiber_id := u64 (s_fiber_id s + 1) |>) ;;;
  let! s := mget in
  ASSERT "fiber.cpp:22" (bool_decide (is_Some (t_main_fiber (tls_of s t)))) ;;;
  mmodify (fun s => s
    <| s_fiber_count := u64 (s_fiber_count s + 1) |>
    <| fibers := <[addr := mkFiber (s_fiber_id s) (mkCtx addr REntry None) func is_main READY]>
                   (fibers s) |>).

(** [Fiber::Fiber()], the main fiber of a thread: [m_id] stays 0 and [m_func]
    empty; its context is the thread's own stack. *)
Definition Fiber_main_ctor (t : tid) (addr : ptr) : M fiber_sys unit :=
  let! s := mget in
  ASSERT "fiber.cpp:43" (negb (bool_decide (is_Some (t_main_fiber (tls_of s t))))) ;;;
  mmodify (set_tls t (fun l => l <| t_fiber := Some addr |> <| running := Some addr |>)) ;;;
  mmodify (fun s => s
    <| s_fiber_count := u64 (s_fiber_count s + 1) |>
    <| fibers := <[addr := mkFiber 0 (mkCtx addr RCall None) None true RUNNING]> (fibers s) |>).

(** [Fiber::MakeMain] *)
Definition MakeMain (t : tid) (addr : ptr) : M fiber_sys unit :=
  let! s := mget in
  if bool_decide (is_Some (t_main_fiber (tls_of s t))) then mret_M tt
  else
    Fiber_main_ctor t addr ;;;
    mmodify (set_tls t (fun l => l <| t_main_fiber := Some addr |> <| t_fiber := Some addr |>)).

(** [Fiber::GetThis]; [addr] is used only if a main fiber is created. *)
Definition GetThis (t : tid) (addr : ptr) : M fiber_sys ptr :=
  let! s := mget in
  (if bool_decide (is_Some (t_fiber (tls_of s t))) then mret_M tt else MakeMain t addr) ;;;
  mderef "fiber.cpp:181" (fun s => t_fiber (tls_of s t)).

(** [Fiber::~Fiber] *)
Definition Fiber_dtor (t : tid) (this : ptr) : M fiber_sys unit :=
  mmodify (fun s => s <| s_fiber_count := u64 (s_fiber_count s - 1) |>) ;;;
  let! s := mget in
  let! f := mderef "fiber.cpp:61" (fun s => fibers s !! this) in
  (if bool_decide (t_main_fiber (tls_of s t) = Some this) then
     ASSERT "fiber.cpp:66" (negb (bool_decide (is_Some (m_func f)))) ;;;
     ASSERT "fiber.cpp:67" (bool_decide (m_state f = RUNNING)) ;;;
     (if bool_decide (t_fiber (tls_of s t) = Some this)
      then mmodify (set_tls t (fun l => l <| t_fiber := None |>))
      else mret_M tt)
   else ASSERT "fiber.cpp:64" (negb (bool_decide (m_state f = RUNNING)))) ;;;
  mmodify (fun s => s <| fibers := delete this (fibers s) |>).

(** [Fiber::reset] *)
Definition reset (t : tid) (this : ptr) (func : option closure) : M fiber_sys unit :=
  let! s := mget in
  ASSERT "fiber.cpp:78" (bool_decide (is_Some (t_main_fiber (tls_of s t)))) ;;;
  let! _ := mderef "fiber.cpp:80" (fun s => fibers s !! this) in
  mmodify (set_fiber this (fun f => f
    <| m_func := func |> <| m_state := READY |>
    <| m_ctx := mkCtx this REntry (t_main_fiber (tls_of s t)) |>)).

(** ** Switching *)

(** [swapcontext(&save->m_ctx, &load->m_ctx)] on thread [t], called at a place
    that continues with [at]; the result is where the loaded stack continues. *)
Definition swapcontext (t : tid) (save load : option ptr) (at_ : resume) : M fiber_sys resume :=
  let! s := mget in
  let! save := mderef "swapcontext: save" (fun _ => save) in
  let! load := mderef "swapcontext: load" (fun _ => load) in
  let! cur := mderef "swapcontext: no stack" (fun s => running (tls_of s t)) in
  let! _ := mderef "swapcontext: save" (fun s => fibers s !! save) in
  mmodify (set_fiber save (fun f => f <| m_ctx := mkCtx cur at_ (uc_link (m_ctx f)) |>)) ;;;
  let! lf := mderef "swapcontext: load" (fun s => fibers s !! load) in
  mmodify (set_tls t (fun l => l <| running := Some (ctx_of (m_ctx lf)) |>)) ;;;
  mret_M (resume_at (m_ctx lf)).

(** [Fiber::call]; [None] is the early return, [Some r] a switch to [r]. *)
Definition call (t : tid) (this : ptr) : M fiber_sys (option resume) :=
  let! s := mget in
  let! f := mderef "fiber.cpp:102" (fun s => fibers s !! this) in
  if m_main f && bool_decide (t_fiber (tls_of s t) = t_main_fiber (tls_of s t)) then mret_M None
  else
    mmodify (set_tls t (fun l => l <| t_fiber := Some this |>)) ;;;
    ASSERT "fiber.cpp:107" (negb (bool_decide (m_state f = RUNNING)) && negb (bool_decide (m_state f = TERM))) ;;;
    mmodify (set_fiber this (fun f => f <| m_state := RUNNING |>)) ;;;
    let! r := swapcontext t (t_main_fiber (tls_of s t)) (Some this) RCall in
    mret_M (Some r).

(** [Fiber::yield] (the member function); [at_] is where the caller continues. *)
Definition yield (t : tid) (this : ptr) (at_ : resume) : M fiber_sys (option resume) :=
  let! s := mget in
  if bool_decide (t_fiber (tls_of s t) = t_main_fiber (tls_of s t)) then mret_M None
  else
    mmodify (set_tls t (fun l => l <| t_fiber := t_main_fiber l |>)) ;;;
    let! r := swapcontext t (Some this) (t_main_fiber (tls_of s t)) at_ in
    mret_M (Some r).

(** [Fiber::Yield] and [Fiber::YieldReady] differ in the state they leave. *)
Definition Yield_to (st : State) (t : tid) : M fiber_sys (option resume) :=
  let! s := mget in
  if bool_decide (t_fiber (tls_of s t) = t_main_fiber (tls_of s t)) then mret_M None
  else
    let! cur := GetThis t 0%nat in
    mmodify (set_fiber cur (fun f => f <| m_state := st |>)) ;;;
    mmodify (set_tls t (fun l => l <| t_fiber := t_main_fiber l |>)) ;;;
    let! r := swapcontext t (Some cur) (t_main_fiber (tls_of s t)) RBody in
    mret_M (Some r).

Definition Yield : tid -> M fiber_sys (option resume) := Yield_to SUSPEND.
Definition YieldReady : tid -> M fiber_sys (option resume) := Yield_to READY.

(** ** MainFunc *)

(** How the fiber's function comes back. *)
Inductive outcome :=
| Returned
| ThrewStd      (* an exception derived from std::exception *)
| ThrewOther.   (* anything else *)

(** [MainFunc] up to the call of [m_func]: the function to run, or
    [std::bad_function_call] (a [std::exception]) if it is empty. *)
Definition MainFunc_enter (t : tid) : M fiber_sys (ptr * option closure) :=
  let! cur := GetThis t 0%nat in
  let! f := mderef "fiber.cpp:189" (fun s => fibers s !! cur) in
  mret_M (cur, m_func f).

(** [MainFunc] after it; [cur] is its local variable. *)
Definition MainFunc_exit (t : tid) (cur : ptr) (o : outcome) : M fiber_sys (option resume) :=
  (match o with
   | Returned => mmodify (set_fiber cur (fun f => f <| m_state := TERM |>))
   | ThrewStd => mmodify (set_fiber cur (fun f => f <| m_state := EXCEPT |>))
   | ThrewOther => mfail (Terminated "std::terminate")
   end) ;;;
  yield t cur REnd.

(** Falling off the end of [MainFunc] (execution resumed at [REnd]): without a
    linked context the thread exits. *)
Definition MainFunc_return (t : tid) : M fiber_sys resume :=
  let! cur := mderef "no stack" (fun s => running (tls_of s t)) in
  let! f := mderef "no stack" (fun s => fibers s !! cur) in
  match uc_link (m_ctx f) with
  | None => mfail (Terminated "thread exit: uc_link is null")
  | Some l =>
      let! lf := mderef "uc_link" (fun s => fibers s !! l) in
      mmodify (set_tls t (fun x => x <| running := Some (ctx_of (m_ctx lf)) |>)) ;;;
      mret_M (resume_at (m_ctx lf))
  end.

(** ** Observers *)

Definition GetMainFiber (t : tid) (s : fiber_sys) : option ptr := t_main_fiber (tls_of s t).
Definition GetTotalCount (s : fiber_sys) : Z := s_fiber_count s.
Definition GetFiberId (t : tid) (s : fiber_sys) : Z :=
  match t_fiber (tls_of s t) with
  | Some p => from_option m_id 0 (fibers s !! p)
  | None => 0
  end.

(** ** The threads' steps

    What a program may do with fibers, one library call at a time and in any
    interleaving of the threads: a thread acquires its main fiber, fibers are
    created, called from the main fiber of some thread, and come back by
    yielding, returning or throwing; a finished or not yet started fiber can
    be given a new function, a fiber that is not executing can be destroyed. *)
Inductive fiber_step : fiber_sys -> fiber_sys -> Prop :=
| FsGetThis t addr p s s' :
    fibers s !! addr = None -> GetThis t addr s = Ok (p, s') -> fiber_step s s'
| FsNew t addr func s s' :
    fibers s !! addr = None -> Fiber_ctor t addr func false s = Ok (tt, s') -> fiber_step s s'
| FsCall t p f r s s' :
    running (tls_of s t) = t_main_fiber (tls_of s t) ->
    fibers s !! p = Some f -> m_main f = false -> isDone f = false ->
    call t p s = Ok (Some r, s') -> fiber_step s s'
| FsYield t r s s' : Yield t s = Ok (Some r, s') -> fiber_step s s'
| FsYieldReady t r s s' : YieldReady t s = Ok (Some r, s') -> fiber_step s s'
| FsFinish t cur o r s s' :
    running (tls_of s t) = Some cur -> t_main_fiber (tls_of s t) <> Some cur ->
    MainFunc_exit t cur o s = Ok (Some r, s') -> fiber_step s s'
| FsReset t p f func s s' :
    fibers s !! p = Some f -> m_main f = false ->
    m_state f <> RUNNING -> resume_at (m_ctx f) <> RBody ->
    reset t p func s = Ok (tt, s') -> fiber_step s s'
| FsDestroy t p f s s' :
    fibers s !! p = Some f -> m_main f = false ->
    Fiber_dtor t p s = Ok (tt, s') -> fiber_step s s'.

(** ** Invariant *)

(** Where a fiber that is not executing will continue, by its state. *)
Definition resume_ok (st : State) (r : resume) : Prop :=
  match st with
  | READY => r = REntry \/ r = RBody
  | SUSPEND => r = RBody
  | TERM | EXCEPT => r = REnd
  | RUNNING => True
  end.

Definition is_main_fiber (fs : gmap ptr Fiber) (m : ptr) (fm : Fiber) : Prop :=
  fs !! m = Some fm /\ m_main fm = true /\ m_state fm = RUNNING.

(** A thread either has no fibers, or executes its main fiber, or executes a
    fiber while its main fiber waits in [call]. *)
Definition thread_ok (fs : gmap ptr Fiber) (l : TLS) : Prop :=
  running l = t_fiber l /\
  match t_main_fiber l with
  | None => t_fiber l = None
  | Some m => exists fm, is_main_fiber fs m fm /\
      (t_fiber l = Some m \/
       exists p f, t_fiber l = Some p /\ fs !! p = Some f
                   /\ m_main f = false /\ m_state f = RUNNING
                   /\ ctx_of (m_ctx fm) = m /\ resume_at (m_ctx fm) = RCall)
  end.

(** A client fiber executes iff it is the current fiber of some thread;
    otherwise its context holds its own stack. *)
Definition fiber_ok (s : fiber_sys) (p : ptr) (f : Fiber) : Prop :=
  m_main f = false ->
  (m_state f = RUNNING <-> exists t, t_fiber (tls_of s t) = Some p)
  /\ (m_state f <> RUNNING -> ctx_of (m_ctx f) = p /\ resume_ok (m_state f) (resume_at (m_ctx f))).

Record fiber_inv (s : fiber_sys) : Prop := {
  inv_thread : forall t, thread_ok (fibers s) (tls_of s t);
  inv_fiber : forall p f, fibers s !! p = Some f -> fiber_ok s p f;
  inv_excl : forall t1 t2 p,
    t_fiber (tls_of s t1) = Some p -> t_fiber (tls_of s t2) = Some p -> t1 = t2;
  inv_main : forall t1 t2 m,
    t_main_fiber (tls_of s t1) = Some m -> t_main_fiber (tls_of s t2) = Some m -> t1 = t2;
  inv_count : s_fiber_count s = u64 (Z.of_nat (size (fibers s)));
}.

(** ** What the operations do to a well-formed system *)

Lemma tls_of_set t t' g s :
  tls_of (set_tls t g s) t' = if decide (t = t') then g (tls_of s t) else tls_of s t'.
Proof. unfold tls_of, set_tls; simpl. rewrite lookup_insert. by case_decide. Qed.

Lemma tls_of_set_fiber p g s t : tls_of (set_fiber p g s) t = tls_of s t.
Proof. done. Qed.

Lemma fibers_set_tls t g s : fibers (set_tls t g s) = fibers s.
Proof. done. Qed.

Lemma lookup_set_fiber p q g s :
  fibers (set_fiber p g s) !! q = if decide (p = q) then g <$> fibers s !! q else fibers s !! q.
Proof. unfold set_fiber; simpl. rewrite lookup_alter. case_decide; by subst. Qed.

(** The thread leaves its main fiber [m] for [p]. *)
Definition switch_in (t : tid) (m p : ptr) (s : fiber_sys) : fiber_sys :=
  set_tls t (fun _ => mkTLS (Some p) (Some m) (Some p))
    (set_fiber m (fun f => f <| m_ctx := mkCtx m RCall (uc_link (m_ctx f)) |>)
      (set_fiber p (fun f => f <| m_state := RUNNING |>) s)).

(** The thread comes back from [p], left in state [st], to its main fiber. *)
Definition switch_out (t : tid) (m p : ptr) (st : State) (r : resume) (s : fiber_sys) : fiber_sys :=
  set_tls t (fun _ => mkTLS (Some m) (Some m) (Some m))
    (set_fiber p (fun f => f <| m_state := st |> <| m_ctx := mkCtx p r (uc_link (m_ctx f)) |>) s).

Lemma set_tls_twice t g1 g2 s : set_tls t g2 (set_tls t g1 s) = set_tls t (fun l => g2 (g1 l)) s.
Proof.
  unfold set_tls, tls_of; simpl. by rewrite lookup_insert_eq, insert_insert_eq.
Qed.

Lemma set_fiber_twice p g1 g2 s :
  set_fiber p g2 (set_fiber p g1 s) = set_fiber p (fun f => g2 (g1 f)) s.
Proof.
  unfold set_fiber; simpl. f_equal. apply map_eq. intros q. rewrite !lookup_alter.
  repeat case_decide; try done. by rewrite <- option_fmap_compose.
Qed.

Lemma set_fiber_tls p g t h s : set_fiber p g (set_tls t h s) = set_tls t h (set_fiber p g s).
Proof. done. Qed.

Lemma set_tls_ext t g1 g2 s : g1 (tls_of s t) = g2 (tls_of s t) -> set_tls t g1 s = set_tls t g2 s.
Proof. unfold set_tls. by intros ->. Qed.

#[global] Opaque set_tls set_fiber tls_of.

Lemma switch_in_lookup t m p f fm s :
  fibers s !! p = Some f -> fibers s !! m = Some fm -> p <> m ->
  fibers (switch_in t m p s) !! p = Some (f <| m_state := RUNNING |>)
  /\ fibers (switch_in t m p s) !! m = Some (fm <| m_ctx := mkCtx m RCall (uc_link (m_ctx fm)) |>)
  /\ tls_of (switch_in t m p s) t = mkTLS (Some p) (Some m) (Some p)
  /\ (forall q, q <> p -> q <> m -> fibers (switch_in t m p s) !! q = fibers s !! q).
Proof.
  intros Hf Hm Hne. unfold switch_in. rewrite fibers_set_tls, tls_of_set, decide_True by done.
  split; [|split; [|split; [done|]]].
  - rewrite !lookup_set_fiber. repeat case_decide; try done. by rewrite Hf.
  - rewrite !lookup_set_fiber. repeat case_decide; try done. by rewrite Hm.
  - intros q Hqp Hqm. by rewrite !lookup_set_fiber, !decide_False by done.
Qed.

Lemma switch_out_lookup t m p st r f s :
  fibers s !! p = Some f ->
  fibers (switch_out t m p st r s) !! p
    = Some (f <| m_state := st |> <| m_ctx := mkCtx p r (uc_link (m_ctx f)) |>)
  /\ tls_of (switch_out t m p st r s) t = mkTLS (Some m) (Some m) (Some m)
  /\ (forall q, q <> p -> fibers (switch_out t m p st r s) !! q = fibers s !! q).
Proof.
  intros Hf. unfold switch_out. rewrite fibers_set_tls, tls_of_set, decide_True by done.
  rewrite lookup_set_fiber, decide_True, Hf by done. split; [done|]. split; [done|].
  intros q Hq. by rewrite lookup_set_fiber, decide_False.
Qed.

(** [call] from the main fiber on a fiber that is not executing. *)
Lemma call_eq t m p f fm s :
  tls_of s t = mkTLS (Some m) (Some m) (Some m) ->
  fibers s !! m = Some fm -> fibers s !! p = Some f -> p <> m ->
  m_main f = false -> m_state f <> RUNNING -> m_state f <> TERM -> ctx_of (m_ctx f) = p ->
  call t p s = Ok (Some (resume_at (m_ctx f)), switch_in t m p s).
Proof.
  intros Ht Hm Hp Hne Hmain Hr Htm Hc. unfold call. munfold.
  rewrite Hp, Hmain, Ht; simpl. rewrite !bool_decide_false by done. simpl.
  unfold swapcontext. munfold. rewrite tls_of_set_fiber, tls_of_set, decide_True by done.
  rewrite Ht; simpl. rewrite set_fiber_tls, fibers_set_tls, lookup_set_fiber.
  rewrite decide_False by done. rewrite Hm; simpl.
  rewrite set_fiber_tls, fibers_set_tls, !lookup_set_fiber.
  rewrite decide_False by done. rewrite decide_True by done. rewrite Hp; simpl.
  rewrite set_tls_twice. unfold switch_in. do 2 f_equal.
  apply set_tls_ext. rewrite !tls_of_set_fiber, Ht. simpl. by rewrite Hc.
Qed.

(** The three ways to leave a fiber. *)
Lemma switch_back_eq t m p f fm st r s :
  tls_of s t = mkTLS (Some p) (Some m) (Some p) ->
  fibers s !! m = Some fm -> fibers s !! p = Some f -> p <> m ->
  ctx_of (m_ctx fm) = m -> resume_at (m_ctx fm) = RCall ->
  swapcontext t (Some p) (Some m) r
    (set_tls t (fun l => l <| t_fiber := t_main_fiber l |>)
      (set_fiber p (fun f => f <| m_state := st |>) s))
  = Ok (RCall, switch_out t m p st r s).
Proof.
  intros Ht Hm Hp Hne Hc Hr. unfold swapcontext. munfold.
  rewrite tls_of_set, decide_True by done. rewrite tls_of_set_fiber, Ht; simpl.
  rewrite fibers_set_tls, lookup_set_fiber, decide_True, Hp by done. simpl.
  rewrite set_fiber_tls, fibers_set_tls, !lookup_set_fiber.
  rewrite !decide_False by done. rewrite Hm, Hc, Hr.
  rewrite set_tls_twice, set_fiber_twice. unfold switch_out. do 2 f_equal.
  apply set_tls_ext. by rewrite !tls_of_set_fiber, Ht.
Qed.

Lemma Yield_to_eq st t m p f fm s :
  tls_of s t = mkTLS (Some p) (Some m) (Some p) ->
  fibers s !! m = Some fm -> fibers s !! p = Some f -> p <> m ->
  ctx_of (m_ctx fm) = m -> resume_at (m_ctx fm) = RCall ->
  Yield_to st t s = Ok (Some RCall, switch_out t m p st RBody s).
Proof.
  intros Ht Hm Hp Hne Hc Hr. unfold Yield_to, GetThis. munfold.
  rewrite Ht; cbn [t_fiber t_main_fiber]. rewrite bool_decide_false by naive_solver.
  rewrite Ht; cbn [t_fiber]. rewrite bool_decide_true, Ht by eauto; cbn [t_fiber].
  by rewrite (switch_back_eq t m p f fm).
Qed.

Lemma MainFunc_exit_eq o t m p f fm s :
  tls_of s t = mkTLS (Some p) (Some m) (Some p) ->
  fibers s !! m = Some fm -> fibers s !! p = Some f -> p <> m ->
  ctx_of (m_ctx fm) = m -> resume_at (m_ctx fm) = RCall ->
  MainFunc_exit t p o s =
  match o with
  | Returned => Ok (Some RCall, switch_out t m p TERM REnd s)
  | ThrewStd => Ok (Some RCall, switch_out t m p EXCEPT REnd s)
  | ThrewOther => Terminated "std::terminate"
  end.
Proof.
  intros Ht Hm Hp Hne Hc Hr. unfold MainFunc_exit, yield. munfold.
  destruct o; [| |done]; rewrite tls_of_set_fiber, Ht; cbn [t_fiber t_main_fiber];
    (rewrite bool_decide_false by naive_solver); by rewrite (switch_back_eq t m p f fm).
Qed.

(** Look through the updates of a switch. *)
Ltac fiber_lookups :=
  repeat (progress (rewrite ?tls_of_set, ?tls_of_set_fiber, ?fibers_set_tls, ?lookup_set_fiber in *)
          || case_decide); simplify_eq/=.

Ltac tls_cases :=
  rewrite ?tls_of_set, ?tls_of_set_fiber; repeat case_decide; subst.

Lemma size_set_fiber p g s : size (fibers (set_fiber p g s)) = size (fibers s).
Proof. Transparent set_fiber. unfold set_fiber; simpl. by rewrite <- !size_dom, dom_alter_L. Qed.
#[global] Opaque set_fiber.

Lemma set_count t g s : s_fiber_count (set_tls t g s) = s_fiber_count s.
Proof. Transparent set_tls. done. Qed.
#[global] Opaque set_tls.

Lemma set_fiber_count p g s : s_fiber_count (set_fiber p g s) = s_fiber_count s.
Proof. Transparent set_fiber. done. Qed.
#[global] Opaque set_fiber.

(** The state of a thread, by the invariant. *)
Lemma at_main s t m :
  fiber_inv s -> t_main_fiber (tls_of s t) = Some m -> running (tls_of s t) = Some m ->
  tls_of s t = mkTLS (Some m) (Some m) (Some m)
  /\ exists fm, is_main_fiber (fibers s) m fm.
Proof.
  intros Hi Hm Hr. pose proof (inv_thread s Hi t) as [Hrf Ht]. rewrite Hm in Ht.
  destruct Ht as (fm & ? & _). split; [|eauto].
  destruct (tls_of s t); naive_solver.
Qed.

Lemma at_fiber s t :
  fiber_inv s -> t_fiber (tls_of s t) <> t_main_fiber (tls_of s t) ->
  exists m p f fm, tls_of s t = mkTLS (Some p) (Some m) (Some p)
    /\ is_main_fiber (fibers s) m fm /\ fibers s !! p = Some f /\ p <> m
    /\ m_main f = false /\ m_state f = RUNNING
    /\ ctx_of (m_ctx fm) = m /\ resume_at (m_ctx fm) = RCall.
Proof.
  intros Hi Hne. pose proof (inv_thread s Hi t) as [Hrf Ht].
  destruct (t_main_fiber (tls_of s t)) as [m|] eqn:Hm; [|congruence].
  destruct Ht as (fm & Hfm & [?|(p & f & Hp & Hf & Hmf & Hst & Hc & Hr)]); [congruence|].
  exists m, p, f, fm. rewrite Hp in *. split; [destruct (tls_of s t); naive_solver|].
  naive_solver.
Qed.

Lemma switch_in_inv t m p f s :
  fiber_inv s -> tls_of s t = mkTLS (Some m) (Some m) (Some m) ->
  fibers s !! p = Some f -> m_main f = false -> m_state f <> RUNNING ->
  fiber_inv (switch_in t m p s).
Proof.
  intros Hi Ht Hf Hmf Hst. pose proof (inv_thread s Hi t) as [_ Hth].
  rewrite Ht in Hth; simpl in Hth. destruct Hth as (fm & (Hm & Hmm & Hms) & _).
  assert (p <> m) by naive_solver.
  assert (forall t', t_fiber (tls_of s t') <> Some p) as Hnot.
  { intros t' Ht'. apply (inv_fiber s Hi p f Hf) in Hmf as [[_ Hrun] _]. naive_solver. }
  unfold switch_in. split.
  - intros t'. pose proof (inv_thread s Hi t') as [Hr' Hth']. split; [by fiber_lookups|].
    destruct (decide (t = t')) as [<-|Hne].
    + rewrite tls_of_set, decide_True by done. cbn [t_main_fiber t_fiber].
      exists (fm <| m_ctx := mkCtx m RCall (uc_link (m_ctx fm)) |>). unfold is_main_fiber.
      split; [by fiber_lookups; rewrite Hm|].
      right. exists p, (f <| m_state := RUNNING |>). fiber_lookups. by rewrite Hf.
    + rewrite tls_of_set, decide_False by done. rewrite !tls_of_set_fiber.
      destruct (t_main_fiber (tls_of s t')) as [m'|] eqn:Hm'; [|done].
      assert (m' <> m) by (intros ->; apply Hne, (inv_main s Hi t t' m); [by rewrite Ht|done]).
      destruct Hth' as (fm' & (? & ? & ?) & Hq). assert (m' <> p) by congruence.
      exists fm'. unfold is_main_fiber. fiber_lookups. split; [done|].
      destruct Hq as [?|(q & fq & Hq & ?)]; [by left|right; exists q, fq].
      destruct_and!. assert (q <> p) by congruence. assert (q <> m) by congruence. by fiber_lookups.
  - intros q fq Hq. rewrite fibers_set_tls, !lookup_set_fiber in Hq.
    destruct (decide (m = q)) as [<-|Hqm]; [rewrite decide_False, Hm in Hq by done; injection Hq as <-; intros Hmm'; simpl in Hmm'; congruence|].
    intros Hmq. destruct (decide (p = q)) as [<-|Hqp].
    + rewrite Hf in Hq. simplify_eq/=. split; [|done]. split; [|done]. intros _.
      exists t. by rewrite tls_of_set, decide_True.
    + destruct (inv_fiber s Hi q fq Hq Hmq) as [Hrun Hctx]. split; [|done]. rewrite Hrun.
      split; intros [t' Ht']; exists t'; revert Ht'; tls_cases; rewrite ?Ht; simpl; congruence.
  - intros t1 t2 q. pose proof (inv_excl s Hi t1 t2 q) as Hu. pose proof (Hnot t1). pose proof (Hnot t2).
    tls_cases; simpl; congruence || auto.
  - intros t1 t2 q. pose proof (inv_main s Hi t1 t2 q) as Hu. fiber_lookups; try done.
    + intros. apply Hu; [by rewrite Ht|done].
    + intros. apply Hu; [done|by rewrite Ht].
  - rewrite set_count, !set_fiber_count, fibers_set_tls, !size_set_fiber. apply Hi.
Qed.

Lemma switch_out_inv t m p st r f fm s :
  fiber_inv s -> tls_of s t = mkTLS (Some p) (Some m) (Some p) ->
  is_main_fiber (fibers s) m fm -> fibers s !! p = Some f -> m_main f = false ->
  st <> RUNNING -> resume_ok st r ->
  fiber_inv (switch_out t m p st r s).
Proof.
  intros Hi Ht (Hm & Hmm & Hms) Hf Hmf Hst Hr. assert (p <> m) by congruence.
  assert (forall t', t <> t' -> t_fiber (tls_of s t') <> Some p) as Hnot.
  { intros t' Hne Ht'. apply Hne, (inv_excl s Hi t t' p); [by rewrite Ht|done]. }
  assert (forall t', t_fiber (tls_of s t') <> Some m) as Hnotm.
  { intros t' Ht'. pose proof (inv_thread s Hi t') as [_ Hth].
    destruct (t_main_fiber (tls_of s t')) as [m'|] eqn:Hm'; [|congruence].
    destruct Hth as (fm' & _ & [?|(q & fq & ? & ? & ? & _)]); [|congruence].
    assert (m' = m) as -> by congruence.
    assert (t = t') as <- by (apply (inv_main s Hi t t' m); [by rewrite Ht|done]).
    rewrite Ht in Ht'. simpl in Ht'. congruence. }
  unfold switch_out. split.
  - intros t'. pose proof (inv_thread s Hi t') as [Hr' Hth']. split; [by tls_cases|].
    destruct (decide (t = t')) as [<-|Hne].
    + rewrite tls_of_set, decide_True by done. cbn [t_main_fiber t_fiber].
      exists fm. unfold is_main_fiber. rewrite fibers_set_tls, lookup_set_fiber, decide_False by done.
      auto.
    + rewrite tls_of_set, decide_False by done. rewrite !tls_of_set_fiber, fibers_set_tls.
      destruct (t_main_fiber (tls_of s t')) as [m'|] eqn:Hm'; [|done].
      destruct Hth' as (fm' & (? & ? & ?) & Hq). assert (m' <> p) by congruence.
      exists fm'. unfold is_main_fiber. rewrite lookup_set_fiber, decide_False by done.
      split; [done|]. destruct Hq as [?|(q & fq & Hq & ?)]; [by left|right; exists q, fq].
      assert (q <> p) by (intros ->; by apply (Hnot t')).
      by rewrite lookup_set_fiber, decide_False.
  - intros q fq Hq Hmq. rewrite fibers_set_tls, lookup_set_fiber in Hq.
    destruct (decide (p = q)) as [<-|Hqp].
    + rewrite Hf in Hq. injection Hq as <-. simpl. split; [|done]. split; [done|].
      intros [t' Ht']. exfalso. revert Ht'. tls_cases; simpl; [congruence|]. by apply Hnot.
    + destruct (inv_fiber s Hi q fq Hq Hmq) as [Hrun Hctx]. split; [|done]. rewrite Hrun.
      assert (q <> m) by congruence.
      split; intros [t' Ht']; exists t'; revert Ht'; tls_cases; rewrite ?Ht; simpl; congruence.
  - intros t1 t2 q. pose proof (inv_excl s Hi t1 t2 q) as Hu.
    pose proof (Hnotm t1). pose proof (Hnotm t2). tls_cases; simpl; congruence || auto.
  - intros t1 t2 q. pose proof (inv_main s Hi t1 t2 q) as Hu. tls_cases; try done.
    + intros. apply Hu; [by rewrite Ht|done].
    + intros. apply Hu; [done|by rewrite Ht].
  - rewrite set_count, !set_fiber_count, fibers_set_tls, !size_set_fiber. apply Hi.
Qed.

(** Adding, replacing or removing a fiber that no thread executes, without
    touching the threads. *)
Definition idle_fiber_ok (p : ptr) (f : Fiber) : Prop :=
  m_main f = false /\ m_state f <> RUNNING
  /\ ctx_of (m_ctx f) = p /\ resume_ok (m_state f) (resume_at (m_ctx f)).

Lemma threads_frame s s' p :
  fiber_inv s -> tls s' = tls s ->
  (forall q, q <> p -> fibers s' !! q = fibers s !! q) ->
  (forall t, t_fiber (tls_of s t) <> Some p) ->
  (forall t, t_main_fiber (tls_of s t) <> Some p) ->
  (forall f, fibers s' !! p = Some f -> idle_fiber_ok p f) ->
  s_fiber_count s' = u64 (Z.of_nat (size (fibers s'))) ->
  fiber_inv s'.
Proof.
  intros Hi Htls Hf Hp Hmp Hidle Hc.
  assert (forall t, tls_of s' t = tls_of s t) as Hte.
  { Transparent tls_of. intros t. unfold tls_of. by rewrite Htls. }
  split; [| |intros t1 t2 q; rewrite !Hte; apply Hi|intros t1 t2 q; rewrite !Hte; apply Hi|done].
  - intros t. rewrite Hte. pose proof (inv_thread s Hi t) as [Hr Hth]. split; [done|].
    destruct (t_main_fiber (tls_of s t)) as [m|] eqn:Hm; [|done].
    destruct Hth as (fm & (? & ?) & Hq). exists fm. unfold is_main_fiber.
    rewrite Hf by (intros ->; by eapply Hmp). split; [done|].
    destruct Hq as [?|(q & fq & Hq & ?)]; [by left|right; exists q, fq].
    rewrite Hf; [done|]. intros ->. by eapply Hp.
  - intros q f Hq Hmf. destruct (decide (q = p)) as [->|Hne].
    + destruct (Hidle f Hq) as (? & ? & ?). split; [|done]. split; [done|].
      intros [t Ht]. rewrite Hte in Ht. by apply Hp in Ht.
    + rewrite Hf in Hq by done. destruct (inv_fiber s Hi q f Hq Hmf) as [Hrun ?].
      split; [|done]. rewrite Hrun. by setoid_rewrite Hte.
Qed.
#[global] Opaque tls_of.

(** No thread executes or owns a fiber that is not on the heap, or one that is
    a client fiber at rest. *)
Lemma resting_unused s p :
  fiber_inv s ->
  (forall f, fibers s !! p = Some f -> m_main f = false /\ m_state f <> RUNNING) ->
  (forall t, t_fiber (tls_of s t) <> Some p) /\ (forall t, t_main_fiber (tls_of s t) <> Some p).
Proof.
  intros Hi Hp. split; intros t Ht; pose proof (inv_thread s Hi t) as [_ Hth].
  - destruct (t_main_fiber (tls_of s t)) as [m|] eqn:Hm; [|congruence].
    destruct Hth as (fm & (? & ? & ?) & [?|(q & fq & ? & ? & ? & ? & _)]).
    + assert (m = p) as -> by congruence. apply Hp in H as []. congruence.
    + assert (q = p) as -> by congruence. by apply Hp in H3 as [].
  - rewrite Ht in Hth. destruct Hth as (fm & (? & ? & ?) & _). apply Hp in H as []. congruence.
Qed.

Lemma Fiber_ctor_inv t addr func s s' :
  fiber_inv s -> fibers s !! addr = None ->
  Fiber_ctor t addr func false s = Ok (tt, s') -> fiber_inv s'.
Proof.
  intros Hi Ha. unfold Fiber_ctor. munfold. case_bool_decide; [|done]. intros [= <-].
  destruct (resting_unused s addr Hi) as [Hp Hmp]; [naive_solver|].
  apply (threads_frame s _ addr); simpl; auto.
  - intros q Hq. by rewrite lookup_insert_ne.
  - intros f. rewrite lookup_insert_eq. intros [= <-]. repeat split; simpl; auto.
  - rewrite (inv_count s Hi), u64_add_l, map_size_insert_None by done. f_equal. lia.
Qed.

Lemma reset_inv t p f func s s' :
  fiber_inv s -> fibers s !! p = Some f -> m_main f = false -> m_state f <> RUNNING ->
  reset t p func s = Ok (tt, s') -> fiber_inv s'.
Proof.
  intros Hi Hf Hmf Hst. unfold reset. munfold. case_bool_decide; [|done]. rewrite Hf.
  intros [= <-]. destruct (resting_unused s p Hi) as [Hp Hmp]; [naive_solver|].
  Transparent set_fiber. apply (threads_frame s _ p); auto.
  - intros q Hq. by rewrite lookup_set_fiber, decide_False.
  - intros f'. rewrite lookup_set_fiber, decide_True, Hf by done. intros [= <-].
    repeat split; simpl; auto.
  - rewrite set_fiber_count, size_set_fiber. apply Hi.
Qed.
#[global] Opaque set_fiber.

Lemma Fiber_dtor_inv t p f s s' :
  fiber_inv s -> fibers s !! p = Some f -> m_main f = false ->
  Fiber_dtor t p s = Ok (tt, s') -> fiber_inv s'.
Proof.
  intros Hi Hf Hmf. unfold Fiber_dtor. munfold. simpl. rewrite Hf.
  assert (forall s0, tls s0 = tls s -> t_main_fiber (tls_of s0 t) <> Some p) as Hnm.
  { Transparent tls_of. intros s0 Htl Hm. unfold tls_of in Hm. rewrite Htl in Hm.
    pose proof (inv_thread s Hi t) as [_ Hth]. unfold tls_of in Hth. rewrite Hm in Hth.
    destruct Hth as (fm & (? & ? & ?) & _). congruence. }
  rewrite bool_decide_false by (by apply Hnm).
  destruct (bool_decide_reflect (m_state f = RUNNING)) as [|Hst]; [done|]. intros [= <-].
  destruct (resting_unused s p Hi) as [Hp Hmp]; [naive_solver|].
  apply (threads_frame s _ p); simpl; auto.
  - intros q Hq. by rewrite lookup_delete_ne.
  - intros f'. by rewrite lookup_delete_eq.
  - rewrite (inv_count s Hi). replace (u64 (Z.of_nat (size (fibers s))) - 1)
      with (u64 (Z.of_nat (size (fibers s))) + -1) by lia. rewrite u64_add_l.
    rewrite map_size_delete_Some by eauto. f_equal.
    assert (size (fibers s) <> 0%nat) by (eapply map_size_ne_0_lookup_2; eauto). lia.
Qed.
#[global] Opaque tls_of.

(** The system after a thread gets its main fiber. *)
Definition with_main (t : tid) (addr : ptr) (s : fiber_sys) : fiber_sys :=
  mkFiberSys (<[addr := mkFiber 0 (mkCtx addr RCall None) None true RUNNING]> (fibers s))
    (s_fiber_id s) (u64 (s_fiber_count s + 1))
    (<[t := mkTLS (Some addr) (Some addr) (Some addr)]> (tls s)).

Lemma MakeMain_eq t addr s :
  t_main_fiber (tls_of s t) = None -> MakeMain t addr s = Ok (tt, with_main t addr s).
Proof.
  intros Hm. unfold MakeMain, Fiber_main_ctor. munfold.
  do 2 (rewrite Hm, bool_decide_false by (by intros [? ?]); simpl).
  Transparent set_tls tls_of. unfold set_tls, tls_of; simpl.
  by rewrite lookup_insert_eq, insert_insert_eq.
Qed.

Lemma tls_of_with_main t addr s t' :
  tls_of (with_main t addr s) t'
  = if decide (t = t') then mkTLS (Some addr) (Some addr) (Some addr) else tls_of s t'.
Proof. unfold tls_of; simpl. rewrite lookup_insert. by case_decide. Qed.
#[global] Opaque set_tls tls_of.

Lemma GetThis_inv t addr p s s' :
  fiber_inv s -> fibers s !! addr = None -> GetThis t addr s = Ok (p, s') -> fiber_inv s'.
Proof.
  intros Hi Ha. unfold GetThis. munfold. case_bool_decide as Hf.
  { destruct (t_fiber (tls_of s t)); naive_solver. }
  pose proof (inv_thread s Hi t) as [Hr Hth].
  destruct (t_main_fiber (tls_of s t)) as [m|] eqn:Hm.
  { destruct Hth as (? & _ & [?|(? & ? & ? & _)]); naive_solver. }
  rewrite MakeMain_eq by done. rewrite tls_of_with_main, decide_True by done. intros [= _ <-].
  pose proof (tls_of_with_main t addr s) as Hte.
  assert (fibers (with_main t addr s)
          = <[addr := mkFiber 0 (mkCtx addr RCall None) None true RUNNING]> (fibers s)) as Hfb by done.
  assert (s_fiber_count (with_main t addr s) = u64 (s_fiber_count s + 1)) as Hc by done.
  destruct (resting_unused s addr Hi) as [Hp Hmp]; [naive_solver|].
  split.
  - intros t'. rewrite Hte, Hfb. case_decide as Hd.
    + split; [done|]. simpl. eexists. split; [|by left]. split; [apply lookup_insert_eq|done].
    + pose proof (inv_thread s Hi t') as [Hr' Hth']. split; [done|].
      destruct (t_main_fiber (tls_of s t')) as [m'|] eqn:Hm'; [|done].
      destruct Hth' as (fm & (Hl & ?) & Hq). exists fm. unfold is_main_fiber.
      rewrite lookup_insert_ne by congruence. split; [done|].
      destruct Hq as [?|(q & fq & ? & Hq & ?)]; [by left|right; exists q, fq].
      rewrite lookup_insert_ne by congruence. done.
  - intros q f. rewrite Hfb. intros Hq Hmf. apply lookup_insert_Some in Hq as [[<- <-]|[Hne Hq]]; [done|].
    destruct (inv_fiber s Hi q f Hq Hmf) as [Hrun ?]. split; [|done]. rewrite Hrun.
    split; intros [t' Ht']; exists t'; revert Ht'; rewrite Hte; case_decide; subst; simpl; congruence.
  - intros t1 t2 q. rewrite !Hte. pose proof (inv_excl s Hi t1 t2 q).
    repeat case_decide; subst; simpl; auto; intros; exfalso; naive_solver.
  - intros t1 t2 q. rewrite !Hte. pose proof (inv_main s Hi t1 t2 q).
    repeat case_decide; subst; simpl; auto; intros; exfalso; naive_solver.
  - rewrite Hc, Hfb, (inv_count s Hi), u64_add_l, map_size_insert_None by done. f_equal. lia.
Qed.

Lemma Yield_to_inv st t r s s' :
  fiber_inv s -> st = SUSPEND \/ st = READY ->
  Yield_to st t s = Ok (Some r, s') -> fiber_inv s'.
Proof.
  intros Hi Hst Hy. destruct (decide (t_fiber (tls_of s t) = t_main_fiber (tls_of s t))) as [He|He].
  { unfold Yield_to in Hy. munfold. by rewrite bool_decide_true in Hy. }
  destruct (at_fiber s t Hi He) as (m & p & f & fm & Ht & Hm & Hf & Hne & Hmf & Hr & Hc & Hre).
  rewrite (Yield_to_eq st t m p f fm) in Hy by (done || apply Hm). injection Hy as _ <-.
  eapply switch_out_inv; try done; destruct Hst as [-> | ->]; simpl; auto.
Qed.

Lemma fiber_step_inv s s' : fiber_inv s -> fiber_step s s' -> fiber_inv s'.
Proof.
  intros Hi Hst; revert Hi; destruct Hst as
    [t addr p s s' Ha Hg|t addr func s s' Ha Hn|t p f r s s' Hrun Hf Hmf Hd Hc|t r s s' Hy|t r s s' Hy
    |t cur o r s s' Hcur Hnm He|t p f func s s' Hf Hmf Hst Hre Hrs|t p f s s' Hf Hmf Hd]; intros Hi.
  - by eapply GetThis_inv.
  - by eapply Fiber_ctor_inv.
  - destruct (t_main_fiber (tls_of s t)) as [m|] eqn:Hm.
    + destruct (at_main s t m Hi Hm Hrun) as [Ht (fm & Hfm & Hmm & Hms)].
      destruct (decide (m_state f = RUNNING)) as [Hr|Hr].
      { unfold call in Hc. munfold. rewrite Hf, Hmf in Hc. simpl in Hc. by rewrite Hr in Hc. }
      destruct (inv_fiber s Hi p f Hf Hmf) as [_ Hctx]. apply Hctx in Hr as Hctx'.
      rewrite (call_eq t m p f fm) in Hc; try done; try apply Hctx'; try congruence.
      * injection Hc as _ <-. by eapply switch_in_inv.
      * intros Ht'. unfold isDone in Hd. by rewrite Ht' in Hd.
    + unfold call, swapcontext in Hc. munfold. rewrite Hf, Hmf in Hc. simpl in Hc.
      repeat case_bool_decide; simpl in Hc; try done. by rewrite Hm in Hc.
  - eapply Yield_to_inv; [done|left; reflexivity|done].
  - eapply Yield_to_inv; [done|right; reflexivity|done].
  - assert (t_fiber (tls_of s t) <> t_main_fiber (tls_of s t)) as Hne.
    { pose proof (inv_thread s Hi t) as [? _]. congruence. }
    destruct (at_fiber s t Hi Hne) as (m & p & f & fm & Ht & Hm & Hf & Hpm & Hmf & Hr & Hc & Hre).
    rewrite Ht in Hcur. injection Hcur as <-.
    rewrite (MainFunc_exit_eq o t m p f fm) in He by (done || apply Hm).
    destruct o; [injection He as _ <-|injection He as _ <-|done];
      by eapply switch_out_inv.
  - by eapply reset_inv.
  - by eapply Fiber_dtor_inv.
Qed.

Lemma fiber_inv_init : fiber_inv fiber_sys_init.
Proof.
  Transparent tls_of. split; unfold fiber_sys_init, tls_of; simpl.
  - intros t. rewrite lookup_empty. done.
  - intros p f. by rewrite lookup_empty.
  - intros t1 t2 p. rewrite lookup_empty. done.
  - intros t1 t2 p. rewrite lookup_empty. done.
  - done.
Qed.
#[global] Opaque tls_of.

Lemma reachable_inv s : star fiber_step fiber_sys_init s -> fiber_inv s.
Proof. intros H. eapply star_invariant; [apply fiber_step_inv|exact H|apply fiber_inv_init]. Qed.

(** ** Concrete systems for the witnesses *)

Definition run_state {S A} (m : M S A) (s : S) : S :=
  match m s with Ok (_, s') => s' | _ => s end.

(** Thread 1 with its main fiber 10 and two client fibers 11 and 12. *)
Definition demo_main : fiber_sys := run_state (GetThis 1%nat 10%nat) fiber_sys_init.
Definition demo_one : fiber_sys := run_state (Fiber_ctor 1%nat 11%nat (Some (User 0)) false) demo_main.
Definition demo_two : fiber_sys := run_state (Fiber_ctor 1%nat 12%nat (Some (User 1)) false) demo_one.
Definition demo_called : fiber_sys := run_state (call 1%nat 11%nat) demo_two.
Definition demo_failed : fiber_sys := run_state (MainFunc_exit 1%nat 11%nat ThrewStd) demo_called.

Lemma demo_two_reachable : star fiber_step fiber_sys_init demo_two.
Proof.
  eapply star_step; [apply (FsGetThis 1%nat 10%nat 10%nat fiber_sys_init demo_main); vm_compute; reflexivity|].
  eapply star_step; [apply (FsNew 1%nat 11%nat (Some (User 0)) demo_main demo_one); vm_compute; reflexivity|].
  eapply star_step; [apply (FsNew 1%nat 12%nat (Some (User 1)) demo_one demo_two); vm_compute; reflexivity|].
  apply star_refl.
Qed.

Lemma demo_called_reachable : star fiber_step fiber_sys_init demo_called.
Proof.
  eapply star_trans; [apply demo_two_reachable|].
  eapply star_one, (FsCall 1%nat 11%nat _ REntry demo_two demo_called); vm_compute; reflexivity.
Qed.

Lemma demo_failed_reachable : star fiber_step fiber_sys_init demo_failed.
Proof.
  eapply star_trans; [apply demo_called_reachable|].
  eapply star_one, (FsFinish 1%nat 11%nat ThrewStd RCall demo_called demo_failed);
    vm_compute; [reflexivity|discriminate|reflexivity].
Qed.

(** ** Properties *)



(** C23: in a reachable system, [call] from a thread's main fiber on a client
    fiber that is neither executing nor done succeeds and continues the fiber
    where it stopped; when the fiber then yields, the thread is back behind
    [call] in its main fiber exactly as before, the fiber is suspended, all
    other client fibers are untouched, and the next [call] continues behind the
    [Yield]. *)
Theorem call_yield_roundtrip s t m p f :
  star fiber_step fiber_sys_init s ->
  t_main_fiber (tls_of s t) = Some m -> running (tls_of s t) = Some m ->
  fibers s !! p = Some f -> m_main f = false -> m_state f <> RUNNING -> isDone f = false ->
  exists s1 s2 f2 s3,
    call t p s = Ok (Some (resume_at (m_ctx f)), s1)
    /\ Yield t s1 = Ok (Some RCall, s2)
    /\ tls_of s2 t = tls_of s t
    /\ fibers s2 !! p = Some f2 /\ m_state f2 = SUSPEND /\ m_func f2 = m_func f
    /\ (forall q, q <> p -> q <> m -> fibers s2 !! q = fibers s !! q)
    /\ call t p s2 = Ok (Some RBody, s3).
Proof.
  intros Hi%reachable_inv Hm Hr Hf Hmf Hst Hd.
  destruct (at_main s t m Hi Hm Hr) as [Ht (fm & Hfm & Hmm & Hms)].
  assert (p <> m) by congruence.
  destruct (inv_fiber s Hi p f Hf Hmf) as [_ Hctx]. pose proof (Hctx Hst) as [Hc _].
  assert (m_state f <> TERM) by (intros E; unfold isDone in Hd; by rewrite E in Hd).
  pose proof (call_eq t m p f fm s Ht Hfm Hf ltac:(done) Hmf Hst ltac:(done) Hc) as Hcall.
  destruct (switch_in_lookup t m p f fm s Hf Hfm ltac:(done)) as (Hp1 & Hm1 & Ht1 & Hq1).
  set (s1 := switch_in t m p s) in *.
  pose proof (Yield_to_eq SUSPEND t m p _ _ s1 Ht1 Hm1 Hp1 ltac:(done) eq_refl eq_refl) as Hy.
  destruct (switch_out_lookup t m p SUSPEND RBody _ s1 Hp1) as (Hp2 & Ht2 & Hq2).
  set (s2 := switch_out t m p SUSPEND RBody s1) in *.
  assert (fibers s2 !! m = fibers s1 !! m) as Hm2 by (by apply Hq2). rewrite Hm1 in Hm2.
  pose proof (call_eq t m p _ _ s2 Ht2 Hm2 Hp2 ltac:(done) Hmf ltac:(done) ltac:(done) eq_refl) as Hcall2.
  eexists _, _, _, _. split; [exact Hcall|]. split; [exact Hy|]. split; [by rewrite Ht2|].
  split; [exact Hp2|]. split; [done|]. split; [done|]. split; [|exact Hcall2].
  intros q Hqp Hqm. by rewrite Hq2, Hq1.
Qed.

Lemma call_yield_roundtrip_witness :
  exists s1 s2 f2 s3,
    call 1%nat 11%nat demo_two = Ok (Some REntry, s1)
    /\ Yield 1%nat s1 = Ok (Some RCall, s2)
    /\ tls_of s2 1%nat = tls_of demo_two 1%nat
    /\ fibers s2 !! 11%nat = Some f2 /\ m_state f2 = SUSPEND /\ m_func f2 = Some (User 0)
    /\ (forall q, q <> 11%nat -> q <> 10%nat -> fibers s2 !! q = fibers demo_two !! q)
    /\ call 1%nat 11%nat s2 = Ok (Some RBody, s3).
Proof.
  apply (call_yield_roundtrip demo_two 1%nat 10%nat 11%nat
           (mkFiber 1 (mkCtx 11%nat REntry None) (Some (User 0)) false READY));
    [apply demo_two_reachable|vm_compute; reflexivity..|vm_compute; discriminate|vm_compute; reflexivity].
Defined.

Lemma swapcontext_eq t save load r s cur fsv fl :
  running (tls_of s t) = Some cur -> fibers s !! save = Some fsv -> fibers s !! load = Some fl ->
  save <> load ->
  swapcontext t (Some save) (Some load) r s
  = Ok (resume_at (m_ctx fl),
        set_tls t (fun l => l <| running := Some (ctx_of (m_ctx fl)) |>)
          (set_fiber save (fun f => f <| m_ctx := mkCtx cur r (uc_link (m_ctx f)) |>) s)).
Proof.
  intros Hr Hs Hl Hne. unfold swapcontext. munfold. rewrite Hr, Hs.
  by rewrite lookup_set_fiber, decide_False, Hl.
Qed.

(** [call] from inside a fiber [p]: the main fiber's context now holds [p]. *)
Lemma call_from_fiber t m p q f fm s :
  tls_of s t = mkTLS (Some p) (Some m) (Some p) ->
  fibers s !! m = Some fm -> fibers s !! q = Some f -> q <> m ->
  m_main f = false -> m_state f <> RUNNING -> m_state f <> TERM -> ctx_of (m_ctx f) = q ->
  exists s1, call t q s = Ok (Some (resume_at (m_ctx f)), s1)
    /\ tls_of s1 t = mkTLS (Some q) (Some m) (Some q)
    /\ fibers s1 !! m = Some (fm <| m_ctx := mkCtx p RCall (uc_link (m_ctx fm)) |>)
    /\ fibers s1 !! q = Some (f <| m_state := RUNNING |>).
Proof.
  intros Ht Hfm Hf Hqm Hmf Hst Htm Hc. eexists. split; [|split; [|split]].
  - unfold call. munfold. rewrite Hf, Hmf, Ht. cbn [andb t_main_fiber t_fiber].
    rewrite !bool_decide_false by done. cbn [andb negb].
    erewrite (swapcontext_eq t m q RCall _ p _ (f <| m_state := RUNNING |>)); [reflexivity|..|done].
    + rewrite tls_of_set_fiber, tls_of_set, decide_True, Ht by done. reflexivity.
    + rewrite lookup_set_fiber, decide_False by done. exact Hfm.
    + rewrite lookup_set_fiber, decide_True by done. by rewrite fibers_set_tls, Hf.
  - rewrite tls_of_set, decide_True by done.
    rewrite !tls_of_set_fiber, tls_of_set, decide_True, Ht by done. simpl. by rewrite Hc.
  - rewrite fibers_set_tls, lookup_set_fiber, decide_True by done.
    by rewrite lookup_set_fiber, decide_False, fibers_set_tls, Hfm by done.
  - rewrite fibers_set_tls, !lookup_set_fiber, decide_False by done.
    by rewrite decide_True, fibers_set_tls, Hf by done.
Qed.

(** [call] saves the calling stack in the thread's main fiber whoever
    calls.  A fiber [p] that calls another fiber [q] (instead of its main fiber
    doing so) therefore overwrites the main fiber's saved stack: when [q]
    yields, execution continues in [p] although [t_fiber] names the main
    fiber, and from then on [p] can no longer yield. *)
Theorem nested_call_loses_main s t m p q f :
  star fiber_step fiber_sys_init s ->
  t_main_fiber (tls_of s t) = Some m -> running (tls_of s t) = Some p -> p <> m ->
  fibers s !! q = Some f -> m_main f = false -> m_state f <> RUNNING -> isDone f = false ->
  exists r s1 s2,
    call t q s = Ok (Some r, s1)
    /\ Yield t s1 = Ok (Some RCall, s2)
    /\ running (tls_of s2 t) = Some p /\ t_fiber (tls_of s2 t) = Some m
    /\ Yield t s2 = Ok (None, s2).
Proof.
  intros Hi%reachable_inv Hm Hr Hpm Hf Hmf Hst Hd.
  assert (t_fiber (tls_of s t) <> t_main_fiber (tls_of s t)) as Hne.
  { pose proof (inv_thread s Hi t) as [? _]. congruence. }
  destruct (at_fiber s t Hi Hne) as (m' & p' & fp & fm & Ht & (Hfm & Hmm & Hms) & Hfp & _ & Hmp & Hsp & _).
  rewrite Ht in Hm, Hr. injection Hm as ->. injection Hr as ->.
  assert (q <> m) by congruence.
  assert (m_state f <> TERM) by (intros E; unfold isDone in Hd; by rewrite E in Hd).
  pose proof (inv_fiber s Hi q f Hf Hmf) as [_ Hctx]. pose proof (Hctx Hst) as [Hc _].
  destruct (call_from_fiber t m p q f fm s) as (s1 & Hcall & Ht1 & Hm1 & Hq1); try done.
  eexists _, s1, _. split; [exact Hcall|]. split.
  { unfold Yield, Yield_to, GetThis. munfold. rewrite Ht1. cbn [t_fiber t_main_fiber].
    rewrite bool_decide_false by naive_solver. rewrite Ht1. cbn [t_fiber].
    rewrite bool_decide_true, Ht1 by eauto. cbn [t_fiber].
    erewrite (swapcontext_eq t q m RBody _ q _ (fm <| m_ctx := mkCtx p RCall (uc_link (m_ctx fm)) |>));
      [reflexivity|..|done].
    - rewrite tls_of_set, decide_True, tls_of_set_fiber, Ht1 by done. reflexivity.
    - rewrite fibers_set_tls, lookup_set_fiber, decide_True, Hq1 by done. reflexivity.
    - rewrite fibers_set_tls, lookup_set_fiber, decide_False by done. exact Hm1. }
  set (s2 := set_tls _ _ _).
  assert (tls_of s2 t = mkTLS (Some m) (Some m) (Some p)) as Ht2.
  { unfold s2. rewrite tls_of_set, decide_True, tls_of_set_fiber, tls_of_set, decide_True by done.
    by rewrite tls_of_set_fiber, Ht1. }
  split; [by rewrite Ht2|]. split; [by rewrite Ht2|].
  unfold Yield, Yield_to. munfold. rewrite Ht2. by rewrite bool_decide_true.
Qed.

Lemma nested_call_loses_main_witness :
  exists r s1 s2,
    call 1%nat 12%nat demo_called = Ok (Some r, s1)
    /\ Yield 1%nat s1 = Ok (Some RCall, s2)
    /\ running (tls_of s2 1%nat) = Some 11%nat /\ t_fiber (tls_of s2 1%nat) = Some 10%nat
    /\ Yield 1%nat s2 = Ok (None, s2).
Proof.
  apply (nested_call_loses_main demo_called 1%nat 10%nat 11%nat 12%nat
           (mkFiber 2 (mkCtx 12%nat REntry None) (Some (User 1)) false READY));
    [apply demo_called_reachable|vm_compute; reflexivity|vm_compute; reflexivity|discriminate
    |vm_compute; reflexivity|reflexivity|discriminate|reflexivity].
Defined.

(** the guard of [call] rejects TERM but not EXCEPT.  Calling a fiber whose
    function threw passes the assertion and resumes it behind the last line of
    [MainFunc]; a fiber that was never [reset] has no linked context, so the
    calling thread exits. *)
Theorem call_of_failed_fiber_exits_thread s t m p f :
  star fiber_step fiber_sys_init s ->
  t_main_fiber (tls_of s t) = Some m -> running (tls_of s t) = Some m ->
  fibers s !! p = Some f -> m_main f = false -> m_state f = EXCEPT -> uc_link (m_ctx f) = None ->
  exists s1, call t p s = Ok (Some REnd, s1)
             /\ MainFunc_return t s1 = Terminated "thread exit: uc_link is null".
Proof.
  intros Hi%reachable_inv Hm Hr Hf Hmf Hst Hl.
  destruct (at_main s t m Hi Hm Hr) as [Ht (fm & Hfm & Hmm & Hms)].
  assert (p <> m) by congruence.
  destruct (inv_fiber s Hi p f Hf Hmf) as [_ Hctx]. destruct Hctx as [Hc Hre]; [congruence|].
  rewrite Hst in Hre. simpl in Hre.
  rewrite (call_eq t m p f fm s) by (done || congruence). rewrite Hre. eexists. split; [done|].
  destruct (switch_in_lookup t m p f fm s Hf Hfm ltac:(done)) as (Hp1 & _ & Ht1 & _).
  unfold MainFunc_return. munfold. rewrite Ht1. cbn [running]. rewrite Hp1. simpl. by rewrite Hl.
Qed.

Lemma call_of_failed_fiber_exits_thread_witness :
  exists s1, call 1%nat 11%nat demo_failed = Ok (Some REnd, s1)
             /\ MainFunc_return 1%nat s1 = Terminated "thread exit: uc_link is null".
Proof.
  apply (call_of_failed_fiber_exits_thread demo_failed 1%nat 10%nat 11%nat
           (mkFiber 1 (mkCtx 11%nat REnd None) (Some (User 0)) false EXCEPT));
    [apply demo_failed_reachable|vm_compute; reflexivity..].
Defined.
