(* ===== verification/Scheduler.v ===== *)
(** * Scheduler (src/src/scheduler.h, src/src/scheduler.cpp)

    The object's fields, its base class [TimerManager], and its operations as
    they execute under [m_mutex].  The number of bytes in the tickle pipe stands
    for the pipe: its write end is blocking, so a one-byte [write] returns 1.
    The loop of [run] and [idle] is in SchedulerThreads.v, thread by thread. *)

From S2P Require Import Prelude Timer Fiber.

Definition MAX_EVENTS : Z := 256.
Definition EPOLL_WAIT_TIMEOUT_MS : Z := 3000.

(** [Scheduler::Task] *)
Record Task := mkTask {
  fiber : option ptr;
  func : option closure;
  thread_id : Z;
}.
#[export] Instance eta_Task : Eta Task := fun k => mkTask (fiber k) (func k) (thread_id k).

#[export] Instance Task_eq_dec : EqDecision Task.
Proof. solve_decision. Defined.

(** The constructors of [Task] and [Task::reset]. *)
Definition Task_fiber (fb : ptr) (thr_id : Z) : Task := mkTask (Some fb) None thr_id.
Definition Task_func (fc : closure) (thr_id : Z) : Task := mkTask None (Some fc) thr_id.
Definition Task_empty : Task := mkTask None None (-1).

(** [tk.fiber || tk.func] *)
Definition has_work (tk : Task) : bool :=
  bool_decide (is_Some (fiber tk)) || bool_decide (is_Some (func tk)).

Record Scheduler := mkScheduler {
  base : TimerManager;
  m_mutex : option tid;             (* the thread that holds it *)
  m_name : string;
  m_threads : list string;          (* one running Thread per name *)
  m_tasks : list Task;
  m_thread_count : nat;
  m_stopped : bool;
  m_stopping : bool;
  m_auto_stop : bool;
  m_active_threads : Z;             (* std::atomic<size_t> *)
  m_idle_threads : Z;               (* std::atomic<size_t> *)
  m_pending_count : Z;              (* std::atomic<size_t> *)
  tickle_pipe : nat;                (* bytes in m_tickle_fds *)
}.
#[export] Instance eta_Scheduler : Eta Scheduler := fun s =>
  mkScheduler (base s) (m_mutex s) (m_name s) (m_threads s) (m_tasks s) (m_thread_count s)
    (m_stopped s) (m_stopping s) (m_auto_stop s) (m_active_threads s) (m_idle_threads s)
    (m_pending_count s) (tickle_pipe s).

(** [Scheduler::Scheduler]; the descriptor calls of the constructor succeed. *)
Definition Scheduler_ctor (threads : Z) (name : string) : res Scheduler :=
  if threads >? 0 then
    Ok (mkScheduler empty_TimerManager None name [] [] (Z.to_nat threads) true false false 0 0 0 0)
  else AssertFailed "scheduler.cpp:26".

(** [Scheduler::~Scheduler] *)
Definition Scheduler_dtor : M Scheduler unit :=
  let! s := mget in
  ASSERT "scheduler.cpp:50" (negb (m_stopping s)) ;;;
  ASSERT "scheduler.cpp:51" (m_stopped s).

(** [Scheduler::tickle] *)
Definition tickle (s : Scheduler) : Scheduler :=
  if m_idle_threads s <=? 0 then s else s <| tickle_pipe := S (tickle_pipe s) |>.

(** [Scheduler::schedule(f, thr)], under [m_mutex]. *)
Definition schedule (tk : Task) (s : Scheduler) : Scheduler :=
  let need_tickle := bool_decide (m_tasks s = []) in
  let s' := s <| m_tasks := m_tasks s ++ [tk] |> in
  if need_tickle then tickle s' else s'.

(** [Scheduler::schedule(a, b, thr)] over a vector of functions. *)
Definition schedule_range (fs : list closure) (thr : Z) (s : Scheduler) : Scheduler :=
  let need_tickle := bool_decide (m_tasks s = []) in
  let s' := s <| m_tasks := m_tasks s ++ ((fun c => Task_func c thr) <$> fs) |> in
  if need_tickle then tickle s' else s'.

(** [Scheduler::onFirstTimerChanged] *)
Definition onFirstTimerChanged (s : Scheduler) : Scheduler := tickle s.

(** The inherited [addTimer], with the overridden [onFirstTimerChanged]. *)
Definition sched_addTimer (addr : ptr) (now period : Z) (f : closure) (recurring : bool)
    (s : Scheduler) : ptr * Scheduler :=
  let '(p, changed, tm) := addTimer addr now period f recurring (base s) in
  let s' := s <| base := tm |> in
  (p, if changed then onFirstTimerChanged s' else s').

(** [Scheduler::shouldStop] *)
Definition shouldStop (s : Scheduler) : bool :=
  negb (hasTimers (base s)) && m_auto_stop s && m_stopping s && bool_decide (m_tasks s = [])
  && (m_active_threads s =? 0) && (m_pending_count s =? 0).

(** [Scheduler::start]: thread [i] is called [name_i].  The non-empty check is
    an ASSERT. *)
Definition start (to_string : nat -> string) : M Scheduler unit :=
  let! s := mget in
  if m_stopping s then mret_M tt
  else
    mmodify (fun s => s <| m_stopped := false |>) ;;;
    ASSERT "scheduler.cpp:63" (bool_decide (m_threads s = [])) ;;;
    mmodify (fun s => s <| m_threads :=
      (fun i => (m_name s +:+ "_" +:+ to_string i)%string) <$> seq 0 (m_thread_count s) |>).

(** [Scheduler::stop]: its first critical section and the wake-ups; then the
    threads are joined; then its last critical section. *)
Definition stop_flags (s : Scheduler) : Scheduler :=
  s <| m_auto_stop := true |> <| m_stopping := true |>.

Definition stop_request (s : Scheduler) : Scheduler :=
  Nat.iter (m_thread_count s) tickle (stop_flags s).

Definition stop_finish (s : Scheduler) : Scheduler :=
  s <| m_threads := [] |> <| m_stopping := false |> <| m_stopped := true |> <| m_auto_stop := false |>.

(** The timeout [idle] passes to [epoll_wait]. *)
Definition idle_timeout (now : Z) (s : Scheduler) : Z :=
  let next_time := getNextTimeMs now (base s) in
  if negb (next_time =? u64_max) && (next_time <? EPOLL_WAIT_TIMEOUT_MS) then next_time
  else EPOLL_WAIT_TIMEOUT_MS.

#[global] Arguments tickle : simpl never.
#[global] Arguments schedule : simpl never.
#[global] Arguments schedule_range : simpl never.
#[global] Arguments sched_addTimer : simpl never.
#[global] Arguments shouldStop : simpl never.
