(* ===== verification/SchedulerThreads.v ===== *)
(** * The scheduler's threads (Scheduler::run and Scheduler::idle)

    The worker threads of a scheduler, the client code they run and the threads
    outside the scheduler, interleaved at the granularity of the source's
    critical sections and atomic operations.  [exec] gives each step of
    src/src/scheduler.cpp as a function: [None] when the step is not enabled
    (another program point, or a lock held by another thread), otherwise the
    outcome of the step.  A worker's local variables are those of [run] and
    [idle]; its idle fiber is private to [run], so the worker keeps its state,
    and the client's fibers are seen through their states, as Fiber.v's
    operations change them (section Refinement).  What the client's code does
    is left open: any label may come next.  Three ghost fields record the
    history: every task ever queued, every task ever taken, and the number of
    tasks dropped without being run. *)

From S2P Require Import Prelude Timer Fiber Scheduler.

(** ** Threads *)

(** Program points of a worker. *)
Inductive pc :=
| PTop          (* run: head of the loop, before m_mutex *)
| PScan         (* run: in the search loop, holding m_mutex *)
| PTaken        (* run: behind the critical section *)
| PTickle       (* run: m_active_threads counted, before if (need_tickle) *)
| PDispatch     (* run: before if (tk.fiber && ...) *)
| PFiber        (* a fiber task executes *)
| PFiberBack    (* behind tk.fiber->call(), before --m_active_threads *)
| PFiberDec     (* before the test for READY *)
| PFunc         (* a function task executes on func_fiber *)
| PFuncBack     (* behind func_fiber->call(), before --m_active_threads *)
| PFuncDec      (* before the tests of func_fiber's state *)
| PIdleCall     (* m_idle_threads counted, before idle_fiber->call() *)
| IStop         (* idle: before shouldStop() *)
| IWait         (* idle: in epoll_wait *)
| IExpire       (* idle: before getExpiredFuncs *)
| ISched        (* idle: before schedule(expired_funcs) *)
| IEvents       (* idle: in the event loop, before Yield *)
| PIdleBack     (* behind idle_fiber->call(), before --m_idle_threads *)
| PExit.        (* run returned *)

#[export] Instance pc_eq_dec : EqDecision pc.
Proof. solve_decision. Defined.

Record Worker := mkWorker {
  at_pc : pc;
  tk : Task;
  need_tickle : bool;
  func_fiber : option ptr;
  idle_state : State;               (* idle_fiber->getState() *)
  tickled : bool;                   (* epoll reported the pipe *)
  expired_funcs : list closure;
}.
#[export] Instance eta_Worker : Eta Worker := fun w =>
  mkWorker (at_pc w) (tk w) (need_tickle w) (func_fiber w) (idle_state w) (tickled w) (expired_funcs w).

Definition idle_isDone (w : Worker) : bool :=
  match idle_state w with TERM | EXCEPT => true | _ => false end.

(** The prologue of [run]. *)
Definition Worker_init : Worker := mkWorker PTop Task_empty false None READY false [].

Record Sys := mkSys {
  sch : Scheduler;
  fstate : gmap ptr State;          (* the client fibers' m_state *)
  workers : gmap tid Worker;
  submitted : list Task;            (* ghost *)
  taken : list Task;                (* ghost *)
  dropped : nat;                    (* ghost *)
}.
#[export] Instance eta_Sys : Eta Sys := fun s =>
  mkSys (sch s) (fstate s) (workers s) (submitted s) (taken s) (dropped s).

(** What code of the client may do: while it runs as a task of a worker, or on
    a thread outside the scheduler. *)
Inductive action :=
| ASchedule (k : Task)
| AAddTimer (addr : ptr) (now period : Z) (f : closure) (recurring : bool)
| ACancel (timer : ptr)
| ANewFiber (addr : ptr)
| APending (n : Z).                 (* IOManager: m_pending_count becomes n *)

(** How a running task comes back to [run]. *)
Inductive comeback := CYield | CYieldReady | CReturn | CThrow.

Inductive label :=
| LRun (t : tid)                    (* the next line of run or idle *)
| LDispatch (t : tid) (addr : ptr)  (* run: the dispatch, allocating at addr *)
| LEpoll (t : tid) (pipe : bool)    (* epoll_wait returns, with the pipe or not *)
| LExpire (t : tid) (now : Z)       (* idle: getExpiredFuncs *)
| LEvent (t : tid) (k : Task)       (* idle: scheduleEvent queues a task *)
| LBody (t : tid) (a : action)      (* the running task acts *)
| LBack (t : tid) (c : comeback)    (* the running task comes back *)
| LOutside (a : action)             (* a thread outside the scheduler acts *)
| LStop                             (* ... calls stop(): its first critical section *)
| LTickle.                          (* ... one of the wake-ups of stop() *)

#[export] Instance action_eq_dec : EqDecision action.
Proof. solve_decision. Defined.

#[export] Instance comeback_eq_dec : EqDecision comeback.
Proof. solve_decision. Defined.

#[export] Instance label_eq_dec : EqDecision label.
Proof. solve_decision. Defined.

(** ** Steps *)

Definition set_worker (t : tid) (w : Worker) (s : Sys) : Sys :=
  s <| workers := <[t := w]> (workers s) |>.

Definition queue (k : Task) (s : Sys) : Sys :=
  s <| sch := schedule k (sch s) |> <| submitted := submitted s ++ [k] |>.

Definition lock_free (s : Sys) : bool := bool_decide (m_mutex (sch s) = None).

Definition guard (b : bool) (r : res Sys) : option (res Sys) := if b then Some r else None.

(** [++] and [--] on the [std::atomic<size_t>] counters. *)
Definition incr_active (s : Sys) : Sys :=
  s <| sch := (sch s) <| m_active_threads := u64 (m_active_threads (sch s) + 1) |> |>.
Definition decr_active (s : Sys) : Sys :=
  s <| sch := (sch s) <| m_active_threads := u64 (m_active_threads (sch s) - 1) |> |>.
Definition incr_idle (s : Sys) : Sys :=
  s <| sch := (sch s) <| m_idle_threads := u64 (m_idle_threads (sch s) + 1) |> |>.
Definition decr_idle (s : Sys) : Sys :=
  s <| sch := (sch s) <| m_idle_threads := u64 (m_idle_threads (sch s) - 1) |> |>.

(** [run], lines 114 and 115: lock and start the search. *)
Definition step_top (t : tid) (w : Worker) (s : Sys) : option (res Sys) :=
  guard (lock_free s)
    (Ok (set_worker t (w <| at_pc := PScan |> <| tk := Task_empty |> <| need_tickle := false |>)
           (s <| sch := (sch s) <| m_mutex := Some t |> |>))).

(** [run], one iteration of the search loop.  A task assigned to another thread
    is skipped with [continue], which does not advance the iterator. *)
Definition step_scan (t : tid) (w : Worker) (s : Sys) : option (res Sys) :=
  match m_tasks (sch s) with
  | [] => Some (Ok (set_worker t (w <| at_pc := PTaken |> <| need_tickle := false |>)
                      (s <| sch := (sch s) <| m_mutex := None |> |>)))
  | it :: rest =>
      if negb (thread_id it =? -1) && negb (thread_id it =? Z.of_nat t) then Some (Ok s)
      else
        let may_run :=
          match fiber it with
          | Some p => negb (bool_decide (fstate s !! p = Some RUNNING))
          | None => false
          end || bool_decide (is_Some (func it)) in
        if may_run then
          Some (Ok (set_worker t (w <| at_pc := PTaken |> <| tk := it |>
                                    <| need_tickle := negb (bool_decide (rest = [])) |>)
                 (s <| sch := (sch s) <| m_tasks := rest |> <| m_mutex := None |> |>
                    <| taken := taken s ++ [it] |>)))
        else Some (AssertFailed "scheduler.cpp:122")
  end.

(** [run]: [if (tk.fiber || tk.func) ++m_active_threads]. *)
Definition step_taken (t : tid) (w : Worker) (s : Sys) : option (res Sys) :=
  Some (Ok (set_worker t (w <| at_pc := PTickle |>) (if has_work (tk w) then incr_active s else s))).

(** [run]: [if (need_tickle) tickle()]. *)
Definition step_tickle (t : tid) (w : Worker) (s : Sys) : option (res Sys) :=
  Some (Ok (set_worker t (w <| at_pc := PDispatch |>)
              (if need_tickle w then s <| sch := tickle (sch s) |> else s))).

(** [Fiber::call] on a client fiber, seen through its state. *)
Definition fcall (p : ptr) (fs : gmap ptr State) : res (gmap ptr State) :=
  match fs !! p with
  | Some RUNNING | Some TERM => AssertFailed "fiber.cpp:107"
  | Some _ => Ok (<[p := RUNNING]> fs)
  | None => Undefined "dangling fiber"
  end.

Definition fiber_done (p : ptr) (s : Sys) : bool :=
  match fstate s !! p with Some TERM | Some EXCEPT => true | _ => false end.

Definition on_fibers (s : Sys) (r : res (gmap ptr State)) (k : Sys -> Sys) : res Sys :=
  match r with
  | Ok fs => Ok (k (s <| fstate := fs |>))
  | AssertFailed x => AssertFailed x
  | Undefined x => Undefined x
  | Thrown x => Thrown x
  | Terminated x => Terminated x
  end.

(** [run]: a function runs on [func_fiber], reset or newly created at [addr]. *)
Definition dispatch_func (t : tid) (addr : ptr) (w : Worker) (s : Sys) : option (res Sys) :=
  match func_fiber w with
  | Some ff =>
      Some (on_fibers s (fcall ff (<[ff := READY]> (fstate s)))
              (set_worker t (w <| at_pc := PFunc |> <| tk := Task_empty |>)))
  | None =>
      guard (bool_decide (fstate s !! addr = None))
        (on_fibers s (fcall addr (<[addr := READY]> (fstate s)))
           (set_worker t (w <| at_pc := PFunc |> <| tk := Task_empty |> <| func_fiber := Some addr |>)))
  end.

(** [run]: the last branch: leave the loop, or trap into the idle fiber.  If
    [tk] holds a fiber that is done, the task ends here. *)
Definition dispatch_idle (t : tid) (w : Worker) (s : Sys) : option (res Sys) :=
  let s := if has_work (tk w) then s <| dropped := S (dropped s) |> else s in
  if idle_isDone w then Some (Ok (set_worker t (w <| at_pc := PExit |>) s))
  else Some (Ok (set_worker t (w <| at_pc := PIdleCall |>) (incr_idle s))).

(** [run]: the three-way dispatch. *)
Definition step_dispatch (t : tid) (addr : ptr) (w : Worker) (s : Sys) : option (res Sys) :=
  let otherwise :=
    match func (tk w) with
    | Some _ => dispatch_func t addr w s
    | None => dispatch_idle t w s
    end in
  match fiber (tk w) with
  | Some p =>
      if negb (fiber_done p s)
      then Some (on_fibers s (fcall p (fstate s)) (set_worker t (w <| at_pc := PFiber |>)))
      else otherwise
  | None => otherwise
  end.

(** [run]: behind a fiber task, [--m_active_threads], then reschedule if READY. *)
Definition step_fiber_dec (t : tid) (w : Worker) (s : Sys) : option (res Sys) :=
  let w' := w <| at_pc := PTop |> <| tk := Task_empty |> in
  match fiber (tk w) with
  | Some p =>
      if bool_decide (fstate s !! p = Some READY)
      then guard (lock_free s) (Ok (set_worker t w' (queue (Task_fiber p (-1)) s)))
      else Some (Ok (set_worker t w' s))
  | None => None
  end.

(** [run]: behind a function task, the three cases of [func_fiber]. *)
Definition step_func_dec (t : tid) (w : Worker) (s : Sys) : option (res Sys) :=
  let w' := w <| at_pc := PTop |> in
  match func_fiber w with
  | Some ff =>
      if bool_decide (fstate s !! ff = Some READY)
      then guard (lock_free s) (Ok (set_worker t (w' <| func_fiber := None |>) (queue (Task_fiber ff (-1)) s)))
      else if fiber_done ff s
      then Some (Ok (set_worker t w' (s <| fstate := <[ff := READY]> (fstate s) |>)))
      else Some (Ok (set_worker t (w' <| func_fiber := None |>) s))
  | None => None
  end.

(** [idle]: [if (shouldStop()) break], after which [idle] returns and its fiber
    terminates. *)
Definition step_idle_stop (t : tid) (w : Worker) (s : Sys) : option (res Sys) :=
  guard (lock_free s)
    (Ok (set_worker t (if shouldStop (sch s) then w <| at_pc := PIdleBack |> <| idle_state := TERM |>
                       else w <| at_pc := IWait |>) s)).

(** [idle]: schedule the expired callbacks. *)
Definition step_idle_sched (t : tid) (w : Worker) (s : Sys) : option (res Sys) :=
  let w' := w <| at_pc := IEvents |> <| expired_funcs := [] |> in
  if bool_decide (expired_funcs w = []) then Some (Ok (set_worker t w' s))
  else guard (lock_free s)
    (Ok (set_worker t w'
       (s <| sch := schedule_range (expired_funcs w) (-1) (sch s) |>
          <| submitted := submitted s ++ ((fun c => Task_func c (-1)) <$> expired_funcs w) |>))).

(** [idle]: drain the pipe if it was reported, and yield. *)
Definition step_idle_yield (t : tid) (w : Worker) (s : Sys) : option (res Sys) :=
  Some (Ok (set_worker t (w <| at_pc := PIdleBack |> <| idle_state := SUSPEND |> <| tickled := false |>)
              (if tickled w then s <| sch := (sch s) <| tickle_pipe := 0%nat |> |> else s))).

Definition step_run (t : tid) (w : Worker) (s : Sys) : option (res Sys) :=
  match at_pc w with
  | PTop => step_top t w s
  | PScan => step_scan t w s
  | PTaken => step_taken t w s
  | PTickle => step_tickle t w s
  | PFiberBack => Some (Ok (set_worker t (w <| at_pc := PFiberDec |>) (decr_active s)))
  | PFiberDec => step_fiber_dec t w s
  | PFuncBack => Some (Ok (set_worker t (w <| at_pc := PFuncDec |>) (decr_active s)))
  | PFuncDec => step_func_dec t w s
  | PIdleCall => Some (Ok (set_worker t (w <| at_pc := IStop |> <| idle_state := RUNNING |>) s))
  | IStop => step_idle_stop t w s
  | ISched => step_idle_sched t w s
  | IEvents => step_idle_yield t w s
  | PIdleBack => Some (Ok (set_worker t (w <| at_pc := PTop |>) (decr_idle s)))
  | PDispatch | PFiber | PFunc | IWait | IExpire | PExit => None
  end.

(** The fiber that executes on a worker, if client code does. *)
Definition running_fiber (w : Worker) : option ptr :=
  match at_pc w with PFiber => fiber (tk w) | PFunc => func_fiber w | _ => None end.

Definition comeback_state (c : comeback) : State :=
  match c with CYield => SUSPEND | CYieldReady => READY | CReturn => TERM | CThrow => EXCEPT end.

(** The running task yields, returns or throws: [call] returns in [run]. *)
Definition step_back (t : tid) (w : Worker) (c : comeback) (s : Sys) : option (res Sys) :=
  match running_fiber w with
  | Some p =>
      Some (Ok (set_worker t (w <| at_pc := match at_pc w with PFiber => PFiberBack | _ => PFuncBack end |>)
                  (s <| fstate := <[p := comeback_state c]> (fstate s) |>)))
  | None => None
  end.

(** Client code; [schedule] needs [m_mutex]. *)
Definition act (a : action) (s : Sys) : option (res Sys) :=
  match a with
  | ASchedule k => guard (lock_free s) (Ok (queue k s))
  | AAddTimer addr now period f recurring =>
      guard (bool_decide (timer_heap (base (sch s)) !! addr = None))
        (Ok (s <| sch := (sched_addTimer addr now period f recurring (sch s)).2 |>))
  | ACancel p => Some (Ok (s <| sch := (sch s) <| base := (cancel p (base (sch s))).2 |> |>))
  | ANewFiber addr => guard (bool_decide (fstate s !! addr = None))
                        (Ok (s <| fstate := <[addr := READY]> (fstate s) |>))
  | APending n => guard (0 <=? n) (Ok (s <| sch := (sch s) <| m_pending_count := n |> |>))
  end.

(** Tasks the constructors of [Task] can build: never both a fiber and a
    function. *)
Definition client_task (k : Task) : bool :=
  match fiber k, func k with Some _, Some _ => false | _, _ => true end.

Definition client_action (a : action) : bool :=
  match a with ASchedule k => client_task k | _ => true end.

Definition exec (l : label) (s : Sys) : option (res Sys) :=
  match l with
  | LRun t => workers s !! t ≫= fun w => step_run t w s
  | LDispatch t addr =>
      workers s !! t ≫= fun w =>
      if bool_decide (at_pc w = PDispatch) then step_dispatch t addr w s else None
  | LEpoll t pipe =>
      workers s !! t ≫= fun w =>
      guard (bool_decide (at_pc w = IWait) && implb pipe (0 <? Z.of_nat (tickle_pipe (sch s))))
        (Ok (set_worker t (w <| at_pc := IExpire |> <| tickled := pipe |>) s))
  | LExpire t now =>
      workers s !! t ≫= fun w =>
      guard (bool_decide (at_pc w = IExpire))
        (let (fs, tm) := getExpiredFuncs now (expired_funcs w) (base (sch s)) in
         Ok (set_worker t (w <| at_pc := ISched |> <| expired_funcs := fs |>)
               (s <| sch := (sch s) <| base := tm |> |>)))
  | LEvent t k =>
      workers s !! t ≫= fun w =>
      guard (bool_decide (at_pc w = IEvents) && lock_free s && client_task k) (Ok (queue k s))
  | LBody t a =>
      workers s !! t ≫= fun w =>
      if bool_decide (is_Some (running_fiber w)) && client_action a then act a s else None
  | LBack t c => workers s !! t ≫= fun w => step_back t w c s
  | LOutside a => if client_action a then act a s else None
  | LStop => guard (lock_free s) (Ok (s <| sch := stop_flags (sch s) |>))
  | LTickle => guard (m_stopping (sch s)) (Ok (s <| sch := tickle (sch s) |>))
  end.

Inductive sys_step : Sys -> Sys -> Prop :=
| SysStep l s s' : exec l s = Some (Ok s') -> sys_step s s'.

(** A started scheduler with [n] workers (threads 1 to n), nothing queued. *)
Definition Sys_init (n : nat) : Sys :=
  mkSys (mkScheduler empty_TimerManager None "main" [] [] n false false false 0 0 0 0)
    ∅ (list_to_map ((fun t => (t, Worker_init)) <$> seq 1 n)) [] [] 0.

Fixpoint exec_all (ls : list label) (s : Sys) : option (res Sys) :=
  match ls with
  | [] => Some (Ok s)
  | l :: ls' =>
      match exec l s with
      | Some (Ok s') => exec_all ls' s'
      | r => r
      end
  end.

(** ** Invariant *)

(** The workers [m_active_threads] counts, and those [m_idle_threads] counts. *)
Definition counted (w : Worker) : bool :=
  match at_pc w with
  | PTickle | PDispatch => has_work (tk w)
  | PFiber | PFiberBack | PFunc | PFuncBack => true
  | _ => false
  end.

Definition in_idle (w : Worker) : bool :=
  match at_pc w with
  | PIdleCall | IStop | IWait | IExpire | ISched | IEvents | PIdleBack => true
  | _ => false
  end.

Definition count (P : Worker -> bool) (ws : gmap tid Worker) : nat :=
  map_fold (fun _ w n => (if P w then 1 else 0) + n)%nat 0%nat ws.

Record sys_inv (s : Sys) : Prop := {
  inv_active : m_active_threads (sch s) = u64 (Z.of_nat (count counted (workers s) + dropped s));
  inv_idle : m_idle_threads (sch s) = u64 (Z.of_nat (count in_idle (workers s)));
  inv_fifo : submitted s = taken s ++ m_tasks (sch s);
  inv_owner : forall t, m_mutex (sch s) = Some t <->
    exists w, workers s !! t = Some w /\ at_pc w = PScan;
  inv_timers : timers_wf (base (sch s));
}.

(** ** Stopping

    A worker is committed to leave when its idle fiber has finished and its
    last look at the queue found nothing, or when it has left. *)
Definition committed (w : Worker) : bool :=
  match at_pc w with
  | PExit => true
  | PTaken | PTickle | PDispatch => idle_isDone w && negb (has_work (tk w))
  | _ => false
  end.

(** The steps of a program that does not call [schedule] from outside the
    scheduler once [stop] has been called. *)
Inductive closed_step : Sys -> Sys -> Prop :=
| ClosedStep l s s' :
    exec l s = Some (Ok s') ->
    (forall k, l = LOutside (ASchedule k) -> m_stopping (sch s) = false) ->
    closed_step s s'.

Record drain_inv (s : Sys) : Prop := {
  dr_running : m_stopping (sch s) = false ->
    forall t w, workers s !! t = Some w -> idle_isDone w = false /\ at_pc w <> PExit;
  dr_someone : dropped s = 0%nat -> m_stopping (sch s) = true -> m_tasks (sch s) <> [] ->
    exists t w, workers s !! t = Some w /\ committed w = false;
  dr_workers : exists t w, workers s !! t = Some w;
}.

(** ** Counting workers *)

Lemma count_insert_None (P : Worker -> bool) (ws : gmap tid Worker) t w :
  ws !! t = None -> count P (<[t := w]> ws) = ((if P w then 1 else 0) + count P ws)%nat.
Proof. intros. unfold count. rewrite map_fold_insert_L; [done|intros; lia|done]. Qed.

Lemma count_delete (P : Worker -> bool) (ws : gmap tid Worker) t w :
  ws !! t = Some w -> count P ws = ((if P w then 1 else 0) + count P (delete t ws))%nat.
Proof.
  intros Ht. rewrite <- (insert_delete_id ws t w Ht) at 1.
  by rewrite count_insert_None by apply lookup_delete_eq.
Qed.

(** One worker moves. *)
Lemma count_update (P : Worker -> bool) (ws : gmap tid Worker) t w w' :
  ws !! t = Some w ->
  ((if P w then 1 else 0) + count P (<[t := w']> ws) = (if P w' then 1 else 0) + count P ws)%nat.
Proof.
  intros Ht. rewrite (count_delete P ws t w Ht).
  rewrite <- (insert_delete_eq ws t w').
  rewrite count_insert_None by apply lookup_delete_eq. lia.
Qed.

Lemma count_update_same (P : Worker -> bool) (ws : gmap tid Worker) t w w' :
  ws !! t = Some w -> P w = P w' -> count P (<[t := w']> ws) = count P ws.
Proof. intros Ht Hp. pose proof (count_update P ws t w w' Ht). rewrite Hp in *. lia. Qed.

Lemma count_pos (P : Worker -> bool) (ws : gmap tid Worker) t w : ws !! t = Some w -> P w = true -> (0 < count P ws)%nat.
Proof. intros Ht Hp. rewrite (count_delete P ws t w Ht), Hp. lia. Qed.

Lemma count_none (P : Worker -> bool) (ws : gmap tid Worker) : (forall t w, ws !! t = Some w -> P w = false) -> count P ws = 0%nat.
Proof.
  induction ws as [|t w ws Hn IH] using map_ind; intros H; [done|].
  rewrite count_insert_None by done. rewrite (H t w) by apply lookup_insert_eq. apply IH.
  intros t' w' Hw. apply (H t'). rewrite lookup_insert_ne; [done|congruence].
Qed.

(** ** Preservation *)

Definition b2z (b : bool) : Z := if b then 1 else 0.

Lemma some_ok_inj {A} (a b : A) : Some (Ok a) = Some (Ok b) -> a = b.
Proof. by intros [= ->]. Qed.

Lemma not_owner s t w :
  sys_inv s -> workers s !! t = Some w -> at_pc w <> PScan -> m_mutex (sch s) <> Some t.
Proof. intros Hi Hw Hpc Hm. apply (inv_owner s Hi) in Hm as (w' & ? & ?). congruence. Qed.

(** Worker [t] moves from [w] to [w'].  What the step did to the counters is
    given relative to their old values. *)
Lemma inv_worker s s' t w w' :
  sys_inv s -> workers s !! t = Some w -> workers s' = <[t := w']> (workers s) ->
  (forall n, m_active_threads (sch s) = u64 n -> m_active_threads (sch s')
     = u64 (n + b2z (counted w') - b2z (counted w) + Z.of_nat (dropped s') - Z.of_nat (dropped s))) ->
  (forall n, m_idle_threads (sch s) = u64 n -> m_idle_threads (sch s')
     = u64 (n + b2z (in_idle w') - b2z (in_idle w))) ->
  submitted s' = taken s' ++ m_tasks (sch s') ->
  (m_mutex (sch s') = Some t <-> at_pc w' = PScan) ->
  (forall t', t' <> t -> m_mutex (sch s') = Some t' <-> m_mutex (sch s) = Some t') ->
  timers_wf (base (sch s')) ->
  sys_inv s'.
Proof.
  intros Hi Hw Hws Ha Hid Hf Hmt Hmo Htm.
  pose proof (count_update counted (workers s) t w w' Hw) as Hca.
  pose proof (count_update in_idle (workers s) t w w' Hw) as Hci.
  split; [| |done| |done]; rewrite ?Hws.
  - rewrite (Ha _ (inv_active s Hi)). f_equal. unfold b2z.
    destruct (counted w), (counted w'); lia.
  - rewrite (Hid _ (inv_idle s Hi)). f_equal. unfold b2z.
    destruct (in_idle w), (in_idle w'); lia.
  - intros t'. destruct (decide (t' = t)) as [->|Hne].
    + rewrite Hmt, lookup_insert_eq. naive_solver.
    + rewrite Hmo, lookup_insert_ne by done. apply Hi.
Qed.

(** A step that moves no worker and does not touch what they count. *)
Lemma inv_shared s s' :
  sys_inv s -> workers s' = workers s -> dropped s' = dropped s ->
  m_active_threads (sch s') = m_active_threads (sch s) ->
  m_idle_threads (sch s') = m_idle_threads (sch s) ->
  m_mutex (sch s') = m_mutex (sch s) ->
  submitted s' = taken s' ++ m_tasks (sch s') ->
  timers_wf (base (sch s')) -> sys_inv s'.
Proof.
  intros [H1 H2 H3 H4 H5] Hw Hd Ha Hi Hm Hf Ht. split; rewrite ?Hw, ?Hd, ?Ha, ?Hi, ?Hm; auto.
Qed.

(** What [tickle], [schedule] and [addTimer] leave alone. *)
Lemma tickle_frame s :
  m_active_threads (tickle s) = m_active_threads s /\ m_idle_threads (tickle s) = m_idle_threads s
  /\ m_mutex (tickle s) = m_mutex s /\ m_tasks (tickle s) = m_tasks s /\ base (tickle s) = base s
  /\ m_stopping (tickle s) = m_stopping s.
Proof. unfold tickle. by case_match. Qed.

Lemma schedule_frame k s :
  m_active_threads (schedule k s) = m_active_threads s /\ m_idle_threads (schedule k s) = m_idle_threads s
  /\ m_mutex (schedule k s) = m_mutex s /\ m_tasks (schedule k s) = m_tasks s ++ [k]
  /\ base (schedule k s) = base s /\ m_stopping (schedule k s) = m_stopping s.
Proof. unfold schedule. case_match; [|done]. by destruct (tickle_frame (s <| m_tasks := m_tasks s ++ [k] |>)) as (-> & -> & -> & -> & -> & ->). Qed.

Lemma schedule_range_frame fs thr s :
  m_active_threads (schedule_range fs thr s) = m_active_threads s
  /\ m_idle_threads (schedule_range fs thr s) = m_idle_threads s
  /\ m_mutex (schedule_range fs thr s) = m_mutex s
  /\ m_tasks (schedule_range fs thr s) = m_tasks s ++ ((fun c => Task_func c thr) <$> fs)
  /\ base (schedule_range fs thr s) = base s /\ m_stopping (schedule_range fs thr s) = m_stopping s.
Proof.
  unfold schedule_range. case_match; [|done].
  by destruct (tickle_frame (s <| m_tasks := m_tasks s ++ ((fun c => Task_func c thr) <$> fs) |>))
    as (-> & -> & -> & -> & -> & ->).
Qed.

Lemma sched_addTimer_frame addr now period f r s :
  m_active_threads (sched_addTimer addr now period f r s).2 = m_active_threads s
  /\ m_idle_threads (sched_addTimer addr now period f r s).2 = m_idle_threads s
  /\ m_mutex (sched_addTimer addr now period f r s).2 = m_mutex s
  /\ m_tasks (sched_addTimer addr now period f r s).2 = m_tasks s
  /\ base (sched_addTimer addr now period f r s).2 = (addTimer addr now period f r (base s)).2
  /\ m_stopping (sched_addTimer addr now period f r s).2 = m_stopping s.
Proof.
  unfold sched_addTimer.
  destruct (addTimer addr now period f r (base s)) as [[p b] tm].
  destruct b; [|done]. cbn [snd]. unfold onFirstTimerChanged.
  by destruct (tickle_frame (s <| base := tm |>)) as (-> & -> & -> & -> & -> & ->).
Qed.

Ltac frame_with H :=
  let H1 := fresh "F" in let H2 := fresh "F" in let H3 := fresh "F" in
  let H4 := fresh "F" in let H5 := fresh "F" in let H6 := fresh "F" in
  destruct H as (H1 & H2 & H3 & H4 & H5 & H6);
  rewrite ?H1, ?H2, ?H3, ?H4, ?H5, ?H6; clear H1 H2 H3 H4 H5 H6.

(** Look through [tickle], [schedule] and [addTimer] in the goal. *)
Ltac frames :=
  repeat match goal with
  | |- context [?f (tickle ?s)] => frame_with (tickle_frame s)
  | |- context [?f (schedule ?k ?s)] => frame_with (schedule_frame k s)
  | |- context [?f (schedule_range ?k ?n ?s)] => frame_with (schedule_range_frame k n s)
  | |- context [?f (sched_addTimer ?a ?b ?c ?d ?e ?s).2] =>
      frame_with (sched_addTimer_frame a b c d e s)
  end.

(** Compute record updates and projections, nothing else. *)
Ltac sysred :=
  unfold set_worker, queue, incr_active, decr_active, incr_idle, decr_idle in *;
  cbn [upd_field sch fstate workers submitted taken dropped
       base m_mutex m_name m_threads m_tasks m_thread_count m_stopped m_stopping m_auto_stop
       m_active_threads m_idle_threads m_pending_count tickle_pipe
       at_pc tk need_tickle func_fiber idle_state tickled expired_funcs] in *.

(** The side conditions of [inv_worker] and [inv_shared]. *)
Ltac counters :=
  let n := fresh "n" in let Hn := fresh "Hn" in
  intros n Hn; sysred; frames; rewrite ?Hn, ?u64_add_l, ?u64_sub_l; f_equal;
  unfold b2z, counted, in_idle; sysred;
  repeat match goal with H : at_pc _ = _ |- _ => rewrite H end; simpl;
  repeat case_match; first [lia | congruence].

Lemma act_inv a s s' : sys_inv s -> act a s = Some (Ok s') -> sys_inv s'.
Proof.
  intros Hi Ha. pose proof (inv_timers s Hi) as Htm. pose proof (inv_fifo s Hi) as Hf.
  destruct a; cbn [act] in Ha; unfold guard in Ha;
    [case_match; [|done]|case_match eqn:Hfresh; [|done]| |case_match; [|done]|case_match; [|done]];
    apply some_ok_inj in Ha as <-;
    (apply (inv_shared s); [done|..]); sysred; frames; try done.
  - by rewrite Hf, app_assoc.
  - apply addTimer_wf; [done|]. by apply bool_decide_eq_true in Hfresh.
  - by apply (timer_step_wf (base (sch s))), TsCancel.
Qed.

(** A move that leaves [m_mutex] alone. *)
Ltac move_worker t w :=
  eapply (inv_worker _ _ t w); [eassumption|eassumption|reflexivity|counters|counters|..];
  sysred; frames; try done;
  try (split; [intros Hown; exfalso; eapply not_owner; [eassumption|eassumption|congruence|exact Hown]
              |congruence]).

Lemma step_scan_inv t w s s' :
  sys_inv s -> workers s !! t = Some w -> at_pc w = PScan ->
  step_scan t w s = Some (Ok s') -> sys_inv s'.
Proof.
  intros Hi Hw Hpc Hst. pose proof (inv_timers s Hi) as Htm. pose proof (inv_fifo s Hi) as Hf.
  assert (m_mutex (sch s) = Some t) as Hown by (apply (inv_owner s Hi); eauto).
  unfold step_scan in Hst. destruct (m_tasks (sch s)) as [|it rest] eqn:Htasks.
  - apply some_ok_inj in Hst as <-.
    eapply (inv_worker _ _ t w); [done|done|reflexivity|counters|counters|..]; sysred; try done.
    + by rewrite Htasks.
    + rewrite Hown. intros; split; congruence.
  - case_match; [by apply some_ok_inj in Hst as <-|].
    case_match; [|done]. apply some_ok_inj in Hst as <-.
    eapply (inv_worker _ _ t w); [done|done|reflexivity|counters|counters|..]; sysred; try done.
    + by rewrite Hf, <- app_assoc.
    + rewrite Hown. intros; split; congruence.
Qed.

Lemma step_dec_inv t w s s' :
  sys_inv s -> workers s !! t = Some w ->
  (at_pc w = PFiberDec /\ step_fiber_dec t w s = Some (Ok s'))
  \/ (at_pc w = PFuncDec /\ step_func_dec t w s = Some (Ok s')) -> sys_inv s'.
Proof.
  intros Hi Hw Hst. pose proof (inv_timers s Hi) as Htm. pose proof (inv_fifo s Hi) as Hf.
  destruct Hst as [[Hpc Hst]|[Hpc Hst]]; unfold step_fiber_dec, step_func_dec, guard in Hst;
    repeat (case_match; try discriminate Hst); apply some_ok_inj in Hst as <-;
    move_worker t w; by rewrite Hf, app_assoc.
Qed.

Lemma step_idle_inv t w s s' :
  sys_inv s -> workers s !! t = Some w ->
  (at_pc w = IStop /\ step_idle_stop t w s = Some (Ok s'))
  \/ (at_pc w = ISched /\ step_idle_sched t w s = Some (Ok s'))
  \/ (at_pc w = IEvents /\ step_idle_yield t w s = Some (Ok s')) -> sys_inv s'.
Proof.
  intros Hi Hw Hst. pose proof (inv_timers s Hi) as Htm. pose proof (inv_fifo s Hi) as Hf.
  destruct Hst as [[Hpc Hst]|[[Hpc Hst]|[Hpc Hst]]];
    unfold step_idle_stop, step_idle_sched, step_idle_yield, guard in Hst;
    repeat (case_match; try discriminate Hst); apply some_ok_inj in Hst as <-;
    move_worker t w; by rewrite Hf, app_assoc.
Qed.

Lemma step_run_inv t w s s' :
  sys_inv s -> workers s !! t = Some w -> step_run t w s = Some (Ok s') -> sys_inv s'.
Proof.
  intros Hi Hw Hst. pose proof (inv_timers s Hi) as Htm. pose proof (inv_fifo s Hi) as Hf.
  unfold step_run in Hst. destruct (at_pc w) eqn:Hpc; try discriminate Hst.
  - unfold step_top, guard, lock_free in Hst. case_bool_decide as Hl; [|done].
    apply some_ok_inj in Hst as <-.
    eapply (inv_worker _ _ t w); [done|done|reflexivity|counters|counters|..]; sysred; try done.
    intros t' Hne. rewrite Hl. split; congruence.
  - by eapply step_scan_inv.
  - unfold step_taken in Hst. apply some_ok_inj in Hst as <-.
    destruct (has_work (tk w)) eqn:Hk; move_worker t w.
  - unfold step_tickle in Hst. apply some_ok_inj in Hst as <-.
    destruct (need_tickle w); move_worker t w.
  - apply some_ok_inj in Hst as <-. move_worker t w.
  - eapply step_dec_inv; eauto.
  - apply some_ok_inj in Hst as <-. move_worker t w.
  - eapply step_dec_inv; eauto.
  - apply some_ok_inj in Hst as <-. move_worker t w.
  - eapply step_idle_inv; eauto.
  - eapply step_idle_inv; eauto.
  - eapply step_idle_inv; eauto.
  - apply some_ok_inj in Hst as <-. move_worker t w.
Qed.

Lemma on_fibers_Ok s r k s' :
  on_fibers s r k = Ok s' -> exists fs, s' = k (s <| fstate := fs |>).
Proof. destruct r; simpl; try done. intros [= <-]. eauto. Qed.

Lemma step_dispatch_inv t addr w s s' :
  sys_inv s -> workers s !! t = Some w -> at_pc w = PDispatch ->
  step_dispatch t addr w s = Some (Ok s') -> sys_inv s'.
Proof.
  intros Hi Hw Hpc Hst. pose proof (inv_timers s Hi) as Htm. pose proof (inv_fifo s Hi) as Hf.
  assert (forall k, has_work (tk w) = true ->
            (k = w <| at_pc := PFiber |> \/ exists ff, k = w <| at_pc := PFunc |> <| tk := Task_empty |>
                                                            <| func_fiber := ff |>) ->
            forall fs, sys_inv (set_worker t k (s <| fstate := fs |>))) as Hrun.
  { intros k Hk [->|[ff ->]] fs; move_worker t w. }
  assert (forall s', dispatch_idle t w s = Some (Ok s') -> sys_inv s') as Hidle.
  { clear Hst s'. intros s' Hst. unfold dispatch_idle in Hst.
    destruct (has_work (tk w)) eqn:Hk; case_match; apply some_ok_inj in Hst as <-; move_worker t w. }
  assert (func (tk w) <> None -> has_work (tk w) = true) as Hfw.
  { unfold has_work. destruct (func (tk w)); [|done]. by rewrite Bool.orb_true_r. }
  assert (func (tk w) <> None -> forall s', dispatch_func t addr w s = Some (Ok s') -> sys_inv s') as Hfunc.
  { clear Hst s'. intros Hfn s' Hst. unfold dispatch_func, guard in Hst.
    destruct (func_fiber w) as [ff|] eqn:Hff.
    - injection Hst as [fs ->]%on_fibers_Ok. apply Hrun; [auto|]. right. exists (Some ff).
      destruct w; simpl in *; by subst.
    - case_match; [|done]. injection Hst as [fs ->]%on_fibers_Ok. apply Hrun; eauto. }
  unfold step_dispatch in Hst.
  destruct (fiber (tk w)) as [p|] eqn:Hfb; [destruct (fiber_done p s); cbn [negb] in Hst|].
  - destruct (func (tk w)) eqn:?; [apply Hfunc|apply Hidle]; done.
  - injection Hst as [fs ->]%on_fibers_Ok. apply Hrun; [|by left]. unfold has_work. by rewrite Hfb.
  - destruct (func (tk w)) eqn:?; [apply Hfunc|apply Hidle]; done.
Qed.

Lemma sys_step_inv s s' : sys_inv s -> sys_step s s' -> sys_inv s'.
Proof.
  intros Hi Hst; revert Hi; destruct Hst as [l s0 s1 Hex]; intros Hi.
  pose proof (inv_timers s0 Hi) as Htm. pose proof (inv_fifo s0 Hi) as Hf.
  destruct l as [t|t addr|t pipe|t now|t k|t a|t c|a| |]; cbn [exec] in Hex;
    try (destruct (workers s0 !! t) as [w|] eqn:Hw; [cbn [mbind option_bind] in Hex|done]).
  - by eapply step_run_inv.
  - case_bool_decide; [|done]. by eapply step_dispatch_inv.
  - unfold guard in Hex. case_match eqn:Hg; [|done]. apply some_ok_inj in Hex as <-.
    apply andb_prop in Hg as [Hpc%bool_decide_eq_true _]. move_worker t w.
  - unfold guard in Hex. case_match eqn:Hg; [|done]. apply bool_decide_eq_true in Hg as Hpc.
    destruct (getExpiredFuncs now (expired_funcs w) (base (sch s0))) as [fs tm] eqn:Hge.
    apply some_ok_inj in Hex as <-. move_worker t w.
    pose proof (getExpired_collect_spec now (expired_funcs w) (base (sch s0)) Htm) as (Hwf & _).
    unfold getExpiredFuncs in Hge. case_bool_decide; simplify_eq; [done|]. by rewrite Hge in Hwf.
  - unfold guard in Hex. case_match; [|done]. apply some_ok_inj in Hex as <-.
    apply (inv_shared s0); [done|..]; sysred; frames; try done. by rewrite Hf, app_assoc.
  - case_match; [|done]. by eapply act_inv.
  - unfold step_back, running_fiber in Hex. destruct (at_pc w) eqn:Hpc; try discriminate Hex;
      (case_match; [|done]); apply some_ok_inj in Hex as <-; move_worker t w.
  - case_match; [|done]. by eapply act_inv.
  - unfold guard in Hex. case_match; [|done]. apply some_ok_inj in Hex as <-.
    by apply (inv_shared s0).
  - unfold guard in Hex. case_match; [|done]. apply some_ok_inj in Hex as <-.
    apply (inv_shared s0); [done|..]; sysred; frames; done.
Qed.

Lemma Sys_init_worker n t w : workers (Sys_init n) !! t = Some w -> w = Worker_init.
Proof.
  simpl. intros H. apply elem_of_list_to_map_2 in H.
  apply list_elem_of_fmap in H as (t' & [= -> ->] & _). done.
Qed.

Lemma Sys_init_inv n : sys_inv (Sys_init n).
Proof.
  split; try done.
  - rewrite count_none; [done|]. by intros t w ->%Sys_init_worker.
  - rewrite count_none; [done|]. by intros t w ->%Sys_init_worker.
  - intros t. split; [done|]. by intros (w & ->%Sys_init_worker & ?).
  - split; [constructor|]. set_solver.
Qed.

Lemma sys_reachable_inv n s : star sys_step (Sys_init n) s -> sys_inv s.
Proof. intros H. eapply star_invariant; [apply sys_step_inv|exact H|apply Sys_init_inv]. Qed.

(** Running a list of labels is a sequence of steps. *)
Lemma exec_all_star ls s s' : exec_all ls s = Some (Ok s') -> star sys_step s s'.
Proof.
  revert s. induction ls as [|l ls IH]; intros s H; [injection H as ->; constructor|].
  cbn [exec_all] in H. destruct (exec l s) as [[s1| | | |]|] eqn:He; try discriminate H.
  eapply star_step; [by eapply SysStep|auto].
Qed.

(** ** Stopping: preservation *)

(** Worker [t] moves; a worker that becomes committed found the queue empty. *)
Lemma drain_worker s s' t w w' :
  drain_inv s -> workers s !! t = Some w -> workers s' = <[t := w']> (workers s) ->
  m_stopping (sch s') = m_stopping (sch s) ->
  (dropped s' = 0%nat -> dropped s = 0%nat) ->
  (m_stopping (sch s) = false -> idle_isDone w = false -> at_pc w <> PExit ->
     idle_isDone w' = false /\ at_pc w' <> PExit) ->
  (dropped s' = 0%nat -> committed w' = true ->
     m_tasks (sch s') = [] \/ (committed w = true /\ m_tasks (sch s') = m_tasks (sch s))) ->
  drain_inv s'.
Proof.
  intros [H1 H2 _] Hw Hws Hst Hd Hrun Hcom. split; rewrite ?Hws, ?Hst.
  - intros Hs t' w0. destruct (decide (t = t')) as [<-|Hne].
    + rewrite lookup_insert_eq. intros [= <-]. destruct (H1 Hs t w Hw). auto.
    + rewrite lookup_insert_ne by done. by apply H1.
  - intros Hd0 Hs Ht. destruct (committed w') eqn:Hc.
    + destruct (Hcom Hd0 eq_refl) as [?|[Hcw Htk]]; [done|]. rewrite Htk in Ht.
      destruct (H2 (Hd Hd0) Hs Ht) as (t0 & w0 & Hw0 & Hc0). exists t0, w0.
      rewrite lookup_insert_ne by (intros ->; congruence). done.
    + exists t, w'. by rewrite lookup_insert_eq.
  - exists t, w'. by rewrite lookup_insert_eq.
Qed.

(** A step of the worker's neighbours; one that queues a task is taken while
    some worker is not committed. *)
Lemma drain_shared s s' :
  drain_inv s -> workers s' = workers s -> dropped s' = dropped s ->
  (m_stopping (sch s) = true -> m_stopping (sch s') = true) ->
  (m_stopping (sch s') = true -> m_tasks (sch s') <> [] ->
     m_tasks (sch s') = m_tasks (sch s) /\ m_stopping (sch s) = true
     \/ exists t w, workers s !! t = Some w /\ committed w = false) ->
  drain_inv s'.
Proof.
  intros [H1 H2 H3] Hw Hd Hst Ht. split; rewrite ?Hw, ?Hd; [|intros Hd0 Hs Hne|done].
  - intros Hs. apply H1. destruct (m_stopping (sch s)); [|done]. by rewrite Hst in Hs.
  - destruct (Ht Hs Hne) as [[Htk Hst0]|]; [|done]. rewrite Htk in Hne. auto.
Qed.

(** Before [stop], nobody is committed. *)
Lemma drain_not_stopping s :
  drain_inv s -> m_stopping (sch s) = false ->
  exists t w, workers s !! t = Some w /\ committed w = false.
Proof.
  intros [H1 _ (t & w & Hw)] Hs. exists t, w. split; [done|].
  destruct (H1 Hs t w Hw) as [Hd Hpc]. unfold committed. rewrite Hd. by destruct (at_pc w).
Qed.

Lemma act_drain a s s' :
  drain_inv s -> (forall k, a = ASchedule k ->
    exists t w, workers s !! t = Some w /\ committed w = false) ->
  act a s = Some (Ok s') -> drain_inv s'.
Proof.
  intros Hi Hk Ha. destruct a as [k| | | |]; cbn [act] in Ha; unfold guard in Ha;
    [case_match; [|done]|case_match; [|done]| |case_match; [|done]|case_match; [|done]];
    apply some_ok_inj in Ha as <-;
    (apply (drain_shared s); [done|done|done|sysred; frames; done|sysred; frames]); eauto.
Qed.

Lemma shouldStop_stopping s : shouldStop s = true -> m_stopping s = true.
Proof. unfold shouldStop. intros H. repeat (apply andb_prop in H as [H ?]). done. Qed.

(** Side conditions of [drain_worker]. *)
Ltac drain_move t w :=
  eapply (drain_worker _ _ t w); [eassumption|eassumption|reflexivity|sysred; frames; reflexivity|..];
  sysred; frames; unfold committed, idle_isDone in *; sysred;
  repeat match goal with H : at_pc _ = _ |- _ => rewrite H end; try done; auto.

Lemma step_run_drain t w s s' :
  drain_inv s -> workers s !! t = Some w -> step_run t w s = Some (Ok s') -> drain_inv s'.
Proof.
  intros Hi Hw Hst. unfold step_run in Hst. destruct (at_pc w) eqn:Hpc; try discriminate Hst.
  - unfold step_top, guard in Hst. case_match; [|done]. apply some_ok_inj in Hst as <-. drain_move t w.
  - unfold step_scan in Hst. destruct (m_tasks (sch s)) as [|it rest] eqn:Htk.
    + apply some_ok_inj in Hst as <-. drain_move t w.
    + case_match; [by apply some_ok_inj in Hst as <-|]. case_match eqn:Hmay; [|done].
      apply some_ok_inj in Hst as <-.
      assert (has_work it = true) as Hwork.
      { unfold has_work. destruct (fiber it); [done|]. by destruct (func it). }
      drain_move t w. rewrite Hwork, Bool.andb_false_r. done.
  - unfold step_taken in Hst. apply some_ok_inj in Hst as <-.
    destruct (has_work (tk w)) eqn:Hk; drain_move t w; rewrite Hk; auto.
  - unfold step_tickle in Hst. apply some_ok_inj in Hst as <-.
    destruct (need_tickle w); drain_move t w.
  - apply some_ok_inj in Hst as <-. drain_move t w.
  - unfold step_fiber_dec, guard in Hst. repeat (case_match; try discriminate Hst);
      apply some_ok_inj in Hst as <-; drain_move t w.
  - apply some_ok_inj in Hst as <-. drain_move t w.
  - unfold step_func_dec, guard in Hst. repeat (case_match; try discriminate Hst);
      apply some_ok_inj in Hst as <-; drain_move t w.
  - apply some_ok_inj in Hst as <-. drain_move t w.
  - unfold step_idle_stop, guard in Hst. case_match; [|done]. apply some_ok_inj in Hst as <-.
    destruct (shouldStop (sch s)) eqn:Hss; drain_move t w.
    intros Hs. apply shouldStop_stopping in Hss. congruence.
  - unfold step_idle_sched, guard in Hst. repeat (case_match; try discriminate Hst);
      apply some_ok_inj in Hst as <-; drain_move t w.
  - unfold step_idle_yield in Hst. apply some_ok_inj in Hst as <-.
    destruct (tickled w); drain_move t w.
  - apply some_ok_inj in Hst as <-. drain_move t w.
Qed.

Lemma step_dispatch_drain t addr w s s' :
  drain_inv s -> workers s !! t = Some w -> at_pc w = PDispatch ->
  step_dispatch t addr w s = Some (Ok s') -> drain_inv s'.
Proof.
  intros Hi Hw Hpc Hst.
  assert (forall s', dispatch_idle t w s = Some (Ok s') -> drain_inv s') as Hidle.
  { clear Hst s'. intros s' Hst. unfold dispatch_idle in Hst.
    destruct (has_work (tk w)) eqn:Hk; destruct (idle_isDone w) eqn:Hdone;
      apply some_ok_inj in Hst as <-;
      (eapply (drain_worker _ _ t w); [eassumption|eassumption|reflexivity|reflexivity|..]);
      sysred; unfold committed, idle_isDone in *; sysred; rewrite ?Hpc; try done; auto.
    - intros _ H. by rewrite Hdone in H.
    - intros _ H. by rewrite Hdone in H.
    - rewrite Hdone, Hk. auto. }
  assert (forall s', dispatch_func t addr w s = Some (Ok s') -> drain_inv s') as Hfunc.
  { clear Hst s'. intros s' Hst. unfold dispatch_func, guard in Hst. repeat (case_match; try done);
      injection Hst as [fs ->]%on_fibers_Ok; drain_move t w. }
  unfold step_dispatch in Hst.
  destruct (fiber (tk w)) as [p|]; [destruct (fiber_done p s); cbn [negb] in Hst|].
  - destruct (func (tk w)); auto.
  - injection Hst as [fs ->]%on_fibers_Ok. drain_move t w.
  - destruct (func (tk w)); auto.
Qed.

Lemma running_not_committed w p : running_fiber w = Some p -> committed w = false.
Proof. unfold running_fiber, committed. by destruct (at_pc w). Qed.

Lemma closed_step_drain s s' : drain_inv s -> closed_step s s' -> drain_inv s'.
Proof.
  intros Hi Hst; revert Hi; destruct Hst as [l s s' Hex Hout]; intros Hi.
  destruct l as [t|t addr|t pipe|t now|t k|t a|t c|a| |]; cbn [exec] in Hex;
    try (destruct (workers s !! t) as [w|] eqn:Hw; [cbn [mbind option_bind] in Hex|done]).
  - by eapply step_run_drain.
  - case_bool_decide; [|done]. by eapply step_dispatch_drain.
  - unfold guard in Hex. case_match eqn:Hg; [|done]. apply some_ok_inj in Hex as <-.
    apply andb_prop in Hg as [Hpc%bool_decide_eq_true _]. drain_move t w.
  - unfold guard in Hex. case_match eqn:Hg; [|done]. apply bool_decide_eq_true in Hg as Hpc.
    destruct (getExpiredFuncs now (expired_funcs w) (base (sch s))) as [fs tm].
    apply some_ok_inj in Hex as <-. drain_move t w.
  - unfold guard in Hex. case_match eqn:Hg; [|done]. apply some_ok_inj in Hex as <-.
    apply andb_prop in Hg as [[Hpc%bool_decide_eq_true _]%andb_prop _].
    apply (drain_shared s); sysred; frames; try done. intros _ _. right. exists t, w.
    split; [done|]. unfold committed. by rewrite Hpc.
  - case_match eqn:Hg; [|done]. apply andb_prop in Hg as [[p Hp]%bool_decide_eq_true _].
    eapply act_drain; [done| |done]. intros _ _. exists t, w. eauto using running_not_committed.
  - unfold step_back, running_fiber in Hex. destruct (at_pc w) eqn:Hpc; try discriminate Hex;
      (case_match; [|done]); apply some_ok_inj in Hex as <-; drain_move t w.
  - case_match; [|done]. eapply act_drain; [done| |done]. intros k ->.
    apply drain_not_stopping; [done|]. by apply (Hout k).
  - unfold guard in Hex. case_match; [|done]. apply some_ok_inj in Hex as <-.
    destruct (m_stopping (sch s)) eqn:Hs; apply (drain_shared s); try done; eauto using drain_not_stopping.
  - unfold guard in Hex. case_match eqn:Hs; [|done]. apply some_ok_inj in Hex as <-.
    apply (drain_shared s); sysred; frames; try done. intros; by left.
Qed.

Lemma Sys_init_drain n : (0 < n)%nat -> drain_inv (Sys_init n).
Proof.
  intros Hn. split; [|done|].
  - by intros _ t w ->%Sys_init_worker.
  - exists 1%nat, Worker_init. simpl. apply elem_of_list_to_map_1.
    + rewrite <- list_fmap_compose. unfold compose. simpl. rewrite list_fmap_id. apply NoDup_seq.
    + apply list_elem_of_fmap. exists 1%nat. split; [done|]. apply elem_of_seq. lia.
Qed.

(** ** A worker caught in the search loop *)

(** The first queued task is assigned to another thread than [t]. *)
Definition pinned_elsewhere (t : tid) (s : Sys) : Prop :=
  exists it rest, m_tasks (sch s) = it :: rest /\ thread_id it <> -1 /\ thread_id it <> Z.of_nat t.

Definition stuck (t : tid) (s : Sys) : Prop :=
  m_mutex (sch s) = Some t
  /\ (exists w, workers s !! t = Some w /\ at_pc w = PScan)
  /\ pinned_elsewhere t s.

(** What can change while [t] holds [m_mutex]. *)
Lemma locked_frame s s' t l :
  sys_inv s -> m_mutex (sch s) = Some t -> exec l s = Some (Ok s') -> l <> LRun t ->
  m_mutex (sch s') = Some t /\ m_tasks (sch s') = m_tasks (sch s) /\ workers s' !! t = workers s !! t.
Proof.
  intros Hi Hm Hex Hl. assert (lock_free s = false) as Hlf by (unfold lock_free; by rewrite Hm).
  assert (exists w, workers s !! t = Some w /\ at_pc w = PScan) as (w0 & Hw0 & Hpc0) by (by apply (inv_owner s Hi)).
  assert (forall a s', act a s = Some (Ok s') ->
    m_mutex (sch s') = Some t /\ m_tasks (sch s') = m_tasks (sch s) /\ workers s' !! t = workers s !! t) as Hact.
  { clear Hex s' Hl. intros a s' Ha. destruct a; cbn [act] in Ha; unfold guard in Ha; rewrite ?Hlf in Ha;
      try (case_match; [|done]); try discriminate Ha; apply some_ok_inj in Ha as <-; sysred; frames; done. }
  assert (forall t' w, workers s !! t' = Some w -> at_pc w <> PScan -> t' <> t) as Hne by (intros; congruence).
  destruct l as [t'|t' addr|t' pipe|t' now|t' k|t' a|t' c|a| |]; cbn [exec] in Hex;
    try (destruct (workers s !! t') as [w|] eqn:Hw; [cbn [mbind option_bind] in Hex|done]).
  - assert (t' <> t) by congruence.
    assert (at_pc w <> PScan) by (intros Hp; assert (m_mutex (sch s) = Some t') by (apply (inv_owner s Hi); eauto); congruence).
    unfold step_run, step_top, step_taken, step_tickle, step_fiber_dec, step_func_dec, step_idle_stop,
      step_idle_sched, step_idle_yield, guard in Hex. rewrite ?Hlf in Hex.
    repeat (case_match; try discriminate Hex); try done; apply some_ok_inj in Hex as <-;
      sysred; rewrite ?lookup_insert_ne by done; repeat case_match; sysred; frames; done.
  - case_bool_decide as Hpc; [|done]. assert (t' <> t) by (eapply Hne; [done|congruence]).
    unfold step_dispatch, dispatch_func, dispatch_idle, guard in Hex.
    repeat (case_match; try discriminate Hex);
      first [injection Hex as [fs ->]%on_fibers_Ok | apply some_ok_inj in Hex as <-];
      sysred; rewrite ?lookup_insert_ne by done; repeat case_match; sysred; done.
  - unfold guard in Hex. case_match eqn:Hg; [|done]. apply some_ok_inj in Hex as <-.
    apply andb_prop in Hg as [Hpc%bool_decide_eq_true _].
    sysred. rewrite lookup_insert_ne; [done|]. eapply Hne; [done|congruence].
  - unfold guard in Hex. case_match eqn:Hg; [|done]. apply bool_decide_eq_true in Hg as Hpc.
    destruct (getExpiredFuncs now (expired_funcs w) (base (sch s))) as [fs tm].
    apply some_ok_inj in Hex as <-. sysred. rewrite lookup_insert_ne; [done|]. eapply Hne; [done|congruence].
  - unfold guard in Hex. rewrite Hlf, Bool.andb_false_r in Hex. done.
  - case_match; [|done]. by eapply Hact.
  - unfold step_back, running_fiber in Hex. destruct (at_pc w) eqn:Hpc; try discriminate Hex;
      (case_match; [|done]); apply some_ok_inj in Hex as <-; sysred;
      (rewrite lookup_insert_ne; [done|]); (eapply Hne; [done|congruence]).
  - case_match; [|done]. by eapply Hact.
  - unfold guard in Hex. by rewrite Hlf in Hex.
  - unfold guard in Hex. case_match; [|done]. apply some_ok_inj in Hex as <-. sysred; frames; done.
Qed.

(** Only a step of the search loop extends [taken], and only the dispatch
    drops a task. *)
Lemma exec_history l s s' :
  exec l s = Some (Ok s') ->
  (taken s' = taken s \/ exists t w, l = LRun t /\ workers s !! t = Some w /\ at_pc w = PScan)
  /\ (dropped s <= dropped s')%nat.
Proof.
  intros Hex.
  assert (forall a s', act a s = Some (Ok s') -> taken s' = taken s /\ dropped s' = dropped s) as Hact.
  { clear Hex s'. intros a s' Ha. destruct a; cbn [act] in Ha; unfold guard in Ha;
      try (case_match; [|done]); apply some_ok_inj in Ha as <-; done. }
  destruct l as [t|t addr|t pipe|t now|t k|t a|t c|a| |]; cbn [exec] in Hex;
    try (destruct (workers s !! t) as [w|] eqn:Hw; [cbn [mbind option_bind] in Hex|done]).
  - destruct (decide (at_pc w = PScan)) as [Hpc|Hpc].
    + split; [right; eauto|]. unfold step_run, step_scan in Hex. rewrite Hpc in Hex.
      repeat (case_match; try discriminate Hex); by apply some_ok_inj in Hex as <-.
    + unfold step_run, step_top, step_taken, step_tickle, step_fiber_dec, step_func_dec, step_idle_stop,
        step_idle_sched, step_idle_yield, guard in Hex.
      repeat (case_match; try discriminate Hex); try done; apply some_ok_inj in Hex as <-;
        sysred; repeat case_match; sysred; auto.
  - case_bool_decide; [|done]. unfold step_dispatch, dispatch_func, dispatch_idle, guard in Hex.
    repeat (case_match; try discriminate Hex);
      first [injection Hex as [fs ->]%on_fibers_Ok | apply some_ok_inj in Hex as <-];
      sysred; repeat case_match; sysred; auto.
  - unfold guard in Hex. case_match; [|done]. apply some_ok_inj in Hex as <-. auto.
  - unfold guard in Hex. case_match; [|done].
    destruct (getExpiredFuncs now (expired_funcs w) (base (sch s))).
    apply some_ok_inj in Hex as <-. auto.
  - unfold guard in Hex. case_match; [|done]. apply some_ok_inj in Hex as <-. auto.
  - case_match; [|done]. destruct (Hact _ _ Hex) as [-> ->]. auto.
  - unfold step_back in Hex. case_match; [|done]. apply some_ok_inj in Hex as <-. auto.
  - case_match; [|done]. destruct (Hact _ _ Hex) as [-> ->]. auto.
  - unfold guard in Hex. case_match; [|done]. apply some_ok_inj in Hex as <-. auto.
  - unfold guard in Hex. case_match; [|done]. apply some_ok_inj in Hex as <-. auto.
Qed.

Lemma sys_step_dropped s s' : sys_step s s' -> (dropped s <= dropped s')%nat.
Proof. intros [l a b Hex]. apply (exec_history l a b Hex). Qed.

Lemma locked_taken s s' t l :
  sys_inv s -> m_mutex (sch s) = Some t -> exec l s = Some (Ok s') -> l <> LRun t -> taken s' = taken s.
Proof.
  intros Hi Hm Hex Hne. destruct (exec_history l s s' Hex) as [[?|(t' & w & -> & Hw & Hpc)] _]; [done|].
  assert (m_mutex (sch s) = Some t') by (apply (inv_owner s Hi); eauto). congruence.
Qed.

Lemma stuck_step t s s' : sys_inv s -> stuck t s -> sys_step s s' -> stuck t s'.
Proof.
  intros Hi Hs Hst; revert Hi Hs; destruct Hst as [l s s' Hex]; intros Hi (Hm & (w & Hw & Hpc) & Hp).
  destruct (decide (l = LRun t)) as [->|Hne].
  - cbn [exec] in Hex. rewrite Hw in Hex. cbn [mbind option_bind] in Hex.
    unfold step_run in Hex. rewrite Hpc in Hex. unfold step_scan in Hex.
    pose proof Hp as (it & rest & Htk & Hp1 & Hp2). rewrite Htk in Hex.
    destruct (Z.eqb_spec (thread_id it) (-1)); [done|].
    destruct (Z.eqb_spec (thread_id it) (Z.of_nat t)); [done|]. simpl in Hex.
    apply some_ok_inj in Hex as <-. repeat split; eauto.
  - destruct (locked_frame s s' t l Hi Hm Hex Hne) as (Hm' & Ht' & Hw'). split; [done|].
    split; [exists w; by rewrite Hw'|]. destruct Hp as (it & rest & Htk & ?). exists it, rest. by rewrite Ht'.
Qed.

Lemma stuck_tasks t s s' :
  sys_inv s -> stuck t s -> sys_step s s' ->
  m_tasks (sch s') = m_tasks (sch s) /\ submitted s' = submitted s /\ taken s' = taken s.
Proof.
  intros Hi Hs Hst. pose proof (sys_step_inv s s' Hi Hst) as Hi'.
  assert (m_tasks (sch s') = m_tasks (sch s) /\ taken s' = taken s) as [Ht Hk].
  { destruct Hs as (Hm & (w & Hw & Hpc) & it & rest & Htk & Hp1 & Hp2).
    revert Hi Hm Hw Htk. clear Hi'. destruct Hst as [l s s' Hex]. intros Hi Hm Hw Htk.
    destruct (decide (l = LRun t)) as [->|Hne].
    - cbn [exec] in Hex. rewrite Hw in Hex. cbn [mbind option_bind] in Hex.
      unfold step_run, step_scan in Hex. rewrite Hpc, Htk in Hex.
      destruct (Z.eqb_spec (thread_id it) (-1)); [done|].
      destruct (Z.eqb_spec (thread_id it) (Z.of_nat t)); [done|]. simpl in Hex.
      by apply some_ok_inj in Hex as <-.
    - destruct (locked_frame s s' t l Hi Hm Hex Hne) as (_ & Ht & _). split; [done|].
      by eapply locked_taken. }
  split; [done|]. split; [|done].
  by rewrite (inv_fifo s Hi), (inv_fifo s' Hi'), Ht, Hk.
Qed.
