(* ===== verification/SchedulerProps.v ===== *)
(** * What the scheduler guarantees, and where it does not

    Properties of the interleaved system of SchedulerThreads.v, the refinement
    of its view of fibers by Fiber.v, and executions of the system that end in
    an abort, a stall, or a lost timer. *)

From S2P Require Import Prelude Timer Fiber Scheduler SchedulerThreads.

(** ** Executions *)

Definition run_to (ls : list label) (n : nat) : Sys :=
  match exec_all ls (Sys_init n) with Some (Ok s) => s | _ => Sys_init n end.

(** The [k] next lines of worker [t]. *)
Definition lines (t : tid) (k : nat) : list label := repeat (LRun t) k.

#[global] Arguments lines (t k)%_nat_scope.
#[global] Arguments run_to ls n%_nat_scope.

Definition T (id : nat) : Task := Task_func (User id) (-1).

(** Worker [t] looks at the queue, up to the dispatch. *)
Definition look (t : tid) : list label := lines t 4.

#[global] Arguments T id%_nat_scope.
#[global] Arguments look t%_nat_scope.

(** Worker [t] finds nothing and goes to its idle loop, before [shouldStop]. *)
Definition go_idle (t : tid) : list label := look t ++ [LDispatch t 0%nat; LRun t].

#[global] Arguments go_idle t%_nat_scope.

(** Two tasks, one worker: both queued from outside and run to completion. *)
Definition two_tasks : list label :=
  [LOutside (ASchedule (T 1)); LOutside (ASchedule (T 2))]
  ++ look 1 ++ [LDispatch 1%nat 20%nat; LBack 1%nat CReturn] ++ lines 1 2
  ++ look 1 ++ [LDispatch 1%nat 20%nat].

(** The same, then [stop] and exit. *)
Definition two_tasks_stop : list label :=
  two_tasks ++ [LBack 1%nat CYield] ++ lines 1 2 ++ [LStop; LTickle] ++ go_idle 1 ++ lines 1 2
  ++ look 1 ++ [LDispatch 1%nat 0%nat].

(** A task assigned to thread 2 at the head of the queue of worker 1. *)
Definition pinned_queue : list label :=
  [LOutside (ASchedule (Task_func (User 1) 2)); LRun 1%nat].

(** A fiber queued twice: the second time it is already done. *)
Definition fiber_twice : list label :=
  [LOutside (ANewFiber 20%nat); LOutside (ASchedule (Task_fiber 20%nat (-1)));
   LOutside (ASchedule (Task_fiber 20%nat (-1)))]
  ++ look 1 ++ [LDispatch 1%nat 0%nat; LBack 1%nat CReturn] ++ lines 1 2
  ++ look 1 ++ [LDispatch 1%nat 0%nat].

(** Worker 2 idles; worker 1 has removed the only task and not yet counted
    itself when worker 2 evaluates [shouldStop]; the task spawns another, which
    worker 2 takes the same way while worker 1 evaluates [shouldStop]; that
    second task goes to sleep on a timer. *)
Definition stop_race : list label :=
  go_idle 2 ++ [LOutside (ASchedule (T 1)); LStop] ++ lines 1 2
  ++ lines 2 2
  ++ lines 1 2 ++ [LDispatch 1%nat 20%nat; LBody 1%nat (ASchedule (T 2))]
  ++ lines 2 2
  ++ [LBack 1%nat CReturn] ++ lines 1 2 ++ go_idle 1 ++ lines 1 2
  ++ lines 2 2 ++ [LDispatch 2%nat 21%nat; LBody 2%nat (AAddTimer 5%nat 1000 100 (ScheduleFiber 21%nat) false);
                   LBack 2%nat CYield] ++ lines 2 2
  ++ look 2 ++ [LDispatch 2%nat 0%nat] ++ look 1 ++ [LDispatch 1%nat 0%nat].

(** The worker found the queue empty; a task is queued before the worker counts
    itself idle, so no byte is written; the worker goes to sleep. *)
Definition lost_wakeup : list label :=
  look 1 ++ [LOutside (ASchedule (T 1)); LDispatch 1%nat 0%nat; LRun 1%nat; LRun 1%nat].

(** A fiber arms its own wake-up (a timer, an event) and is woken on another
    worker before it has yielded. *)
Definition wake_before_yield : list label :=
  [LOutside (ANewFiber 20%nat); LOutside (ASchedule (Task_fiber 20%nat (-1)))]
  ++ look 1 ++ [LDispatch 1%nat 0%nat; LBody 1%nat (AAddTimer 5%nat 1000 0 (ScheduleFiber 20%nat) false)]
  ++ go_idle 2 ++ [LRun 2%nat; LEpoll 2%nat false; LExpire 2%nat 1000] ++ lines 2 3
  ++ look 2 ++ [LDispatch 2%nat 21%nat; LBody 2%nat (ASchedule (Task_fiber 20%nat (-1)));
                LBack 2%nat CReturn] ++ lines 2 2 ++ lines 2 2.

(** The client fibers of Fiber.v, seen through their states. *)
Definition states_of (s : fiber_sys) : gmap ptr State := m_state <$> fibers s.

(** ** Properties *)

Lemma run_to_star ls n s : exec_all ls (Sys_init n) = Some (Ok s) -> star sys_step (Sys_init n) s.
Proof. apply exec_all_star. Qed.

(** C1: in every interleaving, the queue is a FIFO that loses and duplicates
    nothing: the tasks taken so far followed by the tasks still queued are
    exactly the tasks queued so far, in the order in which [schedule] was
    called; and at most one worker is in the search loop. *)
Theorem tasks_fifo_exactly_once n s :
  star sys_step (Sys_init n) s ->
  submitted s = taken s ++ m_tasks (sch s)
  /\ (forall t1 t2 w1 w2, workers s !! t1 = Some w1 -> workers s !! t2 = Some w2 ->
        at_pc w1 = PScan -> at_pc w2 = PScan -> t1 = t2).
Proof.
  intros Hi%sys_reachable_inv. split; [apply Hi|]. intros t1 t2 w1 w2 Hw1 Hw2 H1 H2.
  assert (m_mutex (sch s) = Some t1) by (apply (inv_owner s Hi); eauto).
  assert (m_mutex (sch s) = Some t2) by (apply (inv_owner s Hi); eauto). congruence.
Qed.

Lemma tasks_fifo_exactly_once_witness :
  taken (run_to two_tasks 1) = [T 1; T 2] /\
  (submitted (run_to two_tasks 1) = taken (run_to two_tasks 1) ++ m_tasks (sch (run_to two_tasks 1))
  /\ (forall t1 t2 w1 w2, workers (run_to two_tasks 1) !! t1 = Some w1 ->
        workers (run_to two_tasks 1) !! t2 = Some w2 ->
        at_pc w1 = PScan -> at_pc w2 = PScan -> t1 = t2)).
Proof.
  split; [vm_compute; reflexivity|].
  apply (tasks_fifo_exactly_once 1 (run_to two_tasks 1)). apply (run_to_star two_tasks).
  vm_compute. reflexivity.
Defined.


Definition idle_after_stop : list label := go_idle 1 ++ [LStop].


Lemma closed_reachable n s :
  (0 < n)%nat -> star closed_step (Sys_init n) s -> sys_inv s /\ drain_inv s.
Proof.
  intros Hn H. eapply (star_invariant closed_step (fun s => sys_inv s /\ drain_inv s)); [|exact H|].
  - intros a b [Hi Hd] Hst. split; [|by eapply closed_step_drain].
    destruct Hst as [l a b Hex _]. eapply sys_step_inv; [done|by eapply SysStep].
  - split; [apply Sys_init_inv|by apply Sys_init_drain].
Qed.

(** C10: if the program does not call [schedule] from outside the scheduler after
    [stop] and no task was dropped at the dispatch, then once all workers have
    left, no task is left behind: every task ever queued was taken, in order. *)
Theorem stop_drains_queue n s :
  (0 < n)%nat -> star closed_step (Sys_init n) s -> dropped s = 0%nat ->
  (forall t w, workers s !! t = Some w -> at_pc w = PExit) ->
  m_tasks (sch s) = [] /\ taken s = submitted s.
Proof.
  intros Hn Hr Hd Hall. destruct (closed_reachable n s Hn Hr) as [Hi Hdr].
  assert (m_stopping (sch s) = true) as Hst.
  { destruct (m_stopping (sch s)) eqn:E; [done|]. destruct (dr_workers s Hdr) as (t & w & Hw).
    destruct (dr_running s Hdr E t w Hw) as [_ Hpc]. by apply Hall in Hw. }
  assert (m_tasks (sch s) = []) as Ht.
  { destruct (m_tasks (sch s)) as [|k l] eqn:E; [done|]. exfalso.
    destruct (dr_someone s Hdr Hd Hst) as (t & w & Hw & Hc); [by rewrite E|].
    unfold committed in Hc. by rewrite (Hall t w Hw) in Hc. }
  split; [done|]. rewrite (inv_fifo s Hi), Ht. by rewrite app_nil_r.
Qed.

(** Running labels without queueing from outside after [stop]. *)
Fixpoint closed_run (ls : list label) (s : Sys) : bool :=
  match ls with
  | [] => true
  | l :: ls' =>
      match l with LOutside (ASchedule _) => negb (m_stopping (sch s)) | _ => true end
      && match exec l s with Some (Ok s') => closed_run ls' s' | _ => false end
  end.

Lemma closed_run_star ls s s' :
  exec_all ls s = Some (Ok s') -> closed_run ls s = true -> star closed_step s s'.
Proof.
  revert s. induction ls as [|l ls IH]; intros s H Hc; [injection H as ->; constructor|].
  cbn [exec_all closed_run] in *. destruct (exec l s) as [[s1| | | |]|] eqn:He; try discriminate H.
  apply andb_prop in Hc as [Hl Hc]. eapply star_step; [eapply ClosedStep; [done|]|auto].
  intros k ->. by apply negb_true_iff in Hl.
Qed.

Lemma stop_drains_queue_witness :
  m_tasks (sch (run_to two_tasks_stop 1)) = []
  /\ taken (run_to two_tasks_stop 1) = submitted (run_to two_tasks_stop 1).
Proof.
  apply (stop_drains_queue 1 (run_to two_tasks_stop 1)); [lia| |vm_compute; reflexivity|].
  - apply (closed_run_star two_tasks_stop); vm_compute; reflexivity.
  - intros t w Hw. destruct (decide (t = 1%nat)) as [->|Hne].
    + vm_compute in Hw. injection Hw as <-. reflexivity.
    + assert (workers (run_to two_tasks_stop 1) = {[1%nat := mkWorker PExit Task_empty false None TERM false []]})
        as Heq by (apply map_eq; intros i; vm_compute; by destruct i as [|[|i]]).
      rewrite Heq, lookup_singleton_ne in Hw by done. discriminate Hw.
Defined.

(** a task assigned to one thread that reaches the head of the queue stops
    the whole scheduler if another worker sees it first: the search loop skips
    it with [continue] without advancing its iterator, so that worker stays in
    the loop holding [m_mutex] forever, and no task is ever taken or queued
    again, whatever the other threads do. *)
Theorem pinned_task_blocks_forever n s s' t w :
  star sys_step (Sys_init n) s ->
  workers s !! t = Some w -> at_pc w = PScan -> pinned_elsewhere t s ->
  star sys_step s s' ->
  m_mutex (sch s') = Some t /\ m_tasks (sch s') = m_tasks (sch s)
  /\ submitted s' = submitted s /\ taken s' = taken s
  /\ (exists w', workers s' !! t = Some w' /\ at_pc w' = PScan).
Proof.
  intros Hi%sys_reachable_inv Hw Hpc Hp Hst.
  assert (stuck t s) as Hs by (split; [apply (inv_owner s Hi); eauto|eauto]).
  set (P := fun x => sys_inv x /\ stuck t x /\ m_tasks (sch x) = m_tasks (sch s)
                     /\ submitted x = submitted s /\ taken x = taken s).
  assert (P s') as (_ & (? & ? & _) & ? & ? & ?); [|done].
  eapply (star_invariant sys_step P); [|exact Hst|done]. clear - t.
  intros a b (Hi & Hs & H1 & H2 & H3) Hst. split; [by eapply sys_step_inv|].
  split; [by eapply stuck_step|]. rewrite <- H1, <- H2, <- H3. clear H1 H2 H3.
  by eapply stuck_tasks.
Qed.

Lemma pinned_task_blocks_forever_witness :
  m_mutex (sch (run_to (pinned_queue ++ lines 1 5) 2)) = Some 1%nat
  /\ m_tasks (sch (run_to (pinned_queue ++ lines 1 5) 2)) = m_tasks (sch (run_to pinned_queue 2))
  /\ submitted (run_to (pinned_queue ++ lines 1 5) 2) = submitted (run_to pinned_queue 2)
  /\ taken (run_to (pinned_queue ++ lines 1 5) 2) = taken (run_to pinned_queue 2)
  /\ (exists w', workers (run_to (pinned_queue ++ lines 1 5) 2) !! 1%nat = Some w' /\ at_pc w' = PScan).
Proof.
  eapply (pinned_task_blocks_forever 2 (run_to pinned_queue 2) _ 1%nat).
  - apply (run_to_star pinned_queue). vm_compute. reflexivity.
  - vm_compute. reflexivity.
  - vm_compute. reflexivity.
  - exists (Task_func (User 1) 2), []. vm_compute. repeat split; discriminate.
  - apply (exec_all_star (lines 1 5)). vm_compute. reflexivity.
Defined.

(** a queued fiber that is already done when it is taken falls through to
    the idle branch, and the increment of [m_active_threads] made for it is
    never undone: from then on [shouldStop] is false in every reachable state,
    so no idle fiber finishes any more and [stop] never returns. *)
Theorem finished_fiber_task_blocks_stop n s s' :
  star sys_step (Sys_init n) s -> (0 < dropped s)%nat -> star sys_step s s' ->
  Z.of_nat (count counted (workers s') + dropped s') < 2 ^ 64 ->
  (0 < dropped s')%nat /\ shouldStop (sch s') = false.
Proof.
  intros Hi%sys_reachable_inv Hd Hst Hb.
  assert (sys_inv s' /\ (0 < dropped s')%nat) as [Hi' Hd'].
  { eapply (star_invariant sys_step (fun x => sys_inv x /\ (0 < dropped x)%nat)); [|exact Hst|done].
    intros a b [Ha Hda] Hab. split; [by eapply sys_step_inv|].
    pose proof (sys_step_dropped a b Hab). lia. }
  split; [done|]. pose proof (inv_active s' Hi') as Ha. rewrite u64_small in Ha by (unfold is_u64; lia).
  unfold shouldStop. destruct (Z.eqb_spec (m_active_threads (sch s')) 0); [lia|].
  by rewrite Bool.andb_false_r.
Qed.

Lemma finished_fiber_task_blocks_stop_witness :
  (0 < dropped (run_to (fiber_twice ++ [LStop; LRun 1%nat]) 1))%nat
  /\ shouldStop (sch (run_to (fiber_twice ++ [LStop; LRun 1%nat]) 1)) = false.
Proof.
  apply (finished_fiber_task_blocks_stop 1 (run_to fiber_twice 1)).
  - apply (run_to_star fiber_twice). vm_compute. reflexivity.
  - vm_compute. lia.
  - apply (exec_all_star [LStop; LRun 1%nat]). vm_compute. reflexivity.
  - vm_compute. reflexivity.
Defined.

(** [m_active_threads] is incremented only after the task has left the
    queue and the lock, so [shouldStop] can answer true while a task is in a
    worker's hands.  There is an execution, within the rules of
    [stop_drains_queue], in which all workers leave although a task that is
    asleep has its wake-up timer armed: the timer never fires and the fiber is
    never resumed. *)
Theorem stop_race_loses_timer :
  exists s, star closed_step (Sys_init 2) s
    /\ (forall t w, workers s !! t = Some w -> at_pc w = PExit)
    /\ deadlines (base (sch s)) = {[5%nat := 1100]}
    /\ fstate s !! 21%nat = Some SUSPEND.
Proof.
  exists (run_to stop_race 2). split; [|split; [|split]].
  - apply (closed_run_star stop_race); vm_compute; reflexivity.
  - apply map_Forall_lookup. apply (bool_decide_unpack _). vm_compute. exact I.
  - vm_compute. reflexivity.
  - vm_compute. reflexivity.
Qed.

(** a task queued between a worker's last look at the queue and its
    increment of [m_idle_threads] wakes nobody: in a reachable state every
    worker waits in [epoll_wait], the queue is not empty and the tickle pipe is
    empty, so the task waits for the 3000 ms timeout. *)
Theorem wakeup_can_be_lost :
  exists s, star sys_step (Sys_init 1) s
    /\ (forall t w, workers s !! t = Some w -> at_pc w = IWait)
    /\ m_tasks (sch s) = [T 1] /\ tickle_pipe (sch s) = 0%nat
    /\ idle_timeout 0 (sch s) = EPOLL_WAIT_TIMEOUT_MS.
Proof.
  exists (run_to lost_wakeup 1). split; [|split; [|split; [|split]]]; try (vm_compute; reflexivity).
  - apply (run_to_star lost_wakeup). vm_compute. reflexivity.
  - apply map_Forall_lookup. apply (bool_decide_unpack _). vm_compute. exact I.
Qed.

(** a fiber that arms its own wake-up and then yields (as [sleep] and
    [do_io] do) can be woken before it has yielded: the worker that takes the
    wake-up finds the fiber RUNNING and the assertion of the search loop aborts
    the process. *)
Theorem wake_before_yield_aborts :
  exec_all wake_before_yield (Sys_init 2) = Some (AssertFailed "scheduler.cpp:122").
Proof. vm_compute. reflexivity. Qed.

(** ** The scheduler's view of fibers *)

Lemma states_switch_in t m p f s :
  fibers s !! p = Some f -> p <> m -> states_of (switch_in t m p s) = <[p := RUNNING]> (states_of s).
Proof.
  intros Hf Hne. unfold states_of, switch_in. rewrite fibers_set_tls. apply map_eq. intros q.
  rewrite lookup_insert, !lookup_fmap, !lookup_set_fiber.
  destruct (decide (m = q)) as [->|Hm].
  - rewrite (decide_False _ _ Hne), decide_False by done. by destruct (fibers s !! q).
  - destruct (decide (p = q)) as [->|Hp]; [|done]. by rewrite Hf.
Qed.

Lemma states_switch_out t m p st r f s :
  fibers s !! p = Some f -> states_of (switch_out t m p st r s) = <[p := st]> (states_of s).
Proof.
  intros Hf. unfold states_of, switch_out. rewrite fibers_set_tls. apply map_eq. intros q.
  rewrite lookup_insert, !lookup_fmap, !lookup_set_fiber. case_decide; subst; [by rewrite Hf|done].
Qed.

(** C24: the scheduler's steps see fibers only through their states, and this is
    what Fiber.v implements: on a thread in its main fiber, [Fiber::call] on a
    client fiber changes the states, or aborts, exactly as [fcall]; and
    [Yield], [YieldReady] and the two ends of [MainFunc] leave exactly the
    states of [comeback_state]. *)
Theorem fiber_refines_states s t m :
  star fiber_step fiber_sys_init s -> t_main_fiber (tls_of s t) = Some m ->
  (forall p f, running (tls_of s t) = Some m -> fibers s !! p = Some f -> m_main f = false ->
     match call t p s with
     | Ok (Some _, s') => fcall p (states_of s) = Ok (states_of s')
     | AssertFailed x => fcall p (states_of s) = AssertFailed x
     | _ => False
     end)
  /\ (forall p, running (tls_of s t) = Some p -> p <> m ->
     forall c, exists s',
       match c with
       | CYield => Yield t s
       | CYieldReady => YieldReady t s
       | CReturn => MainFunc_exit t p Returned s
       | CThrow => MainFunc_exit t p ThrewStd s
       end = Ok (Some RCall, s')
       /\ states_of s' = <[p := comeback_state c]> (states_of s)).
Proof.
  intros Hi%reachable_inv Hm. split.
  - intros p f Hr Hf Hmf. destruct (at_main s t m Hi Hm Hr) as [Ht (fm & Hfm & Hmm & Hms)].
    assert (p <> m) by congruence.
    assert (states_of s !! p = Some (m_state f)) as Hst by (unfold states_of; by rewrite lookup_fmap, Hf).
    unfold fcall. rewrite Hst. destruct (inv_fiber s Hi p f Hf Hmf) as [_ Hctx].
    destruct (m_state f) eqn:E;
      try (rewrite (call_eq t m p f fm s) by (done || congruence || apply Hctx; congruence);
           by rewrite (states_switch_in t m p f));
      unfold call; munfold; rewrite Hf, Hmf, E; done.
  - intros p Hr Hpm c.
    assert (t_fiber (tls_of s t) <> t_main_fiber (tls_of s t)) as Hne.
    { pose proof (inv_thread s Hi t) as [? _]. congruence. }
    destruct (at_fiber s t Hi Hne) as (m' & p' & f & fm & Ht & (Hfm & _) & Hf & Hne' & _ & _ & Hc & Hre).
    rewrite Ht in Hm, Hr. injection Hm as ->. injection Hr as ->.
    destruct c; eexists; (split; [|by eapply states_switch_out]);
      unfold Yield, YieldReady;
      first [by rewrite (Yield_to_eq _ t m p f fm) | by rewrite (MainFunc_exit_eq _ t m p f fm)].
Qed.

Lemma fiber_refines_states_witness :
  fcall 12%nat (states_of demo_two) = Ok (states_of (run_state (call 1%nat 12%nat) demo_two)).
Proof.
  destruct (fiber_refines_states demo_two 1%nat 10%nat demo_two_reachable eq_refl) as [H _].
  specialize (H 12%nat (mkFiber 2 (mkCtx 12%nat REntry None) (Some (User 1)) false READY)
                eq_refl eq_refl eq_refl).
  exact H.
Defined.

(** ** The idle loop's sleep *)

(** C25: [epoll_wait] in the idle loop is given between 0 and 3000 ms, and never
    sleeps past a deadline: every armed timer expires at or after the end of
    the wait, or has already expired and the wait does not block. *)
Theorem idle_never_oversleeps n s now :
  star sys_step (Sys_init n) s ->
  0 <= idle_timeout now (sch s) <= EPOLL_WAIT_TIMEOUT_MS
  /\ (forall p d, deadlines (base (sch s)) !! p = Some d ->
        now + idle_timeout now (sch s) <= Z.max now d \/ u64_max <= d - now).
Proof.
  intros Hi%sys_reachable_inv. pose proof (inv_timers s Hi) as Hwf.
  unfold idle_timeout, EPOLL_WAIT_TIMEOUT_MS. set (nx := getNextTimeMs now (base (sch s))).
  assert (0 <= nx /\ forall p d, deadlines (base (sch s)) !! p = Some d -> nx <= Z.max 0 (d - now)) as [Hnx Hmin].
  { unfold nx, getNextTimeMs. destruct Hwf as [Hs _].
    destruct (m_timers (base (sch s))) as [|q l] eqn:Hl.
    - split; [done|]. intros p d [Hp _]%deadlines_Some. rewrite Hl in Hp. set_solver.
    - split; [destruct (Z.gtb_spec (next_of (timer_heap (base (sch s))) q) now); lia|].
      intros p d [Hp <-]%deadlines_Some. rewrite Hl in Hp.
      assert (next_of (timer_heap (base (sch s))) q <= next_of (timer_heap (base (sch s))) p).
      { apply elem_of_cons in Hp as [->|Hp]; [lia|].
        pose proof (sorted_head_least _ _ _ _ Hs Hp) as Hk. unfold klt in Hk. lia. }
      destruct (Z.gtb_spec (next_of (timer_heap (base (sch s))) q) now); lia. }
  destruct (Z.eqb_spec nx u64_max) as [E|E]; cbn [negb andb].
  - split; [lia|]. intros p d Hp. apply Hmin in Hp. unfold u64_max in *. lia.
  - destruct (Z.ltb_spec nx 3000); (split; [lia|]); intros p d Hp; apply Hmin in Hp; lia.
Qed.

Definition timer_queue : list label := [LOutside (AAddTimer 5%nat 1000 100 (User 1) false)].

Lemma idle_never_oversleeps_witness :
  0 <= idle_timeout 1050 (sch (run_to timer_queue 1)) <= EPOLL_WAIT_TIMEOUT_MS
  /\ (forall p d, deadlines (base (sch (run_to timer_queue 1))) !! p = Some d ->
        1050 + idle_timeout 1050 (sch (run_to timer_queue 1)) <= Z.max 1050 d \/ u64_max <= d - 1050).
Proof.
  apply (idle_never_oversleeps 1). apply (run_to_star timer_queue). vm_compute. reflexivity.
Defined.
