(* ===== verification/SchedulerLive.v ===== *)
(** * Progress of the scheduler

    Two liveness properties of the interleaved system of SchedulerThreads.v.
    When [stop] was called and nothing is left to do, every run of the workers
    is finite, whoever moves when, and can only end with all of them gone.  When
    a task is queued, a worker that waits or looks for work gets to run it by its
    own steps. *)

From S2P Require Import Prelude Timer Fiber Scheduler SchedulerThreads SchedulerProps.

(** The worker that a label moves, for the lines of [run] and [idle]
    themselves: no client code, no new event. *)
Definition mover (l : label) : option tid :=
  match l with LRun t | LDispatch t _ | LEpoll t _ | LExpire t _ => Some t | _ => None end.

Lemma mover_worker l s t r :
  mover l = Some t -> exec l s = Some r -> exists w, workers s !! t = Some w.
Proof.
  intros Hl Hx. destruct (workers s !! t) eqn:E; [by eexists|].
  destruct l; cbn in Hl; try done; injection Hl as ->; cbn in Hx; by rewrite E in Hx.
Qed.

(** ** Stopping *)

(** A worker that holds no task and no expired callback. *)
Definition resting (w : Worker) : bool :=
  match at_pc w with
  | PFiber | PFiberBack | PFiberDec | PFunc | PFuncBack | PFuncDec => false
  | _ => negb (has_work (tk w))
  end && bool_decide (expired_funcs w = []).

(** Nothing is left to do and [stop] was called. *)
Definition quiet (s : Sys) : Prop :=
  shouldStop (sch s) = true /\ forall t w, workers s !! t = Some w -> resting w = true.

(** How many lines a resting worker has before it, at most: at most one more
    turn through the idle loop, in which [shouldStop] answers true, then the
    last turn of [run]. *)
Definition cost (w : Worker) : nat :=
  match at_pc w with
  | IWait => 19 | IExpire => 18 | ISched => 17 | IEvents => 16
  | PIdleBack => if idle_isDone w then 7 else 15
  | PTop => if idle_isDone w then 6 else 14
  | PScan => if idle_isDone w then 5 else 13
  | PTaken => if idle_isDone w then 4 else 12
  | PTickle => if idle_isDone w then 3 else 11
  | PDispatch => if idle_isDone w then 2 else 10
  | PIdleCall => 9 | IStop => 8
  | _ => 0
  end.

Definition total (ws : gmap tid Worker) : nat := map_total cost ws.

Lemma total_bound ws : (total ws <= 19 * size ws)%nat.
Proof.
  induction ws as [|t w ws Hn IH] using map_ind; [done|].
  unfold total in *. rewrite map_total_insert_None, map_size_insert_None by done.
  assert (cost w <= 19)%nat by (unfold cost; destruct (at_pc w); try destruct (idle_isDone w); lia). lia.
Qed.

(** One line of a resting worker: it stays resting, nothing new appears, and it
    comes closer to its exit. *)
Definition quiet_move (s : Sys) (t : tid) (w : Worker) (r : res Sys) : Prop :=
  exists w' sc', r = Ok (s <| sch := sc' |> <| workers := <[t := w']> (workers s) |>)
    /\ shouldStop sc' = true /\ resting w' = true /\ (cost w' < cost w)%nat.

Lemma no_work_fields k : has_work k = false -> fiber k = None /\ func k = None.
Proof. unfold has_work. destruct (fiber k), (func k); cbn; try done; by rewrite ?bool_decide_true in * by eauto. Qed.

(** The parts of a resting worker. *)
Lemma resting_inv w :
  resting w = true -> has_work (tk w) = false /\ expired_funcs w = []
  /\ at_pc w ∉ [PFiber; PFiberBack; PFiberDec; PFunc; PFuncBack; PFuncDec].
Proof.
  unfold resting. intros [H1 H2%bool_decide_eq_true]%andb_prop.
  destruct (at_pc w), (has_work (tk w)); try done; (split; [done|]; split; [done|]; set_solver).
Qed.

Lemma resting_intro w :
  has_work (tk w) = false -> expired_funcs w = [] ->
  at_pc w ∉ [PFiber; PFiberBack; PFiberDec; PFunc; PFuncBack; PFuncDec] -> resting w = true.
Proof.
  intros H1 H2 H3. unfold resting. rewrite H1, H2. destruct (at_pc w); try done; exfalso; set_solver.
Qed.

Lemma shouldStop_fields sc :
  shouldStop sc = true -> m_timers (base sc) = [] /\ m_tasks sc = [].
Proof.
  unfold shouldStop, hasTimers. rewrite !andb_true_iff, negb_true_iff, !bool_decide_eq_true.
  intros (((((H1 & _) & _) & H2) & _) & _). split; [|done]. by destruct (m_timers (base sc)).
Qed.

Lemma getExpiredFuncs_none now tm : m_timers tm = [] -> getExpiredFuncs now [] tm = ([], tm).
Proof. intros H. unfold getExpiredFuncs. by rewrite H. Qed.

(** A line that leaves nothing to do and moves worker [w] on from [E : at_pc w = _]. *)
Ltac quiet_line :=
  match goal with
  | Hq : shouldStop _ = true, Hex : expired_funcs ?w = [], Hwk : has_work (tk ?w) = false, E : at_pc ?w = _ |- _ =>
      eexists _, _; split; [reflexivity|]; split; [exact Hq|];
      unfold resting, cost, idle_isDone; cbn; rewrite ?Hex, ?Hwk, ?E; cbn;
      split; [done|]; try destruct (idle_state w); lia
  end.

Lemma quiet_run s t w r :
  quiet s -> workers s !! t = Some w -> step_run t w s = Some r -> quiet_move s t w r.
Proof.
  intros [Hq Hr] Hw Hx. destruct (resting_inv w (Hr t w Hw)) as (Hwk & Hex & Hpc).
  destruct (shouldStop_fields _ Hq) as [_ Htk].
  unfold step_run, step_top, step_scan, step_taken, step_tickle, step_idle_stop, step_idle_sched, step_idle_yield,
    guard, incr_active, decr_idle in Hx.
  destruct (at_pc w) eqn:E; try done; try (exfalso; set_solver).
  - destruct (lock_free s); [|done]. injection Hx as <-. quiet_line.
  - rewrite Htk in Hx. injection Hx as <-. quiet_line.
  - rewrite Hwk in Hx. injection Hx as <-. quiet_line.
  - injection Hx as <-. unfold tickle. destruct (need_tickle w); [|quiet_line].
    destruct (m_idle_threads (sch s) <=? 0); quiet_line.
  - injection Hx as <-. quiet_line.
  - destruct (lock_free s); [|done]. rewrite Hq in Hx. injection Hx as <-. quiet_line.
  - rewrite Hex in Hx. cbn in Hx. injection Hx as <-. quiet_line.
  - injection Hx as <-. destruct (tickled w); quiet_line.
  - injection Hx as <-. quiet_line.
Qed.

Lemma quiet_exec l s t w r :
  quiet s -> mover l = Some t -> workers s !! t = Some w -> exec l s = Some r -> quiet_move s t w r.
Proof.
  intros Hqs Hl Hw Hx. pose proof Hqs as [Hq Hr]. destruct (resting_inv w (Hr t w Hw)) as (Hwk & Hex & Hpc).
  destruct (no_work_fields _ Hwk) as [Hfb Hfn]. destruct (shouldStop_fields _ Hq) as [Htm _].
  destruct l; cbn in Hl; try done; injection Hl as ->; cbn in Hx; rewrite Hw in Hx; cbn in Hx.
  - by apply (quiet_run s t w r).
  - case_bool_decide as E; [|done]. unfold step_dispatch, dispatch_idle, incr_idle in Hx.
    rewrite Hfb, Hfn, Hwk in Hx. unfold idle_isDone in Hx. destruct (idle_state w) eqn:Ei; injection Hx as <-;
      (eexists _, _; split; [reflexivity|]; split; [exact Hq|]; unfold resting, cost, idle_isDone; cbn;
       rewrite Hex, Hwk, E, Ei; cbn; split; [done|lia]).
  - unfold guard in Hx. destruct (bool_decide (at_pc w = IWait)) eqn:E0; [|done]. apply bool_decide_eq_true in E0 as E.
    cbn in Hx. case_match; [|done]. injection Hx as <-. quiet_line.
  - unfold guard in Hx. case_bool_decide as E; [|done]. rewrite Hex, (getExpiredFuncs_none now _ Htm) in Hx.
    injection Hx as <-. quiet_line.
Qed.

(** The line a worker is at. *)
Definition next_label (t : tid) (w : Worker) : label :=
  match at_pc w with
  | PDispatch => LDispatch t 0%nat
  | IWait => LEpoll t false
  | IExpire => LExpire t 0
  | _ => LRun t
  end.

Lemma next_label_mover t w : mover (next_label t w) = Some t.
Proof. unfold next_label. by destruct (at_pc w). Qed.

(** A worker that has not left can move, unless another one holds the lock. *)
Lemma next_label_enabled s t w :
  workers s !! t = Some w -> resting w = true -> at_pc w <> PExit ->
  lock_free s = true \/ at_pc w = PScan -> is_Some (exec (next_label t w) s).
Proof.
  intros Hw Hr Hpc Hl. destruct (resting_inv w Hr) as (Hwk & Hex & Hn). destruct (no_work_fields _ Hwk) as [Hfb Hfn].
  unfold next_label, exec. destruct (at_pc w) eqn:E; try done; try (exfalso; set_solver); rewrite Hw; cbn;
    unfold step_run, step_top, step_scan, step_idle_stop, step_idle_sched, guard; rewrite ?E; try (by eexists).
  - destruct Hl as [->|?]; [by eexists|done].
  - destruct (m_tasks (sch s)); [by eexists|]. destruct (_ && _); [by eexists|]. destruct (_ || _); by eexists.
  - rewrite bool_decide_true by done. unfold step_dispatch. rewrite Hfb, Hfn. unfold dispatch_idle.
    destruct (idle_isDone w); by eexists.
  - destruct Hl as [->|?]; [by eexists|done].
  - rewrite Hex. by eexists.
Qed.

Lemma quiet_step s s' l :
  sys_inv s -> quiet s -> is_Some (mover l) -> exec l s = Some (Ok s') ->
  sys_inv s' /\ quiet s' /\ (total (workers s') < total (workers s))%nat.
Proof.
  intros Hi Hq [t Hl] Hx. split; [by apply (sys_step_inv s s' Hi), (SysStep l)|].
  destruct (mover_worker l s t _ Hl Hx) as [w Hw].
  destruct (quiet_exec l s t w _ Hq Hl Hw Hx) as (w' & sc' & [= ->] & Hs & Hr & Hc). cbn. split.
  - split; [done|]. cbn. intros t1 w1 [(<- & <-)|(_ & H1)]%lookup_insert_Some; [done|]. by apply (proj2 Hq t1).
  - unfold total. pose proof (map_total_update cost (workers s) t w w' Hw). lia.
Qed.

(** No run of the workers from a quiet state fails or goes on for ever. *)
Lemma quiet_run_bounded ls s r :
  sys_inv s -> quiet s -> Forall (fun l => is_Some (mover l)) ls -> exec_all ls s = Some r ->
  exists s', r = Ok s' /\ sys_inv s' /\ quiet s' /\ (length ls + total (workers s') <= total (workers s))%nat.
Proof.
  revert s. induction ls as [|l ls IH]; intros s Hi Hq Hall Hx; cbn in Hx.
  - injection Hx as <-. exists s. split; [done|]. split; [done|]. split; [done|]. cbn. lia.
  - apply Forall_cons in Hall as [[t Hl] Hall]. destruct (exec l s) as [r1|] eqn:E; [|done].
    assert (exists s1, r1 = Ok s1) as [s1 ->].
    { destruct (mover_worker l s t _ Hl E) as [w Hw].
      destruct (quiet_exec l s t w _ Hq Hl Hw E) as (w' & sc' & -> & _). by eexists. }
    destruct (quiet_step s s1 l Hi Hq (mk_is_Some _ _ Hl) E) as (Hi1 & Hq1 & Hlt).
    destruct (IH s1 Hi1 Hq1 Hall Hx) as (s' & -> & Hi' & Hq' & Hle). exists s'. cbn. split; [done|]. split; [done|]. split; [done|]. lia.
Qed.

(** While a worker has not left, some worker can move. *)
Lemma quiet_enabled s t w :
  sys_inv s -> quiet s -> workers s !! t = Some w -> at_pc w <> PExit ->
  exists l, is_Some (mover l) /\ is_Some (exec l s).
Proof.
  intros Hi Hq Hw Hpc. destruct (m_mutex (sch s)) as [t0|] eqn:Em.
  - apply (inv_owner s Hi) in Em as (w0 & Hw0 & Hpc0). exists (next_label t0 w0).
    split; [by rewrite next_label_mover|]. apply next_label_enabled; [done|by apply (proj2 Hq t0)|congruence|by right].
  - exists (next_label t w). split; [by rewrite next_label_mover|].
    apply next_label_enabled; [done|by apply (proj2 Hq t)|done|]. left. unfold lock_free. by rewrite bool_decide_true.
Qed.

(** C2: [stop] comes to an end.  Take any reachable state in which [stop] was
    called, no task is queued or held, no timer armed, no event pending and no
    worker active.  Then every run of the workers, in whatever order they move,
    is at most 19 lines per worker long and none of its steps fails; and as long
    as a worker has not left [run], some worker can move.  So however the
    workers are scheduled, all of them leave and the joins of [stop] return. *)
Theorem stop_terminates n s :
  star sys_step (Sys_init n) s -> quiet s ->
  forall ls r, Forall (fun l => is_Some (mover l)) ls -> exec_all ls s = Some r ->
  exists s', r = Ok s' /\ (length ls <= 19 * size (workers s))%nat
    /\ ((forall t w, workers s' !! t = Some w -> at_pc w = PExit)
        \/ exists l, is_Some (mover l) /\ is_Some (exec l s')).
Proof.
  intros Hi%sys_reachable_inv Hq ls r Hall Hx.
  destruct (quiet_run_bounded ls s r Hi Hq Hall Hx) as (s' & -> & Hi' & Hq' & Hle).
  exists s'. split; [done|]. split; [pose proof (total_bound (workers s)); lia|].
  destruct (decide (map_Forall (fun _ w => at_pc w = PExit) (workers s'))) as [Hall'|Hn]; [by left|right].
  apply (map_not_Forall (M := gmap tid)) in Hn as (t & w & Hw & Hpc); [|apply _]. by apply (quiet_enabled s' t w).
Qed.

(** One worker idles when [stop] is called: its last lines. *)
Definition stopping_idle : Sys := run_to (go_idle 1 ++ [LRun 1%nat; LStop]) 1.

Lemma stop_terminates_witness :
  exists s', exec_all [LEpoll 1%nat false; LExpire 1%nat 0; LRun 1%nat] stopping_idle = Some (Ok s')
    /\ ((forall t w, workers s' !! t = Some w -> at_pc w = PExit)
        \/ exists l, is_Some (mover l) /\ is_Some (exec l s')).
Proof.
  destruct (stop_terminates 1 stopping_idle) with (ls := [LEpoll 1%nat false; LExpire 1%nat 0; LRun 1%nat])
    (r := match exec_all [LEpoll 1%nat false; LExpire 1%nat 0; LRun 1%nat] stopping_idle with Some r => r | None => Ok stopping_idle end)
    as (s' & Hr & _ & H).
  - apply (run_to_star (go_idle 1 ++ [LRun 1%nat; LStop])). vm_compute. reflexivity.
  - split; [vm_compute; reflexivity|]. apply map_Forall_lookup, (bool_decide_unpack _). vm_compute. exact I.
  - repeat constructor; by eexists.
  - vm_compute. reflexivity.
  - exists s'. split; [|exact H]. rewrite <- Hr. vm_compute. reflexivity.
Defined.

(** ** Serving the queue *)

(** A worker on its way to look at the queue: at the head of its loop or
    somewhere in its idle loop. *)
Definition waiting (w : Worker) : bool :=
  match at_pc w with
  | PTop | PIdleCall | IStop | IWait | IExpire | ISched | IEvents | PIdleBack => true
  | _ => false
  end.

Definition distance (w : Worker) : nat :=
  match at_pc w with
  | PIdleCall => 7 | IStop => 6 | IWait => 5 | IExpire => 4 | ISched => 3 | IEvents => 2 | PIdleBack => 1 | _ => 0
  end.

(** [k] is next in the queue and the lock is free. *)
Definition next_task (k : Task) (s : Sys) : Prop :=
  m_mutex (sch s) = None /\ exists rest, m_tasks (sch s) = k :: rest.

(** What [run] can execute: a function, or a fiber that is not done and does
    not execute elsewhere; for this worker or any. *)
Definition executable (t : tid) (k : Task) (s : Sys) : Prop :=
  (thread_id k = -1 \/ thread_id k = Z.of_nat t)
  /\ match fiber k with
     | Some p => fstate s !! p = Some READY \/ fstate s !! p = Some SUSPEND
     | None => is_Some (func k)
     end.

Lemma shouldStop_tasks sc k rest : m_tasks sc = k :: rest -> shouldStop sc = false.
Proof.
  intros Hk. destruct (shouldStop sc) eqn:E; [|done]. apply shouldStop_fields in E as [_ E]. congruence.
Qed.

(** One line brings a waiting worker closer to the queue and takes nothing
    away. *)
Definition closer (s : Sys) (t : tid) (w : Worker) (k : Task) (o : option (res Sys)) : Prop :=
  exists s' w', o = Some (Ok s') /\ workers s' = <[t := w']> (workers s) /\ waiting w' = true
    /\ (distance w' < distance w)%nat /\ next_task k s' /\ taken s' = taken s /\ fstate s' = fstate s.

Lemma closer_intro s t w k w' sc' sub :
  waiting w' = true -> (distance w' < distance w)%nat ->
  m_mutex sc' = None -> (exists rest, m_tasks sc' = k :: rest) ->
  closer s t w k (Some (Ok (mkSys sc' (fstate s) (<[t := w']> (workers s)) sub (taken s) (dropped s)))).
Proof. intros H1 H2 H3 H4. eexists _, w'. split; [reflexivity|]. by repeat split. Qed.

Lemma waiting_step s t w k :
  workers s !! t = Some w -> waiting w = true -> at_pc w <> PTop -> next_task k s ->
  closer s t w k (exec (next_label t w) s).
Proof.
  intros Hw Hwt Hpc [Hm [rest Hk]].
  assert (lock_free s = true) as Hlf by (unfold lock_free; by rewrite bool_decide_true).
  unfold next_label, exec, waiting in *.
  destruct (at_pc w) eqn:E; try done; rewrite Hw; cbn [mbind option_bind];
    unfold step_run, step_idle_stop, step_idle_sched, step_idle_yield, guard, decr_idle; rewrite ?E, ?Hlf.
  - apply closer_intro; [done|unfold distance; rewrite E; cbn; lia|done|by exists rest].
  - rewrite (shouldStop_tasks _ _ _ Hk). apply closer_intro; [done|unfold distance; rewrite E; cbn; lia|done|by exists rest].
  - rewrite bool_decide_true by done. cbn [andb implb].
    apply closer_intro; [done|unfold distance; rewrite E; cbn; lia|done|by exists rest].
  - rewrite bool_decide_true by done. destruct (getExpiredFuncs _ _ _) as [fs tm].
    apply (closer_intro s t w k _ ((sch s) <| base := tm |>) (submitted s)); [done|unfold distance; rewrite E; cbn; lia|done|by exists rest].
  - destruct (bool_decide (expired_funcs w = [])).
    + apply closer_intro; [done|unfold distance; rewrite E; cbn; lia|done|by exists rest].
    + destruct (schedule_range_frame (expired_funcs w) (-1) (sch s)) as (_ & _ & Hm' & Ht' & _).
      eapply (closer_intro s t w k _ (schedule_range (expired_funcs w) (-1) (sch s)));
        [done|unfold distance; rewrite E; cbn; lia|by rewrite Hm'|]. rewrite Ht', Hk. by eexists.
  - destruct (tickled w).
    + apply (closer_intro s t w k _ ((sch s) <| tickle_pipe := 0%nat |>) (submitted s));
        [done|unfold distance; rewrite E; cbn; lia|done|by exists rest].
    + apply closer_intro; [done|unfold distance; rewrite E; cbn; lia|done|by exists rest].
  - apply (closer_intro s t w k _ ((sch s) <| m_idle_threads := u64 (m_idle_threads (sch s) - 1) |>) (submitted s)); [done|unfold distance; rewrite E; cbn; lia|done|by exists rest].
Qed.

Lemma exec_all_app ls1 ls2 s s1 :
  exec_all ls1 s = Some (Ok s1) -> exec_all (ls1 ++ ls2) s = exec_all ls2 s1.
Proof.
  revert s. induction ls1 as [|l ls1 IH]; intros s H; cbn in *; [congruence|].
  destruct (exec l s) as [[s2| | | |]|]; try done. by apply IH.
Qed.

Lemma reach_top s t w k :
  workers s !! t = Some w -> waiting w = true -> next_task k s ->
  exists ls s' w', Forall (fun l => mover l = Some t) ls /\ (length ls <= distance w)%nat
    /\ exec_all ls s = Some (Ok s') /\ workers s' !! t = Some w' /\ at_pc w' = PTop
    /\ next_task k s' /\ taken s' = taken s /\ fstate s' = fstate s.
Proof.
  remember (distance w) as d eqn:Hd. revert s w Hd.
  induction d as [d IH] using lt_wf_ind. intros s w -> Hw Hwt Hk.
  destruct (decide (at_pc w = PTop)) as [E|E].
  { exists [], s, w. split; [constructor|]. split; [cbn; lia|]. done. }
  destruct (waiting_step s t w k Hw Hwt E Hk) as (s1 & w1 & Hx & Hws & Hw1 & Hlt & Hk1 & Ht1 & Hf1).
  destruct (IH (distance w1) Hlt s1 w1 eq_refl) as (ls & s' & w' & Hall & Hlen & Hxs & Hw' & Hpc' & Hk' & Ht' & Hf').
  { rewrite Hws. apply lookup_insert_eq. }
  { done. }
  { done. }
  exists (next_label t w :: ls), s', w'. split; [constructor; [apply next_label_mover|done]|].
  split; [cbn; lia|]. split; [cbn; by rewrite Hx|]. rewrite <- Ht1, <- Hf1. done.
Qed.

Lemma exec_all_cons l ls s s1 r :
  exec l s = Some (Ok s1) -> exec_all ls s1 = r -> exec_all (l :: ls) s = r.
Proof. intros H <-. cbn. by rewrite H. Qed.

Lemma exec_run s t w : workers s !! t = Some w -> exec (LRun t) s = step_run t w s.
Proof. intros H. cbn. by rewrite H. Qed.

Lemma executable_may_run t k s :
  executable t k s ->
  negb (thread_id k =? -1) && negb (thread_id k =? Z.of_nat t) = false
  /\ match fiber k with Some p => negb (bool_decide (fstate s !! p = Some RUNNING)) | None => false end
     || bool_decide (is_Some (func k)) = true
  /\ has_work k = true.
Proof.
  intros [Hthr Hex]. split; [|split].
  - destruct Hthr as [->| ->]; [done|]. rewrite Z.eqb_refl. by rewrite andb_false_r.
  - destruct (fiber k) as [p|]; [|by rewrite bool_decide_true].
    rewrite bool_decide_false; [done|]. destruct Hex; congruence.
  - unfold has_work. destruct (fiber k); cbn; [done|]. by rewrite bool_decide_true.
Qed.

(** The four lines from the head of the loop to the dispatch, one by one. *)
Lemma run_line s t w w' s1 :
  workers s !! t = Some w -> step_run t w s = Some (Ok (set_worker t w' s1)) ->
  exec (LRun t) s = Some (Ok (set_worker t w' s1)) /\ workers (set_worker t w' s1) !! t = Some w'.
Proof. intros Hw Hs. rewrite (exec_run s t w Hw). split; [done|]. apply lookup_insert_eq. Qed.

Lemma line_top s t w :
  workers s !! t = Some w -> at_pc w = PTop -> m_mutex (sch s) = None ->
  exists s' w', exec (LRun t) s = Some (Ok s') /\ workers s' !! t = Some w' /\ at_pc w' = PScan
    /\ func_fiber w' = func_fiber w /\ m_tasks (sch s') = m_tasks (sch s) /\ taken s' = taken s /\ fstate s' = fstate s.
Proof.
  intros Hw Hpc Hm. edestruct (run_line s t w) as [E1 E2]; [done| |].
  - unfold step_run. rewrite Hpc. unfold step_top, guard, lock_free. rewrite bool_decide_true by done. reflexivity.
  - do 2 eexists. split; [exact E1|]. split; [exact E2|]. done.
Qed.

Lemma line_scan s t w k rest :
  workers s !! t = Some w -> at_pc w = PScan -> m_tasks (sch s) = k :: rest -> executable t k s ->
  exists s' w', exec (LRun t) s = Some (Ok s') /\ workers s' !! t = Some w' /\ at_pc w' = PTaken
    /\ tk w' = k /\ func_fiber w' = func_fiber w /\ taken s' = taken s ++ [k] /\ fstate s' = fstate s.
Proof.
  intros Hw Hpc Hk Hex. destruct (executable_may_run t k s Hex) as (H1 & H2 & _).
  edestruct (run_line s t w) as [E1 E2]; [done| |].
  - unfold step_run. rewrite Hpc. unfold step_scan. rewrite Hk, H1. cbv zeta. rewrite H2. reflexivity.
  - do 2 eexists. split; [exact E1|]. split; [exact E2|]. done.
Qed.

Lemma line_taken s t w k :
  workers s !! t = Some w -> at_pc w = PTaken -> tk w = k -> has_work k = true ->
  exists s' w', exec (LRun t) s = Some (Ok s') /\ workers s' !! t = Some w' /\ at_pc w' = PTickle
    /\ tk w' = k /\ func_fiber w' = func_fiber w /\ taken s' = taken s /\ fstate s' = fstate s.
Proof.
  intros Hw Hpc Hk Hh. edestruct (run_line s t w) as [E1 E2]; [done| |].
  - unfold step_run. rewrite Hpc. unfold step_taken. rewrite Hk, Hh. reflexivity.
  - do 2 eexists. split; [exact E1|]. split; [exact E2|]. done.
Qed.

Lemma line_tickle s t w k :
  workers s !! t = Some w -> at_pc w = PTickle -> tk w = k ->
  exists s' w', exec (LRun t) s = Some (Ok s') /\ workers s' !! t = Some w' /\ at_pc w' = PDispatch
    /\ tk w' = k /\ func_fiber w' = func_fiber w /\ taken s' = taken s /\ fstate s' = fstate s.
Proof.
  intros Hw Hpc Hk. edestruct (run_line s t w) as [E1 E2]; [done| |].
  - unfold step_run. rewrite Hpc. reflexivity.
  - do 2 eexists. split; [exact E1|]. split; [exact E2|]. cbn. by destruct (need_tickle w).
Qed.

(** At the head of its loop the worker takes the task: four lines to the
    dispatch. *)
Lemma take_task s t w k :
  workers s !! t = Some w -> at_pc w = PTop -> next_task k s -> executable t k s ->
  exists s' w', exec_all (lines t 4) s = Some (Ok s') /\ workers s' !! t = Some w' /\ at_pc w' = PDispatch
    /\ tk w' = k /\ func_fiber w' = func_fiber w /\ taken s' = taken s ++ [k] /\ fstate s' = fstate s.
Proof.
  intros Hw Hpc [Hm [rest Hk]] Hex. destruct (executable_may_run t k s Hex) as (_ & _ & Hh).
  destruct (line_top s t w Hw Hpc Hm) as (s1 & w1 & X1 & Hw1 & Hp1 & F1 & T1 & K1 & S1).
  destruct (line_scan s1 t w1 k rest) as (s2 & w2 & X2 & Hw2 & Hp2 & Tk2 & F2 & K2 & S2); [done|done|congruence| |].
  { unfold executable. by rewrite S1. }
  destruct (line_taken s2 t w2 k Hw2 Hp2 Tk2 Hh) as (s3 & w3 & X3 & Hw3 & Hp3 & Tk3 & F3 & K3 & S3).
  destruct (line_tickle s3 t w3 k Hw3 Hp3 Tk3) as (s4 & w4 & X4 & Hw4 & Hp4 & Tk4 & F4 & K4 & S4).
  exists s4, w4. split; [|repeat split; congruence].
  unfold lines. cbn [repeat]. do 4 (eapply exec_all_cons; [eassumption|]). reflexivity.
Qed.

(** The dispatch starts the task on this worker. *)
Lemma dispatch_starts s t w k :
  workers s !! t = Some w -> at_pc w = PDispatch -> tk w = k -> executable t k s ->
  exists addr s' w' p, exec (LDispatch t addr) s = Some (Ok s') /\ workers s' !! t = Some w'
    /\ running_fiber w' = Some p /\ fstate s' !! p = Some RUNNING /\ taken s' = taken s
    /\ (forall q, fiber k = Some q -> q = p).
Proof.
  intros Hw Hpc <- [_ Hex]. exists (fresh (dom (fstate s))). cbn. rewrite Hw. cbn [mbind option_bind].
  rewrite bool_decide_true by done. unfold step_dispatch, fiber_done.
  destruct (fiber (tk w)) as [p|] eqn:Ef.
  - assert (fcall p (fstate s) = Ok (<[p := RUNNING]> (fstate s))) as Hc by (unfold fcall; by destruct Hex as [-> | ->]).
    assert (match fstate s !! p with Some TERM | Some EXCEPT => true | _ => false end = false) as -> by (by destruct Hex as [-> | ->]).
    cbn [negb]. rewrite Hc. eexists _, _, p. split; [reflexivity|]. cbn. rewrite !lookup_insert_eq. split; [reflexivity|].
    unfold running_fiber. cbn. rewrite Ef. repeat split. congruence.
  - destruct Hex as [f ->]. unfold dispatch_func, fcall. destruct (func_fiber w) as [ff|] eqn:Eff.
    + rewrite lookup_insert_eq. eexists _, _, ff. split; [reflexivity|]. cbn. rewrite !lookup_insert_eq. split; [reflexivity|].
      unfold running_fiber. cbn. rewrite Eff. by repeat split.
    + unfold guard. rewrite bool_decide_true by (apply not_elem_of_dom, is_fresh).
      rewrite lookup_insert_eq. eexists _, _, _. split; [reflexivity|]. cbn. rewrite !lookup_insert_eq. split; [reflexivity|].
      unfold running_fiber. cbn. by repeat split.
Qed.

(** C14: no queued task starves for lack of steps.  In any state of the system,
    if the lock is free and the next task in the queue is a function or a fiber
    that is READY or SUSPENDED, for any thread or for this one, then a worker
    that is at the head of its loop or anywhere in its idle loop starts this
    very task by at most 12 lines of its own while the others stand still,
    also without a byte in the tickle pipe and also after [stop]. *)
Theorem waiting_worker_runs_task s t w k :
  workers s !! t = Some w -> waiting w = true -> next_task k s -> executable t k s ->
  exists ls s' w' p, Forall (fun l => mover l = Some t) ls /\ (length ls <= 12)%nat
    /\ exec_all ls s = Some (Ok s') /\ workers s' !! t = Some w'
    /\ taken s' = taken s ++ [k] /\ running_fiber w' = Some p /\ fstate s' !! p = Some RUNNING
    /\ (forall q, fiber k = Some q -> q = p).
Proof.
  intros Hw Hwt Hk Hex.
  destruct (reach_top s t w k Hw Hwt Hk) as (ls1 & s1 & w1 & Hall1 & Hlen1 & Hx1 & Hw1 & Hpc1 & Hk1 & Ht1 & Hf1).
  assert (executable t k s1) as Hex1 by (unfold executable; by rewrite Hf1).
  destruct (take_task s1 t w1 k Hw1 Hpc1 Hk1 Hex1) as (s2 & w2 & Hx2 & Hw2 & Hpc2 & Htk2 & _ & Ht2 & Hf2).
  assert (executable t k s2) as Hex2 by (unfold executable; by rewrite Hf2).
  destruct (dispatch_starts s2 t w2 k Hw2 Hpc2 Htk2 Hex2) as (addr & s3 & w3 & p & Hx3 & Hw3 & Hr3 & Hs3 & Ht3 & Hq3).
  exists (ls1 ++ lines t 4 ++ [LDispatch t addr]), s3, w3, p. split; [|split].
  - apply Forall_app. split; [done|]. by repeat constructor.
  - rewrite !length_app. unfold distance in Hlen1. cbn. destruct (at_pc w); lia.
  - rewrite (exec_all_app _ _ s s1 Hx1), (exec_all_app _ _ s1 s2 Hx2). split; [by eapply exec_all_cons|].
    split; [done|]. split; [congruence|done].
Qed.

(** One worker in [epoll_wait], a task queued without a wake-up. *)
Lemma waiting_worker_runs_task_witness :
  exists ls s' w' p, Forall (fun l => mover l = Some 1%nat) ls /\ (length ls <= 12)%nat
    /\ exec_all ls (run_to lost_wakeup 1) = Some (Ok s') /\ workers s' !! 1%nat = Some w'
    /\ taken s' = [T 1] /\ running_fiber w' = Some p /\ fstate s' !! p = Some RUNNING
    /\ (forall q, fiber (T 1) = Some q -> q = p).
Proof.
  apply (waiting_worker_runs_task (run_to lost_wakeup 1) 1%nat
    (mkWorker IWait Task_empty false None RUNNING false []) (T 1)).
  - vm_compute. reflexivity.
  - reflexivity.
  - split; [vm_compute; reflexivity|]. exists []. vm_compute. reflexivity.
  - split; [left; reflexivity|]. exists (User 1). reflexivity.
Defined.
