(* ===== verification/Posix.v ===== *)
(** * The operating system seen by the library

    [fstat], [fcntl], [epoll_ctl] and the socket calls are not part of the
    sources.  Each group is a class of operations on an abstract kernel state
    [K]; what the code relies on is a second class with the documented
    behaviour (fcntl(2), epoll_ctl(2)) as laws.  The theorems of the client
    files are proved against the classes; [SimKernel] is a small kernel that
    satisfies them, which the witnesses run. *)

From S2P Require Import Prelude.

(** ** Constants of the Linux headers *)

Definition F_GETFL : Z := 3.
Definition F_SETFL : Z := 4.
Definition O_NONBLOCK : Z := 2048.
Definition SOL_SOCKET : Z := 1.
Definition SO_ERROR : Z := 4.
Definition SO_RCVTIMEO : Z := 20.
Definition SO_SNDTIMEO : Z := 21.
Definition FIONBIO : Z := 21537.
Definition EINTR : Z := 4.
Definition EBADF : Z := 9.
Definition EAGAIN : Z := 11.
Definition ETIMEDOUT : Z := 110.
Definition EINPROGRESS : Z := 115.
Definition EPOLL_CTL_ADD : Z := 1.
Definition EPOLL_CTL_DEL : Z := 2.
Definition EPOLL_CTL_MOD : Z := 3.
Definition EPOLLIN : Z := 1.
Definition EPOLLOUT : Z := 4.
Definition EPOLLERR : Z := 8.
Definition EPOLLHUP : Z := 16.
Definition EPOLLET : Z := 2 ^ 31.

(** [S_ISSOCK(mode)] *)
Definition S_ISSOCK (mode : Z) : bool := Z.land mode 61440 =? 49152.

(** [flags & O_NONBLOCK] as a condition. *)
Definition nonblocking (flags : Z) : bool := truthy (Z.land flags O_NONBLOCK).

(** ** Descriptors *)

Class FileOps (K : Type) := {
  k_fstat : Z -> K -> option Z;                 (* st_mode; None for -1 *)
  k_fcntl : Z -> Z -> option Z -> K -> Z * K;   (* no third argument: None *)
}.

(** [status k fd]: the file status flags of an open descriptor. *)
Class FileLaws (K : Type) `{FileOps K} (status : K -> Z -> option Z) := {
  fstat_open k fd : is_Some (k_fstat fd k) <-> is_Some (status k fd);
  getfl_open k fd a fl : status k fd = Some fl -> k_fcntl fd F_GETFL a k = (fl, k);
  getfl_bad k fd a : status k fd = None -> k_fcntl fd F_GETFL a k = (-1, k);
  status_nonneg k fd fl : status k fd = Some fl -> 0 <= fl;
  setfl_open k fd a fl : status k fd = Some fl ->
    exists k' fl', k_fcntl fd F_SETFL (Some a) k = (0, k')
      /\ status k' fd = Some fl' /\ nonblocking fl' = nonblocking a
      /\ (forall fd', fd' <> fd -> status k' fd' = status k fd')
      /\ (forall fd', k_fstat fd' k' = k_fstat fd' k);
}.

(** ** Polling *)

(** [struct epoll_event]; [data.ptr] is always a [FdContext*]. *)
Record epoll_event := mkEpollEvent {
  ep_events : Z;       (* uint32_t *)
  ep_ptr : ptr;
}.
#[export] Instance eta_epoll_event : Eta epoll_event :=
  fun e => mkEpollEvent (ep_events e) (ep_ptr e).

Class EpollOps (K : Type) := {
  k_epoll_ctl : Z -> Z -> epoll_event -> K -> Z * K;
}.

(** [interest k]: the interest list of the library's epoll instance, without
    the entry of the tickle pipe; [pollable k fd]: an open descriptor, other
    than the tickle pipe, that epoll accepts. *)
Class EpollLaws (K : Type) `{EpollOps K}
    (interest : K -> gmap Z epoll_event) (pollable : K -> Z -> bool) := {
  ctl_add k fd e : pollable k fd = true -> interest k !! fd = None ->
    exists k', k_epoll_ctl EPOLL_CTL_ADD fd e k = (0, k')
      /\ interest k' = <[fd := e]> (interest k) /\ pollable k' = pollable k;
  ctl_mod k fd e e0 : interest k !! fd = Some e0 ->
    exists k', k_epoll_ctl EPOLL_CTL_MOD fd e k = (0, k')
      /\ interest k' = <[fd := e]> (interest k) /\ pollable k' = pollable k;
  ctl_del k fd e e0 : interest k !! fd = Some e0 ->
    exists k', k_epoll_ctl EPOLL_CTL_DEL fd e k = (0, k')
      /\ interest k' = delete fd (interest k) /\ pollable k' = pollable k;
}.

(** ** The C library behind the hooks *)

(** The calls that reach a descriptor's data; [args] names buffers and lengths. *)
Inductive io_fun :=
| accept_f | read_f | readv_f | recv_f | recvfrom_f | recvmsg_f
| write_f | writev_f | send_f | sendto_f | sendmsg_f.

#[export] Instance io_fun_eq_dec : EqDecision io_fun.
Proof. solve_decision. Defined.

Inductive libc_call :=
| LSleep (seconds : Z)
| LUsleep (usec : Z)
| LNanosleep (tv_sec tv_nsec : Z)
| LSocket (domain type protocol : Z)
| LConnect (fd : Z) (addr : nat)
| LIo (f : io_fun) (fd : Z) (args : nat)
| LClose (fd : Z)
| LIoctl (fd request arg : Z)            (* arg: the int behind the pointer *)
| LGetsockopt (fd level optname : Z)
| LSetsockopt (fd level optname tv_sec tv_usec : Z).

(** The result, [errno] if the result is -1, and what was stored through an
    [int*] argument. *)
Record libc_res := mkRes {
  lr_ret : Z;
  lr_errno : Z;
  lr_out : Z;
}.

Class LibcOps (K : Type) := {
  k_libc : libc_call -> K -> libc_res * K;
}.

(** ioctl(2) with FIONBIO sets or clears O_NONBLOCK of an open descriptor. *)
Class LibcLaws (K : Type) `{LibcOps K} (status : K -> Z -> option Z) := {
  fionbio_open k fd v fl : status k fd = Some fl ->
    exists r k' fl', k_libc (LIoctl fd FIONBIO v) k = (r, k') /\ lr_ret r = 0
      /\ status k' fd = Some fl' /\ nonblocking fl' = truthy v
      /\ (forall fd', fd' <> fd -> status k' fd' = status k fd');
}.

(** Reading, writing and accepting leave the interest list alone and close
    nothing. *)
Class LibcEpollLaws (K : Type) `{LibcOps K}
    (interest : K -> gmap Z epoll_event) (pollable : K -> Z -> bool) := {
  io_keeps k f fd args r k' : k_libc (LIo f fd args) k = (r, k') ->
    interest k' = interest k /\ (forall fd', pollable k fd' = true -> pollable k' fd' = true);
}.

(** ** Kernel calls inside a component *)

(** Run a kernel call on the kernel held in a larger state. *)
Definition mkern {S K A} (get : S -> K) (put : K -> S -> S) (f : K -> A * K) : M S A :=
  fun s => let '(a, k') := f (get s) in Ok (a, put k' s).

(** ** A concrete kernel *)

Record sim_kernel := mkSim {
  sim_files : gmap Z (Z * Z);             (* descriptor -> st_mode, flags *)
  sim_interest : gmap Z epoll_event;
}.
#[export] Instance eta_sim_kernel : Eta sim_kernel :=
  fun k => mkSim (sim_files k) (sim_interest k).

Definition sim_status (k : sim_kernel) (fd : Z) : option Z := (fun e => Z.max 0 (e.2)) <$> sim_files k !! fd.

#[export] Instance sim_file_ops : FileOps sim_kernel := {|
  k_fstat fd k := fst <$> sim_files k !! fd;
  k_fcntl fd cmd arg k :=
    match sim_files k !! fd with
    | None => (-1, k)
    | Some (mode, fl) =>
        if cmd =? F_GETFL then (Z.max 0 fl, k)
        else if cmd =? F_SETFL then
          (0, k <| sim_files := <[fd := (mode, Z.land (default 0 arg) O_NONBLOCK)]> (sim_files k) |>)
        else (0, k)
    end;
|}.

Lemma nonblocking_bit a : nonblocking a = Z.testbit a 11.
Proof.
  unfold nonblocking, truthy. destruct (Z.testbit a 11) eqn:E.
  - apply Bool.negb_true_iff, Z.eqb_neq. intros H.
    assert (Z.testbit (Z.land a O_NONBLOCK) 11 = true) by (rewrite Z.land_spec, E; reflexivity).
    rewrite H, Z.testbit_0_l in *. done.
  - apply Bool.negb_false_iff, Z.eqb_eq. apply Z.bits_inj'. intros n Hn.
    rewrite Z.land_spec, Z.testbit_0_l. replace O_NONBLOCK with (2 ^ 11) by reflexivity.
    rewrite Z.pow2_bits_eqb by lia. destruct (Z.eqb_spec 11 n); [by subst; rewrite E|apply andb_false_r].
Qed.

#[export] Instance sim_file_laws : FileLaws sim_kernel sim_status.
Proof.
  split; unfold sim_status; cbn.
  - intros k fd. by destruct (sim_files k !! fd).
  - intros k fd a fl H. destruct (sim_files k !! fd) as [[mode f]|]; [|done].
    cbn in H. by injection H as <-.
  - intros k fd a H. by destruct (sim_files k !! fd).
  - intros k fd fl H. destruct (sim_files k !! fd) as [[mode f]|]; [|done]. cbn in H. injection H as <-. lia.
  - intros k fd a fl H. destruct (sim_files k !! fd) as [[mode f]|] eqn:E; [|done].
    eexists _, _. split; [reflexivity|]. cbn. rewrite lookup_insert_eq. split; [reflexivity|].
    split; [|split].
    + cbn. rewrite Z.max_r by (apply Z.land_nonneg; right; done).
      rewrite !nonblocking_bit, Z.land_spec. change (Z.testbit O_NONBLOCK 11) with true. apply andb_true_r.
    + intros fd' Hne. by rewrite lookup_insert_ne by done.
    + intros fd'. destruct (decide (fd = fd')) as [->|Hne].
      * rewrite lookup_insert_eq, E. reflexivity.
      * by rewrite lookup_insert_ne by done.
Qed.

Definition sim_pollable (k : sim_kernel) (fd : Z) : bool := bool_decide (is_Some (sim_files k !! fd)).

#[export] Instance sim_epoll_ops : EpollOps sim_kernel := {|
  k_epoll_ctl op fd e k :=
    match sim_interest k !! fd with
    | None =>
        if (op =? EPOLL_CTL_ADD) && sim_pollable k fd
        then (0, k <| sim_interest := <[fd := e]> (sim_interest k) |>) else (-1, k)
    | Some _ =>
        if op =? EPOLL_CTL_MOD then (0, k <| sim_interest := <[fd := e]> (sim_interest k) |>)
        else if op =? EPOLL_CTL_DEL then (0, k <| sim_interest := delete fd (sim_interest k) |>)
        else (-1, k)
    end;
|}.

#[export] Instance sim_epoll_laws : EpollLaws sim_kernel sim_interest sim_pollable.
Proof.
  split; cbn.
  - intros k fd e Hp Hi. rewrite Hi, Hp. eexists. split; [reflexivity|]. done.
  - intros k fd e e0 Hi. rewrite Hi. eexists. split; [reflexivity|]. done.
  - intros k fd e e0 Hi. rewrite Hi. eexists. split; [reflexivity|]. done.
Qed.
