(* ===== verification/FdManager.v ===== *)
(** * Descriptor contexts (src/src/fd_manager.h, src/src/fd_manager.cpp)

    [FdCtx] and the table [FdManager] that the hooked calls share.  A
    [shared_ptr<FdCtx>] is an address on a heap, so two holders of one context
    see each other's writes; an object is never reclaimed in the model.  The
    table is guarded by a read-write lock, and each locked block of [get] and
    [del] is one definition: [get] is their composition, and the step relation
    interleaves the blocks of several threads. *)

From S2P Require Import Prelude Posix.

Record FdCtx := mkFdCtx {
  m_isInit : bool;
  m_isSocket : bool;
  m_sysNonblock : bool;
  m_userNonblock : bool;
  m_isClosed : bool;
  m_fd : Z;
  m_recvTimeout : Z;          (* uint64_t *)
  m_sendTimeout : Z;          (* uint64_t *)
}.
#[export] Instance eta_FdCtx : Eta FdCtx := fun c =>
  mkFdCtx (m_isInit c) (m_isSocket c) (m_sysNonblock c) (m_userNonblock c) (m_isClosed c)
    (m_fd c) (m_recvTimeout c) (m_sendTimeout c).

(** The accessors [setUserNonblock], [setSysNonblock], [setTimeout] and
    [getTimeout]; the others are the fields. *)
Definition setUserNonblock (v : bool) (c : FdCtx) : FdCtx := c <| m_userNonblock := v |>.
Definition setSysNonblock (v : bool) (c : FdCtx) : FdCtx := c <| m_sysNonblock := v |>.

Definition setTimeout (type v : Z) (c : FdCtx) : FdCtx :=
  if type =? SO_RCVTIMEO then c <| m_recvTimeout := v |> else c <| m_sendTimeout := v |>.

Definition getTimeout (type : Z) (c : FdCtx) : Z :=
  if type =? SO_RCVTIMEO then m_recvTimeout c else m_sendTimeout c.

(** The table, the heap of contexts and the kernel. *)
Record fd_sys (K : Type) := mkFdSys {
  m_datas : list (option ptr);
  fdctxs : gmap ptr FdCtx;
  fkern : K;
}.
Arguments mkFdSys {K}.
Arguments m_datas {K}.
Arguments fdctxs {K}.
Arguments fkern {K}.
#[export] Instance eta_fd_sys K : Eta (fd_sys K) := fun s => mkFdSys (m_datas s) (fdctxs s) (fkern s).

(** [v[i]] on a [std::vector]: an index out of range is undefined. *)
Definition vec_at {A} (v : list A) (i : Z) : option A :=
  if 0 <=? i then v !! Z.to_nat i else None.

Section FdManager.
Context {K : Type} `{FileOps K}.

(** ** FdCtx *)

(** [FdCtx::init] *)
Definition FdCtx_init (c : FdCtx) (k : K) : bool * FdCtx * K :=
  if m_isInit c then (true, c, k)
  else
    let c := c <| m_recvTimeout := u64 (-1) |> <| m_sendTimeout := u64 (-1) |> in
    let c := match k_fstat (m_fd c) k with
             | None => c <| m_isInit := false |> <| m_isSocket := false |>
             | Some st_mode => c <| m_isInit := true |> <| m_isSocket := S_ISSOCK st_mode |>
             end in
    let '(c, k) :=
      if m_isSocket c then
        let '(flags, k) := k_fcntl (m_fd c) F_GETFL (Some 0) k in
        let k := if negb (nonblocking flags)
                 then snd (k_fcntl (m_fd c) F_SETFL (Some (Z.lor flags O_NONBLOCK)) k) else k in
        (c <| m_sysNonblock := true |>, k)
      else (c <| m_sysNonblock := false |>, k) in
    let c := c <| m_userNonblock := false |> <| m_isClosed := false |> in
    (m_isInit c, c, k).

(** [FdCtx::FdCtx] *)
Definition FdCtx_ctor (fd : Z) (k : K) : FdCtx * K :=
  let '(_, c, k') :=
    FdCtx_init (mkFdCtx false false false false false fd (u64 (-1)) (u64 (-1))) k in (c, k').

(** ** FdManager *)

(** [FdManager::FdManager] *)
Definition FdManager_ctor (k : K) : fd_sys K := mkFdSys (replicate 64 None) ∅ k.

(** The locked read block of [get]: [Some r] is a return of [r], [None] falls
    through to the creation. *)
Definition get_read (fd : Z) (auto_create : bool) : M (fd_sys K) (option (option ptr)) :=
  let! s := mget in
  if i32 (Z.of_nat (length (m_datas s))) <=? fd then
    (if negb auto_create then mret_M (Some None) else mret_M None)
  else
    let! e := mderef "fd_manager.cpp:87" (fun s => vec_at (m_datas s) fd) in
    if bool_decide (is_Some e) || negb auto_create then mret_M (Some e) else mret_M None.

(** The locked write block of [get]; [addr] is where [new FdCtx] allocates. *)
Definition get_write (fd : Z) (addr : ptr) : M (fd_sys K) ptr :=
  let! c := mkern fkern (fun k s => s <| fkern := k |>) (FdCtx_ctor fd) in
  mmodify (fun s => s <| fdctxs := <[addr := c]> (fdctxs s) |>) ;;;
  let! s := mget in
  (if fd >=? i32 (Z.of_nat (length (m_datas s)))
   then mmodify (fun s => s <| m_datas := resize (Z.to_nat (times_1_5 fd)) None (m_datas s) |>)
   else mret_M tt) ;;;
  let! _ := mderef "fd_manager.cpp:98" (fun s => vec_at (m_datas s) fd) in
  mmodify (fun s => s <| m_datas := <[Z.to_nat fd := Some addr]> (m_datas s) |>) ;;;
  mret_M addr.

(** [FdManager::get] *)
Definition get (fd : Z) (auto_create : bool) (addr : ptr) : M (fd_sys K) (option ptr) :=
  if fd =? -1 then mret_M None
  else
    let! r := get_read fd auto_create in
    match r with
    | Some e => mret_M e
    | None => let! p := get_write fd addr in mret_M (Some p)
    end.

(** [FdManager::del] *)
Definition del (fd : Z) : M (fd_sys K) unit :=
  let! s := mget in
  if i32 (Z.of_nat (length (m_datas s))) <=? fd then mret_M tt
  else
    let! _ := mderef "fd_manager.cpp:107" (fun s => vec_at (m_datas s) fd) in
    mmodify (fun s => s <| m_datas := <[Z.to_nat fd := None]> (m_datas s) |>).

(** A call on the context behind a [shared_ptr] that is not null. *)
Definition with_ctx (p : ptr) (g : FdCtx -> FdCtx) : M (fd_sys K) unit :=
  let! _ := mderef "FdCtx::ptr" (fun s => fdctxs s !! p) in
  mmodify (fun s => s <| fdctxs := alter g p (fdctxs s) |>).

(** ** Interleavings *)

(** The descriptors a process can hold; the cast of [size()] to [int] stays
    exact for these. *)
Definition fd_ok (fd : Z) : Prop := 0 <= fd < 2 ^ 30.

(** What the table holds for a descriptor. *)
Definition fd_table (s : fd_sys K) (fd : Z) : option ptr :=
  match vec_at (m_datas s) fd with Some (Some p) => Some p | _ => None end.

(** The locked blocks of any number of threads, and the calls on contexts. *)
Inductive fd_step : fd_sys K -> fd_sys K -> Prop :=
| FdRead fd b r s s' : fd_ok fd -> get_read fd b s = Ok (r, s') -> fd_step s s'
| FdWrite fd addr p s s' :
    fd_ok fd -> fdctxs s !! addr = None -> get_write fd addr s = Ok (p, s') -> fd_step s s'
| FdDel fd s s' : fd_ok fd -> del fd s = Ok (tt, s') -> fd_step s s'
| FdUserNonblock p v s s' : with_ctx p (setUserNonblock v) s = Ok (tt, s') -> fd_step s s'
| FdTimeout p type v s s' :
    is_u64 v -> with_ctx p (setTimeout type v) s = Ok (tt, s') -> fd_step s s'.

Definition ctx_wf (c : FdCtx) : Prop :=
  m_isClosed c = false /\ m_sysNonblock c = m_isSocket c /\ (m_isSocket c = true -> m_isInit c = true)
  /\ is_u64 (m_recvTimeout c) /\ is_u64 (m_sendTimeout c).

Record fd_inv (s : fd_sys K) : Prop := {
  fi_size : 64 <= Z.of_nat (length (m_datas s)) <= 3 * 2 ^ 29;
  fi_entry : forall i p, m_datas s !! i = Some (Some p) ->
               exists c, fdctxs s !! p = Some c /\ m_fd c = Z.of_nat i;
  fi_ctx : forall p c, fdctxs s !! p = Some c -> ctx_wf c;
}.

(** ** Lemmas *)

Lemma i32_small z : 0 <= z < 2 ^ 31 -> i32 z = z.
Proof. intros Hz. unfold i32. rewrite Z.mod_small by lia. destruct (Z.ltb_spec z (2 ^ 31)); lia. Qed.

Lemma vec_at_Some {A} (v : list A) i : 0 <= i < Z.of_nat (length v) -> is_Some (vec_at v i).
Proof.
  intros Hi. unfold vec_at. destruct (Z.leb_spec 0 i); [|lia]. apply lookup_lt_is_Some. lia.
Qed.

Lemma FdCtx_ctor_wf fd k c k' : FdCtx_ctor fd k = (c, k') -> ctx_wf c /\ m_fd c = fd.
Proof.
  unfold FdCtx_ctor, FdCtx_init. cbn [m_isInit m_fd upd_field].
  destruct (k_fstat fd k) as [st|]; cbn; [destruct (S_ISSOCK st); cbn|];
    try destruct (k_fcntl fd F_GETFL (Some 0) k) as [fl k1]; intros [= <- <-]; (split; [|done]); unfold ctx_wf; cbn;
    repeat split; try done; apply u64_range.
Qed.

Lemma resize_1_5_lookup (s : fd_sys K) fd :
  fd_inv s -> fd_ok fd -> Z.of_nat (length (m_datas s)) <= fd ->
  Z.of_nat (length (m_datas s)) <= times_1_5 fd <= 3 * 2 ^ 29 /\ fd < times_1_5 fd.
Proof.
  intros [? _ _] [? ?] ?. pose proof (times_1_5_gt fd). unfold times_1_5 in *.
  pose proof (Z.div_le_upper_bound (fd * 3) 2 (3 * 2 ^ 29)). lia.
Qed.

(** The table as the write block leaves it, before the entry is stored. *)
Definition grown (fd : Z) (l : list (option ptr)) : list (option ptr) :=
  if Z.of_nat (length l) <=? fd then resize (Z.to_nat (times_1_5 fd)) None l else l.

Lemma grown_spec s fd :
  fd_inv s -> fd_ok fd ->
  fd < Z.of_nat (length (grown fd (m_datas s)))
  /\ 64 <= Z.of_nat (length (grown fd (m_datas s))) <= 3 * 2 ^ 29
  /\ (forall i p, grown fd (m_datas s) !! i = Some (Some p) <-> m_datas s !! i = Some (Some p)).
Proof.
  intros Hi Hfd. unfold grown. destruct (Z.leb_spec (Z.of_nat (length (m_datas s))) fd) as [Hle|Hgt].
  - destruct (resize_1_5_lookup s fd Hi Hfd Hle) as [Hl Hg]. pose proof (fi_size s Hi).
    rewrite length_resize. split; [lia|]. split; [lia|]. intros i p.
    destruct (decide (i < length (m_datas s))%nat) as [Hlt|Hge].
    + rewrite lookup_resize by lia. done.
    + rewrite (lookup_ge_None_2 (m_datas s)) by lia. split; [|done].
      destruct (decide (i < Z.to_nat (times_1_5 fd))%nat).
      * by rewrite lookup_resize_new by lia.
      * by rewrite lookup_resize_old by lia.
  - split; [lia|]. split; [apply Hi|done].
Qed.

Lemma get_write_eq s fd addr c k' :
  fd_inv s -> fd_ok fd -> FdCtx_ctor fd (fkern s) = (c, k') ->
  get_write fd addr s
  = Ok (addr, mkFdSys (<[Z.to_nat fd := Some addr]> (grown fd (m_datas s)))
                (<[addr := c]> (fdctxs s)) k').
Proof.
  intros Hi Hfd Hc. pose proof (grown_spec s fd Hi Hfd) as (Hlt & _ & _).
  unfold get_write, mkern. munfold. rewrite Hc. cbn.
  pose proof (fi_size s Hi). rewrite i32_small by lia. unfold grown in *.
  destruct (Z.leb_spec (Z.of_nat (length (m_datas s))) fd) as [Hle|Hgt].
  - rewrite (proj2 (Z.geb_le _ _)) by lia. cbn.
    destruct (vec_at_Some (resize (Z.to_nat (times_1_5 fd)) None (m_datas s)) fd) as [x ->]; [|done].
    destruct Hfd. lia.
  - destruct (Z.geb_spec fd (Z.of_nat (length (m_datas s)))); [lia|]. cbn.
    destruct (vec_at_Some (m_datas s) fd) as [x ->]; [|done]. destruct Hfd. lia.
Qed.

Lemma get_read_eq s fd b :
  fd_inv s -> fd_ok fd ->
  get_read fd b s = Ok (if b then Some <$> fd_table s fd else Some (fd_table s fd), s).
Proof.
  intros Hi Hfd. pose proof (fi_size s Hi). unfold get_read, fd_table. munfold.
  rewrite i32_small by lia. destruct (Z.leb_spec (Z.of_nat (length (m_datas s))) fd) as [Hle|Hgt].
  - unfold vec_at. destruct Hfd as [? ?]. destruct (Z.leb_spec 0 fd); [|lia].
    rewrite lookup_ge_None_2 by lia. by destruct b.
  - destruct (vec_at_Some (m_datas s) fd) as [x Hx]; [destruct Hfd; lia|]. rewrite Hx.
    destruct x as [p|]; destruct b; cbn; rewrite ?bool_decide_true, ?bool_decide_false by (eauto || by intros []); done.
Qed.

Lemma fd_table_lookup s fd p : 0 <= fd -> fd_table s fd = Some p <-> m_datas s !! Z.to_nat fd = Some (Some p).
Proof.
  intros ?. unfold fd_table, vec_at. destruct (Z.leb_spec 0 fd); [|lia].
  destruct (m_datas s !! Z.to_nat fd) as [[q|]|]; naive_solver.
Qed.

Lemma get_write_table s fd addr c k' fd' :
  fd_inv s -> fd_ok fd -> fd_ok fd' ->
  fd_table (mkFdSys (<[Z.to_nat fd := Some addr]> (grown fd (m_datas s))) (<[addr := c]> (fdctxs s)) k') fd'
  = if decide (fd = fd') then Some addr else fd_table s fd'.
Proof.
  intros Hi Hfd Hfd'. destruct (grown_spec s fd Hi Hfd) as (Hlt & _ & Hl).
  apply option_eq. intros p. rewrite fd_table_lookup by apply Hfd'. cbn.
  destruct Hfd, Hfd'. destruct (decide (fd = fd')) as [<-|Hne].
  - rewrite list_lookup_insert_eq by lia. naive_solver.
  - rewrite list_lookup_insert_ne by lia. by rewrite Hl, fd_table_lookup by lia.
Qed.

Lemma del_eq s fd :
  fd_inv s -> fd_ok fd ->
  exists s', del fd s = Ok (tt, s') /\ fdctxs s' = fdctxs s /\ fkern s' = fkern s
    /\ m_datas s' = <[Z.to_nat fd := None]> (m_datas s).
Proof.
  intros Hi Hfd. pose proof (fi_size s Hi). unfold del. munfold. rewrite i32_small by lia.
  destruct (Z.leb_spec (Z.of_nat (length (m_datas s))) fd) as [Hle|Hgt].
  - eexists. split; [reflexivity|]. repeat split. by rewrite list_insert_ge by lia.
  - destruct (vec_at_Some (m_datas s) fd) as [x ->]; [destruct Hfd; lia|]. eauto.
Qed.

Lemma with_ctx_eq s p g c :
  fdctxs s !! p = Some c ->
  with_ctx p g s = Ok (tt, s <| fdctxs := alter g p (fdctxs s) |>).
Proof. intros Hc. unfold with_ctx. munfold. by rewrite Hc. Qed.

Lemma with_ctx_inv s s' p g :
  (forall c, ctx_wf c -> ctx_wf (g c) /\ m_fd (g c) = m_fd c) ->
  fd_inv s -> with_ctx p g s = Ok (tt, s') -> fd_inv s'.
Proof.
  intros Hg Hi Hs. destruct (fdctxs s !! p) as [c|] eqn:Hc.
  2:{ unfold with_ctx in Hs. munfold. by rewrite Hc in Hs. }
  rewrite (with_ctx_eq s p g c Hc) in Hs. injection Hs as <-.
  destruct Hi as [Hsz He Hw]. split; cbn.
  - done.
  - intros i q Hq. destruct (He i q Hq) as (d & Hd & Hf).
    destruct (decide (p = q)) as [->|Hne].
    + exists (g d). rewrite lookup_alter_eq, Hd. split; [done|]. rewrite <- Hf. apply Hg. eauto.
    + exists d. by rewrite lookup_alter_ne.
  - intros q d Hd. destruct (decide (p = q)) as [->|Hne].
    + rewrite lookup_alter_eq, Hc in Hd. injection Hd as <-. apply Hg. eauto.
    + rewrite lookup_alter_ne in Hd by done. eauto.
Qed.

Lemma fd_inv_init k : fd_inv (FdManager_ctor k).
Proof.
  split; cbn [FdManager_ctor m_datas fdctxs].
  - rewrite length_replicate. lia.
  - intros i p [Hp _]%lookup_replicate. done.
  - intros p c. by rewrite lookup_empty.
Qed.

Lemma get_write_inv s fd addr p s' :
  fd_inv s -> fd_ok fd -> fdctxs s !! addr = None -> get_write fd addr s = Ok (p, s') -> fd_inv s'.
Proof.
  intros Hi Hfd Hn Hs. destruct (FdCtx_ctor fd (fkern s)) as [c k'] eqn:Hc.
  rewrite (get_write_eq s fd addr c k' Hi Hfd Hc) in Hs. injection Hs as _ <-.
  destruct (grown_spec s fd Hi Hfd) as (Hlt & Hsz & Hl).
  apply FdCtx_ctor_wf in Hc as [Hwf Hm]. destruct Hi as [_ He Hw]. split; cbn.
  - by rewrite length_insert.
  - intros i q Hq. destruct (decide (Z.to_nat fd = i)) as [<-|Hne].
    + rewrite list_lookup_insert_eq in Hq by (destruct Hfd; lia). injection Hq as <-.
      exists c. rewrite lookup_insert_eq. split; [done|]. destruct Hfd. lia.
    + rewrite list_lookup_insert_ne in Hq by done. apply Hl, He in Hq as (d & Hd & Hf).
      exists d. rewrite lookup_insert_ne by congruence. done.
  - intros q d Hd. apply lookup_insert_Some in Hd as [[<- <-]|[_ Hd]]; eauto.
Qed.

Lemma fd_step_inv s s' : fd_inv s -> fd_step s s' -> fd_inv s'.
Proof.
  intros Hi Hst. revert Hi.
  destruct Hst as [fd b r s s' Hfd Hr|fd addr p s s' Hfd Hn Hw|fd s s' Hfd Hd|p v s s' Hu|p ty v s s' Hv Ht];
    intros Hi.
  - rewrite get_read_eq in Hr by done. by injection Hr as _ <-.
  - by eapply get_write_inv.
  - destruct (del_eq s fd Hi Hfd) as (s1 & H1 & Hc & _ & Hm). rewrite H1 in Hd. injection Hd as ->.
    destruct Hi as [Hsz He Hw]. split; rewrite ?Hc, ?Hm.
    + by rewrite length_insert.
    + intros i p Hp. apply list_lookup_insert_Some in Hp as [(_ & ? & _)|[_ Hp]]; [done|eauto].
    + done.
  - eapply with_ctx_inv; [|done|exact Hu]. intros c Hc. done.
  - eapply with_ctx_inv; [|done|exact Ht]. intros c (? & ? & ? & ? & ?). unfold setTimeout.
    destruct (ty =? SO_RCVTIMEO); done.
Qed.

Lemma fd_reachable_inv k s : star fd_step (FdManager_ctor k) s -> fd_inv s.
Proof. intros Hs. eapply star_invariant; [apply fd_step_inv|exact Hs|apply fd_inv_init]. Qed.

(** A context created for an open socket: the kernel's descriptor is
    non-blocking afterwards, all others keep their flags. *)
Lemma FdCtx_ctor_nonblocking (status : K -> Z -> option Z) {L : FileLaws K status} fd k c k' :
  FdCtx_ctor fd k = (c, k') ->
  m_isInit c = bool_decide (is_Some (status k fd))
  /\ (m_isSocket c = true -> exists fl, status k' fd = Some fl /\ nonblocking fl = true)
  /\ (forall fd', fd' <> fd \/ m_isSocket c = false -> status k' fd' = status k fd').
Proof.
  unfold FdCtx_ctor, FdCtx_init. cbn [m_isInit m_fd upd_field].
  pose proof (fstat_open k fd) as Hopen. destruct (k_fstat fd k) as [st|] eqn:Hst.
  2:{ cbn. intros [= <- <-]. cbn. split; [|by split].
      rewrite bool_decide_false; [done|]. rewrite <- Hopen. by intros []. }
  destruct Hopen as [[fl Hfl] _]; [done|]. rewrite (bool_decide_true (is_Some (status k fd))) by eauto.
  cbn. destruct (S_ISSOCK st) eqn:Hs; [|intros [= <- <-]; cbn; split; [done|]; by split].
  rewrite (getfl_open k fd (Some 0) fl Hfl).
  destruct (nonblocking fl) eqn:Hn; cbn [negb]; intros [= <- <-]; cbn; (split; [done|]).
  - split; eauto.
  - destruct (setfl_open k fd (Z.lor fl O_NONBLOCK) fl Hfl) as (k2 & fl2 & -> & Hf2 & Hn2 & Ho & _). cbn.
    split; [|intros fd' [?|?]; [auto|done]]. intros _. exists fl2. split; [done|].
    rewrite Hn2, nonblocking_bit, Z.lor_spec. change (Z.testbit O_NONBLOCK 11) with true. apply orb_true_r.
Qed.

(** ** Properties *)


(** C27: [get] and [del] implement a partial map from descriptors to contexts,
    for every reachable table and every descriptor below 2^30: [get] never
    indexes out of range; it returns the mapped context and changes nothing if
    there is one; without [auto_create] it returns null and changes nothing
    otherwise; with [auto_create] it maps the descriptor to a new context and
    leaves all other descriptors alone; [del] unmaps exactly its descriptor.
    Contexts already handed out stay valid throughout. *)
Theorem fd_manager_refines_map k s fd addr :
  star fd_step (FdManager_ctor k) s -> fd_ok fd -> fdctxs s !! addr = None ->
  (forall p b, fd_table s fd = Some p -> get fd b addr s = Ok (Some p, s))
  /\ (fd_table s fd = None -> get fd false addr s = Ok (None, s))
  /\ (fd_table s fd = None -> exists s' c,
        get fd true addr s = Ok (Some addr, s')
        /\ FdCtx_ctor fd (fkern s) = (c, fkern s') /\ fdctxs s' = <[addr := c]> (fdctxs s)
        /\ (forall fd', fd_ok fd' -> fd_table s' fd' = if decide (fd = fd') then Some addr else fd_table s fd'))
  /\ (exists s', del fd s = Ok (tt, s') /\ fdctxs s' = fdctxs s /\ fkern s' = fkern s
        /\ (forall fd', fd_ok fd' -> fd_table s' fd' = if decide (fd = fd') then None else fd_table s fd')).
Proof.
  intros Hi%fd_reachable_inv Hfd Ha.
  assert (fd =? -1 = false) as Hm by (apply Z.eqb_neq; destruct Hfd; lia).
  split; [|split; [|split]].
  - intros p b Hp. unfold get. rewrite Hm. munfold. rewrite get_read_eq by done. rewrite Hp. by destruct b.
  - intros Hp. unfold get. rewrite Hm. munfold. rewrite get_read_eq by done. by rewrite Hp.
  - intros Hp. destruct (FdCtx_ctor fd (fkern s)) as [c k'] eqn:Hc. eexists _, c.
    split; [|split; [|split]].
    + unfold get. rewrite Hm. munfold. rewrite get_read_eq, Hp by done. cbn.
      by rewrite (get_write_eq s fd addr c k') by done.
    + done.
    + done.
    + intros fd' Hfd'. by apply get_write_table.
  - destruct (del_eq s fd Hi Hfd) as (s' & Hd & Hc & Hk & Hm'). exists s'. repeat (split; [done|]).
    intros fd' Hfd'. apply option_eq. intros p. rewrite fd_table_lookup, Hm' by apply Hfd'.
    destruct Hfd, Hfd'. destruct (decide (fd = fd')) as [<-|Hne].
    + split; [|done]. intros [(_ & ? & _)|[? _]]%list_lookup_insert_Some; done.
    + rewrite list_lookup_insert_ne by lia. by rewrite fd_table_lookup by lia.
Qed.

(** [get(fd, true)] on an unmapped open socket switches the kernel's
    descriptor to non-blocking and touches no other descriptor; on a descriptor
    that is open but no socket, or not open, the kernel is left as it is. *)
Theorem get_makes_socket_nonblocking (status : K -> Z -> option Z) (L : FileLaws K status) k s fd addr :
  star fd_step (FdManager_ctor k) s -> fd_ok fd -> fd_table s fd = None ->
  exists s' c, get fd true addr s = Ok (Some addr, s') /\ fdctxs s' !! addr = Some c
    /\ m_isInit c = bool_decide (is_Some (status (fkern s) fd))
    /\ (m_isSocket c = true -> exists fl, status (fkern s') fd = Some fl /\ nonblocking fl = true)
    /\ (forall fd', fd' <> fd \/ m_isSocket c = false -> status (fkern s') fd' = status (fkern s) fd').
Proof.
  intros Hi%fd_reachable_inv Hfd Hp. destruct (FdCtx_ctor fd (fkern s)) as [c k'] eqn:Hc.
  eexists _, c. split.
  { unfold get. rewrite (proj2 (Z.eqb_neq fd (-1))) by (destruct Hfd; lia). munfold.
    rewrite get_read_eq, Hp by done. cbn. by rewrite (get_write_eq s fd addr c k') by done. }
  split; [cbn; by rewrite lookup_insert_eq|]. by apply (FdCtx_ctor_nonblocking status).
Qed.

(** the creation in [get] does not look again under the write lock.  Two
    threads that both miss the read block each create a context; the table
    keeps the second one, the first thread is left with a context nobody else
    sees, and a timeout it sets there does not reach the descriptor. *)
Theorem concurrent_get_loses_context k s fd a1 a2 type v :
  star fd_step (FdManager_ctor k) s -> fd_ok fd -> fd_table s fd = None -> is_u64 v -> v <> u64 (-1) ->
  fdctxs s !! a1 = None -> fdctxs s !! a2 = None -> a1 <> a2 ->
  exists s1 s2 s3 c,
    get_read fd true s = Ok (None, s)
    /\ get_write fd a1 s = Ok (a1, s1) /\ get_write fd a2 s1 = Ok (a2, s2)
    /\ with_ctx a1 (setTimeout type v) s2 = Ok (tt, s3)
    /\ fd_table s3 fd = Some a2 /\ fdctxs s3 !! a2 = Some c /\ getTimeout type c = u64 (-1).
Proof.
  intros Hi%fd_reachable_inv Hfd Hp Hv Hne H1 H2 H12.
  destruct (FdCtx_ctor fd (fkern s)) as [c1 k1] eqn:Hc1.
  pose proof (get_write_eq s fd a1 c1 k1 Hi Hfd Hc1) as Hw1.
  pose proof (get_write_inv s fd a1 _ _ Hi Hfd H1 Hw1) as Hi1. set (s1 := mkFdSys _ _ _) in *.
  destruct (FdCtx_ctor fd (fkern s1)) as [c2 k2] eqn:Hc2.
  pose proof (get_write_eq s1 fd a2 c2 k2 Hi1 Hfd Hc2) as Hw2. set (s2 := mkFdSys _ _ _) in Hw2.
  exists s1, s2. eexists _, c2.
  split; [by rewrite get_read_eq, Hp by done|]. split; [done|]. split; [done|].
  split; [apply (with_ctx_eq s2 a1 _ c1); cbn; by rewrite lookup_insert_ne, lookup_insert_eq by done|].
  split; [|split].
  - pose proof (get_write_table s1 fd a2 c2 k2 fd Hi1 Hfd Hfd) as Ht. by rewrite decide_True in Ht.
  - cbn. by rewrite lookup_alter_ne, lookup_insert_eq.
  - revert Hc2. unfold FdCtx_ctor, FdCtx_init, getTimeout. cbn [m_isInit m_fd upd_field].
    destruct (k_fstat fd (fkern s1)) as [st|]; cbn; [destruct (S_ISSOCK st); cbn|];
      try destruct (k_fcntl fd F_GETFL (Some 0) k1) as [fl k3]; intros [= <- _]; by destruct (type =? SO_RCVTIMEO).
Qed.

(** a negative descriptor other than -1 is not rejected: [get] and [del]
    index the table with it, which is undefined. *)
Theorem negative_fd_undefined k s fd b addr :
  star fd_step (FdManager_ctor k) s -> fd < -1 ->
  get fd b addr s = Undefined "fd_manager.cpp:87" /\ del fd s = Undefined "fd_manager.cpp:107".
Proof.
  intros Hi%fd_reachable_inv Hfd. pose proof (fi_size s Hi). unfold get, get_read, del. munfold.
  rewrite (proj2 (Z.eqb_neq fd (-1))) by lia. rewrite i32_small by lia.
  destruct (Z.leb_spec (Z.of_nat (length (m_datas s))) fd); [lia|].
  unfold vec_at. by rewrite (proj2 (Z.leb_gt 0 fd)) by lia.
Qed.

End FdManager.

(** ** Witnesses *)

(** Descriptor 3 is a blocking socket, descriptor 70 a regular file. *)
Definition demo_kernel : sim_kernel := mkSim {[3 := (49152, 2); 70 := (32768, 0)]} ∅.

Definition demo_fds : fd_sys sim_kernel := FdManager_ctor demo_kernel.


Lemma fd_manager_refines_map_witness :
  get 70 false 1%nat demo_fds = Ok (None, demo_fds)
  /\ (exists s' c, get 70 true 1%nat demo_fds = Ok (Some 1%nat, s')
        /\ FdCtx_ctor 70 (fkern demo_fds) = (c, fkern s') /\ fdctxs s' = <[1%nat := c]> (fdctxs demo_fds)
        /\ (forall fd', fd_ok fd' ->
              fd_table s' fd' = if decide (70 = fd') then Some 1%nat else fd_table demo_fds fd')).
Proof.
  destruct (fd_manager_refines_map demo_kernel demo_fds 70 1%nat) as (_ & H1 & H2 & _).
  - apply star_refl.
  - unfold fd_ok. lia.
  - reflexivity.
  - split; [apply H1; reflexivity|apply H2; reflexivity].
Defined.

Lemma get_makes_socket_nonblocking_witness :
  exists s' c, get 3 true 1%nat demo_fds = Ok (Some 1%nat, s') /\ fdctxs s' !! 1%nat = Some c
    /\ m_isInit c = bool_decide (is_Some (sim_status (fkern demo_fds) 3))
    /\ (m_isSocket c = true -> exists fl, sim_status (fkern s') 3 = Some fl /\ nonblocking fl = true)
    /\ (forall fd', fd' <> 3 \/ m_isSocket c = false ->
          sim_status (fkern s') fd' = sim_status (fkern demo_fds) fd').
Proof.
  apply (get_makes_socket_nonblocking sim_status sim_file_laws demo_kernel demo_fds 3 1%nat).
  - apply star_refl.
  - unfold fd_ok. lia.
  - reflexivity.
Defined.

Lemma concurrent_get_loses_context_witness :
  exists s1 s2 s3 c,
    get_read 3 true demo_fds = Ok (None, demo_fds)
    /\ get_write 3 1%nat demo_fds = Ok (1%nat, s1) /\ get_write 3 2%nat s1 = Ok (2%nat, s2)
    /\ with_ctx 1%nat (setTimeout SO_RCVTIMEO 500) s2 = Ok (tt, s3)
    /\ fd_table s3 3 = Some 2%nat /\ fdctxs s3 !! 2%nat = Some c /\ getTimeout SO_RCVTIMEO c = u64 (-1).
Proof.
  apply (concurrent_get_loses_context demo_kernel demo_fds 3 1%nat 2%nat SO_RCVTIMEO 500);
    [apply star_refl|unfold fd_ok; lia|reflexivity|unfold is_u64; lia|discriminate|reflexivity|reflexivity|discriminate].
Defined.

Lemma negative_fd_undefined_witness :
  get (-7) true 1%nat demo_fds = Undefined "fd_manager.cpp:87" /\ del (-7) demo_fds = Undefined "fd_manager.cpp:107".
Proof. apply (negative_fd_undefined demo_kernel); [apply star_refl|lia]. Defined.
