(* ===== verification/IOManager.v ===== *)
(** * IOManager (src/src/iomanager.h, src/src/iomanager.cpp)

    The table of [FdContext]s, the events registered in them and what happens
    when an event is added, deleted, cancelled or triggered.  Contexts are
    objects on a heap ([m_fd_contexts] holds pointers, and so does the kernel);
    schedulers are objects too, because an event remembers the scheduler of the
    thread that registered it, which need not be this one.  Each locked block is
    one definition and the operations compose them; [addEvent] has four.

    [FdContext::events] has no initialiser, so [new FdContext] leaves in it what
    the memory at that address held: the parameter [garbage]. *)

From S2P Require Import Prelude Timer Fiber Scheduler Posix FdManager.

Definition DEFAULT_FD_CONTEXTS_SIZE : Z := 32.

(** [IOManager::Event]: the values of the enum, which is also used as a mask. *)
Definition NONE : Z := 0.
Definition READ : Z := 1.
Definition WRITE : Z := 4.

(** [FdContext::EventContext] *)
Record EventContext := mkEventContext {
  ec_scheduler : option ptr;
  ec_fiber : option ptr;
  ec_func : option closure;
}.
#[export] Instance eta_EventContext : Eta EventContext :=
  fun c => mkEventContext (ec_scheduler c) (ec_fiber c) (ec_func c).

Definition EventContext_empty : EventContext := mkEventContext None None None.

Record FdContext := mkFdContext {
  fc_fd : Z;
  fc_read : EventContext;
  fc_write : EventContext;
  events : Z;
}.
#[export] Instance eta_FdContext : Eta FdContext :=
  fun c => mkFdContext (fc_fd c) (fc_read c) (fc_write c) (events c).

Record iom_sys (K : Type) := mkIom {
  this_sched : ptr;                     (* the Scheduler part of the object *)
  m_fd_contexts : list (option ptr);
  contexts : gmap ptr FdContext;
  scheds : gmap ptr Scheduler;
  ikern : K;
  fsys : fiber_sys;
}.
Arguments mkIom {K}.
Arguments this_sched {K}.
Arguments m_fd_contexts {K}.
Arguments contexts {K}.
Arguments scheds {K}.
Arguments ikern {K}.
Arguments fsys {K}.
#[export] Instance eta_iom_sys K : Eta (iom_sys K) := fun s =>
  mkIom (this_sched s) (m_fd_contexts s) (contexts s) (scheds s) (ikern s) (fsys s).

(** [events & event] as a condition. *)
Definition armed (c : FdContext) (event : Z) : bool := truthy (Z.land (events c) event).

(** [FdContext::getContext]: a reference to a member; reading through it ... *)
Definition getContext (c : FdContext) (event : Z) : option EventContext :=
  if event =? READ then Some (fc_read c) else if event =? WRITE then Some (fc_write c) else None.

(** ... and writing through it. *)
Definition putContext (event : Z) (ec : EventContext) (c : FdContext) : FdContext :=
  if event =? READ then c <| fc_read := ec |> else if event =? WRITE then c <| fc_write := ec |> else c.

Section IOManager.
Context {K : Type} `{EpollOps K} (garbage : ptr -> Z).

Definition set_context (p : ptr) (g : FdContext -> FdContext) (s : iom_sys K) : iom_sys K :=
  s <| contexts := alter g p (contexts s) |>.

Definition get_context (site : string) (p : ptr) : M (iom_sys K) FdContext :=
  mderef site (fun s => contexts s !! p).

(** The member [m_pending_count] of the object's scheduler part. *)
Definition pending (s : iom_sys K) : Z :=
  match scheds s !! this_sched s with Some sc => m_pending_count sc | None => 0 end.

Definition add_pending (d : Z) (s : iom_sys K) : iom_sys K :=
  s <| scheds := alter (fun sc => sc <| m_pending_count := u64 (m_pending_count sc + d) |>)
                   (this_sched s) (scheds s) |>.

(** [event_ctx.scheduler->schedule(...)] *)
Definition schedule_on (q : option ptr) (tk : Task) : M (iom_sys K) unit :=
  let! q := mderef "iomanager.h:57: scheduler" (fun _ => q) in
  let! _ := mderef "iomanager.h:57: scheduler" (fun s => scheds s !! q) in
  mmodify (fun s => s <| scheds := alter (schedule tk) q (scheds s) |>).

(** [FdContext::resetContext]: [auto event_ctx] is a copy of the member, so
    the assignments do not reach it. *)
Definition resetContext (p : ptr) (event : Z) : M (iom_sys K) unit :=
  let! c := get_context "iomanager.h:46" p in
  match getContext c event with
  | None => mfail (AssertFailed "iomanager.h:40")
  | Some event_ctx =>
      let event_ctx := event_ctx <| ec_fiber := None |> <| ec_func := None |> <| ec_scheduler := None |> in
      mret_M tt
  end.

(** [FdContext::scheduleEvent]: [event_ctx] is a copy here, too. *)
Definition FdContext_scheduleEvent (p : ptr) (event : Z) : M (iom_sys K) unit :=
  let! c := get_context "iomanager.h:53" p in
  ASSERT "iomanager.h:53" (armed c event) ;;;
  mmodify (set_context p (fun c => c <| events := Z.land (events c) (Z.lnot event) |>)) ;;;
  match getContext c event with
  | None => mfail (AssertFailed "iomanager.h:40")
  | Some event_ctx =>
      match ec_func event_ctx, ec_fiber event_ctx with
      | Some f, _ => schedule_on (ec_scheduler event_ctx) (Task_func f (-1))
      | None, Some fb => schedule_on (ec_scheduler event_ctx) (Task_fiber fb (-1))
      | None, None => mfail (AssertFailed "iomanager.h:62")
      end
  end.

(** ** The table *)

(** [new FdContext] and the assignment of its [fd]. *)
Definition new_FdContext (i : nat) : M (iom_sys K) unit :=
  mmodify (fun s =>
    let p := fresh (dom (contexts s)) in
    s <| contexts := <[p := mkFdContext (Z.of_nat i) EventContext_empty EventContext_empty (garbage p)]>
                       (contexts s) |>
      <| m_fd_contexts := <[i := Some p]> (m_fd_contexts s) |>).

(** The loop of [resizeContexts] from index [i], [n] iterations before its end. *)
Fixpoint resizeContexts_loop (n i : nat) : M (iom_sys K) unit :=
  match n with
  | O => mret_M tt
  | S n =>
      let! e := mderef "iomanager.cpp:23" (fun s => m_fd_contexts s !! i) in
      match e with Some _ => mret_M tt | None => new_FdContext i end ;;;
      resizeContexts_loop n (S i)
  end.

(** [IOManager::resizeContexts] *)
Definition resizeContexts (size : Z) : M (iom_sys K) unit :=
  mmodify (fun s => s <| m_fd_contexts := resize (Z.to_nat size) None (m_fd_contexts s) |>) ;;;
  resizeContexts_loop (Z.to_nat size) 0.

(** [IOManager::IOManager], on the started scheduler [self]. *)
Definition IOManager_ctor (self : ptr) (sc : gmap ptr Scheduler) (k : K) (f : fiber_sys)
    : res (unit * iom_sys K) :=
  resizeContexts DEFAULT_FD_CONTEXTS_SIZE (mkIom self [] ∅ sc k f).

(** The loop of [IOManager::~IOManager], behind [stop]. *)
Definition IOManager_dtor (s : iom_sys K) : iom_sys K :=
  s <| contexts := foldr (fun e h => match e with Some p => delete p h | None => h end)
                     (contexts s) (m_fd_contexts s) |>.

Definition epoll_ctl (op fd : Z) (e : epoll_event) : M (iom_sys K) Z :=
  mkern ikern (fun k s => s <| ikern := k |>) (k_epoll_ctl op fd e).

(** ** addEvent *)

(** The first locked block: [need_resize]. *)
Definition addEvent_need_resize (fd : Z) : M (iom_sys K) bool :=
  mgets (fun s => i32 (Z.of_nat (length (m_fd_contexts s))) <=? fd).

(** [m_fd_contexts[fd]] *)
Definition fd_context_at (site : string) (fd : Z) : M (iom_sys K) ptr :=
  let! e := mderef site (fun s => vec_at (m_fd_contexts s) fd) in
  mderef site (fun _ => e).

(** The second locked block, under the write or the read lock. *)
Definition addEvent_find (fd : Z) (need_resize : bool) : M (iom_sys K) ptr :=
  if need_resize then
    resizeContexts (times_1_5 fd) ;;;
    fd_context_at "iomanager.cpp:52" fd
  else fd_context_at "iomanager.cpp:55" fd.

(** The check without a lock. *)
Definition addEvent_check (p : ptr) (event : Z) : M (iom_sys K) unit :=
  let! c := get_context "iomanager.cpp:58" p in
  ASSERT "iomanager.cpp:60" (negb (armed c event)).

(** The block under [fd_ctx->mtx], on thread [t] whose [Scheduler::GetThis()]
    is [cur]; [addr] is used if [Fiber::GetThis] creates a main fiber. *)
Definition addEvent_locked (t : tid) (cur : option ptr) (addr : ptr) (p : ptr) (fd event : Z)
    (func : option closure) : M (iom_sys K) bool :=
  let! c := get_context "iomanager.cpp:65" p in
  let op := if truthy (events c) then EPOLL_CTL_MOD else EPOLL_CTL_ADD in
  let! rt := epoll_ctl op fd (mkEpollEvent (Z.lor (Z.lor EPOLLET (events c)) event) p) in
  ASSERT "iomanager.cpp:72" (negb (truthy rt)) ;;;
  mmodify (set_context p (fun c => c <| events := Z.lor (events c) event |>)) ;;;
  mmodify (add_pending 1) ;;;
  match getContext c event with
  | None => mfail (AssertFailed "iomanager.h:40")
  | Some event_ctx =>
      ASSERT "iomanager.cpp:78" (negb (bool_decide (is_Some (ec_scheduler event_ctx)))
        && negb (bool_decide (is_Some (ec_fiber event_ctx)))
        && negb (bool_decide (is_Some (ec_func event_ctx)))) ;;;
      match func with
      | Some f => mmodify (set_context p (putContext event (mkEventContext cur None (Some f))))
      | None =>
          let! fb := mzoom fsys (fun f s => s <| fsys := f |>) (GetThis t addr) in
          mmodify (set_context p (putContext event (mkEventContext cur (Some fb) None))) ;;;
          let! f := mderef "iomanager.cpp:87" (fun s => fibers (fsys s) !! fb) in
          ASSERT "iomanager.cpp:87" (bool_decide (m_state f = RUNNING))
      end ;;;
      mret_M true
  end.

(** [IOManager::addEvent] *)
Definition addEvent (t : tid) (cur : option ptr) (addr : ptr) (fd event : Z) (func : option closure)
    : M (iom_sys K) bool :=
  let! need_resize := addEvent_need_resize fd in
  let! p := addEvent_find fd need_resize in
  addEvent_check p event ;;;
  addEvent_locked t cur addr p fd event func.

(** ** Removing and triggering events *)

(** The lookup that [delEvent], [cancelEvent] and [cancelAll] begin with:
    [None] is their early [return false]. *)
Definition find_context (site : string) (fd : Z) : M (iom_sys K) (option ptr) :=
  let! s := mget in
  if i32 (Z.of_nat (length (m_fd_contexts s))) <=? fd then mret_M None
  else let! p := fd_context_at site fd in mret_M (Some p).

(** [IOManager::delEvent] *)
Definition delEvent (fd event : Z) : M (iom_sys K) bool :=
  let! fd_ctx := find_context "iomanager.cpp:100" fd in
  match fd_ctx with
  | None => mret_M false
  | Some p =>
      let! c := get_context "iomanager.cpp:104" p in
      if negb (armed c event) then mret_M false
      else
        let left_events := Z.land (events c) (Z.lnot event) in
        let op := if truthy left_events then EPOLL_CTL_MOD else EPOLL_CTL_DEL in
        let! rt := epoll_ctl op fd (mkEpollEvent (Z.lor EPOLLET left_events) p) in
        ASSERT "iomanager.cpp:115" (negb (truthy rt)) ;;;
        mmodify (set_context p (fun c => c <| events := left_events |>)) ;;;
        mmodify (add_pending (-1)) ;;;
        resetContext p event ;;;
        mret_M true
  end.

(** [IOManager::cancelEvent] *)
Definition cancelEvent (fd event : Z) : M (iom_sys K) bool :=
  let! fd_ctx := find_context "iomanager.cpp:131" fd in
  match fd_ctx with
  | None => mret_M false
  | Some p =>
      let! c := get_context "iomanager.cpp:135" p in
      if negb (armed c event) then mret_M false
      else
        let left_events := Z.land (events c) (Z.lnot event) in
        let op := if truthy left_events then EPOLL_CTL_MOD else EPOLL_CTL_DEL in
        let! rt := epoll_ctl op fd (mkEpollEvent (Z.lor EPOLLET left_events) p) in
        ASSERT "iomanager.cpp:146" (negb (truthy rt)) ;;;
        mmodify (add_pending (-1)) ;;;
        FdContext_scheduleEvent p event ;;;
        mret_M true
  end.

(** [if(mask & event) { fd_ctx->scheduleEvent(event); --m_pending_count; }] *)
Definition trigger (p : ptr) (event : Z) (cond : bool) : M (iom_sys K) unit :=
  if cond then FdContext_scheduleEvent p event ;;; mmodify (add_pending (-1)) else mret_M tt.

(** [IOManager::cancelAll] *)
Definition cancelAll (fd : Z) : M (iom_sys K) bool :=
  let! fd_ctx := find_context "iomanager.cpp:159" fd in
  match fd_ctx with
  | None => mret_M false
  | Some p =>
      let! c := get_context "iomanager.cpp:163" p in
      if negb (truthy (events c)) then mret_M false
      else
        let! rt := epoll_ctl EPOLL_CTL_DEL fd (mkEpollEvent 0 p) in
        if truthy rt then mret_M false
        else
          trigger p READ (armed c READ) ;;;
          let! c := get_context "iomanager.cpp:184" p in
          trigger p WRITE (armed c WRITE) ;;;
          let! c := get_context "iomanager.cpp:189" p in
          ASSERT "iomanager.cpp:189" (events c =? 0) ;;;
          mret_M true
  end.

(** The triggered events, after the error bits have been handled. *)
Definition triggered (c : FdContext) (ev : Z) : Z :=
  let ev := if truthy (Z.land ev (Z.lor EPOLLHUP EPOLLERR))
            then Z.land (Z.lor EPOLLIN EPOLLOUT) (events c) else ev in
  Z.lor (if truthy (Z.land ev EPOLLIN) then READ else NONE)
        (if truthy (Z.land ev EPOLLOUT) then WRITE else NONE).

(** [IOManager::scheduleEvent] *)
Definition scheduleEvent (event : epoll_event) : M (iom_sys K) bool :=
  let p := ep_ptr event in
  let! c := get_context "iomanager.cpp:194" p in
  let triggered_events := triggered c (ep_events event) in
  if Z.land (events c) triggered_events =? NONE then mret_M false
  else
    let left_events := Z.land (events c) (Z.lnot triggered_events) in
    let op := if truthy left_events then EPOLL_CTL_MOD else EPOLL_CTL_DEL in
    let! rt := epoll_ctl op (fc_fd c) (mkEpollEvent (Z.lor EPOLLET left_events) p) in
    if truthy rt then mret_M false
    else
      trigger p READ (truthy (Z.land triggered_events READ)) ;;;
      trigger p WRITE (truthy (Z.land triggered_events WRITE)) ;;;
      mret_M true.

End IOManager.
