(* ===== verification/IOManagerInv.v ===== *)
(** * The invariant of the IOManager

    The abstract view of an IOManager is the map [reg] from descriptor and event
    to the registered callback, the queues of the schedulers and the counter of
    pending events.  [iom_inv] ties the contexts, the kernel's interest list and
    the counter together; the operations are shown to keep it and to act on the
    abstract view as their names say. *)

From S2P Require Import Prelude Timer Fiber Scheduler Posix FdManager IOManager.

(** ** Events and masks *)

Definition valid_ev (e : Z) : Prop := e = READ \/ e = WRITE.
Definition valid_mask (m : Z) : Prop := m = 0 \/ m = 1 \/ m = 4 \/ m = 5.

(** The task a callback turns into: the function, if there is one, else the fiber. *)
Definition callback (ec : EventContext) : option Task :=
  match ec_func ec, ec_fiber ec with
  | Some f, _ => Some (Task_func f (-1))
  | None, Some fb => Some (Task_fiber fb (-1))
  | None, None => None
  end.

Definition ec_used (ec : EventContext) : bool :=
  bool_decide (is_Some (ec_scheduler ec)) || bool_decide (is_Some (ec_fiber ec))
  || bool_decide (is_Some (ec_func ec)).

Definition b2z (b : bool) : Z := if b then 1 else 0.
Definition armed_count (c : FdContext) : Z := b2z (armed c READ) + b2z (armed c WRITE).

Definition count_in (h : gmap ptr FdContext) : Z := map_fold (fun _ c n => armed_count c + n) 0 h.

(** The mask case analysis: all of the code's bit operations compute. *)
Ltac mask_cases :=
  repeat match goal with
  | H : valid_ev _ |- _ => destruct H as [-> | ->]
  | H : valid_mask ?m |- _ => destruct H as [H|[H|[H|H]]]; try rewrite H in *
  end.

Lemma getContext_valid c e : valid_ev e -> exists ec, getContext c e = Some ec.
Proof. intros [-> | ->]; eexists; reflexivity. Qed.

Lemma mask_clear m e : valid_mask m -> valid_ev e -> valid_mask (Z.land m (Z.lnot e)).
Proof. intros Hm He. mask_cases; clear; vm_compute; tauto. Qed.

Lemma mask_add m e : valid_mask m -> valid_ev e -> valid_mask (Z.lor m e).
Proof. intros Hm He. mask_cases; clear; vm_compute; tauto. Qed.

Lemma armed_clear c e e' :
  valid_mask (events c) -> valid_ev e -> valid_ev e' ->
  armed (c <| events := Z.land (events c) (Z.lnot e) |>) e' = if e =? e' then false else armed c e'.
Proof. intros Hm He He'. unfold armed. cbn [events upd_field]. mask_cases; reflexivity. Qed.

Lemma armed_add c e e' ec :
  valid_mask (events c) -> valid_ev e -> valid_ev e' ->
  armed (putContext e ec (c <| events := Z.lor (events c) e |>)) e' = if e =? e' then true else armed c e'.
Proof. intros Hm He He'. unfold armed, putContext. mask_cases; cbn; rewrite ?Hm; reflexivity. Qed.

Lemma getContext_put c e e' ec :
  valid_ev e -> valid_ev e' ->
  getContext (putContext e ec c) e' = if e =? e' then Some ec else getContext c e'.
Proof. intros [-> | ->] [-> | ->]; reflexivity. Qed.

Lemma armed_count_clear c e :
  valid_mask (events c) -> valid_ev e -> armed c e = true ->
  armed_count (c <| events := Z.land (events c) (Z.lnot e) |>) = armed_count c - 1.
Proof.
  intros Hm He Ha. unfold armed_count, armed in *. cbn [events upd_field].
  mask_cases; vm_compute in Ha; try done; vm_compute; done.
Qed.

Lemma armed_events c e : armed c e = true -> events c <> 0.
Proof. unfold armed. intros Ha E. by rewrite E in Ha. Qed.

Lemma armed_none c : valid_mask (events c) -> armed c READ = false -> armed c WRITE = false -> events c = 0.
Proof. unfold armed. intros Hm. mask_cases; cbn; done. Qed.

Lemma truthy_eqb z : truthy z = negb (z =? 0).
Proof. reflexivity. Qed.

(** ** Counting *)

Lemma count_in_insert h p c : h !! p = None -> count_in (<[p := c]> h) = armed_count c + count_in h.
Proof. intros Hp. unfold count_in. rewrite map_fold_insert_L; [done| |done]. intros. lia. Qed.

Lemma count_in_update h p c c' :
  h !! p = Some c -> count_in (<[p := c']> h) = count_in h - armed_count c + armed_count c'.
Proof.
  intros Hp. rewrite <- (insert_delete_eq h p c') , count_in_insert by apply lookup_delete_eq.
  rewrite <- (insert_delete_id h p c Hp) at 2. rewrite count_in_insert by apply lookup_delete_eq. lia.
Qed.

Section Views.
Context {K : Type}.
Implicit Type s : iom_sys K.

(** The context the table holds for a descriptor. *)
Definition ctx_at s (fd : Z) : option (ptr * FdContext) :=
  match vec_at (m_fd_contexts s) fd with
  | Some (Some p) => (fun c => (p, c)) <$> contexts s !! p
  | _ => None
  end.

(** The registered callbacks. *)
Definition reg s (fd e : Z) : option EventContext :=
  match ctx_at s fd with
  | Some (_, c) => if armed c e then getContext c e else None
  | None => None
  end.

(** Whether a callback was ever registered. *)
Definition used s (fd e : Z) : bool :=
  match ctx_at s fd with
  | Some (_, c) => match getContext c e with Some ec => ec_used ec | None => false end
  | None => false
  end.

Definition queue s (q : ptr) : list Task := match scheds s !! q with Some sc => m_tasks sc | None => [] end.

(** ** What the primitive updates leave alone *)

Definition put_task (q : ptr) (tk : Task) s : iom_sys K :=
  s <| scheds := alter (schedule tk) q (scheds s) |>.

Lemma schedule_tasks tk sc : m_tasks (schedule tk sc) = m_tasks sc ++ [tk].
Proof. unfold schedule, tickle. repeat case_match; reflexivity. Qed.

Lemma schedule_pending tk sc : m_pending_count (schedule tk sc) = m_pending_count sc.
Proof. unfold schedule, tickle. repeat case_match; reflexivity. Qed.

Lemma pending_put_task q tk s : pending (put_task q tk s) = pending s.
Proof.
  unfold pending, put_task. cbn. destruct (decide (q = this_sched s)) as [->|Hne].
  - rewrite lookup_alter_eq. destruct (scheds s !! this_sched s); [|done]. cbn. apply schedule_pending.
  - by rewrite lookup_alter_ne.
Qed.

Lemma pending_add d s :
  is_Some (scheds s !! this_sched s) -> pending (add_pending d s) = u64 (pending s + d).
Proof. intros [sc Hs]. unfold pending, add_pending. cbn. by rewrite lookup_alter_eq, Hs. Qed.

Lemma live_put_task q tk s q' : is_Some (scheds (put_task q tk s) !! q') <-> is_Some (scheds s !! q').
Proof. unfold put_task. cbn. apply lookup_alter_is_Some. Qed.

Lemma live_add_pending d s q' : is_Some (scheds (add_pending d s) !! q') <-> is_Some (scheds s !! q').
Proof. unfold add_pending. cbn. apply lookup_alter_is_Some. Qed.

Lemma queue_put_task q tk s q' :
  is_Some (scheds s !! q) -> queue (put_task q tk s) q' = queue s q' ++ (if decide (q = q') then [tk] else []).
Proof.
  intros [sc Hs]. unfold queue, put_task. cbn. case_decide as Hq.
  - subst q'. rewrite lookup_alter_eq, Hs. cbn. apply schedule_tasks.
  - rewrite lookup_alter_ne by done. by rewrite app_nil_r.
Qed.

Lemma queue_add_pending d s q : queue (add_pending d s) q = queue s q.
Proof.
  unfold queue, add_pending. cbn. destruct (decide (this_sched s = q)) as [<-|Hne].
  - rewrite lookup_alter_eq. by destruct (scheds s !! this_sched s).
  - by rewrite lookup_alter_ne.
Qed.

End Views.

(** ** The invariant *)

Section Invariant.
Context {K : Type} `{EpollOps K} (interest : K -> gmap Z epoll_event) (pollable : K -> Z -> bool)
  {L : EpollLaws K interest pollable}.
Implicit Type s : iom_sys K.

(** What the kernel should know about a context. *)
Definition kernel_entry (p : ptr) (m : Z) : option epoll_event :=
  if m =? 0 then None else Some (mkEpollEvent (Z.lor EPOLLET m) p).

(** An armed event has a callback and a live scheduler to run it on. *)
Definition runnable s (ec : EventContext) : Prop :=
  exists q tk, ec_scheduler ec = Some q /\ is_Some (scheds s !! q) /\ callback ec = Some tk.

Definition context_ok s (c : FdContext) : Prop :=
  valid_mask (events c)
  /\ (forall e ec, valid_ev e -> armed c e = true -> getContext c e = Some ec -> runnable s ec).

Record iom_inv s : Prop := {
  in_size : 32 <= Z.of_nat (length (m_fd_contexts s)) <= 3 * 2 ^ 29;
  in_table : forall i e, m_fd_contexts s !! i = Some e ->
    exists p c, e = Some p /\ contexts s !! p = Some c /\ fc_fd c = Z.of_nat i;
  in_heap : forall p c, contexts s !! p = Some c ->
    0 <= fc_fd c /\ m_fd_contexts s !! Z.to_nat (fc_fd c) = Some (Some p);
  in_ctx : forall p c, contexts s !! p = Some c -> context_ok s c;
  in_self : is_Some (scheds s !! this_sched s);
  in_count : pending s = u64 (count_in (contexts s));
  in_interest : forall p c, contexts s !! p = Some c ->
    interest (ikern s) !! fc_fd c = kernel_entry p (events c);
  in_beyond : forall fd, Z.of_nat (length (m_fd_contexts s)) <= fd -> interest (ikern s) !! fd = None;
}.

(** *** Finding a context *)

Lemma ctx_at_Some s fd p c :
  iom_inv s -> ctx_at s fd = Some (p, c) <-> contexts s !! p = Some c /\ fc_fd c = fd.
Proof.
  intros Hi. unfold ctx_at, vec_at. split.
  - destruct (Z.leb_spec 0 fd); [|done]. destruct (m_fd_contexts s !! Z.to_nat fd) as [[q|]|] eqn:E; try done.
    destruct (in_table s Hi _ _ E) as (q' & c' & [= <-] & Hc & Hfd). rewrite Hc. cbn. intros [= <- <-].
    split; [done|]. lia.
  - intros [Hc <-]. destruct (in_heap s Hi p c Hc) as [Hp Ht].
    destruct (Z.leb_spec 0 (fc_fd c)); [|lia]. by rewrite Ht, Hc.
Qed.

Lemma ctx_at_lookup s fd :
  iom_inv s -> fd_ok fd ->
  if i32 (Z.of_nat (length (m_fd_contexts s))) <=? fd then ctx_at s fd = None
  else exists p c, ctx_at s fd = Some (p, c) /\ vec_at (m_fd_contexts s) fd = Some (Some p)
                   /\ contexts s !! p = Some c /\ fc_fd c = fd.
Proof.
  intros Hi [H0 H1]. pose proof (in_size s Hi). rewrite i32_small by lia. unfold ctx_at.
  destruct (Z.leb_spec (Z.of_nat (length (m_fd_contexts s))) fd) as [Hle|Hgt].
  - unfold vec_at. destruct (Z.leb_spec 0 fd); [|lia]. by rewrite lookup_ge_None_2 by lia.
  - destruct (vec_at_Some (m_fd_contexts s) fd) as [e He]; [lia|]. rewrite He.
    unfold vec_at in He. destruct (Z.leb_spec 0 fd); [|lia].
    destruct (in_table s Hi _ _ He) as (p & c & -> & Hc & Hfd). exists p, c. rewrite Hc.
    repeat split. lia.
Qed.

Lemma find_context_eq s fd site :
  iom_inv s -> fd_ok fd -> find_context site fd s = Ok (fst <$> ctx_at s fd, s).
Proof.
  intros Hi Hfd. unfold find_context, fd_context_at. munfold. pose proof (ctx_at_lookup s fd Hi Hfd) as Hl.
  destruct (i32 _ <=? fd); [by rewrite Hl|]. destruct Hl as (p & c & Hat & Hv & Hc & _).
  by rewrite Hv, Hat.
Qed.

Lemma context_of_reg s fd e ec :
  iom_inv s -> reg s fd e = Some ec ->
  exists p c, ctx_at s fd = Some (p, c) /\ contexts s !! p = Some c /\ fc_fd c = fd
    /\ armed c e = true /\ getContext c e = Some ec.
Proof.
  intros Hi Hr. unfold reg in Hr. destruct (ctx_at s fd) as [[p c]|] eqn:Hat; [|done].
  destruct (armed c e) eqn:Ha; [|done]. pose proof Hat as [Hc Hfd]%ctx_at_Some; [|done].
  exists p, c. done.
Qed.

(** *** The kernel follows *)

Lemma ctl_left k fd p m e0 :
  interest k !! fd = Some e0 ->
  exists k', k_epoll_ctl (if truthy m then EPOLL_CTL_MOD else EPOLL_CTL_DEL) fd
               (mkEpollEvent (Z.lor EPOLLET m) p) k = (0, k')
    /\ interest k' !! fd = kernel_entry p m
    /\ (forall fd', fd' <> fd -> interest k' !! fd' = interest k !! fd') /\ pollable k' = pollable k.
Proof.
  intros Hi. unfold kernel_entry. rewrite truthy_eqb. destruct (m =? 0); cbn [negb].
  - destruct (ctl_del k fd (mkEpollEvent (Z.lor EPOLLET m) p) e0 Hi) as (k' & Hk & Hin & Hp).
    exists k'. rewrite Hin. split; [done|]. split; [apply lookup_delete_eq|]. split; [|done].
    intros. by rewrite lookup_delete_ne.
  - destruct (ctl_mod k fd (mkEpollEvent (Z.lor EPOLLET m) p) e0 Hi) as (k' & Hk & Hin & Hp).
    exists k'. rewrite Hin. split; [done|]. split; [apply lookup_insert_eq|]. split; [|done].
    intros. by rewrite lookup_insert_ne.
Qed.

(** *** One context changes, the kernel and the counter with it *)

Lemma iom_inv_update s s' p c c' :
  iom_inv s -> contexts s !! p = Some c -> fc_fd c' = fc_fd c ->
  this_sched s' = this_sched s -> m_fd_contexts s' = m_fd_contexts s ->
  contexts s' = <[p := c']> (contexts s) ->
  (forall q, is_Some (scheds s' !! q) <-> is_Some (scheds s !! q)) ->
  context_ok s c' ->
  pending s' = u64 (pending s + (armed_count c' - armed_count c)) ->
  interest (ikern s') !! fc_fd c = kernel_entry p (events c') ->
  (forall fd', fd' <> fc_fd c -> interest (ikern s') !! fd' = interest (ikern s) !! fd') ->
  iom_inv s'.
Proof.
  intros Hi Hc Hfd Hself Htab Hctx Hlive Hok Hpend Hk Hk'.
  assert (forall d, context_ok s d -> context_ok s' d) as Hmono.
  { intros d [Hm Ha]. split; [done|]. intros e ec He Har Hg.
    destruct (Ha e ec He Har Hg) as (q & tk & Hq & Hl & Hcb). exists q, tk. by rewrite Hlive. }
  pose proof (in_heap s Hi p c Hc) as [Hge Hat]. pose proof (lookup_lt_Some _ _ _ Hat) as Hlt.
  split; rewrite ?Htab, ?Hself, ?Hctx.
  - apply Hi.
  - intros i e He. destruct (in_table s Hi i e He) as (q & d & -> & Hd & Hf).
    destruct (decide (p = q)) as [->|Hne].
    + exists q, c'. rewrite lookup_insert_eq. split; [done|]. split; [done|]. congruence.
    + exists q, d. by rewrite lookup_insert_ne.
  - intros q d [[<- <-]|[_ Hd]]%lookup_insert_Some; [by rewrite Hfd|by apply (in_heap s Hi)].
  - intros q d [[<- <-]|[_ Hd]]%lookup_insert_Some; [by apply Hmono|].
    apply Hmono. by apply (in_ctx s Hi q).
  - apply Hlive, Hi.
  - rewrite Hpend, (in_count s Hi), u64_add_l, (count_in_update _ p c) by done. f_equal. lia.
  - intros q d [[<- <-]|[Hne Hd]]%lookup_insert_Some; [by rewrite Hfd|].
    rewrite Hk'; [by apply (in_interest s Hi)|].
    intros E. apply Hne. destruct (in_heap s Hi q d Hd) as [_ Hq]. rewrite E in Hq. congruence.
  - intros fd Hle. rewrite Hk' by lia. by apply (in_beyond s Hi).
Qed.

(** *** Firing one event *)

Lemma FdContext_scheduleEvent_eq s p c e ec q tk :
  contexts s !! p = Some c -> armed c e = true -> getContext c e = Some ec ->
  ec_scheduler ec = Some q -> is_Some (scheds s !! q) -> callback ec = Some tk ->
  FdContext_scheduleEvent p e s
  = Ok (tt, put_task q tk (set_context p (fun c => c <| events := Z.land (events c) (Z.lnot e) |>) s)).
Proof.
  intros Hc Ha Hg Hq [sc Hs] Hcb. unfold FdContext_scheduleEvent, get_context, schedule_on, callback in *. munfold.
  rewrite Hc, Ha, Hg, Hq. unfold set_context.
  destruct (ec_func ec) as [f|]; [|destruct (ec_fiber ec) as [fb|]; [|done]];
    injection Hcb as <-; cbn; by rewrite Hs.
Qed.

Definition clear_event (e : Z) (c : FdContext) : FdContext := c <| events := Z.land (events c) (Z.lnot e) |>.

Lemma contexts_set s p g c : contexts s !! p = Some c -> contexts (set_context p g s) = <[p := g c]> (contexts s).
Proof.
  intros Hc. unfold set_context. cbn. apply map_eq. intros q. destruct (decide (p = q)) as [->|Hne].
  - by rewrite lookup_alter_eq, Hc, lookup_insert_eq.
  - by rewrite lookup_alter_ne, lookup_insert_ne.
Qed.

(** The tasks an event turns into, on the queue of [q]. *)
Definition tasks_of s (fd e : Z) (q : ptr) : list Task :=
  match reg s fd e with
  | Some ec => if decide (ec_scheduler ec = Some q) then option_list (callback ec) else []
  | None => []
  end.

(** The events of [es] are gone from [fd], nothing else has changed in the
    registrations; what the slots hold is kept. *)
Definition unregistered s s' (fd : Z) (es : list Z) : Prop :=
  forall fd' e', fd_ok fd' -> valid_ev e' ->
    reg s' fd' e' = (if bool_decide (fd' = fd /\ e' ∈ es) then None else reg s fd' e')
    /\ used s' fd' e' = used s fd' e'.

Lemma unregistered_clear s s' p c es :
  iom_inv s -> iom_inv s' -> contexts s !! p = Some c ->
  contexts s' = <[p := foldr clear_event c es]> (contexts s) ->
  Forall valid_ev es -> unregistered s s' (fc_fd c) es.
Proof.
  intros Hi Hi' Hc Hctx Hes fd' e' Hfd' He'.
  assert (fc_fd (foldr clear_event c es) = fc_fd c
    /\ valid_mask (events (foldr clear_event c es))
    /\ armed (foldr clear_event c es) e' = (if bool_decide (e' ∈ es) then false else armed c e')
    /\ getContext (foldr clear_event c es) e' = getContext c e') as (Hf & _ & Ha & Hg).
  { destruct (in_ctx s Hi p c Hc) as [Hm _].
    clear Hctx. induction es as [|e es IH]; [by rewrite bool_decide_false by apply not_elem_of_nil|].
    apply Forall_cons in Hes as [He Hes]. destruct (IH Hes) as (IHf & IHm & IHa & IHg).
    cbn [foldr]. split; [done|]. split; [by apply mask_clear|]. split; [|done].
    unfold clear_event at 1. rewrite armed_clear by done. rewrite IHa.
    destruct (Z.eqb_spec e e') as [->|Hne].
    - by rewrite bool_decide_true by left.
    - repeat case_bool_decide; set_solver. }
  set (c' := foldr clear_event c es) in *.
  destruct (decide (fd' = fc_fd c)) as [->|Hne].
  - assert (ctx_at s (fc_fd c) = Some (p, c)) as H1 by (by apply ctx_at_Some).
    assert (ctx_at s' (fc_fd c) = Some (p, c')) as H2.
    { apply ctx_at_Some; [done|]. by rewrite Hctx, lookup_insert_eq. }
    unfold reg, used. rewrite H1, H2, Ha, Hg. split; [|done]. repeat case_bool_decide; try done; naive_solver.
  - rewrite bool_decide_false by naive_solver. unfold reg, used.
    assert (ctx_at s' fd' = ctx_at s fd') as ->; [|done].
    apply option_eq. intros [q d]. rewrite !ctx_at_Some, Hctx by done.
    rewrite lookup_insert_Some. split; [|naive_solver].
    intros [[(<- & <-)|(_ & ?)] ?]; [congruence|done].
Qed.

(** ** Deleting and cancelling *)

(** An armed context is in the kernel's interest list. *)
Lemma armed_interest s p c e :
  iom_inv s -> contexts s !! p = Some c -> armed c e = true ->
  exists e0, interest (ikern s) !! fc_fd c = Some e0.
Proof.
  intros Hi Hc Ha%armed_events. rewrite (in_interest s Hi p c Hc). unfold kernel_entry.
  destruct (Z.eqb_spec (events c) 0); [done|]. eauto.
Qed.

Lemma context_ok_clear s c e : context_ok s c -> valid_ev e -> context_ok s (clear_event e c).
Proof.
  intros [Hm Ha] He. split; [by apply mask_clear|]. intros e' ec He' Har Hg.
  unfold clear_event in Har. rewrite armed_clear in Har by done.
  destruct (e =? e'); [done|]. by apply (Ha e' ec).
Qed.

Lemma ctx_absent_reg s fd e : ctx_at s fd = None -> reg s fd e = None.
Proof. unfold reg. by intros ->. Qed.

(** The three endings of [delEvent] in one equation. *)
Lemma delEvent_spec s fd e :
  iom_inv s -> fd_ok fd -> valid_ev e ->
  match reg s fd e with
  | None => delEvent fd e s = Ok (false, s)
  | Some _ => exists s', delEvent fd e s = Ok (true, s') /\ iom_inv s' /\ unregistered s s' fd [e]
      /\ (forall q, queue s' q = queue s q) /\ pending s' = u64 (pending s - 1)
  end.
Proof.
  intros Hi Hfd He. unfold delEvent. munfold. rewrite find_context_eq by done.
  destruct (reg s fd e) as [ec|] eqn:Hr.
  - destruct (context_of_reg s fd e ec Hi Hr) as (p & c & Hat & Hc & Hf & Ha & Hg).
    rewrite Hat. cbn [fst fmap option_fmap option_map]. unfold get_context. munfold. rewrite Hc, Ha. cbn [negb].
    destruct (armed_interest s p c e Hi Hc Ha) as [e0 He0]. rewrite Hf in He0.
    destruct (ctl_left (ikern s) fd p (Z.land (events c) (Z.lnot e)) e0 He0) as (k' & Hk & Hk1 & Hk2 & _).
    unfold epoll_ctl, mkern. rewrite Hk. cbn [truthy Z.eqb negb].
    destruct (getContext_valid (clear_event e c) e He) as [ec' Hec'].
    unfold resetContext, get_context. munfold. cbn. rewrite lookup_alter_eq, Hc. cbn.
    unfold clear_event in Hec'. cbn in Hec'. rewrite Hec'.
    eexists. split; [reflexivity|]. set (s' := add_pending _ _).
    assert (contexts s' = <[p := clear_event e c]> (contexts s)) as Hctx.
    { exact (contexts_set s p (fun c0 => c0 <| events := Z.land (events c) (Z.lnot e) |>) c Hc). }
    pose proof (in_self s Hi) as Hself.
    assert (pending s' = u64 (pending s - 1)) as Hp by (unfold s'; by rewrite pending_add).
    assert (iom_inv s') as Hi'.
    { eapply (iom_inv_update s s' p c (clear_event e c)); try done.
      - intros q. unfold s'. by rewrite live_add_pending.
      - by apply context_ok_clear; [eapply in_ctx|].
      - rewrite Hp. f_equal. unfold clear_event. rewrite armed_count_clear; [lia| |done..].
        by eapply in_ctx.
      - by rewrite Hf.
      - by rewrite Hf. }
    split; [done|]. split; [|split; [|done]].
    + rewrite <- Hf. by apply (unregistered_clear s s' p c [e]); [..|apply Forall_singleton].
    + intros q. unfold s'. by rewrite queue_add_pending.
  - unfold reg in Hr. destruct (ctx_at s fd) as [[p c]|] eqn:Hat; cbn; [|done].
    pose proof Hat as [Hc Hf]%ctx_at_Some; [|done]. unfold get_context. munfold. rewrite Hc.
    destruct (armed c e); [|done]. destruct (getContext_valid c e He) as [? Hg]. congruence.
Qed.

Lemma tasks_of_reg s fd e ec q tk :
  reg s fd e = Some ec -> ec_scheduler ec = Some q -> callback ec = Some tk ->
  forall q', tasks_of s fd e q' = if decide (q = q') then [tk] else [].
Proof.
  intros Hr Hq Hcb q'. unfold tasks_of. rewrite Hr, Hq, Hcb. repeat case_decide; naive_solver.
Qed.

Lemma cancelEvent_spec s fd e :
  iom_inv s -> fd_ok fd -> valid_ev e ->
  match reg s fd e with
  | None => cancelEvent fd e s = Ok (false, s)
  | Some _ => exists s', cancelEvent fd e s = Ok (true, s') /\ iom_inv s' /\ unregistered s s' fd [e]
      /\ (forall q, queue s' q = queue s q ++ tasks_of s fd e q) /\ pending s' = u64 (pending s - 1)
  end.
Proof.
  intros Hi Hfd He. unfold cancelEvent. munfold. rewrite find_context_eq by done.
  destruct (reg s fd e) as [ec|] eqn:Hr.
  - destruct (context_of_reg s fd e ec Hi Hr) as (p & c & Hat & Hc & Hf & Ha & Hg).
    rewrite Hat. cbn [fst fmap option_fmap option_map]. unfold get_context. munfold. rewrite Hc, Ha. cbn [negb].
    destruct (armed_interest s p c e Hi Hc Ha) as [e0 He0]. rewrite Hf in He0.
    destruct (ctl_left (ikern s) fd p (Z.land (events c) (Z.lnot e)) e0 He0) as (k' & Hk & Hk1 & Hk2 & _).
    unfold epoll_ctl, mkern. rewrite Hk. cbn [truthy Z.eqb negb].
    destruct (in_ctx s Hi p c Hc) as [Hm Hrun]. destruct (Hrun e ec He Ha Hg) as (q & tk & Hq & Hl & Hcb).
    pose proof (in_self s Hi) as Hself. set (s1 := add_pending _ _).
    assert (forall q, is_Some (scheds s1 !! q) <-> is_Some (scheds s !! q)) as Hlive.
    { intros q'. unfold s1. by rewrite live_add_pending. }
    rewrite (FdContext_scheduleEvent_eq s1 p c e ec q tk) by (done || by apply Hlive).
    eexists. split; [reflexivity|]. set (s' := put_task _ _ _).
    assert (contexts s' = <[p := clear_event e c]> (contexts s)) as Hctx.
    { exact (contexts_set s p (clear_event e) c Hc). }
    assert (pending s' = u64 (pending s - 1)) as Hp.
    { unfold s', s1. rewrite pending_put_task. by apply (pending_add (-1)). }
    assert (iom_inv s') as Hi'.
    { eapply (iom_inv_update s s' p c (clear_event e c)); try done.
      - intros q'. unfold s'. rewrite live_put_task. apply Hlive.
      - by apply context_ok_clear; [eapply in_ctx|].
      - rewrite Hp. f_equal. unfold clear_event. rewrite armed_count_clear by done. lia.
      - by rewrite Hf.
      - by rewrite Hf. }
    split; [done|]. split; [|split; [|done]].
    + rewrite <- Hf. by apply (unregistered_clear s s' p c [e]); [..|apply Forall_singleton].
    + intros q'. unfold s'. rewrite queue_put_task by (by apply Hlive).
      rewrite (tasks_of_reg s fd e ec q tk) by done. f_equal.
      exact (queue_add_pending (-1) (s <| ikern := k' |>) q').
  - unfold reg in Hr. destruct (ctx_at s fd) as [[p c]|] eqn:Hat; cbn; [|done].
    pose proof Hat as [Hc Hf]%ctx_at_Some; [|done]. unfold get_context. munfold. rewrite Hc.
    destruct (armed c e); [|done]. destruct (getContext_valid c e He) as [? Hg]. congruence.
Qed.

(** ** Triggering *)

(** The tasks the slot of an event turns into, on the queue of [q]. *)
Definition slot_tasks (c : FdContext) (e : Z) (q : ptr) : list Task :=
  match getContext c e with
  | Some ec => if decide (ec_scheduler ec = Some q) then option_list (callback ec) else []
  | None => []
  end.

Lemma tasks_of_slot s fd e q p c :
  ctx_at s fd = Some (p, c) -> tasks_of s fd e q = if armed c e then slot_tasks c e q else [].
Proof. intros Hat. unfold tasks_of, reg, slot_tasks. rewrite Hat. by destruct (armed c e). Qed.

Definition clear_if (b : bool) (e : Z) (c : FdContext) : FdContext := if b then clear_event e c else c.

(** What [trigger] does to a state whose context [p] is [c]. *)
Lemma trigger_obs s p c e b :
  contexts s !! p = Some c -> is_Some (scheds s !! this_sched s) ->
  (b = true -> armed c e = true /\ exists ec, getContext c e = Some ec /\ runnable s ec) ->
  exists s', trigger p e b s = Ok (tt, s')
    /\ this_sched s' = this_sched s /\ m_fd_contexts s' = m_fd_contexts s /\ ikern s' = ikern s
    /\ (forall q, is_Some (scheds s' !! q) <-> is_Some (scheds s !! q))
    /\ contexts s' = <[p := clear_if b e c]> (contexts s)
    /\ pending s' = (if b then u64 (pending s - 1) else pending s)
    /\ (forall q, queue s' q = queue s q ++ (if b then slot_tasks c e q else [])).
Proof.
  intros Hc Hself Hb. destruct b.
  - destruct (Hb eq_refl) as (Ha & ec & Hg & q & tk & Hq & Hl & Hcb). unfold trigger. munfold.
    rewrite (FdContext_scheduleEvent_eq s p c e ec q tk) by done.
    eexists. split; [reflexivity|]. set (s1 := set_context p (clear_event e) s).
    change (set_context p _ s) with s1. do 3 (split; [done|]).
    split; [intros q'; by rewrite live_add_pending, live_put_task|].
    split; [exact (contexts_set s p (clear_event e) c Hc)|]. split.
    + rewrite pending_add by (by apply live_put_task). by rewrite pending_put_task.
    + intros q'. rewrite queue_add_pending, queue_put_task by done. f_equal.
      unfold slot_tasks. rewrite Hg, Hq, Hcb. repeat case_decide; naive_solver.
  - exists s. split; [done|]. do 3 (split; [done|]). split; [done|].
    split; [by rewrite insert_id|]. split; [done|]. intros q. by rewrite app_nil_r.
Qed.

Lemma trigger_assert s p c e : contexts s !! p = Some c -> armed c e = false ->
  trigger p e true s = AssertFailed "iomanager.h:53".
Proof.
  intros Hc Ha. unfold trigger, FdContext_scheduleEvent, get_context. munfold. by rewrite Hc, Ha.
Qed.

Lemma armed_clear_if c b e e' :
  valid_mask (events c) -> valid_ev e -> valid_ev e' -> e <> e' -> armed (clear_if b e c) e' = armed c e'.
Proof.
  intros Hm He He' Hne. destruct b; [|done]. cbn. unfold clear_event. rewrite armed_clear by done.
  destruct (Z.eqb_spec e e'); done.
Qed.

Lemma clear_if_ok s c b e : context_ok s c -> valid_ev e -> context_ok s (clear_if b e c).
Proof. destruct b; [apply context_ok_clear|done]. Qed.

Lemma clear_if_count s c b e :
  context_ok s c -> valid_ev e -> (b = true -> armed c e = true) ->
  armed_count (clear_if b e c) = armed_count c - b2z b.
Proof.
  intros [Hm _] He Hb. destruct b; cbn; [|lia]. unfold clear_event. by rewrite armed_count_clear by auto.
Qed.

Lemma READ_valid : valid_ev READ. Proof. by left. Qed.
Lemma WRITE_valid : valid_ev WRITE. Proof. by right. Qed.
Hint Resolve READ_valid WRITE_valid : eva.

Definition fired_events (r w : bool) : list Z := (if w then [WRITE] else []) ++ (if r then [READ] else []).

Lemma fired_clear c r w : foldr clear_event c (fired_events r w) = clear_if w WRITE (clear_if r READ c).
Proof. by destruct r, w. Qed.

(** Both halves of [cancelAll] and [scheduleEvent], behind their [epoll_ctl]. *)
Lemma trigger_both s k' p c r w :
  iom_inv s -> contexts s !! p = Some c ->
  (r = true -> armed c READ = true) -> (w = true -> armed c WRITE = true) ->
  interest k' !! fc_fd c = kernel_entry p (events (clear_if w WRITE (clear_if r READ c))) ->
  (forall fd', fd' <> fc_fd c -> interest k' !! fd' = interest (ikern s) !! fd') ->
  exists s1 s2,
    trigger p READ r (s <| ikern := k' |>) = Ok (tt, s1) /\ trigger p WRITE w s1 = Ok (tt, s2)
    /\ contexts s1 !! p = Some (clear_if r READ c)
    /\ contexts s2 !! p = Some (clear_if w WRITE (clear_if r READ c))
    /\ iom_inv s2 /\ unregistered s s2 (fc_fd c) (fired_events r w)
    /\ (forall q, queue s2 q = queue s q ++ (if r then slot_tasks c READ q else [])
                                        ++ (if w then slot_tasks c WRITE q else []))
    /\ pending s2 = u64 (pending s - (b2z r + b2z w)).
Proof.
  intros Hi Hc Hr Hw Hk Hk'. pose proof (in_ctx s Hi p c Hc) as Hok.
  assert (forall e, valid_ev e -> armed c e = true -> exists ec, getContext c e = Some ec /\ runnable s ec) as Hrun.
  { intros e He Ha. destruct (getContext_valid c e He) as [ec Hg]. exists ec. split; [done|].
    by apply (proj2 Hok e). }
  destruct (trigger_obs (s <| ikern := k' |>) p c READ r) as (s1 & H1 & Hs1 & Ht1 & Hk1 & Hl1 & Hc1 & Hp1 & Hq1);
    [done|apply Hi|intros E; split; [auto|apply Hrun; auto with eva]|].
  assert (contexts s1 !! p = Some (clear_if r READ c)) as Hcp1 by (by rewrite Hc1, lookup_insert_eq).
  destruct (trigger_obs s1 p (clear_if r READ c) WRITE w) as (s2 & H2 & Hs2 & Ht2 & Hk2 & Hl2 & Hc2 & Hp2 & Hq2).
  { done. }
  { rewrite Hl1, Hs1. apply Hi. }
  { intros E. rewrite armed_clear_if by (done || auto with eva || apply Hok). split; [auto|].
    destruct (Hrun WRITE) as (ec & Hg & q & tk & Hq & Hl & Hcb); [auto with eva..|].
    exists ec. split; [by destruct r|]. exists q, tk. by rewrite Hl1. }
  assert (contexts s2 = <[p := clear_if w WRITE (clear_if r READ c)]> (contexts s)) as Hctx.
  { by rewrite Hc2, Hc1, insert_insert_eq. }
  assert (pending s2 = u64 (pending s - (b2z r + b2z w))) as Hp.
  { change (pending (s <| ikern := k' |>)) with (pending s) in Hp1. rewrite Hp2, Hp1.
    rewrite (in_count s Hi). destruct r, w; cbn [b2z];
      repeat first [rewrite u64_sub_l | rewrite <- Z.sub_add_distr]; f_equal; lia. }
  assert (iom_inv s2) as Hi2.
  { eapply (iom_inv_update s s2 p c (clear_if w WRITE (clear_if r READ c))); try done.
    - by destruct r, w.
    - by rewrite Hs2, Hs1.
    - by rewrite Ht2, Ht1.
    - intros q. by rewrite Hl2, Hl1.
    - by apply clear_if_ok; [apply clear_if_ok|]; auto with eva.
    - rewrite Hp. f_equal. rewrite !(clear_if_count s); auto with eva; try lia.
      + apply clear_if_ok; auto with eva.
      + intros E. rewrite armed_clear_if by (done || auto with eva || apply Hok). auto.
    - by rewrite Hk2, Hk1.
    - intros. by rewrite Hk2, Hk1, Hk'. }
  exists s1, s2. do 3 (split; [done|]). split; [by rewrite Hctx, lookup_insert_eq|]. split; [done|].
  split; [|split; [|done]].
  - apply (unregistered_clear s s2 p c); [done..| |].
    + by rewrite fired_clear.
    + destruct r, w; cbn; rewrite ?Forall_cons; auto using Forall_nil_2 with eva.
  - intros q. rewrite Hq2, Hq1, <- app_assoc. f_equal. f_equal. by destruct r, w.
Qed.

(** What is registered for one descriptor. *)
Definition nreg s (fd : Z) : Z :=
  b2z (bool_decide (is_Some (reg s fd READ))) + b2z (bool_decide (is_Some (reg s fd WRITE))).

Lemma reg_armed s fd p c e :
  ctx_at s fd = Some (p, c) -> valid_ev e -> bool_decide (is_Some (reg s fd e)) = armed c e.
Proof.
  intros Hat He. unfold reg. rewrite Hat. destruct (armed c e).
  - destruct (getContext_valid c e He) as [ec ->]. by apply bool_decide_true.
  - apply bool_decide_false. by intros [].
Qed.

Lemma clear_all_events c :
  valid_mask (events c) ->
  events (clear_if (armed c WRITE) WRITE (clear_if (armed c READ) READ c)) = 0.
Proof.
  destruct c as [fd rd wr m]. intros Hm. change (events _) with m in Hm at 1. unfold armed. cbn [events].
  mask_cases; subst; reflexivity.
Qed.

Lemma cancelAll_spec s fd :
  iom_inv s -> fd_ok fd ->
  if nreg s fd =? 0 then cancelAll fd s = Ok (false, s)
  else exists s', cancelAll fd s = Ok (true, s') /\ iom_inv s' /\ unregistered s s' fd [READ; WRITE]
    /\ (forall q, queue s' q = queue s q ++ tasks_of s fd READ q ++ tasks_of s fd WRITE q)
    /\ pending s' = u64 (pending s - nreg s fd).
Proof.
  intros Hi Hfd. unfold cancelAll. munfold. rewrite find_context_eq by done.
  destruct (ctx_at s fd) as [[p c]|] eqn:Hat; cbn [fst fmap option_fmap option_map].
  2:{ unfold nreg, reg. by rewrite Hat. }
  pose proof Hat as [Hc Hf]%ctx_at_Some; [|done]. destruct (in_ctx s Hi p c Hc) as [Hm _].
  unfold nreg. rewrite !(reg_armed s fd p c) by auto with eva.
  unfold get_context. munfold. rewrite Hc. rewrite truthy_eqb.
  destruct (Z.eqb_spec (events c) 0) as [E|E].
  { unfold armed. rewrite E. reflexivity. }
  destruct (Z.eqb_spec (b2z (armed c READ) + b2z (armed c WRITE)) 0) as [E'|E'].
  { exfalso. apply E. apply armed_none; [done|..]; destruct (armed c READ), (armed c WRITE); cbn in E'; lia. }
  cbn [negb]. pose proof (in_interest s Hi p c Hc) as Hin. unfold kernel_entry in Hin.
  rewrite (proj2 (Z.eqb_neq _ _) E), Hf in Hin.
  destruct (ctl_del (ikern s) fd (mkEpollEvent 0 p) _ Hin) as (k' & Hk & Hk1 & _).
  unfold epoll_ctl, mkern. rewrite Hk. cbn [truthy Z.eqb negb].
  destruct (trigger_both s k' p c (armed c READ) (armed c WRITE))
    as (s1 & s2 & H1 & H2 & Hc1 & Hc2 & Hi2 & Hu & Hq & Hp); try done.
  { rewrite clear_all_events, Hk1, Hf by done. apply lookup_delete_eq. }
  { intros. rewrite Hk1, lookup_delete_ne by congruence. done. }
  rewrite H1. rewrite Hc1, armed_clear_if by (done || auto with eva). rewrite H2, Hc2, clear_all_events by done.
  exists s2. do 2 (split; [done|]). split; [|split].
  - intros fd' e' Hfd' He'. rewrite Hf in Hu. destruct (Hu fd' e' Hfd' He') as [-> ->]. split; [|done].
    destruct (decide (fd' = fd)) as [->|Hne]; [|by rewrite !bool_decide_false by naive_solver].
    rewrite (bool_decide_true (fd = fd /\ e' ∈ [READ; WRITE])) by (destruct He' as [-> | ->]; set_solver).
    case_bool_decide as Hin'; [done|]. unfold reg. rewrite Hat. destruct (armed c e') eqn:Ha; [|done].
    exfalso. apply Hin'. split; [done|]. unfold fired_events.
    destruct He' as [-> | ->]; rewrite Ha; destruct (armed c _); set_solver.
  - intros q. by rewrite Hq, !(tasks_of_slot s fd _ q p c).
  - done.
Qed.

Lemma triggered_bits c ev :
  exists r w : bool, triggered c ev = Z.lor (if r then READ else NONE) (if w then WRITE else NONE)
    /\ truthy (Z.land (triggered c ev) READ) = r /\ truthy (Z.land (triggered c ev) WRITE) = w.
Proof.
  unfold triggered. set (ev' := if truthy (Z.land ev _) then _ else _).
  exists (truthy (Z.land ev' EPOLLIN)), (truthy (Z.land ev' EPOLLOUT)).
  destruct (truthy (Z.land ev' EPOLLIN)), (truthy (Z.land ev' EPOLLOUT)); done.
Qed.

Lemma left_events_clear c (r w : bool) :
  valid_mask (events c) ->
  Z.land (events c) (Z.lnot (Z.lor (if r then READ else NONE) (if w then WRITE else NONE)))
  = events (clear_if w WRITE (clear_if r READ c)).
Proof.
  destruct c as [fd rd wr m]. cbn [events]. intros Hm. destruct r, w; mask_cases; subst; reflexivity.
Qed.

Lemma no_overlap c (r w : bool) :
  valid_mask (events c) ->
  (Z.land (events c) (Z.lor (if r then READ else NONE) (if w then WRITE else NONE)) =? NONE)
  = negb (r && armed c READ || w && armed c WRITE).
Proof. intros Hm. unfold armed. destruct r, w; mask_cases; reflexivity. Qed.

Lemma scheduleEvent_spec s ev c :
  iom_inv s -> contexts s !! ep_ptr ev = Some c ->
  let r := truthy (Z.land (triggered c (ep_events ev)) READ) in
  let w := truthy (Z.land (triggered c (ep_events ev)) WRITE) in
  if negb (r && armed c READ || w && armed c WRITE) then scheduleEvent ev s = Ok (false, s)
  else if (r && negb (armed c READ)) || (w && negb (armed c WRITE))
  then scheduleEvent ev s = AssertFailed "iomanager.h:53"
  else exists s', scheduleEvent ev s = Ok (true, s') /\ iom_inv s'
    /\ unregistered s s' (fc_fd c) (fired_events r w)
    /\ (forall q, queue s' q = queue s q ++ (if r then tasks_of s (fc_fd c) READ q else [])
                                        ++ (if w then tasks_of s (fc_fd c) WRITE q else []))
    /\ pending s' = u64 (pending s - (b2z r + b2z w)).
Proof.
  intros Hi Hc. destruct (triggered_bits c (ep_events ev)) as (r & w & Ht & Hr & Hw).
  cbv zeta. rewrite Hr, Hw. destruct (in_ctx s Hi _ c Hc) as [Hm Hrun].
  unfold scheduleEvent, get_context. munfold. rewrite Hc, Hr, Hw, Ht, no_overlap by done.
  destruct (negb _) eqn:Hno; [done|]. apply Bool.negb_false_iff in Hno.
  assert (exists e0, interest (ikern s) !! fc_fd c = Some e0) as [e0 He0].
  { destruct (armed c READ) eqn:Ha; [by eapply armed_interest|].
    destruct (armed c WRITE) eqn:Hb; [by eapply armed_interest|]. by rewrite !andb_false_r in Hno. }
  rewrite left_events_clear by done.
  destruct (ctl_left (ikern s) (fc_fd c) (ep_ptr ev) (events (clear_if w WRITE (clear_if r READ c))) e0 He0)
    as (k' & Hk & Hk1 & Hk2 & _).
  unfold epoll_ctl, mkern. rewrite Hk. cbn [truthy Z.eqb negb].
  destruct (r && negb (armed c READ)) eqn:Hbr.
  { apply andb_true_iff in Hbr as [-> Ha%Bool.negb_true_iff]. cbn [orb].
    by rewrite (trigger_assert (s <| ikern := k' |>) _ c READ). }
  assert (r = true -> armed c READ = true) as Hr' by (destruct r, (armed c READ); done).
  destruct (w && negb (armed c WRITE)) eqn:Hbw; cbn [orb].
  - apply andb_true_iff in Hbw as [-> Ha%Bool.negb_true_iff].
    destruct (trigger_obs (s <| ikern := k' |>) (ep_ptr ev) c READ r) as (s1 & -> & _ & _ & _ & _ & Hc1 & _);
      [done|apply Hi| |].
    { intros E. split; [auto|]. destruct (getContext_valid c READ READ_valid) as [ec Hg]. exists ec. split; [done|].
      apply (Hrun READ); auto with eva. }
    rewrite (trigger_assert s1 _ (clear_if r READ c) WRITE); [done|by rewrite Hc1, lookup_insert_eq|].
    by rewrite armed_clear_if by auto with eva.
  - assert (w = true -> armed c WRITE = true) as Hw' by (destruct w, (armed c WRITE); done).
    destruct (trigger_both s k' (ep_ptr ev) c r w Hi Hc Hr' Hw' Hk1 Hk2)
      as (s1 & s2 & H1 & H2 & _ & _ & Hi2 & Hu & Hq & Hp).
    rewrite H1, H2. exists s2. do 3 (split; [done|]). split; [|done].
    intros q. assert (ctx_at s (fc_fd c) = Some (ep_ptr ev, c)) as Hat by (by apply ctx_at_Some).
    rewrite Hq, !(tasks_of_slot s (fc_fd c) _ q (ep_ptr ev) c) by done.
    destruct r, w; rewrite ?Hr', ?Hw' by done; done.
Qed.

(** ** Growing the table *)

Section Growing.
Context (garbage : ptr -> Z).

Definition new_context (i : nat) (p : ptr) : FdContext :=
  mkFdContext (Z.of_nat i) EventContext_empty EventContext_empty (garbage p).

(** [s] is [s0] with contexts created for some of its null entries. *)
Record extends s0 s : Prop := {
  ex_self : this_sched s = this_sched s0;
  ex_scheds : scheds s = scheds s0;
  ex_kern : ikern s = ikern s0;
  ex_fsys : fsys s = fsys s0;
  ex_len : length (m_fd_contexts s) = length (m_fd_contexts s0);
  ex_ctx : forall p c, contexts s0 !! p = Some c -> contexts s !! p = Some c;
  ex_tab : forall j p, m_fd_contexts s0 !! j = Some (Some p) -> m_fd_contexts s !! j = Some (Some p);
  ex_new : forall p c, contexts s !! p = Some c -> contexts s0 !! p = Some c
    \/ exists j, c = new_context j p /\ m_fd_contexts s !! j = Some (Some p) /\ m_fd_contexts s0 !! j = Some None;
  ex_entry : forall j p, m_fd_contexts s !! j = Some (Some p) ->
    m_fd_contexts s0 !! j = Some (Some p)
    \/ (contexts s !! p = Some (new_context j p) /\ m_fd_contexts s0 !! j = Some None);
  ex_count : (forall p, garbage p = 0) -> count_in (contexts s) = count_in (contexts s0);
}.

Lemma extends_refl s : extends s s.
Proof. split; auto. Qed.

Lemma extends_new s0 s i s' :
  extends s0 s -> m_fd_contexts s !! i = Some None -> new_FdContext garbage i s = Ok (tt, s') ->
  extends s0 s' /\ (exists p, m_fd_contexts s' !! i = Some (Some p))
  /\ (forall j, j <> i -> m_fd_contexts s' !! j = m_fd_contexts s !! j).
Proof.
  intros [E1 E2 E3 E4 E5 E6 E7 E8 E9 E10] Hi Hs. unfold new_FdContext in Hs. munfold. injection Hs as <-.
  set (p := fresh (dom (contexts s))).
  assert (contexts s !! p = None) as Hp by (apply not_elem_of_dom, is_fresh).
  pose proof (lookup_lt_Some _ _ _ Hi) as Hlt.
  assert (m_fd_contexts s0 !! i = Some None) as Hi0.
  { destruct (lookup_lt_is_Some_2 (m_fd_contexts s0) i) as [[q|] Hq]; [lia| |done].
    apply E7 in Hq. congruence. }
  split; [|split].
  - split; cbn; try done.
    + by rewrite length_insert.
    + intros q c Hq. rewrite lookup_insert_ne; [by apply E6|]. intros <-. apply E6 in Hq. congruence.
    + intros j q Hq. rewrite list_lookup_insert_ne by congruence. by apply E7.
    + intros q c [[<- <-]|[Hne Hq]]%lookup_insert_Some.
      * right. exists i. by rewrite list_lookup_insert_eq.
      * apply E8 in Hq as [Hq|(j & -> & Hj & Hj0)]; [by left|]. right. exists j.
        rewrite list_lookup_insert_ne by congruence. done.
    + intros j q [(<- & [= <-] & _)|[Hne Hq]]%list_lookup_insert_Some.
      * right. by rewrite lookup_insert_eq.
      * apply E9 in Hq as [Hq|[Hq Hj]]; [by left|]. right. rewrite lookup_insert_ne by congruence. done.
    + intros Hg. rewrite count_in_insert, E10 by done. unfold armed_count, armed. cbn. by rewrite Hg.
  - exists p. cbn. by rewrite list_lookup_insert_eq.
  - intros j Hj. cbn. by rewrite list_lookup_insert_ne.
Qed.

Lemma resizeContexts_loop_spec s0 n i s :
  extends s0 s -> (i + n = length (m_fd_contexts s0))%nat ->
  (forall j, (j < i)%nat -> exists p, m_fd_contexts s !! j = Some (Some p)) ->
  exists s', resizeContexts_loop garbage n i s = Ok (tt, s') /\ extends s0 s'
    /\ (forall j, (j < i + n)%nat -> exists p, m_fd_contexts s' !! j = Some (Some p)).
Proof.
  revert i s. induction n as [|n IH]; intros i s He Hn Hj.
  - exists s. split; [done|]. split; [done|]. intros j ?. apply Hj. lia.
  - cbn [resizeContexts_loop]. munfold.
    destruct (lookup_lt_is_Some_2 (m_fd_contexts s) i) as [e Hi]; [rewrite (ex_len s0 s He); lia|]. rewrite Hi.
    replace (i + S n)%nat with (S i + n)%nat by lia. destruct e as [p|].
    + apply (IH (S i)); [done|lia|]. intros j ?. destruct (decide (j = i)) as [->|]; [eauto|]. apply Hj. lia.
    + destruct (new_FdContext garbage i s) as [[[] s1]| | | |] eqn:Hs; try discriminate Hs.
      destruct (extends_new s0 s i s1 He Hi Hs) as (He1 & Hi1 & Hj1).
      apply (IH (S i)); [done|lia|]. intros j ?. destruct (decide (j = i)) as [->|]; [done|].
      rewrite Hj1 by done. apply Hj. lia.
Qed.

Lemma resizeContexts_extends s size :
  exists s', resizeContexts garbage size s = Ok (tt, s')
    /\ extends (s <| m_fd_contexts := resize (Z.to_nat size) None (m_fd_contexts s) |>) s'
    /\ (forall j, (j < Z.to_nat size)%nat -> exists p, m_fd_contexts s' !! j = Some (Some p)).
Proof.
  unfold resizeContexts. munfold. apply (resizeContexts_loop_spec _ (Z.to_nat size) 0).
  - apply extends_refl.
  - cbn. by rewrite length_resize.
  - intros j ?. lia.
Qed.

(** Registrations, queues, counters and the kernel as before. *)
Record same_view s s' : Prop := {
  sv_reg : forall fd e, fd_ok fd -> valid_ev e -> reg s' fd e = reg s fd e /\ used s' fd e = used s fd e;
  sv_self : this_sched s' = this_sched s;
  sv_scheds : scheds s' = scheds s;
  sv_kern : ikern s' = ikern s;
  sv_fsys : fsys s' = fsys s;
}.

Lemma grown_lookup {A} (l : list (option A)) n j p :
  (length l <= n)%nat -> resize n None l !! j = Some (Some p) <-> l !! j = Some (Some p).
Proof.
  intros Hn. destruct (decide (j < length l)%nat) as [Hlt|Hge]; [by rewrite lookup_resize by lia|].
  rewrite (lookup_ge_None_2 l) by lia. split; [|done]. destruct (decide (j < n)%nat).
  - by rewrite lookup_resize_new by lia.
  - by rewrite lookup_resize_old by lia.
Qed.

Lemma resizeContexts_inv s size :
  iom_inv s -> (forall p, garbage p = 0) ->
  Z.of_nat (length (m_fd_contexts s)) <= size <= 3 * 2 ^ 29 ->
  exists s', resizeContexts garbage size s = Ok (tt, s') /\ iom_inv s' /\ same_view s s'
    /\ Z.of_nat (length (m_fd_contexts s')) = size.
Proof.
  intros Hi Hg Hsz. destruct (resizeContexts_extends s size) as (s' & Hs & He & Hnn).
  set (s0 := s <| m_fd_contexts := _ |>) in He. pose proof (in_size s Hi) as Hsize.
  assert (forall j p, m_fd_contexts s0 !! j = Some (Some p) <-> m_fd_contexts s !! j = Some (Some p)) as Hold.
  { intros j p. apply grown_lookup. lia. }
  assert (length (m_fd_contexts s') = Z.to_nat size) as Hlen by (rewrite (ex_len _ _ He); apply length_resize).
  assert (forall j, m_fd_contexts s0 !! j = Some None -> (length (m_fd_contexts s) <= j)%nat) as Hnew.
  { intros j Hj. destruct (decide (j < length (m_fd_contexts s))%nat) as [Hlt|]; [|lia].
    destruct (lookup_lt_is_Some_2 (m_fd_contexts s) j Hlt) as [e He0].
    destruct (in_table s Hi _ _ He0) as (p & c & -> & _). apply Hold in He0. congruence. }
  assert (forall j p, m_fd_contexts s0 !! j = Some None -> events (new_context j p) = 0) as Hev.
  { intros. apply Hg. }
  assert (iom_inv s') as Hi'.
  { split; rewrite ?(ex_self _ _ He), ?(ex_kern _ _ He); cbn [s0 this_sched ikern upd_field].
    - lia.
    - intros j e Hj. pose proof (lookup_lt_Some _ _ _ Hj). destruct (Hnn j) as [p Hp]; [lia|].
      rewrite Hj in Hp. injection Hp as ->. exists p.
      apply (ex_entry _ _ He) in Hj as [Hj%Hold|[Hj _]]; [|eauto].
      destruct (in_table s Hi _ _ Hj) as (q & c & [= <-] & Hc & Hf). exists c. split; [done|]. split; [|done].
      by apply (ex_ctx _ _ He).
    - intros p c [Hc|(j & -> & Hj & _)]%(ex_new _ _ He).
      + destruct (in_heap s Hi p c Hc) as [? Ht]. split; [done|]. by apply (ex_tab _ _ He), Hold.
      + cbn. rewrite Nat2Z.id. split; [lia|done].
    - intros p c [Hc|(j & -> & Hj & Hj0)]%(ex_new _ _ He).
      + destruct (in_ctx s Hi p c Hc) as [Hm Hr]. split; [done|]. intros e ec He' Ha Hgc.
        destruct (Hr e ec He' Ha Hgc) as (q & tk & ? & ? & ?). exists q, tk. by rewrite (ex_scheds _ _ He).
      + split; [left; eauto|]. intros e ec _ Ha%armed_events. by rewrite (Hev j p Hj0) in Ha.
    - rewrite (ex_scheds _ _ He). apply Hi.
    - unfold pending. rewrite (ex_self _ _ He), (ex_scheds _ _ He), (ex_count _ _ He Hg). apply Hi.
    - intros p c [Hc|(j & -> & Hj & Hj0)]%(ex_new _ _ He); [by apply (in_interest s Hi)|].
      rewrite (Hev j p Hj0). cbn. apply (in_beyond s Hi). pose proof (Hnew j Hj0). lia.
    - intros fd Hle. apply (in_beyond s Hi). lia. }
  exists s'. split; [done|]. split; [done|]. split; [|lia].
  split; try apply He. intros fd e Hfd Hev'. unfold reg, used.
  destruct (ctx_at s fd) as [[p c]|] eqn:Hat.
  - apply ctx_at_Some in Hat as [Hc Hf]; [|done].
    assert (ctx_at s' fd = Some (p, c)) as ->; [|done]. apply ctx_at_Some; [done|].
    split; [|done]. by apply (ex_ctx _ _ He).
  - destruct (ctx_at s' fd) as [[p c]|] eqn:Hat'; [|done].
    apply ctx_at_Some in Hat' as [Hc Hf]; [|done]. apply (ex_new _ _ He) in Hc as [Hc|(j & -> & Hj & Hj0)].
    + assert (ctx_at s fd = Some (p, c)) as E by (by apply ctx_at_Some). congruence.
    + unfold armed. rewrite (Hev j p Hj0). cbn. destruct Hev' as [-> | ->]; done.
Qed.

(** ** Adding *)

Context (no_garbage : forall p, garbage p = 0).

Lemma addEvent_find_eq s fd :
  iom_inv s -> fd_ok fd ->
  exists s1 p c, addEvent_need_resize fd s = Ok (i32 (Z.of_nat (length (m_fd_contexts s))) <=? fd, s)
    /\ addEvent_find garbage fd (i32 (Z.of_nat (length (m_fd_contexts s))) <=? fd) s = Ok (p, s1)
    /\ iom_inv s1 /\ same_view s s1 /\ contexts s1 !! p = Some c /\ fc_fd c = fd.
Proof.
  intros Hi Hfd. pose proof (in_size s Hi) as Hsz. pose proof (ctx_at_lookup s fd Hi Hfd) as Hl.
  rewrite i32_small in * by lia. unfold addEvent_find, addEvent_need_resize. munfold.
  rewrite i32_small by lia.
  destruct (Z.leb_spec (Z.of_nat (length (m_fd_contexts s))) fd) as [Hle|Hgt].
  - destruct Hfd as [Hf0 Hf1]. assert (fd < times_1_5 fd <= 3 * 2 ^ 29) as Hb.
    { split; [apply times_1_5_gt; lia|]. unfold times_1_5. apply Z.div_le_upper_bound; lia. }
    destruct (resizeContexts_inv s (times_1_5 fd) Hi no_garbage) as (s1 & Hs & Hi1 & Hv & Hlen); [lia|].
    rewrite Hs. pose proof (ctx_at_lookup s1 fd Hi1 (conj Hf0 Hf1)) as Hl1.
    rewrite i32_small in Hl1 by lia. destruct (Z.leb_spec (Z.of_nat (length (m_fd_contexts s1))) fd); [lia|].
    destruct Hl1 as (p & c & _ & Hat & Hc & Hf). exists s1, p, c. split; [done|]. split; [|done].
    unfold fd_context_at. munfold. by rewrite Hat.
  - destruct Hl as (p & c & _ & Hat & Hc & Hf). exists s, p, c. split; [done|].
    split; [unfold fd_context_at; munfold; by rewrite Hat|]. done.
Qed.

(** The state behind a registration. *)
Definition registered_state s (p : ptr) (e : Z) (ec : EventContext) (k' : K) (f' : fiber_sys) : iom_sys K :=
  set_context p (putContext e ec)
    (add_pending 1 (set_context p (fun c => c <| events := Z.lor (events c) e |>) (s <| ikern := k' |>)))
  <| fsys := f' |>.

Definition add_context (e : Z) (ec : EventContext) (c : FdContext) : FdContext :=
  putContext e ec (c <| events := Z.lor (events c) e |>).

(** What the slot gets: the function, or else the current fiber. *)
Definition slot_callback s (t : tid) (addr : ptr) (func : option closure) : res (option ptr * option closure * fiber_sys) :=
  match func with
  | Some f => Ok (None, Some f, fsys s)
  | None =>
      match GetThis t addr (fsys s) with
      | Ok (fb, f') =>
          match fibers f' !! fb with
          | Some f => if bool_decide (m_state f = RUNNING) then Ok (Some fb, None, f')
                      else AssertFailed "iomanager.cpp:87"
          | None => Undefined "iomanager.cpp:87"
          end
      | AssertFailed w => AssertFailed w
      | Undefined w => Undefined w
      | Thrown w => Thrown w
      | Terminated w => Terminated w
      end
  end.

Lemma ec_used_false ec :
  negb (bool_decide (is_Some (ec_scheduler ec))) && negb (bool_decide (is_Some (ec_fiber ec)))
  && negb (bool_decide (is_Some (ec_func ec))) = negb (ec_used ec).
Proof. unfold ec_used. by rewrite !negb_orb. Qed.

Lemma ctl_add_mod s p c fd e :
  iom_inv s -> contexts s !! p = Some c -> fc_fd c = fd -> valid_ev e -> pollable (ikern s) fd = true ->
  exists k', k_epoll_ctl (if truthy (events c) then EPOLL_CTL_MOD else EPOLL_CTL_ADD) fd
               (mkEpollEvent (Z.lor (Z.lor EPOLLET (events c)) e) p) (ikern s) = (0, k')
    /\ interest k' !! fd = kernel_entry p (Z.lor (events c) e)
    /\ (forall fd', fd' <> fd -> interest k' !! fd' = interest (ikern s) !! fd').
Proof.
  intros Hi Hc Hf He Hp. pose proof (in_interest s Hi p c Hc) as Hin. rewrite Hf in Hin.
  assert (kernel_entry p (Z.lor (events c) e) = Some (mkEpollEvent (Z.lor (Z.lor EPOLLET (events c)) e) p)) as ->.
  { unfold kernel_entry. destruct (in_ctx s Hi p c Hc) as [Hm _].
    rewrite (proj2 (Z.eqb_neq (Z.lor (events c) e) 0)) by (mask_cases; done). by rewrite Z.lor_assoc. }
  unfold kernel_entry in Hin. rewrite truthy_eqb. destruct (events c =? 0); cbn [negb].
  - destruct (ctl_add (ikern s) fd (mkEpollEvent (Z.lor (Z.lor EPOLLET (events c)) e) p) Hp Hin) as (k' & Hk & Hk1 & _).
    exists k'. rewrite Hk1. split; [done|]. split; [apply lookup_insert_eq|]. intros. by rewrite lookup_insert_ne.
  - destruct (ctl_mod (ikern s) fd (mkEpollEvent (Z.lor (Z.lor EPOLLET (events c)) e) p) _ Hin) as (k' & Hk & Hk1 & _).
    exists k'. rewrite Hk1. split; [done|]. split; [apply lookup_insert_eq|]. intros. by rewrite lookup_insert_ne.
Qed.

Lemma addEvent_locked_eq s t cur addr p c fd e func :
  iom_inv s -> contexts s !! p = Some c -> fc_fd c = fd -> valid_ev e -> pollable (ikern s) fd = true ->
  exists ec k', getContext c e = Some ec
    /\ interest k' !! fd = kernel_entry p (Z.lor (events c) e)
    /\ (forall fd', fd' <> fd -> interest k' !! fd' = interest (ikern s) !! fd')
    /\ addEvent_locked t cur addr p fd e func s
       = if ec_used ec then AssertFailed "iomanager.cpp:78"
         else match slot_callback s t addr func with
              | Ok (fb, f, f') => Ok (true, registered_state s p e (mkEventContext cur fb f) k' f')
              | AssertFailed w => AssertFailed w
              | Undefined w => Undefined w
              | Thrown w => Thrown w
              | Terminated w => Terminated w
              end.
Proof.
  intros Hi Hc Hf He Hp. destruct (getContext_valid c e He) as [ec Hg].
  destruct (ctl_add_mod s p c fd e Hi Hc Hf He Hp) as (k' & Hk & Hk1 & Hk2).
  exists ec, k'. do 3 (split; [done|]).
  unfold addEvent_locked, get_context, epoll_ctl, mkern. munfold. rewrite Hc, Hk. cbn [truthy Z.eqb negb].
  rewrite Hg, ec_used_false. destruct (ec_used ec); cbn [negb]; [done|].
  unfold slot_callback, registered_state, set_context, add_pending. destruct func as [f|]; [by destruct s|].
  cbn -[lookup GetThis]. destruct (GetThis t addr (fsys s)) as [[fb f']| | | |]; try done. cbn -[lookup GetThis].
  destruct (fibers f' !! fb) as [fo|]; [|done]. by destruct (bool_decide (m_state fo = RUNNING)).
Qed.

Lemma contexts_registered s p c e ec k' f' :
  contexts s !! p = Some c ->
  contexts (registered_state s p e ec k' f') = <[p := add_context e ec c]> (contexts s).
Proof.
  intros Hc. unfold registered_state, set_context. cbn. apply map_eq. intros q.
  destruct (decide (p = q)) as [->|Hne].
  - by rewrite !lookup_alter_eq, Hc, lookup_insert_eq.
  - by rewrite !lookup_alter_ne, lookup_insert_ne.
Qed.

(** [ec] is what [e] of [fd] is registered with now; the other registrations
    are as before. *)
Definition registered s s' (fd e : Z) (ec : EventContext) : Prop :=
  forall fd' e', fd_ok fd' -> valid_ev e' ->
    reg s' fd' e' = (if bool_decide (fd' = fd /\ e' = e) then Some ec else reg s fd' e')
    /\ used s' fd' e' = (if bool_decide (fd' = fd /\ e' = e) then ec_used ec else used s fd' e').

Lemma registered_add s s' p c e ec :
  iom_inv s -> iom_inv s' -> contexts s !! p = Some c -> valid_ev e ->
  contexts s' = <[p := add_context e ec c]> (contexts s) -> registered s s' (fc_fd c) e ec.
Proof.
  intros Hi Hi' Hc He Hctx fd' e' Hfd' He'. destruct (in_ctx s Hi p c Hc) as [Hm _].
  assert (fc_fd (add_context e ec c) = fc_fd c) as Hf by (by destruct He as [-> | ->]).
  destruct (decide (fd' = fc_fd c)) as [->|Hne].
  - assert (ctx_at s (fc_fd c) = Some (p, c)) as H1 by (by apply ctx_at_Some).
    assert (ctx_at s' (fc_fd c) = Some (p, add_context e ec c)) as H2.
    { apply ctx_at_Some; [done|]. by rewrite Hctx, lookup_insert_eq. }
    unfold reg, used. rewrite H1, H2. unfold add_context. rewrite armed_add, getContext_put by done.
    destruct (Z.eqb_spec e e') as [->|Hee].
    + by rewrite bool_decide_true.
    + rewrite bool_decide_false by naive_solver. by destruct He' as [-> | ->].
  - rewrite bool_decide_false by naive_solver. unfold reg, used.
    assert (ctx_at s' fd' = ctx_at s fd') as ->; [|done].
    apply option_eq. intros [q d]. rewrite !ctx_at_Some, Hctx by done.
    rewrite lookup_insert_Some. split; [|naive_solver].
    intros [[(<- & <-)|(_ & ?)] ?]; [congruence|done].
Qed.

Lemma armed_count_add c e ec :
  valid_mask (events c) -> valid_ev e -> armed c e = false -> armed_count (add_context e ec c) = armed_count c + 1.
Proof.
  destruct c as [fd rd wr m]. intros Hm He Ha. unfold armed_count, add_context, putContext, armed in *.
  cbn [events] in *. mask_cases; subst; vm_compute in Ha; try done; vm_compute; done.
Qed.

(** The same object, and the timers of every scheduler untouched. *)
Definition same_timers s s' : Prop :=
  this_sched s' = this_sched s /\ (forall q, base <$> scheds s' !! q = base <$> scheds s !! q).

Lemma base_add_pending d s q : base <$> scheds (add_pending d s) !! q = base <$> scheds s !! q.
Proof.
  unfold add_pending. cbn. destruct (decide (this_sched s = q)) as [<-|Hne].
  - rewrite lookup_alter_eq. by destruct (scheds s !! this_sched s).
  - by rewrite lookup_alter_ne.
Qed.

Lemma registered_inv s p c e ec k' f' :
  iom_inv s -> contexts s !! p = Some c -> valid_ev e -> armed c e = false -> runnable s ec ->
  interest k' !! fc_fd c = kernel_entry p (Z.lor (events c) e) ->
  (forall fd', fd' <> fc_fd c -> interest k' !! fd' = interest (ikern s) !! fd') ->
  let s' := registered_state s p e ec k' f' in
  iom_inv s' /\ registered s s' (fc_fd c) e ec /\ (forall q, queue s' q = queue s q)
  /\ pending s' = u64 (pending s + 1) /\ same_timers s s'.
Proof.
  intros Hi Hc He Ha Hr Hk1 Hk2 s'. destruct (in_ctx s Hi p c Hc) as [Hm Hrun]. set (s0 := s <| ikern := k' |>).
  assert (pending s' = u64 (pending s + 1)) as Hp by exact (pending_add 1 s0 (in_self s Hi)).
  assert (contexts s' = <[p := add_context e ec c]> (contexts s)) as Hctx
    by exact (contexts_registered s p c e ec k' f' Hc).
  assert (iom_inv s') as Hi'.
  { eapply (iom_inv_update s s' p c (add_context e ec c)); try done.
    - by destruct He as [-> | ->].
    - intros q. exact (live_add_pending 1 s0 q).
    - split; [destruct He as [-> | ->]; apply mask_add; auto with eva|].
      intros e' ec' He' Ha' Hg'. unfold add_context in *. rewrite armed_add in Ha' by done.
      rewrite getContext_put in Hg' by done. destruct (e =? e'); [by injection Hg' as <-|].
      apply (Hrun e'); [done..|]. by destruct He' as [-> | ->].
    - rewrite Hp, armed_count_add by done. f_equal. lia.
    - etrans; [exact Hk1|]. by destruct He as [-> | ->]. }
  split; [done|]. split; [by apply (registered_add s s' p)|]. split; [|split; [done|]].
  - intros q. exact (queue_add_pending 1 s0 q).
  - split; [done|]. intros q. exact (base_add_pending 1 s0 q).
Qed.

(** [addEvent] on every branch: a registered event, a slot that was used
    before, and the registration. *)
Lemma addEvent_spec s t q addr fd e func :
  iom_inv s -> fd_ok fd -> valid_ev e -> is_Some (scheds s !! q) -> pollable (ikern s) fd = true ->
  if bool_decide (is_Some (reg s fd e)) then addEvent garbage t (Some q) addr fd e func s = AssertFailed "iomanager.cpp:60"
  else if used s fd e then addEvent garbage t (Some q) addr fd e func s = AssertFailed "iomanager.cpp:78"
  else match slot_callback s t addr func with
       | Ok (fb, f, f') => exists s',
           addEvent garbage t (Some q) addr fd e func s = Ok (true, s')
           /\ iom_inv s' /\ registered s s' fd e (mkEventContext (Some q) fb f)
           /\ (forall q, queue s' q = queue s q) /\ pending s' = u64 (pending s + 1)
           /\ fsys s' = f' /\ same_timers s s'
       | AssertFailed w => addEvent garbage t (Some q) addr fd e func s = AssertFailed w
       | Undefined w => addEvent garbage t (Some q) addr fd e func s = Undefined w
       | Thrown w => addEvent garbage t (Some q) addr fd e func s = Thrown w
       | Terminated w => addEvent garbage t (Some q) addr fd e func s = Terminated w
       end.
Proof.
  intros Hi Hfd He Hq Hp.
  destruct (addEvent_find_eq s fd Hi Hfd) as (s1 & p & c & Hn & Hfind & Hi1 & [Hreg Hself Hsch Hker Hfs] & Hc & Hf).
  unfold addEvent. munfold. rewrite Hn, Hfind. unfold addEvent_check, get_context. munfold. rewrite Hc.
  destruct (Hreg fd e Hfd He) as [<- <-].
  assert (ctx_at s1 fd = Some (p, c)) as Hat by (by apply ctx_at_Some).
  rewrite (reg_armed s1 fd p c) by done. destruct (armed c e) eqn:Ha; cbn [negb]; [done|].
  rewrite <- Hker in Hp.
  destruct (addEvent_locked_eq s1 t (Some q) addr p c fd e func Hi1 Hc Hf He Hp) as (ec & k' & Hg & Hk1 & Hk2 & ->).
  unfold used. rewrite Hat, Hg. destruct (ec_used ec); [done|].
  assert (slot_callback s1 t addr func = slot_callback s t addr func) as -> by (unfold slot_callback; by rewrite Hfs).
  destruct (slot_callback s t addr func) as [[[fb f] f']| | | |] eqn:Hsc; try done.
  eexists. split; [reflexivity|].
  destruct (registered_inv s1 p c e (mkEventContext (Some q) fb f) k' f' Hi1 Hc He Ha)
    as (Hi' & Hr & Hqs & Hpe & Hself' & Htm).
  { exists q. unfold slot_callback in Hsc. unfold callback. cbn. rewrite Hsch. destruct func as [g|].
    - injection Hsc as <- <- <-. by eexists.
    - destruct (GetThis t addr (fsys s)) as [[fb' fs']| | | |]; try done.
      destruct (fibers fs' !! fb') as [fo|]; [|done]. destruct (bool_decide _); [|done].
      injection Hsc as <- <- <-. by eexists. }
  { by rewrite Hf. }
  { by rewrite Hf. }
  rewrite Hf in Hr. split; [done|]. split; [|split].
  - intros fd' e' Hfd' He'. destruct (Hr fd' e' Hfd' He') as [-> ->]. by destruct (Hreg fd' e' Hfd' He') as [-> ->].
  - intros q'. rewrite Hqs. unfold queue. by rewrite Hsch.
  - rewrite Hpe. split; [unfold pending; by rewrite Hself, Hsch|]. split; [done|].
    split; [by rewrite Hself'|]. intros q'. by rewrite Htm, Hsch.
Qed.

(** ** Construction *)

Lemma IOManager_ctor_eq self sc (k : K) f :
  IOManager_ctor garbage self sc k f = resizeContexts garbage DEFAULT_FD_CONTEXTS_SIZE (mkIom self [] ∅ sc k f).
Proof. reflexivity. Qed.

Lemma IOManager_ctor_inv self sc k f :
  is_Some (sc !! self) -> (forall s0 : Scheduler, sc !! self = Some s0 -> m_pending_count s0 = 0) -> interest k = ∅ ->
  exists s, IOManager_ctor garbage self sc k f = Ok (tt, s) /\ iom_inv s /\ scheds s = sc /\ ikern s = k
    /\ fsys s = f /\ this_sched s = self /\ (forall fd e, used s fd e = false).
Proof.
  intros Hs Hp Hk. rewrite IOManager_ctor_eq.
  destruct (resizeContexts_extends (mkIom self [] ∅ sc k f) DEFAULT_FD_CONTEXTS_SIZE) as (s & Hr & He & Hnn).
  exists s. split; [done|]. 
  assert (length (m_fd_contexts s) = 32%nat) as Hlen by (rewrite (ex_len _ _ He); apply length_resize).
  assert (forall j p, m_fd_contexts s !! j = Some (Some p) -> contexts s !! p = Some (new_context j p)) as Hent.
  { intros j p [Hj|[Hj _]]%(ex_entry _ _ He); [|done]. by apply grown_lookup in Hj; [|apply Nat.le_0_l]. }
  assert (forall p c, contexts s !! p = Some c -> exists j, c = new_context j p /\ m_fd_contexts s !! j = Some (Some p))
    as Hctx.
  { intros p c [Hc|(j & ? & ? & _)]%(ex_new _ _ He); [|eauto]. cbn in Hc. by rewrite lookup_empty in Hc. }
  split; [|split; [apply He|split; [apply He|split; [apply He|split; [apply He|]]]]].
  - split.
    + rewrite Hlen. lia.
    + intros j e Hj. pose proof (lookup_lt_Some _ _ _ Hj). destruct (Hnn j) as [p Hj']; [change (j < 32)%nat; lia|].
      rewrite Hj in Hj'. injection Hj' as ->. exists p, (new_context j p). eauto.
    + intros p c (j & -> & Hj)%Hctx. cbn. rewrite Nat2Z.id. split; [lia|done].
    + intros p c (j & -> & Hj)%Hctx. split; [left; apply no_garbage|].
      intros e ec _ Ha%armed_events. cbn in Ha. by rewrite no_garbage in Ha.
    + by rewrite (ex_scheds _ _ He), (ex_self _ _ He).
    + unfold pending. rewrite (ex_scheds _ _ He), (ex_self _ _ He), (ex_count _ _ He no_garbage). cbn.
      destruct Hs as [s0 Hs]. rewrite Hs. by rewrite (Hp s0 Hs).
    + intros p c (j & -> & Hj)%Hctx. rewrite (ex_kern _ _ He). cbn. by rewrite Hk, lookup_empty, no_garbage.
    + intros fd _. rewrite (ex_kern _ _ He). cbn. by rewrite Hk, lookup_empty.
  - intros fd e. unfold used, ctx_at, vec_at. destruct (0 <=? fd); [|done].
    destruct (m_fd_contexts s !! Z.to_nat fd) as [[p|]|] eqn:Hj; [|done..].
    rewrite (Hent _ _ Hj). cbn -[Z.eqb]. unfold getContext. by destruct (e =? READ), (e =? WRITE).
Qed.

End Growing.

End Invariant.
