(* ===== verification/IOManagerProps.v ===== *)
(** * Properties of the IOManager

    The step relation runs whole operations of any threads, the events the
    kernel reports and steps of the rest of the program in any order; the
    properties say what each operation does in every state it can be called
    in.  The races between the locked blocks of [addEvent] are shown as
    concrete schedules of the blocks. *)

From S2P Require Import Prelude Timer Fiber Scheduler Posix FdManager IOManager IOManagerInv.

Section Props.
Context {K : Type} `{EpollOps K} (interest : K -> gmap Z epoll_event) (pollable : K -> Z -> bool)
  {L : EpollLaws K interest pollable} (garbage : ptr -> Z).
Implicit Type s : iom_sys K.

(** Other parts of the program run: they neither touch the contexts nor the
    interest list nor the counter, and no scheduler is destroyed. *)
Definition rest_step s s' : Prop :=
  this_sched s' = this_sched s /\ m_fd_contexts s' = m_fd_contexts s /\ contexts s' = contexts s
  /\ interest (ikern s') = interest (ikern s) /\ pending s' = pending s
  /\ (forall q, is_Some (scheds s !! q) -> is_Some (scheds s' !! q)).

Inductive iom_step : iom_sys K -> iom_sys K -> Prop :=
| IoAdd t q addr fd e func b s s' :
    fd_ok fd -> valid_ev e -> is_Some (scheds s !! q) -> pollable (ikern s) fd = true ->
    addEvent garbage t (Some q) addr fd e func s = Ok (b, s') -> iom_step s s'
| IoDel fd e b s s' : fd_ok fd -> valid_ev e -> delEvent fd e s = Ok (b, s') -> iom_step s s'
| IoCancel fd e b s s' : fd_ok fd -> valid_ev e -> cancelEvent fd e s = Ok (b, s') -> iom_step s s'
| IoCancelAll fd b s s' : fd_ok fd -> cancelAll fd s = Ok (b, s') -> iom_step s s'
| IoTrigger ev b s s' :
    is_Some (contexts s !! ep_ptr ev) -> scheduleEvent ev s = Ok (b, s') -> iom_step s s'
| IoRest s s' : rest_step s s' -> iom_step s s'.

(** A started IOManager on a machine whose interest list is empty. *)
Definition iom_start s : Prop :=
  exists self sc k f sd, IOManager_ctor garbage self sc k f = Ok (tt, s)
    /\ sc !! self = Some sd /\ m_pending_count sd = 0 /\ interest k = ∅.

Definition iom_reachable s : Prop := exists s0, iom_start s0 /\ star iom_step s0 s.

Context (no_garbage : forall p, garbage p = 0).

Lemma rest_step_inv s s' : iom_inv interest s -> rest_step s s' -> iom_inv interest s'.
Proof.
  intros Hi (Hself & Htab & Hctx & Hk & Hp & Hl).
  split; rewrite ?Htab, ?Hctx, ?Hself, ?Hk, ?Hp; try apply Hi.
  - intros p c Hc. destruct (in_ctx _ s Hi p c Hc) as [Hm Hr]. split; [done|].
    intros e ec He Ha Hg. destruct (Hr e ec He Ha Hg) as (q & tk & ? & ? & ?). exists q, tk. auto.
  - apply Hl, Hi.
Qed.

(** What a step does to the slots: they are never emptied. *)
Definition slots_grow s s' : Prop :=
  forall fd e, fd_ok fd -> valid_ev e -> used s fd e = true -> used s' fd e = true.

Lemma unregistered_grow s s' fd es : unregistered s s' fd es -> slots_grow s s'.
Proof. intros Hu fd' e' Hfd He. by destruct (Hu fd' e' Hfd He) as [_ ->]. Qed.

Lemma slots_grow_refl s : slots_grow s s.
Proof. by intros fd e. Qed.

Lemma registered_grow s s' fd e ec : registered s s' fd e ec -> ec_used ec = true -> slots_grow s s'.
Proof.
  intros Hr Hec fd' e' Hfd He Hu. destruct (Hr fd' e' Hfd He) as [_ ->]. by case_bool_decide.
Qed.

Lemma iom_step_inv s s' : iom_inv interest s -> iom_step s s' -> iom_inv interest s' /\ slots_grow s s'.
Proof.
  intros Hi Hst. revert Hi.
  destruct Hst as [t q addr fd e func b s s' Hfd He Hq Hp Ha|fd e b s s' Hfd He Hd|fd e b s s' Hfd He Hd
    |fd b s s' Hfd Hd|ev b s s' [c Hc] Hd|s s' Hr]; intros Hi.
  - pose proof (addEvent_spec interest pollable garbage no_garbage s t q addr fd e func Hi Hfd He Hq Hp) as Hs.
    rewrite Ha in Hs. destruct (bool_decide _); [done|]. destruct (used s fd e); [done|].
    destruct (slot_callback s t addr func) as [[[fb f] f']| | | |]; try done.
    destruct Hs as (s1 & [= -> ->] & Hi' & Hr & _). split; [done|]. by eapply registered_grow.
  - pose proof (delEvent_spec interest pollable s fd e Hi Hfd He) as Hs. rewrite Hd in Hs.
    destruct (reg s fd e) as [ec|].
    + destruct Hs as (s1 & [= -> ->] & Hi' & Hu & _). split; [done|]. by eapply unregistered_grow.
    + injection Hs as -> ->. split; [done|apply slots_grow_refl].
  - pose proof (cancelEvent_spec interest pollable s fd e Hi Hfd He) as Hs. rewrite Hd in Hs.
    destruct (reg s fd e) as [ec|].
    + destruct Hs as (s1 & [= -> ->] & Hi' & Hu & _). split; [done|]. by eapply unregistered_grow.
    + injection Hs as -> ->. split; [done|apply slots_grow_refl].
  - pose proof (cancelAll_spec interest pollable s fd Hi Hfd) as Hs. rewrite Hd in Hs.
    destruct (nreg s fd =? 0).
    + injection Hs as -> ->. split; [done|apply slots_grow_refl].
    + destruct Hs as (s1 & [= -> ->] & Hi' & Hu & _). split; [done|]. by eapply unregistered_grow.
  - pose proof (scheduleEvent_spec interest pollable s ev c Hi Hc) as Hs. cbv zeta in Hs. rewrite Hd in Hs.
    destruct (negb _).
    + injection Hs as -> ->. split; [done|apply slots_grow_refl].
    + destruct (_ || _); [done|].
      destruct Hs as (s1 & [= -> ->] & Hi' & Hu & _). split; [done|]. by eapply unregistered_grow.
  - split; [by eapply rest_step_inv|]. destruct Hr as (_ & Ht & Hc & _).
    intros fd e _ _. unfold used, ctx_at. by rewrite Ht, Hc.
Qed.

Lemma iom_reachable_inv s : iom_reachable s -> iom_inv interest s.
Proof.
  intros (s0 & (self & sc & k & f & sd & Hc & Hs & Hp & Hk) & Hst).
  destruct (IOManager_ctor_inv interest garbage no_garbage self sc k f) as (s1 & Hc1 & Hi & _).
  - eauto.
  - intros sd' Hs'. congruence.
  - done.
  - rewrite Hc in Hc1. injection Hc1 as <-.
    eapply star_invariant; [|exact Hst|exact Hi]. intros a b Ha Hab. by apply (iom_step_inv a b).
Qed.

Lemma star_slots_grow s s' : iom_inv interest s -> star iom_step s s' -> slots_grow s s'.
Proof.
  intros Hi Hst. revert Hi. induction Hst as [|a b c Hab _ IH]; intros Hi; [apply slots_grow_refl|].
  destruct (iom_step_inv a b Hi Hab) as [Hi' Hg]. intros fd e Hfd He Hu. apply IH; auto.
Qed.

(** ** Properties *)



(** C22: [delEvent] and [cancelEvent] on every branch: on an event that is not
    registered both return false and change nothing; on a registered one both
    return true, remove exactly this registration and count it off, and
    [cancelEvent] appends its callback, exactly once, to the queue of the
    scheduler it was registered with, while [delEvent] leaves all queues
    alone. *)
Theorem del_and_cancel_refine s fd e :
  iom_reachable s -> fd_ok fd -> valid_ev e ->
  match reg s fd e with
  | None => delEvent fd e s = Ok (false, s) /\ cancelEvent fd e s = Ok (false, s)
  | Some _ =>
      (exists s', delEvent fd e s = Ok (true, s') /\ unregistered s s' fd [e]
         /\ (forall q, queue s' q = queue s q) /\ pending s' = u64 (pending s - 1))
      /\ (exists s', cancelEvent fd e s = Ok (true, s') /\ unregistered s s' fd [e]
         /\ (forall q, queue s' q = queue s q ++ tasks_of s fd e q) /\ pending s' = u64 (pending s - 1))
  end.
Proof.
  intros Hi%iom_reachable_inv Hfd He.
  pose proof (delEvent_spec interest pollable s fd e Hi Hfd He) as Hd.
  pose proof (cancelEvent_spec interest pollable s fd e Hi Hfd He) as Hc.
  destruct (reg s fd e); [|done]. split.
  - destruct Hd as (s' & ? & _ & ? & ? & ?). eauto.
  - destruct Hc as (s' & ? & _ & ? & ? & ?). eauto.
Qed.

(** C32: [cancelAll] removes and queues every registration of its descriptor,
    reads before writes, counts them off and touches no other descriptor; with
    nothing registered it returns false and changes nothing. *)
Theorem cancelAll_refines s fd :
  iom_reachable s -> fd_ok fd ->
  if nreg s fd =? 0 then cancelAll fd s = Ok (false, s)
  else exists s', cancelAll fd s = Ok (true, s') /\ unregistered s s' fd [READ; WRITE]
    /\ (forall q, queue s' q = queue s q ++ tasks_of s fd READ q ++ tasks_of s fd WRITE q)
    /\ pending s' = u64 (pending s - nreg s fd).
Proof.
  intros Hi%iom_reachable_inv Hfd. pose proof (cancelAll_spec interest pollable s fd Hi Hfd) as Hs.
  destruct (nreg s fd =? 0); [done|]. destruct Hs as (s' & ? & _ & ? & ? & ?). eauto.
Qed.

(** C20: [scheduleEvent] on what [epoll_wait] reports for a context, on every
    branch.  If no triggered event is registered any more, nothing happens; if
    all triggered events are registered, exactly these are removed, queued and
    counted off; but if only some are (another thread cancelled one of them
    between [epoll_wait] and here), the triggered events are not masked with the
    registered ones and the process aborts. *)
Theorem scheduleEvent_refines s ev c :
  iom_reachable s -> contexts s !! ep_ptr ev = Some c ->
  let r := truthy (Z.land (triggered c (ep_events ev)) READ) in
  let w := truthy (Z.land (triggered c (ep_events ev)) WRITE) in
  if negb (r && armed c READ || w && armed c WRITE) then scheduleEvent ev s = Ok (false, s)
  else if (r && negb (armed c READ)) || (w && negb (armed c WRITE))
  then scheduleEvent ev s = AssertFailed "iomanager.h:53"
  else exists s', scheduleEvent ev s = Ok (true, s')
    /\ unregistered s s' (fc_fd c) (fired_events r w)
    /\ (forall q, queue s' q = queue s q ++ (if r then tasks_of s (fc_fd c) READ q else [])
                                        ++ (if w then tasks_of s (fc_fd c) WRITE q else []))
    /\ pending s' = u64 (pending s - (b2z r + b2z w)).
Proof.
  intros Hi%iom_reachable_inv Hc r w.
  pose proof (scheduleEvent_spec interest pollable s ev c Hi Hc) as Hs. cbv zeta in Hs.
  fold r w in Hs. destruct (negb _); [done|]. destruct (_ || _); [done|].
  destruct Hs as (s' & ? & _ & ? & ? & ?). eauto.
Qed.

(** C40: an event of a descriptor can be registered once in the life of the
    IOManager.  [resetContext] and [FdContext::scheduleEvent] clear a copy of
    the slot, so after one successful [addEvent], whatever has happened since
    (the event fired, was deleted or cancelled), another [addEvent] for it
    aborts. *)
Theorem event_registers_once s s1 s2 t q addr fd e func t' q' addr' func' b :
  iom_reachable s -> fd_ok fd -> valid_ev e -> is_Some (scheds s !! q) -> pollable (ikern s) fd = true ->
  addEvent garbage t (Some q) addr fd e func s = Ok (b, s1) -> star iom_step s1 s2 ->
  is_Some (scheds s2 !! q') -> pollable (ikern s2) fd = true ->
  addEvent garbage t' (Some q') addr' fd e func' s2
  = AssertFailed (if bool_decide (is_Some (reg s2 fd e)) then "iomanager.cpp:60" else "iomanager.cpp:78").
Proof.
  intros Hi%iom_reachable_inv Hfd He Hq Hp Ha Hst Hq' Hp'.
  assert (iom_inv interest s1 /\ used s1 fd e = true) as [Hi1 Hu1].
  { pose proof (addEvent_spec interest pollable garbage no_garbage s t q addr fd e func Hi Hfd He Hq Hp) as Hs.
    rewrite Ha in Hs. destruct (bool_decide _); [done|]. destruct (used s fd e); [done|].
    destruct (slot_callback s t addr func) as [[[fb f] f']| | | |]; try done.
    destruct Hs as (s' & [= -> ->] & Hi' & Hr & _). split; [done|].
    destruct (Hr fd e Hfd He) as [_ ->]. by rewrite bool_decide_true. }
  assert (used s2 fd e = true) as Hu2 by (by apply (star_slots_grow s1)).
  assert (iom_inv interest s2) as Hi2.
  { eapply star_invariant; [|exact Hst|exact Hi1]. intros a c Hac Hb. by apply (iom_step_inv a c). }
  pose proof (addEvent_spec interest pollable garbage no_garbage s2 t' q' addr' fd e func' Hi2 Hfd He Hq' Hp') as Hs.
  rewrite Hu2 in Hs. by destruct (bool_decide _).
Qed.

(** the resize of [addEvent] does not look again under the write lock, and
    [vector::resize] also shrinks.  If thread 2 has decided to resize for [b],
    thread 1 then runs [addEvent] for a larger descriptor [a], and thread 2
    resizes, the table is cut below [a]: the context of [a] is lost with its
    event registered and counted, [cancelEvent] and [cancelAll] no longer find
    it. *)
Theorem concurrent_resize_drops_event s t q addr a b e f :
  iom_reachable s -> fd_ok a -> valid_ev e -> is_Some (scheds s !! q) -> pollable (ikern s) a = true ->
  fd_ok b -> Z.of_nat (length (m_fd_contexts s)) <= b -> times_1_5 b <= a ->
  exists s1 s2 p p' c,
    addEvent_need_resize b s = Ok (true, s)
    /\ addEvent garbage t (Some q) addr a e (Some f) s = Ok (true, s1)
    /\ addEvent_find garbage b true s1 = Ok (p', s2)
    /\ contexts s2 !! p = Some c /\ fc_fd c = a /\ armed c e = true
    /\ pending s2 = u64 (pending s + 1)
    /\ cancelEvent a e s2 = Ok (false, s2) /\ cancelAll a s2 = Ok (false, s2).
Proof.
  intros Hi%iom_reachable_inv Ha He Hq Hp Hb Hle Hab. pose proof (in_size _ s Hi) as Hsz.
  assert (b < times_1_5 b) as Hb' by (apply times_1_5_gt; lia).
  pose proof (ctx_at_lookup interest s a Hi Ha) as Hat. rewrite i32_small in Hat by lia.
  rewrite (proj2 (Z.leb_le _ _)) in Hat by lia.
  pose proof (addEvent_spec interest pollable garbage no_garbage s t q addr a e (Some f) Hi Ha He Hq Hp) as Hs.
  assert (reg s a e = None /\ used s a e = false) as [Hr0 Hu0] by (unfold reg, used; by rewrite Hat).
  rewrite Hr0, Hu0 in Hs. cbn in Hs. destruct Hs as (s1 & Hadd & Hi1 & Hr & _ & Hpe & _).
  destruct (Hr a e Ha He) as [Hra _]. rewrite bool_decide_true in Hra by done.
  destruct (context_of_reg interest s1 a e _ Hi1 Hra) as (p & c & _ & Hc & Hf & Har & _).
  destruct (resizeContexts_extends garbage s1 (times_1_5 b)) as (s2 & Hrs & Hex & Hnn).
  destruct (Hnn (Z.to_nat b)) as [p' Hp']; [destruct Hb; lia|].
  exists s1, s2, p, p', c. split; [|split; [done|split; [|split; [|split; [done|split; [done|split]]]]]].
  - unfold addEvent_need_resize. munfold. rewrite i32_small by lia. by rewrite (proj2 (Z.leb_le _ _)) by lia.
  - unfold addEvent_find. munfold. rewrite Hrs. unfold fd_context_at, vec_at. munfold.
    rewrite (proj2 (Z.leb_le 0 b)) by (destruct Hb; lia). by rewrite Hp'.
  - by apply (ex_ctx _ _ _ Hex).
  - rewrite <- Hpe. unfold pending. by rewrite (ex_self _ _ _ Hex), (ex_scheds _ _ _ Hex).
  - assert (i32 (Z.of_nat (length (m_fd_contexts s2))) <=? a = true) as E.
    { apply Z.leb_le. rewrite (ex_len _ _ _ Hex). cbn. rewrite length_resize. destruct Ha, Hb.
      rewrite i32_small by lia. lia. }
    unfold cancelEvent, cancelAll, find_context. munfold. by rewrite E.
Qed.

End Props.

(** ** Witnesses *)

(** A fresh IOManager on scheduler 1; 3 and 200 are open sockets. *)
Definition demo_sim : sim_kernel := mkSim {[3 := (49152, 2048); 200 := (49152, 2048); 40 := (49152, 2048)]} ∅.
Definition demo_sched : Scheduler :=
  mkScheduler empty_TimerManager None "iomanager" ["iomanager_0"] [] 1 false false false 0 0 0 0.
Definition zeroed (_ : ptr) : Z := 0.

Definition demo_ctor : res (unit * iom_sys sim_kernel) :=
  IOManager_ctor zeroed 1%nat {[1%nat := demo_sched]} demo_sim fiber_sys_init.
Definition demo_iom : iom_sys sim_kernel :=
  match demo_ctor with Ok (_, s) => s | _ => mkIom 0%nat [] ∅ ∅ demo_sim fiber_sys_init end.

Lemma demo_iom_reachable : iom_reachable sim_interest sim_pollable zeroed demo_iom.
Proof.
  exists demo_iom. split; [|apply star_refl]. exists 1%nat, {[1%nat := demo_sched]}, demo_sim, fiber_sys_init, demo_sched.
  split; [vm_compute; reflexivity|]. split; [reflexivity|]. split; reflexivity.
Qed.

(** READ is registered for descriptor 3 with function 7. *)
Definition demo_armed : iom_sys sim_kernel := 
  run_state (addEvent zeroed 1%nat (Some 1%nat) 9%nat 3 READ (Some (User 7))) demo_iom.

(** What the witnesses need of these states, computed once. *)
Lemma demo_live (s : iom_sys sim_kernel) (q : ptr) :
  bool_decide (is_Some (scheds s !! q)) = true -> is_Some (scheds s !! q).
Proof. apply bool_decide_eq_true_1. Qed.

Lemma demo_fd3 : fd_ok 3. Proof. unfold fd_ok. lia. Qed.
Lemma demo_fd200 : fd_ok 200. Proof. unfold fd_ok. lia. Qed.
Lemma demo_fd40 : fd_ok 40. Proof. unfold fd_ok. lia. Qed.
Lemma demo_iom_live : is_Some (scheds demo_iom !! 1%nat).
Proof. apply demo_live. vm_compute. reflexivity. Qed.
Lemma demo_iom_poll : sim_pollable (ikern demo_iom) 3 = true.
Proof. vm_compute. reflexivity. Qed.
Lemma demo_iom_poll200 : sim_pollable (ikern demo_iom) 200 = true.
Proof. vm_compute. reflexivity. Qed.
Lemma demo_iom_unused : reg demo_iom 3 READ = None /\ used demo_iom 3 READ = false.
Proof. split; vm_compute; reflexivity. Qed.
Lemma demo_add_ok : addEvent zeroed 1%nat (Some 1%nat) 9%nat 3 READ (Some (User 7)) demo_iom = Ok (true, demo_armed).
Proof. vm_compute. reflexivity. Qed.
Lemma demo_armed_reg :
  reg demo_armed 3 READ = Some (mkEventContext (Some 1%nat) None (Some (User 7))) /\ (nreg demo_armed 3 =? 0) = false.
Proof. split; vm_compute; reflexivity. Qed.

Lemma demo_armed_reachable : iom_reachable sim_interest sim_pollable zeroed demo_armed.
Proof.
  destruct demo_iom_reachable as (s0 & H0 & Hs). exists s0. split; [done|].
  eapply star_trans; [exact Hs|]. apply star_one.
  exact (IoAdd sim_interest sim_pollable zeroed 1%nat 1%nat 9%nat 3 READ (Some (User 7)) true demo_iom demo_armed
           demo_fd3 READ_valid demo_iom_live demo_iom_poll demo_add_ok).
Qed.



Lemma del_and_cancel_refine_witness :
  exists s', cancelEvent 3 READ demo_armed = Ok (true, s') /\ unregistered demo_armed s' 3 [READ]
    /\ (forall q, queue s' q = queue demo_armed q ++ tasks_of demo_armed 3 READ q)
    /\ pending s' = u64 (pending demo_armed - 1).
Proof.
  pose proof (del_and_cancel_refine sim_interest sim_pollable zeroed (fun _ => eq_refl) demo_armed 3 READ
    demo_armed_reachable demo_fd3 READ_valid) as Hx.
  rewrite (proj1 demo_armed_reg) in Hx. exact (proj2 Hx).
Defined.

Lemma cancelAll_refines_witness :
  exists s', cancelAll 3 demo_armed = Ok (true, s') /\ unregistered demo_armed s' 3 [READ; WRITE]
    /\ (forall q, queue s' q = queue demo_armed q ++ tasks_of demo_armed 3 READ q ++ tasks_of demo_armed 3 WRITE q)
    /\ pending s' = u64 (pending demo_armed - nreg demo_armed 3).
Proof.
  pose proof (cancelAll_refines sim_interest sim_pollable zeroed (fun _ => eq_refl) demo_armed 3
    demo_armed_reachable demo_fd3) as Hx.
  rewrite (proj2 demo_armed_reg) in Hx. exact Hx.
Defined.

Definition demo_ptr : ptr := 3%nat.
Definition demo_ctx : FdContext :=
  mkFdContext 3 (mkEventContext (Some 1%nat) None (Some (User 7))) EventContext_empty READ.

Lemma demo_ctx_at : contexts demo_armed !! demo_ptr = Some demo_ctx.
Proof. vm_compute. reflexivity. Qed.

(** The kernel reports both directions although only READ is registered. *)
Lemma scheduleEvent_refines_witness :
  scheduleEvent (mkEpollEvent (Z.lor EPOLLIN EPOLLOUT) demo_ptr) demo_armed = AssertFailed "iomanager.h:53".
Proof.
  exact (scheduleEvent_refines sim_interest sim_pollable zeroed (fun _ => eq_refl) demo_armed
    (mkEpollEvent (Z.lor EPOLLIN EPOLLOUT) demo_ptr) demo_ctx demo_armed_reachable demo_ctx_at).
Defined.

Definition demo_cancelled : iom_sys sim_kernel := run_state (cancelEvent 3 READ) demo_armed.

Lemma demo_cancel_ok : cancelEvent 3 READ demo_armed = Ok (true, demo_cancelled).
Proof. vm_compute. reflexivity. Qed.
Lemma demo_cancelled_state :
  is_Some (scheds demo_cancelled !! 1%nat) /\ sim_pollable (ikern demo_cancelled) 3 = true
  /\ reg demo_cancelled 3 READ = None.
Proof.
  split; [apply demo_live; vm_compute; reflexivity|]. split; vm_compute; reflexivity.
Qed.

Lemma event_registers_once_witness :
  addEvent zeroed 1%nat (Some 1%nat) 9%nat 3 READ (Some (User 8)) demo_cancelled
  = AssertFailed "iomanager.cpp:78".
Proof.
  destruct demo_cancelled_state as (Hl & Hp & Hr).
  pose proof (event_registers_once sim_interest sim_pollable zeroed (fun _ => eq_refl) demo_iom demo_armed
    demo_cancelled 1%nat 1%nat 9%nat 3 READ (Some (User 7)) 1%nat 1%nat 9%nat (Some (User 8)) true
    demo_iom_reachable demo_fd3 READ_valid demo_iom_live demo_iom_poll demo_add_ok
    (star_one _ _ _ (IoCancel sim_interest sim_pollable zeroed 3 READ true demo_armed demo_cancelled
       demo_fd3 READ_valid demo_cancel_ok)) Hl Hp) as Hx.
  rewrite Hr in Hx. exact Hx.
Defined.

Lemma demo_size : Z.of_nat (length (m_fd_contexts demo_iom)) <= 40.
Proof. apply Z.leb_le. vm_compute. reflexivity. Qed.

Lemma concurrent_resize_drops_event_witness :
  exists s1 s2 p p' c,
    addEvent_need_resize 40 demo_iom = Ok (true, demo_iom)
    /\ addEvent zeroed 1%nat (Some 1%nat) 9%nat 200 READ (Some (User 7)) demo_iom = Ok (true, s1)
    /\ addEvent_find zeroed 40 true s1 = Ok (p', s2)
    /\ contexts s2 !! p = Some c /\ fc_fd c = 200 /\ armed c READ = true
    /\ pending s2 = u64 (pending demo_iom + 1)
    /\ cancelEvent 200 READ s2 = Ok (false, s2) /\ cancelAll 200 s2 = Ok (false, s2).
Proof.
  exact (concurrent_resize_drops_event sim_interest sim_pollable zeroed (fun _ => eq_refl) demo_iom
           1%nat 1%nat 9%nat 200 40 READ (User 7) demo_iom_reachable demo_fd200 READ_valid demo_iom_live
           demo_iom_poll200 demo_fd40 demo_size ltac:(unfold times_1_5; done)).
Defined.

(** ** Two ways to crash *)

(** an event registered from a thread without a scheduler is accepted with
    a null scheduler; when it is cancelled (or fires), the null pointer is
    dereferenced. *)
Theorem event_without_scheduler_crashes :
  exists s, addEvent zeroed 2%nat None 9%nat 3 READ (Some (User 7)) demo_iom = Ok (true, s)
    /\ cancelEvent 3 READ s = Undefined "iomanager.h:57: scheduler".
Proof.
  exists (run_state (addEvent zeroed 2%nat None 9%nat 3 READ (Some (User 7))) demo_iom).
  split; vm_compute; reflexivity.
Qed.

Lemma fresh_context {K : Type} (garbage : ptr -> Z) self sc (k : K) f s fd :
  0 <= fd < DEFAULT_FD_CONTEXTS_SIZE -> IOManager_ctor garbage self sc k f = Ok (tt, s) ->
  length (m_fd_contexts s) = 32%nat
  /\ exists p, m_fd_contexts s !! Z.to_nat fd = Some (Some p) /\ contexts s !! p = Some (new_context garbage (Z.to_nat fd) p).
Proof.
  intros Hfd Hs.
  destruct (resizeContexts_extends garbage (mkIom self [] ∅ sc k f) DEFAULT_FD_CONTEXTS_SIZE) as (s' & Hr & He & Hnn).
  rewrite IOManager_ctor_eq, Hr in Hs. injection Hs as ->.
  split; [rewrite (ex_len _ _ _ He); apply length_resize|].
  destruct (Hnn (Z.to_nat fd)) as [p Hp]; [lia|]. exists p. split; [done|].
  apply (ex_entry _ _ _ He) in Hp as [Hp|[Hp _]]; [|done]. apply grown_lookup in Hp; [done|apply Nat.le_0_l].
Qed.

(** [FdContext::events] is not initialised.  If the memory of a new context
    holds a bit of the event, the first [addEvent] for it on a fresh IOManager
    aborts, before anything was registered. *)
Theorem uninitialised_events_abort {K : Type} `{EpollOps K} (garbage : ptr -> Z) self sc (k : K) f s t cur addr fd e func :
  0 <= fd < DEFAULT_FD_CONTEXTS_SIZE -> IOManager_ctor garbage self sc k f = Ok (tt, s) ->
  (forall p, truthy (Z.land (garbage p) e) = true) ->
  addEvent garbage t cur addr fd e func s = AssertFailed "iomanager.cpp:60".
Proof.
  intros Hfd Hs Hg. destruct (fresh_context garbage self sc k f s fd Hfd Hs) as (Hlen & p & Hp & Hc).
  unfold DEFAULT_FD_CONTEXTS_SIZE in Hfd. clear Hs.
  unfold addEvent, addEvent_need_resize, addEvent_find, fd_context_at, vec_at, addEvent_check, get_context. munfold.
  rewrite Hlen, i32_small by lia. rewrite (proj2 (Z.leb_gt _ _)) by lia. rewrite (proj2 (Z.leb_le 0 fd)) by lia.
  rewrite Hp, Hc. unfold armed. cbn [new_context events]. by rewrite Hg.
Qed.

Lemma uninitialised_events_abort_witness :
  addEvent (fun _ => 5) 1%nat (Some 1%nat) 9%nat 3 READ (Some (User 7))
    (match IOManager_ctor (fun _ => 5) 1%nat {[1%nat := demo_sched]} demo_sim fiber_sys_init with
     | Ok (_, s) => s | _ => demo_iom end)
  = AssertFailed "iomanager.cpp:60".
Proof.
  apply (uninitialised_events_abort (fun _ => 5) 1%nat {[1%nat := demo_sched]} demo_sim fiber_sys_init).
  - unfold DEFAULT_FD_CONTEXTS_SIZE. lia.
  - vm_compute. reflexivity.
  - reflexivity.
Defined.
