(* ===== verification/IOManagerSched.v ===== *)
(** * The IOManager on top of its scheduler

    SchedulerThreads.v treats I/O as labels: something queues a task, something
    sets [m_pending_count].  Here the two models are put together.  Every
    operation of the IOManager is shown to act on each scheduler by exactly such
    labels, so that the IOManager and the workers can be run as one system, and
    what was proved of either holds of both at once. *)

From S2P Require Import Prelude Timer Fiber Scheduler SchedulerThreads SchedulerProps Posix FdManager IOManager IOManagerInv IOManagerProps.

(** ** What the operations do to the schedulers *)

(** The two actions the IOManager performs on a scheduler, and what an action
    does to one. *)
Definition io_action (a : action) : bool :=
  match a with ASchedule k => client_task k | APending n => 0 <=? n | _ => false end.

Definition sched_act (a : action) (sc : Scheduler) : Scheduler :=
  match a with
  | ASchedule k => schedule k sc
  | APending n => sc <| m_pending_count := n |>
  | AAddTimer addr now period f recurring => (sched_addTimer addr now period f recurring sc).2
  | ACancel p => sc <| base := (cancel p (base sc)).2 |>
  | ANewFiber _ => sc
  end.

Definition on_sched (m : gmap ptr Scheduler) (qa : ptr * action) : gmap ptr Scheduler :=
  alter (sched_act qa.2) qa.1 m.

Section Emits.
Context {K : Type} `{EpollOps K} (garbage : ptr -> Z).
Implicit Type s : iom_sys K.

(** [m] changes the schedulers by a sequence of such actions only. *)
Definition emits {A} (m : M (iom_sys K) A) : Prop :=
  forall s a s', m s = Ok (a, s') ->
    this_sched s' = this_sched s
    /\ exists acts, Forall (fun qa => io_action qa.2 = true) acts /\ scheds s' = foldl on_sched (scheds s) acts.

Lemma emits_ret {A} (a : A) : emits (mret_M a).
Proof. intros s a' s' [= <- <-]. split; [done|]. by exists []. Qed.

Lemma emits_bind {A B} (m : M (iom_sys K) A) (k : A -> M (iom_sys K) B) :
  emits m -> (forall a, emits (k a)) -> emits (let! x := m in k x).
Proof.
  intros Hm Hk s b s' Hx. unfold mbind_M in Hx. destruct (m s) as [[a s1]| | | |] eqn:E; try done.
  destruct (Hm s a s1 E) as (H1 & acts1 & Ha1 & Hs1). destruct (Hk a s1 b s' Hx) as (H2 & acts2 & Ha2 & Hs2).
  split; [congruence|]. exists (acts1 ++ acts2). split; [by apply Forall_app|]. by rewrite foldl_app, <- Hs1.
Qed.

(** Code that leaves the schedulers alone. *)
Definition silent {A} (m : M (iom_sys K) A) : Prop :=
  forall s a s', m s = Ok (a, s') -> this_sched s' = this_sched s /\ scheds s' = scheds s.

Lemma emits_silent {A} (m : M (iom_sys K) A) : silent m -> emits m.
Proof. intros Hm s a s' Hx. destruct (Hm s a s' Hx) as [H1 H2]. split; [done|]. exists []. by split; [constructor|]. Qed.

Lemma silent_modify f : (forall s, this_sched (f s) = this_sched s /\ scheds (f s) = scheds s) -> silent (mmodify f).
Proof. intros Hf s a s' [= <- <-]. apply Hf. Qed.

Lemma silent_deref {A} site (o : iom_sys K -> option A) : silent (mderef site o).
Proof. intros s a s'. unfold mderef. destruct (o s); [|done]. by intros [= <- <-]. Qed.

Lemma silent_assert site b : silent (ASSERT site b).
Proof. intros s a s'. unfold ASSERT. destruct b; [|done]. by intros [= <- <-]. Qed.

Lemma silent_get : silent mget.
Proof. by intros s a s' [= <- <-]. Qed.

Lemma silent_gets {A} (f : iom_sys K -> A) : silent (mgets f).
Proof. by intros s a s' [= <- <-]. Qed.

Lemma silent_fail {A} (r : res (A * iom_sys K)) : (forall x, r <> Ok x) -> silent (mfail r).
Proof. intros Hr s a s' Hx. by destruct (Hr (a, s')). Qed.

Lemma silent_epoll op fd e : silent (epoll_ctl op fd e).
Proof. intros s a s'. unfold epoll_ctl, mkern. destruct (k_epoll_ctl op fd e (ikern s)). by intros [= <- <-]. Qed.

Lemma silent_fsys {A} (m : M fiber_sys A) : silent (mzoom fsys (fun f s => s <| fsys := f |>) m).
Proof. intros s a s'. unfold mzoom. destruct (m (fsys s)) as [[? ?]| | | |]; try done. by intros [= <- <-]. Qed.

Lemma emits_pending d : emits (mmodify (add_pending d)).
Proof.
  intros s a s' [= <- <-]. split; [done|].
  destruct (scheds s !! this_sched s) as [sc|] eqn:E.
  - exists [(this_sched s, APending (u64 (m_pending_count sc + d)))]. split.
    + repeat constructor. cbn. apply Z.leb_le, u64_range.
    + cbn. unfold on_sched. cbn. apply alter_ext. intros x Hx. rewrite E in Hx. by injection Hx as <-.
  - exists []. split; [constructor|]. cbn. apply map_eq. intros q. destruct (decide (q = this_sched s)) as [->|Hne].
    + by rewrite lookup_alter_eq, E.
    + by rewrite lookup_alter_ne.
Qed.

Lemma emits_schedule q tk : client_task tk = true -> emits (schedule_on (K := K) q tk).
Proof.
  intros Ht. unfold schedule_on. destruct q as [q|].
  - apply emits_bind; [apply emits_silent, silent_deref|]. intros q'. apply emits_bind; [apply emits_silent, silent_deref|].
    intros _ s a s' [= <- <-]. split; [done|]. exists [(q', ASchedule tk)]. split; [by repeat constructor|done].
  - by intros s a s'.
Qed.

(** Structural decomposition of an operation into its statements. *)
Ltac emits :=
  repeat match goal with
  | |- forall _, _ => intro
  | |- emits (mbind_M _ _) => apply emits_bind
  | |- emits (mret_M _) => apply emits_ret
  | |- emits (mmodify (add_pending _)) => apply emits_pending
  | |- emits (mfail _) => apply emits_silent, silent_fail; done
  | |- emits (mderef _ _) => apply emits_silent, silent_deref
  | |- emits (ASSERT _ _) => apply emits_silent, silent_assert
  | |- emits mget => apply emits_silent, silent_get
  | |- emits (mgets _) => apply emits_silent, silent_gets
  | |- emits (epoll_ctl _ _ _) => apply emits_silent, silent_epoll
  | |- emits (mzoom fsys _ _) => apply emits_silent, silent_fsys
  | |- emits (mmodify _) => apply emits_silent, silent_modify; intros; done
  | |- emits (schedule_on _ _) => apply emits_schedule; done
  | |- emits (get_context _ _) => apply emits_silent, silent_deref
  | |- emits (match ?x with _ => _ end) => destruct x
  | |- emits (let _ := ?x in _) => cbv zeta
  end.

Lemma emits_event p e : emits (FdContext_scheduleEvent (K := K) p e).
Proof. unfold FdContext_scheduleEvent. emits. Qed.

Lemma emits_reset p e : emits (resetContext (K := K) p e).
Proof. unfold resetContext. emits. Qed.

Lemma emits_at site fd : emits (fd_context_at (K := K) site fd).
Proof. unfold fd_context_at. emits. Qed.

Lemma emits_find_context site fd : emits (find_context (K := K) site fd).
Proof. unfold find_context. emits. apply emits_at. Qed.

Lemma emits_trigger p e b : emits (trigger (K := K) p e b).
Proof. unfold trigger. emits. apply emits_event. Qed.

Lemma emits_resize size : emits (resizeContexts (K := K) garbage size).
Proof.
  unfold resizeContexts. emits. generalize 0%nat. generalize (Z.to_nat size). intros n.
  induction n as [|n IH]; intros i; cbn; emits; [|apply IH].
  unfold new_FdContext. emits.
Qed.

(** The operations. *)
Lemma emits_add t cur addr fd e func : emits (addEvent (K := K) garbage t cur addr fd e func).
Proof.
  unfold addEvent, addEvent_need_resize, addEvent_find, addEvent_check, addEvent_locked.
  emits; auto using emits_resize, emits_at.
Qed.

Lemma emits_del fd e : emits (delEvent (K := K) fd e).
Proof. unfold delEvent. emits; auto using emits_find_context, emits_reset. Qed.

Lemma emits_cancel fd e : emits (cancelEvent (K := K) fd e).
Proof. unfold cancelEvent. emits; auto using emits_find_context, emits_event. Qed.

Lemma emits_cancelAll fd : emits (cancelAll (K := K) fd).
Proof. unfold cancelAll. emits; auto using emits_find_context, emits_trigger. Qed.

Lemma emits_scheduleEvent ev : emits (scheduleEvent (K := K) ev).
Proof. unfold scheduleEvent. emits; auto using emits_trigger. Qed.
End Emits.

(** ** Labels and the counter *)

(** Labels that leave [m_pending_count] to the IOManager. *)
Definition not_pending (l : label) : bool :=
  match l with LBody _ (APending _) | LOutside (APending _) => false | _ => true end.

Lemma tickle_pending sc : m_pending_count (tickle sc) = m_pending_count sc.
Proof. unfold tickle. by case_match. Qed.

Lemma range_pending fs thr sc : m_pending_count (schedule_range fs thr sc) = m_pending_count sc.
Proof. unfold schedule_range. case_match; [by rewrite tickle_pending|done]. Qed.

Lemma addTimer_pending addr now period f r sc :
  m_pending_count (sched_addTimer addr now period f r sc).2 = m_pending_count sc.
Proof.
  unfold sched_addTimer, onFirstTimerChanged. destruct (addTimer _ _ _ _ _ _) as [[p []] tm]; cbn; [by rewrite tickle_pending|done].
Qed.

Lemma act_pending a s s' :
  (match a with APending _ => false | _ => true end) = true -> act a s = Some (Ok s') ->
  m_pending_count (sch s') = m_pending_count (sch s).
Proof.
  intros Hn Ha. destruct a; try done; cbn [act] in Ha; unfold guard in Ha;
    try (case_match; [|done]); apply some_ok_inj in Ha as <-; cbn;
    auto using schedule_pending, addTimer_pending.
Qed.

Lemma exec_pending l s s' :
  not_pending l = true -> exec l s = Some (Ok s') -> m_pending_count (sch s') = m_pending_count (sch s).
Proof.
  intros Hn Hex.
  destruct l as [t|t addr|t pipe|t now|t k|t a|t c|a| |]; cbn [exec] in Hex;
    try (destruct (workers s !! t) as [w|] eqn:Hw; [cbn [mbind option_bind] in Hex|done]).
  - unfold step_run, step_top, step_scan, step_taken, step_tickle, step_fiber_dec, step_func_dec, step_idle_stop,
      step_idle_sched, step_idle_yield, guard in Hex.
    repeat (case_match; try discriminate Hex); try done; apply some_ok_inj in Hex as <-;
      cbn; repeat case_match; cbn; auto using schedule_pending, range_pending, tickle_pending.
  - case_bool_decide; [|done]. unfold step_dispatch, dispatch_func, dispatch_idle, guard in Hex.
    repeat (case_match; try discriminate Hex);
      first [injection Hex as [fs ->]%on_fibers_Ok | apply some_ok_inj in Hex as <-];
      cbn; repeat case_match; cbn; auto.
  - unfold guard in Hex. case_match; [|done]. by apply some_ok_inj in Hex as <-.
  - unfold guard in Hex. case_match; [|done].
    destruct (getExpiredFuncs now (expired_funcs w) (base (sch s))). by apply some_ok_inj in Hex as <-.
  - unfold guard in Hex. case_match; [|done]. apply some_ok_inj in Hex as <-. apply schedule_pending.
  - case_match; [|done]. apply (act_pending a); [by destruct a|done].
  - unfold step_back in Hex. case_match; [|done]. by apply some_ok_inj in Hex as <-.
  - case_match; [|done]. apply (act_pending a); [by destruct a|done].
  - unfold guard in Hex. case_match; [|done]. by apply some_ok_inj in Hex as <-.
  - unfold guard in Hex. case_match; [|done]. apply some_ok_inj in Hex as <-. apply tickle_pending.
Qed.

(** ** The joint system *)

(** What one scheduler sees of a sequence of actions. *)
Definition acts_of (q : ptr) (acts : list (ptr * action)) : list action :=
  omap (fun qa : ptr * action => if decide (qa.1 = q) then Some qa.2 else None) acts.

Lemma foldl_on_sched acts m q sc :
  m !! q = Some sc -> foldl on_sched m acts !! q = Some (foldl (fun sc a => sched_act a sc) sc (acts_of q acts)).
Proof.
  revert m sc. induction acts as [|[q' a] acts IH]; intros m sc Hm; [done|]. cbn. destruct (decide (q' = q)) as [->|Hne].
  - apply IH. unfold on_sched. cbn. by rewrite lookup_alter_eq, Hm.
  - apply IH. unfold on_sched. cbn. by rewrite lookup_alter_ne.
Qed.

Lemma acts_of_ok q acts :
  Forall (fun qa => io_action qa.2 = true) acts -> Forall (fun a => io_action a = true) (acts_of q acts).
Proof.
  intros Hall. apply Forall_forall. intros a ([q' a'] & Hin & Hd)%list_elem_of_omap. cbn in Hd.
  destruct (decide (q' = q)); [|done]. injection Hd as <-. rewrite Forall_forall in Hall. exact (Hall _ Hin).
Qed.

(** The scheduler model performs the same actions as labels. *)
Lemma io_action_exec a ss :
  io_action a = true -> m_mutex (sch ss) = None ->
  exists ss', exec (LOutside a) ss = Some (Ok ss') /\ sch ss' = sched_act a (sch ss)
    /\ m_mutex (sch ss') = None /\ workers ss' = workers ss /\ fstate ss' = fstate ss.
Proof.
  intros Ha Hm. destruct a as [k| | | |n]; try done; cbn in Ha |- *; unfold guard, lock_free.
  - rewrite Ha, bool_decide_true by done. eexists. split; [reflexivity|]. cbn.
    destruct (schedule_frame k (sch ss)) as (_ & _ & -> & _). done.
  - rewrite Ha. eexists. split; [reflexivity|]. done.
Qed.

Lemma io_actions_exec acts ss :
  Forall (fun a => io_action a = true) acts -> m_mutex (sch ss) = None ->
  exists ss', exec_all (LOutside <$> acts) ss = Some (Ok ss')
    /\ sch ss' = foldl (fun sc a => sched_act a sc) (sch ss) acts
    /\ m_mutex (sch ss') = None /\ workers ss' = workers ss /\ fstate ss' = fstate ss.
Proof.
  revert ss. induction acts as [|a acts IH]; intros ss Hall Hm; [by exists ss|].
  apply Forall_cons in Hall as [Ha Hall]. destruct (io_action_exec a ss Ha Hm) as (s1 & Hx & Hs & Hm1 & Hw1 & Hf1).
  destruct (IH s1 Hall Hm1) as (s2 & Hx2 & Hs2 & Hm2 & Hw2 & Hf2). exists s2. cbn [fmap list_fmap exec_all]. rewrite Hx.
  split; [done|]. split; [by rewrite Hs2, Hs|]. split; [done|]. split; congruence.
Qed.

Section Joint.
Context {K : Type} `{EpollOps K} (interest : K -> gmap Z epoll_event) (pollable : K -> Z -> bool)
  {L : EpollLaws K interest pollable} (garbage : ptr -> Z) (no_garbage : forall p, garbage p = 0).
Implicit Type s : iom_sys K.

(** A call of an operation of the IOManager. *)
Inductive iom_op :=
| OpAdd (t : tid) (q addr : ptr) (fd e : Z) (func : option closure)
| OpDel (fd e : Z)
| OpCancel (fd e : Z)
| OpCancelAll (fd : Z)
| OpTrigger (ev : epoll_event).

Definition run_op (o : iom_op) : M (iom_sys K) bool :=
  match o with
  | OpAdd t q addr fd e func => addEvent garbage t (Some q) addr fd e func
  | OpDel fd e => delEvent fd e
  | OpCancel fd e => cancelEvent fd e
  | OpCancelAll fd => cancelAll fd
  | OpTrigger ev => scheduleEvent ev
  end.

(** Valid arguments, as in the step relation of IOManagerProps.v. *)
Definition op_ok (o : iom_op) s : Prop :=
  match o with
  | OpAdd t q addr fd e func => fd_ok fd /\ valid_ev e /\ is_Some (scheds s !! q) /\ pollable (ikern s) fd = true
  | OpDel fd e | OpCancel fd e => fd_ok fd /\ valid_ev e
  | OpCancelAll fd => fd_ok fd
  | OpTrigger ev => is_Some (contexts s !! ep_ptr ev)
  end.

Lemma op_step o b s s' : op_ok o s -> run_op o s = Ok (b, s') -> iom_step interest pollable garbage s s'.
Proof.
  destruct o as [t q addr fd e func|fd e|fd e|fd|ev]; unfold op_ok, run_op.
  - intros (? & ? & ? & ?) ?. by eapply IoAdd.
  - intros [? ?] ?. by eapply IoDel.
  - intros [? ?] ?. by eapply IoCancel.
  - intros ? ?. by eapply IoCancelAll.
  - intros ? ?. by eapply IoTrigger.
Qed.

Lemma run_op_emits o : emits (run_op o).
Proof. destruct o; cbn; auto using emits_add, emits_del, emits_cancel, emits_cancelAll, emits_scheduleEvent. Qed.

(** The scheduler part of the IOManager is the scheduler the workers run. *)
Definition coupled s (ss : Sys) : Prop := scheds s !! this_sched s = Some (sch ss).

(** The IOManager and the workers of its scheduler, together: a thread runs an
    operation, whose effect on the scheduler is a sequence of actions, or the
    scheduler makes a step of its own. *)
Inductive joint_step : iom_sys K * Sys -> iom_sys K * Sys -> Prop :=
| JIo o b acts s s' ss ss' :
    op_ok o s -> m_mutex (sch ss) = None -> run_op o s = Ok (b, s') ->
    exec_all (LOutside <$> acts) ss = Some (Ok ss') -> coupled s' ss' ->
    joint_step (s, ss) (s', ss')
| JSched l s ss ss' :
    not_pending l = true -> exec l ss = Some (Ok ss') ->
    joint_step (s, ss) (s <| scheds := <[this_sched s := sch ss']> (scheds s) |>, ss').

(** A new IOManager of [n] threads, just started. *)
Definition joint_start (n : nat) s (ss : Sys) : Prop :=
  ss = Sys_init n
  /\ exists self sc k f, IOManager_ctor garbage self sc k f = Ok (tt, s)
       /\ sc !! self = Some (sch ss) /\ interest k = ∅.

Definition joint_reachable (n : nat) s (ss : Sys) : Prop :=
  exists s0 ss0, joint_start n s0 ss0 /\ star joint_step (s0, ss0) (s, ss).

Lemma sched_rest s l ss ss' :
  coupled s ss -> not_pending l = true -> exec l ss = Some (Ok ss') ->
  rest_step interest s (s <| scheds := <[this_sched s := sch ss']> (scheds s) |>).
Proof.
  intros Hc Hn Hx. unfold rest_step, pending. cbn. rewrite lookup_insert_eq, Hc, (exec_pending l ss ss' Hn Hx).
  repeat split; try done. intros q Hq. destruct (decide (this_sched s = q)) as [->|E].
  - rewrite lookup_insert_eq. by eexists.
  - by rewrite lookup_insert_ne.
Qed.

Lemma joint_inv n s ss :
  joint_reachable n s ss ->
  coupled s ss /\ iom_reachable interest pollable garbage s /\ star sys_step (Sys_init n) ss.
Proof.
  intros (s0 & ss0 & (-> & self & sc & k & f & Hc & Hsc & Hk) & Hst).
  assert (iom_start interest garbage s0) as Hstart by (exists self, sc, k, f, (sch (Sys_init n)); auto).
  remember (s0, Sys_init n) as x0 eqn:E0. remember (s, ss) as x1 eqn:E1.
  enough (forall x y, star joint_step x y -> coupled x.1 x.2 ->
            coupled y.1 y.2 /\ star (iom_step interest pollable garbage) x.1 y.1 /\ star sys_step x.2 y.2) as Hgo.
  { destruct (Hgo _ _ Hst) as (H1 & H2 & H3).
    - subst. cbn. destruct (IOManager_ctor_inv interest garbage no_garbage self sc k f) as (s1 & Hc1 & _ & Hs1 & _ & _ & Ht1 & _).
      + by eexists.
      + intros sd Hsd. rewrite Hsc in Hsd. by injection Hsd as <-.
      + done.
      + rewrite Hc in Hc1. injection Hc1 as <-. unfold coupled. by rewrite Hs1, Ht1.
    - subst. split; [done|]. split; [by exists s0|done]. }
  clear. induction 1 as [x|x y z Hxy _ IH]; intros Hcx.
  { split; [done|]. split; constructor. }
  assert (coupled y.1 y.2 /\ iom_step interest pollable garbage x.1 y.1 /\ star sys_step x.2 y.2) as (Hcy & Hiy & Hsy).
  { destruct Hxy as [o b acts s s' ss ss' Hok Hm Hr Hx Hc'|l s ss ss' Hn Hx]; cbn in *.
    - split; [done|]. split; [by apply (op_step o b)|]. by apply (exec_all_star (LOutside <$> acts)).
    - split; [unfold coupled; cbn; apply lookup_insert_eq|]. split; [apply IoRest; by apply (sched_rest s l ss)|].
      apply star_one. by apply (SysStep l). }
  destruct (IH Hcy) as (? & ? & ?). split; [done|]. split; [by eapply star_step|by eapply star_trans].
Qed.

(** *** How many events there can be *)

Lemma contexts_size s : iom_inv interest s -> (size (contexts s) <= length (m_fd_contexts s))%nat.
Proof.
  intros Hi. rewrite <- size_dom. transitivity (size (list_to_set (omap id (m_fd_contexts s)) : gset ptr)).
  - apply subseteq_size. intros p [c Hc]%elem_of_dom. apply elem_of_list_to_set, list_elem_of_omap.
    exists (Some p). split; [|done]. destruct (in_heap _ s Hi p c Hc) as [_ Ht]. by eapply list_elem_of_lookup_2.
  - generalize (m_fd_contexts s) as l. intros l. clear. induction l as [|[p|] l IH]; cbn; [done| |lia].
    rewrite size_union_alt. assert (size ((list_to_set (omap id l) : gset ptr) ∖ {[p]}) <= size (list_to_set (omap id l) : gset ptr))%nat
      by (apply subseteq_size; set_solver).
    rewrite size_singleton. lia.
Qed.

Lemma count_in_bound (h : gmap ptr FdContext) : 0 <= count_in h <= 2 * Z.of_nat (size h).
Proof.
  induction h as [|p c h Hn IH] using map_ind; [done|]. rewrite count_in_insert, map_size_insert_None by done.
  unfold armed_count, IOManagerInv.b2z. destruct (armed c READ), (armed c WRITE); lia.
Qed.

Lemma count_in_zero (h : gmap ptr FdContext) p c : count_in h = 0 -> h !! p = Some c -> armed_count c = 0.
Proof.
  intros Hz Hp. rewrite <- (insert_delete_id h p c Hp), count_in_insert in Hz by apply lookup_delete_eq.
  pose proof (count_in_bound (delete p h)).
  assert (0 <= armed_count c) by (unfold armed_count, IOManagerInv.b2z; destruct (armed c READ), (armed c WRITE); lia). lia.
Qed.


End Joint.

(** ** Witnesses *)

(** A new IOManager with one worker, and READ registered for descriptor 3. *)
Definition jd_sys : Sys := Sys_init 1.
Definition jd_iom : iom_sys sim_kernel :=
  match IOManager_ctor zeroed 1%nat {[1%nat := sch jd_sys]} demo_sim fiber_sys_init with
  | Ok (_, s) => s
  | _ => demo_iom
  end.
Definition jd_add : iom_op := OpAdd 1%nat 1%nat 9%nat 3 READ (Some (User 7)).
Definition jd_armed : iom_sys sim_kernel := run_state (run_op zeroed jd_add) jd_iom.
Definition jd_armed_sys : Sys :=
  match exec_all [LOutside (APending 1)] jd_sys with Some (Ok ss) => ss | _ => jd_sys end.

Lemma jd_add_ok : run_op zeroed jd_add jd_iom = Ok (true, jd_armed).
Proof. vm_compute. reflexivity. Qed.
Lemma jd_sched : scheds jd_iom !! 1%nat = Some (sch jd_sys).
Proof. vm_compute. reflexivity. Qed.
Lemma jd_armed_coupled : coupled jd_armed jd_armed_sys.
Proof. vm_compute. reflexivity. Qed.
Lemma jd_armed_reg : reg jd_armed 3 READ = Some (mkEventContext (Some 1%nat) None (Some (User 7))).
Proof. vm_compute. reflexivity. Qed.
Lemma jd_op_ok : op_ok sim_pollable jd_add jd_iom.
Proof.
  split; [exact demo_fd3|]. split; [exact READ_valid|]. split; [apply demo_live; vm_compute; reflexivity|].
  vm_compute. reflexivity.
Qed.
Lemma jd_reachable : joint_reachable sim_interest sim_pollable zeroed 1 jd_armed jd_armed_sys.
Proof.
  exists jd_iom, jd_sys. split.
  - split; [reflexivity|]. exists 1%nat, {[1%nat := sch jd_sys]}, demo_sim, fiber_sys_init.
    split; [vm_compute; reflexivity|]. split; reflexivity.
  - apply star_one. exact (JIo sim_pollable zeroed jd_add true [APending 1] jd_iom jd_armed jd_sys jd_armed_sys
      jd_op_ok eq_refl jd_add_ok eq_refl jd_armed_coupled).
Qed.


