(* ===== verification/Hook.v ===== *)
(** * Hooked system calls (src/src/hook.h, src/src/hook.cpp)

    The library's replacements of [sleep], [read], [connect], [close], [fcntl]
    and the rest.  They work on the descriptor table of FdManager.v, the
    IOManager of IOManager.v with its scheduler's timers, the fibers of Fiber.v
    and one kernel, all in one state.  A call that suspends its fiber is split
    where [Fiber::Yield] switches away: the part up to the [Yield] returns the
    wait, and the part behind it runs when the fiber is called again.
    [timer_info] objects live while the call that made them does, which is what
    the weak pointers in the timeout closures observe.  [errno] is the calling
    thread's; it is followed through the original functions behind [LibcOps],
    after which the code reads it, and not through [fcntl] and [epoll_ctl]. *)

From S2P Require Import Prelude Timer Fiber Scheduler Posix FdManager IOManager.

(** The thread-local state a call sees: its thread, [t_hooked] and
    [Scheduler::GetThis()]. *)
Record env := mkEnv {
  e_tid : tid;
  t_hooked : bool;
  e_sched : option ptr;
}.
#[export] Instance eta_env : Eta env := fun e => mkEnv (e_tid e) (t_hooked e) (e_sched e).

(** [is_hooked] and [set_hook] *)
Definition is_hooked (e : env) : bool := t_hooked e.
Definition set_hook (flag : bool) (e : env) : env := e <| t_hooked := flag |>.

(** Where the objects a call creates are allocated. *)
Record addrs := mkAddrs {
  a_info : ptr;      (* timer_info *)
  a_timer : ptr;     (* Timer *)
  a_ctx : ptr;       (* FdCtx *)
  a_fiber : ptr;     (* main fiber, if Fiber::GetThis creates one *)
}.

Record hook_sys (K : Type) := mkHook {
  h_errno : Z;
  h_datas : list (option ptr);        (* FdMgr: m_datas *)
  h_fdctxs : gmap ptr FdCtx;          (* FdMgr: the contexts *)
  h_iom : iom_sys K;                  (* the IOManager, its schedulers, fibers and kernel *)
  tinfos : gmap ptr Z;                (* live timer_info objects: cancelled *)
}.
Arguments mkHook {K}.
Arguments h_errno {K}.
Arguments h_datas {K}.
Arguments h_fdctxs {K}.
Arguments h_iom {K}.
Arguments tinfos {K}.
#[export] Instance eta_hook_sys K : Eta (hook_sys K) := fun h =>
  mkHook (h_errno h) (h_datas h) (h_fdctxs h) (h_iom h) (tinfos h).

(** How a call ends, for now. *)
Inductive io_outcome :=
| IoDone (n : Z)                                        (* returned n *)
| IoWait (timer : option ptr) (switch : option resume)  (* inside Fiber::Yield *)
| IoFuel.                                               (* the fuel of the EINTR loop is used up *)

Section Hook.
Context {K : Type} `{FileOps K} `{EpollOps K} `{LibcOps K} (garbage : ptr -> Z).

(** ** The components inside the state *)

Definition fdm_of (h : hook_sys K) : fd_sys K := mkFdSys (h_datas h) (h_fdctxs h) (ikern (h_iom h)).
Definition fdm_put (f : fd_sys K) (h : hook_sys K) : hook_sys K :=
  h <| h_datas := m_datas f |> <| h_fdctxs := fdctxs f |>
    <| h_iom := (h_iom h) <| ikern := fkern f |> |>.
Definition on_fdm {A} (m : M (fd_sys K) A) : M (hook_sys K) A := mzoom fdm_of fdm_put m.
Definition on_iom {A} (m : M (iom_sys K) A) : M (hook_sys K) A :=
  mzoom h_iom (fun i h => h <| h_iom := i |>) m.
Definition on_fibers {A} (m : M fiber_sys A) : M (hook_sys K) A :=
  on_iom (mzoom fsys (fun f i => i <| fsys := f |>) m).

(** A call of the C library. *)
Definition libc (c : libc_call) : M (hook_sys K) libc_res :=
  let! r := mkern (fun h => ikern (h_iom h)) (fun k h => h <| h_iom := (h_iom h) <| ikern := k |> |>) (k_libc c) in
  (if lr_ret r =? -1 then mmodify (fun h => h <| h_errno := lr_errno r |>) else mret_M tt) ;;;
  mret_M r.

Definition libc_ret (c : libc_call) : M (hook_sys K) Z := let! r := libc c in mret_M (lr_ret r).

Definition fcntl_f (fd cmd : Z) (arg : option Z) : M (hook_sys K) Z :=
  mkern (fun h => ikern (h_iom h)) (fun k h => h <| h_iom := (h_iom h) <| ikern := k |> |>) (k_fcntl fd cmd arg).

(** [FdMgr::Get()->get(fd)] and [->get(fd, true)] *)
Definition fd_get (fd : Z) (auto_create : bool) (a : ptr) : M (hook_sys K) (option ptr) :=
  on_fdm (get fd auto_create a).

Definition fd_ctx (p : ptr) : M (hook_sys K) FdCtx := mderef "FdCtx::ptr" (fun h => h_fdctxs h !! p).

(** [IOManager::GetThis()]: the thread's scheduler, if it is the IOManager. *)
Definition iom_GetThis (e : env) (h : hook_sys K) : bool :=
  bool_decide (e_sched e = Some (this_sched (h_iom h))).

(** [iom->addTimer(period, f)] on the scheduler part of the IOManager. *)
Definition iom_addTimer (site : string) (e : env) (addr : ptr) (now period : Z) (f : closure)
    : M (hook_sys K) ptr :=
  let! h := mget in
  if negb (iom_GetThis e h) then mfail (Undefined site)
  else
    let! sc := mderef site (fun h => scheds (h_iom h) !! this_sched (h_iom h)) in
    let '(p, sc') := sched_addTimer addr now period f false sc in
    mmodify (fun h => h <| h_iom := (h_iom h)
      <| scheds := <[this_sched (h_iom h) := sc']> (scheds (h_iom h)) |> |>) ;;;
    mret_M p.

(** [iom->addConditionTimer(ms, cb, winfo)] *)
Definition iom_addConditionTimer (site : string) (e : env) (addr : ptr) (now ms : Z) (cb : closure) (winfo : ptr)
    : M (hook_sys K) ptr :=
  iom_addTimer site e addr now ms (OnTimerBind winfo cb).

(** [if(timer) { timer->cancel(); }] *)
Definition cancel_timer (timer : option ptr) : M (hook_sys K) unit :=
  match timer with
  | None => mret_M tt
  | Some p =>
      let! sc := mderef "timer->cancel" (fun h => scheds (h_iom h) !! this_sched (h_iom h)) in
      let '(_, tm) := cancel p (base sc) in
      mmodify (fun h => h <| h_iom := (h_iom h)
        <| scheds := <[this_sched (h_iom h) := sc <| base := tm |>]> (scheds (h_iom h)) |> |>)
  end.

(** [iom->addEvent(fd, event)]: no function, so the current fiber. *)
Definition iom_addEvent (site : string) (e : env) (a : ptr) (fd event : Z) : M (hook_sys K) bool :=
  let! h := mget in
  if negb (iom_GetThis e h) then mfail (Undefined site)
  else on_iom (addEvent garbage (e_tid e) (e_sched e) a fd event None).

(** ** Sleeping *)

(** The common body of the sleep family: arm a timer that schedules this fiber,
    then yield; the result is what [Yield] did. *)
Definition sleep_ms (site : string) (e : env) (a : addrs) (now ms : Z) : M (hook_sys K) (option resume) :=
  let! fiber := on_fibers (GetThis (e_tid e) (a_fiber a)) in
  let! _ := iom_addTimer site e (a_timer a) now ms (ScheduleFiber fiber) in
  on_fibers (Yield (e_tid e)).

(** Either the C library's result or, hooked, the switch; the hooked call
    returns 0 when it is resumed. *)
Definition sleep_ret := (Z + option resume)%type.

(** The period each call passes to [addTimer], a [uint64_t]. *)
Definition sleep_period (seconds : Z) : Z := u32 (seconds * 1000).
Definition usleep_period (usec : Z) : Z := Z.quot usec 1000.
Definition nanosleep_period (tv_sec tv_nsec : Z) : Z :=
  u64 (i32 (tv_sec * 1000 + Z.quot (Z.quot tv_nsec 1000) 1000)).

(** [sleep] *)
Definition sleep (e : env) (a : addrs) (now seconds : Z) : M (hook_sys K) sleep_ret :=
  if negb (t_hooked e) then let! n := libc_ret (LSleep seconds) in mret_M (inl n)
  else let! r := sleep_ms "hook.cpp:148" e a now (sleep_period seconds) in mret_M (inr r).

(** [usleep] *)
Definition usleep (e : env) (a : addrs) (now usec : Z) : M (hook_sys K) sleep_ret :=
  if negb (t_hooked e) then let! n := libc_ret (LUsleep usec) in mret_M (inl n)
  else let! r := sleep_ms "hook.cpp:166" e a now (usleep_period usec) in mret_M (inr r).

(** [nanosleep] *)
Definition nanosleep (e : env) (a : addrs) (now tv_sec tv_nsec : Z) : M (hook_sys K) sleep_ret :=
  if negb (t_hooked e) then let! n := libc_ret (LNanosleep tv_sec tv_nsec) in mret_M (inl n)
  else let! r := sleep_ms "hook.cpp:186" e a now (nanosleep_period tv_sec tv_nsec) in mret_M (inr r).

(** Behind the [Yield] of each of them. *)
Definition sleep_resume : M (hook_sys K) Z := mret_M 0.

(** ** do_io *)

(** The first call and the [while] loop over EINTR. *)
Fixpoint io_eintr (fuel : nat) (fn : io_fun) (fd : Z) (args : nat) : M (hook_sys K) (option Z) :=
  match fuel with
  | O => mret_M None
  | S fuel =>
      let! n := libc_ret (LIo fn fd args) in
      let! h := mget in
      if (n =? -1) && (h_errno h =? EINTR) then io_eintr fuel fn fd args else mret_M (Some n)
  end.

(** [tinfo] leaves its scope when the call returns. *)
Definition release (tinfo : ptr) (o : io_outcome) : M (hook_sys K) io_outcome :=
  match o with
  | IoDone _ => mmodify (fun h => h <| tinfos := delete tinfo (tinfos h) |>)
  | _ => mret_M tt
  end ;;;
  mret_M o.

(** The timer of a wait, if the descriptor has a timeout. *)
Definition io_timer (site : string) (e : env) (a : addrs) (now to : Z) (tinfo : ptr) (fd event : Z)
    : M (hook_sys K) (option ptr) :=
  if negb (to =? u64_max) then
    let! p := iom_addConditionTimer site e (a_timer a) now to (OnTimeout tinfo fd event) tinfo in
    mret_M (Some p)
  else mret_M None.

(** From the label [retry] to the [Yield] or a return. *)
Definition do_io_retry (fuel : nat) (e : env) (a : addrs) (now : Z) (tinfo : ptr) (to : Z)
    (fn : io_fun) (fd event : Z) (args : nat) : M (hook_sys K) io_outcome :=
  let! r := io_eintr fuel fn fd args in
  match r with
  | None => mret_M IoFuel
  | Some n =>
      let! h := mget in
      if (n =? -1) && (h_errno h =? EAGAIN) then
        let! timer := io_timer "hook.cpp:99" e a now to tinfo fd event in
        let! rt := iom_addEvent "hook.cpp:109" e (a_fiber a) fd event in
        if negb rt then
          cancel_timer timer ;;;
          release tinfo (IoDone (-1))
        else
          let! sw := on_fibers (Yield (e_tid e)) in
          mret_M (IoWait timer sw)
      else release tinfo (IoDone n)
  end.

(** Behind the [Yield]. *)
Definition do_io_resume (fuel : nat) (e : env) (a : addrs) (now : Z) (tinfo : ptr) (to : Z) (timer : option ptr)
    (fn : io_fun) (fd event : Z) (args : nat) : M (hook_sys K) io_outcome :=
  cancel_timer timer ;;;
  let! cancelled := mderef "hook.cpp:122" (fun h => tinfos h !! tinfo) in
  if truthy cancelled then
    mmodify (fun h => h <| h_errno := cancelled |>) ;;;
    release tinfo (IoDone (-1))
  else do_io_retry fuel e a now tinfo to fn fd event args.

(** [do_io] up to its first [Yield]. *)
Definition do_io (fuel : nat) (e : env) (a : addrs) (now : Z) (fn : io_fun) (fd event timeout_so : Z) (args : nat)
    : M (hook_sys K) io_outcome :=
  if negb (t_hooked e) then let! n := libc_ret (LIo fn fd args) in mret_M (IoDone n)
  else
    let! ctx := fd_get fd false (a_ctx a) in
    match ctx with
    | None => let! n := libc_ret (LIo fn fd args) in mret_M (IoDone n)
    | Some p =>
        let! c := fd_ctx p in
        if m_isClosed c then
          mmodify (fun h => h <| h_errno := EBADF |>) ;;; mret_M (IoDone (-1))
        else if negb (m_isSocket c) || m_userNonblock c then
          let! n := libc_ret (LIo fn fd args) in mret_M (IoDone n)
        else
          mmodify (fun h => h <| tinfos := <[a_info a := 0]> (tinfos h) |>) ;;;
          do_io_retry fuel e a now (a_info a) (getTimeout timeout_so c) fn fd event args
    end.

(** The event and the timeout option each hooked call passes to [do_io]. *)
Definition io_event (fn : io_fun) : Z :=
  match fn with
  | accept_f | read_f | readv_f | recv_f | recvfrom_f | recvmsg_f => READ
  | write_f | writev_f | send_f | sendto_f | sendmsg_f => WRITE
  end.
Definition io_timeout_so (fn : io_fun) : Z := if io_event fn =? READ then SO_RCVTIMEO else SO_SNDTIMEO.

(** [read], [readv], [recv], ..., [sendmsg], and the call inside [accept]. *)
Definition hooked_io (fuel : nat) (e : env) (a : addrs) (now : Z) (fn : io_fun) (fd : Z) (args : nat)
    : M (hook_sys K) io_outcome :=
  do_io fuel e a now fn fd (io_event fn) (io_timeout_so fn) args.

(** [accept] behind [do_io]: the new descriptor gets a context. *)
Definition accept_finish (a : addrs) (fd : Z) : M (hook_sys K) Z :=
  (if fd >=? 0 then let! _ := fd_get fd true (a_ctx a) in mret_M tt else mret_M tt) ;;;
  mret_M fd.

(** [accept], up to the [Yield] of its [do_io]. *)
Definition accept (fuel : nat) (e : env) (a : addrs) (now : Z) (s : Z) (args : nat) : M (hook_sys K) io_outcome :=
  let! o := hooked_io fuel e a now accept_f s args in
  match o with
  | IoDone fd => let! n := accept_finish a fd in mret_M (IoDone n)
  | _ => mret_M o
  end.

(** ** Timeouts *)

(** The body of the timeout closures, when the scheduler runs them. *)
Definition on_timeout (winfo : ptr) (fd event : Z) : M (hook_sys K) unit :=
  let! h := mget in
  match tinfos h !! winfo with
  | None => mret_M tt
  | Some cancelled =>
      if truthy cancelled then mret_M tt
      else
        mmodify (fun h => h <| tinfos := <[winfo := ETIMEDOUT]> (tinfos h) |>) ;;;
        let! _ := on_iom (cancelEvent fd event) in
        mret_M tt
  end.

(** What the closures of the library do when they run as tasks; a client's
    function is not the library's. *)
Fixpoint run_closure (c : closure) : M (hook_sys K) unit :=
  match c with
  | OnTimerBind weak_cond cb =>
      let! h := mget in
      if bool_decide (is_Some (tinfos h !! weak_cond)) then run_closure cb else mret_M tt
  | OnTimeout winfo fd event => on_timeout winfo fd event
  | ScheduleFiber fb =>
      mmodify (fun h => h <| h_iom := (h_iom h)
        <| scheds := alter (schedule (Task_fiber fb (-1))) (this_sched (h_iom h)) (scheds (h_iom h)) |> |>)
  | User _ | IdleLoop => mret_M tt
  end.

(** ** Sockets *)

(** [socket] *)
Definition socket (e : env) (a : addrs) (domain type protocol : Z) : M (hook_sys K) Z :=
  let! fd := libc_ret (LSocket domain type protocol) in
  if negb (t_hooked e) then mret_M fd
  else if fd =? -1 then mret_M fd
  else
    let! _ := fd_get fd true (a_ctx a) in
    mret_M fd.

(** The end of [connect_with_timeout]: SO_ERROR, read with the hooked
    [getsockopt], which passes on. *)
Definition connect_error (fd : Z) : M (hook_sys K) Z :=
  let! r := libc (LGetsockopt fd SOL_SOCKET SO_ERROR) in
  if lr_ret r =? -1 then mret_M (-1)
  else if lr_out r =? 0 then mret_M 0
  else mmodify (fun h => h <| h_errno := lr_out r |>) ;;; mret_M (-1).

(** [connect_with_timeout] up to its [Yield]. *)
Definition connect_with_timeout (e : env) (a : addrs) (now : Z) (fd : Z) (addr : nat) (timeout_ms : Z)
    : M (hook_sys K) io_outcome :=
  if negb (t_hooked e) then let! n := libc_ret (LConnect fd addr) in mret_M (IoDone n)
  else
    let! ctx := fd_get fd false (a_ctx a) in
    match ctx with
    | None => mmodify (fun h => h <| h_errno := EBADF |>) ;;; mret_M (IoDone (-1))
    | Some p =>
        let! c := fd_ctx p in
        if m_isClosed c then mmodify (fun h => h <| h_errno := EBADF |>) ;;; mret_M (IoDone (-1))
        else if negb (m_isSocket c) then let! n := libc_ret (LConnect fd addr) in mret_M (IoDone n)
        else if m_userNonblock c then let! n := libc_ret (LConnect fd addr) in mret_M (IoDone n)
        else
          let! n := libc_ret (LConnect fd addr) in
          let! h := mget in
          if n =? 0 then mret_M (IoDone 0)
          else if negb (n =? -1) || negb (h_errno h =? EINPROGRESS) then mret_M (IoDone n)
          else
            mmodify (fun h => h <| tinfos := <[a_info a := 0]> (tinfos h) |>) ;;;
            let! timer := io_timer "hook.cpp:235" e a now timeout_ms (a_info a) fd WRITE in
            let! rt := iom_addEvent "hook.cpp:245" e (a_fiber a) fd WRITE in
            if (rt : bool) then
              let! sw := on_fibers (Yield (e_tid e)) in
              mret_M (IoWait timer sw)
            else
              cancel_timer timer ;;;
              let! n := connect_error fd in
              release (a_info a) (IoDone n)
    end.

(** [connect_with_timeout] behind its [Yield]. *)
Definition connect_resume (tinfo : ptr) (timer : option ptr) (fd : Z) : M (hook_sys K) io_outcome :=
  cancel_timer timer ;;;
  let! cancelled := mderef "hook.cpp:251" (fun h => tinfos h !! tinfo) in
  if truthy cancelled then
    mmodify (fun h => h <| h_errno := cancelled |>) ;;; release tinfo (IoDone (-1))
  else
    let! n := connect_error fd in release tinfo (IoDone n).

Definition s_connect_timeout : Z := 5000.

(** [connect] *)
Definition connect (e : env) (a : addrs) (now : Z) (fd : Z) (addr : nat) : M (hook_sys K) io_outcome :=
  connect_with_timeout e a now fd addr s_connect_timeout.

(** [close] *)
Definition close (e : env) (a : addrs) (fd : Z) : M (hook_sys K) Z :=
  if negb (t_hooked e) then libc_ret (LClose fd)
  else
    let! ctx := fd_get fd false (a_ctx a) in
    (match ctx with
     | None => mret_M tt
     | Some _ =>
         let! h := mget in
         (if iom_GetThis e h then let! _ := on_iom (cancelAll fd) in mret_M tt else mret_M tt) ;;;
         on_fdm (del fd)
     end) ;;;
    libc_ret (LClose fd).

(** ** Descriptor flags and options *)

(** How [fcntl] reads its variadic argument, by command. *)
Inductive fcntl_kind := FSetfl | FGetfl | FIntArg | FNoArg | FPtrArg.
Definition fcntl_kind_of (cmd : Z) : fcntl_kind :=
  if cmd =? F_SETFL then FSetfl
  else if cmd =? F_GETFL then FGetfl
  else if bool_decide (cmd ∈ [0; 1030; 2; 8; 10; 1024; 1026; 1031]) then FIntArg
  else if bool_decide (cmd ∈ [1; 9; 11; 1025; 1032]) then FNoArg
  else if bool_decide (cmd ∈ [6; 7; 5; 16; 15]) then FPtrArg
  else FNoArg.

(** [!ctx || ctx->isClose() || !ctx->isSocket()] on a context that exists. *)
Definition not_ours (c : FdCtx) : bool := m_isClosed c || negb (m_isSocket c).

(** [fcntl]; [arg] is the variadic argument. *)
Definition fcntl (a : addrs) (fd cmd arg : Z) : M (hook_sys K) Z :=
  match fcntl_kind_of cmd with
  | FSetfl =>
      let! ctx := fd_get fd false (a_ctx a) in
      match ctx with
      | None => fcntl_f fd cmd (Some arg)
      | Some p =>
          let! c := fd_ctx p in
          if not_ours c then fcntl_f fd cmd (Some arg)
          else
            on_fdm (with_ctx p (setUserNonblock (nonblocking arg))) ;;;
            let! c := fd_ctx p in
            let arg := if m_sysNonblock c then Z.lor arg O_NONBLOCK else Z.land arg (Z.lnot O_NONBLOCK) in
            fcntl_f fd cmd (Some arg)
      end
  | FGetfl =>
      let! arg := fcntl_f fd cmd None in
      let! ctx := fd_get fd false (a_ctx a) in
      match ctx with
      | None => mret_M arg
      | Some p =>
          let! c := fd_ctx p in
          if not_ours c then mret_M arg
          else if m_userNonblock c then mret_M (Z.lor arg O_NONBLOCK)
          else mret_M (Z.land arg (Z.lnot O_NONBLOCK))
      end
  | FIntArg | FPtrArg => fcntl_f fd cmd (Some arg)
  | FNoArg => fcntl_f fd cmd None
  end.

(** [ioctl]; [arg] is the [int] its pointer argument points to. *)
Definition ioctl (a : addrs) (d request arg : Z) : M (hook_sys K) Z :=
  (if request =? FIONBIO then
     let! ctx := fd_get d false (a_ctx a) in
     match ctx with
     | None => mret_M tt
     | Some p =>
         let! c := fd_ctx p in
         if not_ours c then mret_M tt
         else on_fdm (with_ctx p (setUserNonblock (truthy arg)))
     end
   else mret_M tt) ;;;
  libc_ret (LIoctl d request arg).

(** [getsockopt] *)
Definition getsockopt (fd level optname : Z) : M (hook_sys K) libc_res := libc (LGetsockopt fd level optname).

(** [setsockopt] with a [timeval] behind the pointer. *)
Definition timeval_ms (tv_sec tv_usec : Z) : Z := u64 (tv_sec * 1000 + Z.quot tv_usec 1000).

Definition setsockopt (e : env) (a : addrs) (fd level optname tv_sec tv_usec : Z) : M (hook_sys K) Z :=
  (if t_hooked e && (level =? SOL_SOCKET) && ((optname =? SO_RCVTIMEO) || (optname =? SO_SNDTIMEO)) then
     let! ctx := fd_get fd false (a_ctx a) in
     match ctx with
     | None => mret_M tt
     | Some p => on_fdm (with_ctx p (setTimeout optname (timeval_ms tv_sec tv_usec)))
     end
   else mret_M tt) ;;;
  libc_ret (LSetsockopt fd level optname tv_sec tv_usec).

End Hook.
