(* ===== verification/HookProps.v ===== *)
(** * Properties of the hooked calls

    [hook_ok] puts the invariants of the components together.  A hooked call on
    a fiber either is the C library's call, or suspends the fiber with exactly
    its wake-ups armed; what the wake-ups do, and what the call returns when it
    is resumed, is followed through the timers, the IOManager and the fibers. *)

From S2P Require Import Prelude Timer Fiber Scheduler SchedulerThreads Posix FdManager IOManager IOManagerInv IOManagerProps Hook.

Section HookProps.
Context {K : Type} {FO : FileOps K} {EO : EpollOps K} {LO : LibcOps K}
  (interest : K -> gmap Z epoll_event) (pollable : K -> Z -> bool)
  {L : EpollLaws K interest pollable} {LE : LibcEpollLaws K interest pollable}
  (garbage : ptr -> Z) (no_garbage : forall p, garbage p = 0).
Implicit Type h : hook_sys K.

Record hook_ok h : Prop := {
  ho_fd : fd_inv (fdm_of h);
  ho_iom : iom_inv interest (h_iom h);
  ho_fiber : fiber_inv (fsys (h_iom h));
  ho_timers : forall sc, scheds (h_iom h) !! this_sched (h_iom h) = Some sc -> timers_wf (base sc);
}.

(** The armed timers of the IOManager. *)
Definition timers h : gmap ptr Z :=
  match scheds (h_iom h) !! this_sched (h_iom h) with Some sc => deadlines (base sc) | None => ∅ end.

(** A timer object of the IOManager. *)
Definition timer_object h (q : ptr) : option Timer :=
  scheds (h_iom h) !! this_sched (h_iom h) ≫= fun sc => timer_heap (base sc) !! q.

(** The call runs in the client fiber [p] of a worker thread of the IOManager. *)
Record in_worker (e : env) h (m p : ptr) : Prop := {
  iw_hooked : t_hooked e = true;
  iw_sched : e_sched e = Some (this_sched (h_iom h));
  iw_main : t_main_fiber (tls_of (fsys (h_iom h)) (e_tid e)) = Some m;
  iw_running : running (tls_of (fsys (h_iom h)) (e_tid e)) = Some p;
  iw_client : p <> m;
}.

(** An address no timer object of the IOManager uses. *)
Definition fresh_timer h (q : ptr) : Prop :=
  forall sc, scheds (h_iom h) !! this_sched (h_iom h) = Some sc -> timer_heap (base sc) !! q = None.

(** ** The steps of a call *)

Lemma fdm_id h : fdm_put (fdm_of h) h = h.
Proof. destruct h as [? ? ? [] ?]. reflexivity. Qed.

Lemma get_lookup (s : fd_sys K) fd a : fd_inv s -> fd_ok fd -> get fd false a s = Ok (fd_table s fd, s).
Proof.
  intros Hi Hfd. unfold get. rewrite (proj2 (Z.eqb_neq fd (-1))) by (destruct Hfd; lia).
  munfold. by rewrite get_read_eq.
Qed.

Lemma fd_get_eq h fd a : hook_ok h -> fd_ok fd -> fd_get fd false a h = Ok (fd_table (fdm_of h) fd, h).
Proof.
  intros Hh Hfd. unfold fd_get, on_fdm. munfold. rewrite get_lookup by (apply Hh || done). by rewrite fdm_id.
Qed.

Definition after_libc (r : libc_res) (k' : K) h : hook_sys K :=
  let h := h <| h_iom := (h_iom h) <| ikern := k' |> |> in
  if lr_ret r =? -1 then h <| h_errno := lr_errno r |> else h.

Lemma libc_eq c h r k' : k_libc c (ikern (h_iom h)) = (r, k') -> libc c h = Ok (r, after_libc r k' h).
Proof.
  intros Hk. unfold libc, mkern, after_libc. munfold. rewrite Hk. by destruct (lr_ret r =? -1).
Qed.

Lemma libc_ret_eq c h r k' :
  k_libc c (ikern (h_iom h)) = (r, k') -> libc_ret c h = Ok (lr_ret r, after_libc r k' h).
Proof. intros Hk. unfold libc_ret. munfold. by rewrite (libc_eq c h r k'). Qed.

(** What [after_libc] and [with_sched] keep. *)
Definition with_sched (sc : Scheduler) h : hook_sys K :=
  h <| h_iom := (h_iom h) <| scheds := <[this_sched (h_iom h) := sc]> (scheds (h_iom h)) |> |>.

Lemma with_sched_ok h sc sc' :
  hook_ok h -> scheds (h_iom h) !! this_sched (h_iom h) = Some sc ->
  m_pending_count sc' = m_pending_count sc -> timers_wf (base sc') -> hook_ok (with_sched sc' h).
Proof.
  intros [H1 H2 H3 H4] Hs Hp Hwf. split.
  - exact H1.
  - apply (rest_step_inv interest _ _ H2). split; [done|]. do 3 (split; [done|]). split.
    + unfold pending. cbn. by rewrite lookup_insert_eq, Hs.
    + intros q Hq. cbn. rewrite lookup_insert. case_decide; [by eexists|done].
  - exact H3.
  - intros sc0. cbn. rewrite lookup_insert_eq. by intros [= <-].
Qed.

Lemma after_io_ok h fn fd args r k' :
  hook_ok h -> k_libc (LIo fn fd args) (ikern (h_iom h)) = (r, k') -> hook_ok (after_libc r k' h).
Proof.
  intros [H1 H2 H3 H4] Hk. destruct (io_keeps _ _ _ _ _ _ Hk) as [Hin _].
  assert (iom_inv interest ((h_iom h) <| ikern := k' |>)) as H2'.
  { apply (rest_step_inv interest _ _ H2). do 3 (split; [done|]). split; [exact Hin|]. by split. }
  assert (fd_inv (mkFdSys (h_datas h) (h_fdctxs h) k')) as H1' by (destruct H1; by split).
  unfold after_libc. destruct (lr_ret r =? -1); by split.
Qed.

Lemma iom_GetThis_eq e h m p : in_worker e h m p -> iom_GetThis e h = true.
Proof. intros Hw. unfold iom_GetThis. apply bool_decide_true, (iw_sched _ _ _ _ Hw). Qed.

Lemma sched_live h : hook_ok h -> exists sc, scheds (h_iom h) !! this_sched (h_iom h) = Some sc.
Proof. intros Hh. apply (in_self _ _ (ho_iom h Hh)). Qed.

Lemma sched_addTimer_pending addr now period f r sc :
  (sched_addTimer addr now period f r sc).1 = addr
  /\ m_pending_count (sched_addTimer addr now period f r sc).2 = m_pending_count sc.
Proof.
  unfold sched_addTimer, addTimer. destruct (addTimer_ptr _ _) as [changed tm]. cbn.
  destruct changed; [|done]. unfold onFirstTimerChanged, tickle. by case_match.
Qed.

(** Arming a timer. *)
Lemma iom_addTimer_spec site e h m p q now period f :
  hook_ok h -> in_worker e h m p -> fresh_timer h q ->
  exists sc', iom_addTimer site e q now period f h = Ok (q, with_sched sc' h)
    /\ hook_ok (with_sched sc' h)
    /\ timers (with_sched sc' h) = <[q := u64 (now + period)]> (timers h)
    /\ timer_object (with_sched sc' h) q = Some (new_Timer now period f false).
Proof.
  intros Hh Hw Hq. destruct (sched_live h Hh) as [sc Hs]. pose proof (ho_timers h Hh sc Hs) as Hwf.
  destruct (sched_addTimer_pending q now period f false sc) as [H1 H2].
  destruct (sched_addTimer_frame q now period f false sc) as (_ & _ & _ & _ & Hb & _).
  exists (sched_addTimer q now period f false sc).2. split; [|split; [|split]].
  - unfold iom_addTimer. munfold. rewrite (iom_GetThis_eq e h m p Hw). cbn [negb]. rewrite Hs.
    destruct (sched_addTimer q now period f false sc) as [q' sc']. cbn in *. by subst.
  - apply (with_sched_ok h sc); [done..|]. rewrite Hb. apply addTimer_wf; auto.
  - unfold timers. cbn. rewrite lookup_insert_eq, Hs, Hb. apply addTimer_deadlines; auto.
  - unfold timer_object. cbn. rewrite lookup_insert_eq. cbn. rewrite Hb. apply lookup_insert_eq.
Qed.

Lemma io_timer_spec site e h m p a now to tinfo fd ev :
  hook_ok h -> in_worker e h m p -> fresh_timer h (a_timer a) ->
  exists h1, io_timer site e a now to tinfo fd ev h
      = Ok (if to =? u64_max then None else Some (a_timer a), h1)
    /\ hook_ok h1 /\ (h1 = h \/ exists sc', h1 = with_sched sc' h)
    /\ timers h1 = (if to =? u64_max then timers h else <[a_timer a := u64 (now + to)]> (timers h))
    /\ (to <> u64_max -> timer_object h1 (a_timer a)
          = Some (new_Timer now to (OnTimerBind tinfo (OnTimeout tinfo fd ev)) false)).
Proof.
  intros Hh Hw Hq. unfold io_timer. destruct (Z.eqb_spec to u64_max); cbn [negb].
  - exists h. split; [done|]. split; [done|]. split; [by left|done].
  - destruct (iom_addTimer_spec site e h m p (a_timer a) now to (OnTimerBind tinfo (OnTimeout tinfo fd ev)) Hh Hw Hq)
      as (sc' & He & Hok & Ht & Hobj).
    exists (with_sched sc' h). unfold iom_addConditionTimer. munfold. rewrite He.
    split; [done|]. split; [done|]. split; [by right; eexists|done].
Qed.

(** The fiber of the thread, and its [Yield]. *)
Lemma worker_fiber e h m p :
  hook_ok h -> in_worker e h m p ->
  exists f fm, tls_of (fsys (h_iom h)) (e_tid e) = mkTLS (Some p) (Some m) (Some p)
    /\ is_main_fiber (fibers (fsys (h_iom h))) m fm /\ fibers (fsys (h_iom h)) !! p = Some f
    /\ m_main f = false /\ m_state f = RUNNING /\ ctx_of (m_ctx fm) = m /\ resume_at (m_ctx fm) = RCall.
Proof.
  intros Hh [_ _ Hm Hr Hne]. pose proof (ho_fiber h Hh) as Hi.
  assert (t_fiber (tls_of (fsys (h_iom h)) (e_tid e)) <> t_main_fiber (tls_of (fsys (h_iom h)) (e_tid e))) as Hd.
  { pose proof (inv_thread _ Hi (e_tid e)) as [? _]. congruence. }
  destruct (at_fiber _ _ Hi Hd) as (m' & p' & f & fm & Ht & Hfm & Hf & _ & Hmf & Hst & Hc & Hre).
  rewrite Ht in Hm, Hr. injection Hm as ->. injection Hr as ->. exists f, fm. done.
Qed.

Lemma worker_GetThis e h m p a :
  hook_ok h -> in_worker e h m p -> GetThis (e_tid e) a (fsys (h_iom h)) = Ok (p, fsys (h_iom h)).
Proof.
  intros Hh Hw. destruct (worker_fiber e h m p Hh Hw) as (f & fm & Ht & _).
  unfold GetThis. munfold. rewrite Ht. cbn. rewrite Ht. done.
Qed.

Definition yielded e h m p : hook_sys K :=
  h <| h_iom := (h_iom h) <| fsys := switch_out (e_tid e) m p SUSPEND RBody (fsys (h_iom h)) |> |>.

Lemma worker_Yield e h m p :
  hook_ok h -> in_worker e h m p ->
  on_fibers (Yield (e_tid e)) h = Ok (Some RCall, yielded e h m p) /\ hook_ok (yielded e h m p)
  /\ tls_of (fsys (h_iom (yielded e h m p))) (e_tid e) = mkTLS (Some m) (Some m) (Some m)
  /\ exists f, fibers (fsys (h_iom (yielded e h m p))) !! p = Some f /\ m_state f = SUSPEND /\ m_main f = false.
Proof.
  intros Hh Hw. pose proof (iw_client _ _ _ _ Hw) as Hne.
  destruct (worker_fiber e h m p Hh Hw) as (f & fm & Ht & Hm & Hf & Hmf & Hst & Hc & Hre).
  destruct (switch_out_lookup (e_tid e) m p SUSPEND RBody f _ Hf) as (H1' & H2' & _).
  split; [|split; [|split; [exact H2'|]]].
  - unfold on_fibers, on_iom, Yield. munfold.
    rewrite (Yield_to_eq SUSPEND _ m p f fm) by (done || apply Hm). done.
  - destruct Hh as [G1 G2 G3 G4]. split; [exact G1| | |exact G4].
    + apply (rest_step_inv interest _ _ G2). do 4 (split; [done|]). by split.
    + by apply (switch_out_inv _ _ _ _ _ f fm).
  - eexists. split; [exact H1'|]. done.
Qed.

Lemma in_worker_same e h h' m p :
  in_worker e h m p -> this_sched (h_iom h') = this_sched (h_iom h) -> fsys (h_iom h') = fsys (h_iom h) ->
  in_worker e h' m p.
Proof. intros [W1 W2 W3 W4 W5] E1 E2. split; rewrite ?E1, ?E2; done. Qed.

Lemma fd_inv_same h h' :
  fd_inv (fdm_of h) -> h_datas h' = h_datas h -> h_fdctxs h' = h_fdctxs h -> fd_inv (fdm_of h').
Proof. intros [I1 I2 I3] E1 E2. split; cbn in *; rewrite ?E1, ?E2; done. Qed.

Lemma timers_same h h' :
  this_sched (h_iom h') = this_sched (h_iom h) ->
  (forall q, base <$> scheds (h_iom h') !! q = base <$> scheds (h_iom h) !! q) -> timers h' = timers h.
Proof.
  intros E1 E2. unfold timers. rewrite E1. specialize (E2 (this_sched (h_iom h))).
  destruct (scheds (h_iom h') !! _), (scheds (h_iom h) !! _); cbn in E2; congruence.
Qed.

Lemma timer_object_same h h' q :
  this_sched (h_iom h') = this_sched (h_iom h) ->
  (forall q, base <$> scheds (h_iom h') !! q = base <$> scheds (h_iom h) !! q) -> timer_object h' q = timer_object h q.
Proof.
  intros E1 E2. unfold timer_object. rewrite E1. specialize (E2 (this_sched (h_iom h))).
  destruct (scheds (h_iom h') !! _), (scheds (h_iom h) !! _); cbn in *; congruence.
Qed.

(** Registering the current fiber. *)
Lemma iom_addEvent_spec site e h m p a fd ev :
  hook_ok h -> in_worker e h m p -> fd_ok fd -> valid_ev ev -> pollable (ikern (h_iom h)) fd = true ->
  if bool_decide (is_Some (reg (h_iom h) fd ev))
  then iom_addEvent garbage site e a fd ev h = AssertFailed "iomanager.cpp:60"
  else if used (h_iom h) fd ev then iom_addEvent garbage site e a fd ev h = AssertFailed "iomanager.cpp:78"
  else exists i, iom_addEvent garbage site e a fd ev h = Ok (true, h <| h_iom := i |>)
    /\ hook_ok (h <| h_iom := i |>)
    /\ registered (h_iom h) i fd ev (mkEventContext (e_sched e) (Some p) None)
    /\ fsys i = fsys (h_iom h) /\ same_timers (h_iom h) i.
Proof.
  intros Hh Hw Hfd He Hp. unfold iom_addEvent. munfold. rewrite (iom_GetThis_eq e h m p Hw). cbn [negb].
  unfold on_iom. munfold. rewrite (iw_sched _ _ _ _ Hw).
  pose proof (addEvent_spec interest pollable garbage no_garbage (h_iom h) (e_tid e) (this_sched (h_iom h)) a fd ev None
    (ho_iom h Hh) Hfd He (in_self _ _ (ho_iom h Hh)) Hp) as Hs.
  destruct (bool_decide _); [by rewrite Hs|]. destruct (used (h_iom h) fd ev); [by rewrite Hs|].
  destruct (worker_fiber e h m p Hh Hw) as (f & fm & _ & _ & Hf & _ & Hst & _).
  unfold slot_callback in Hs. rewrite (worker_GetThis e h m p a Hh Hw), Hf, Hst in Hs.
  rewrite bool_decide_true in Hs by done.
  destruct Hs as (i & -> & Hi & Hr & _ & _ & Hfs & Hst'). exists i. split; [done|].
  split; [|done]. destruct Hh as [G1 G2 G3 G4]. split; cbn.
  - by apply (fd_inv_same h).
  - done.
  - by rewrite Hfs.
  - intros sc Hsc. destruct Hst' as [E1 E2]. specialize (E2 (this_sched i)). rewrite Hsc in E2.
    destruct (scheds (h_iom h) !! this_sched i) as [sc0|] eqn:E; [|done]. injection E2 as ->.
    apply G4. by rewrite <- E1.
Qed.

(** ** Waiting for a descriptor *)

(** The state in which a call has suspended its fiber [p]: the event is
    registered with it and, with a timeout, one timer is armed. *)
Record waiting (e : env) h h' (m p : ptr) (fd ev to now : Z) (w q : ptr) : Prop := {
  wt_ok : hook_ok h';
  wt_reg : reg (h_iom h') fd ev = Some (mkEventContext (e_sched e) (Some p) None);
  wt_main : tls_of (fsys (h_iom h')) (e_tid e) = mkTLS (Some m) (Some m) (Some m);
  wt_susp : exists f, fibers (fsys (h_iom h')) !! p = Some f /\ m_state f = SUSPEND /\ m_main f = false;
  wt_timers : timers h' = if to =? u64_max then timers h else <[q := u64 (now + to)]> (timers h);
  wt_infos : tinfos h' = tinfos h;
  wt_self : this_sched (h_iom h') = this_sched (h_iom h);
  wt_object : to <> u64_max ->
    timer_object h' q = Some (new_Timer now to (OnTimerBind w (OnTimeout w fd ev)) false);
}.

(** A descriptor can be waited for: epoll takes it, and its slot is unused. *)
Definition can_wait h (fd ev : Z) : Prop :=
  fd_ok fd /\ valid_ev ev /\ pollable (ikern (h_iom h)) fd = true
  /\ reg (h_iom h) fd ev = None /\ used (h_iom h) fd ev = false.

Lemma wait_spec site1 site2 e h m p a now to tinfo fd ev :
  hook_ok h -> in_worker e h m p -> fresh_timer h (a_timer a) -> can_wait h fd ev ->
  exists h1 h2 h3,
    io_timer site1 e a now to tinfo fd ev h = Ok (if to =? u64_max then None else Some (a_timer a), h1)
    /\ iom_addEvent garbage site2 e (a_fiber a) fd ev h1 = Ok (true, h2)
    /\ on_fibers (Yield (e_tid e)) h2 = Ok (Some RCall, h3)
    /\ waiting e h h3 m p fd ev to now tinfo (a_timer a).
Proof.
  intros Hh Hw Hq (Hfd & He & Hp & Hr & Hu).
  destruct (io_timer_spec site1 e h m p a now to tinfo fd ev Hh Hw Hq) as (h1 & Ht & Hh1 & Hsame & Htm & Hobj).
  assert (contexts (h_iom h1) = contexts (h_iom h) /\ m_fd_contexts (h_iom h1) = m_fd_contexts (h_iom h)
    /\ ikern (h_iom h1) = ikern (h_iom h) /\ fsys (h_iom h1) = fsys (h_iom h)
    /\ this_sched (h_iom h1) = this_sched (h_iom h) /\ tinfos h1 = tinfos h) as (E1 & E2 & E3 & E4 & E5 & E6).
  { destruct Hsame as [->|[sc' ->]]; done. }
  assert (in_worker e h1 m p) as Hw1 by (by apply (in_worker_same e h)).
  pose proof (iom_addEvent_spec site2 e h1 m p (a_fiber a) fd ev Hh1 Hw1 Hfd He) as Hadd.
  rewrite E3 in Hadd. specialize (Hadd Hp).
  assert (reg (h_iom h1) fd ev = None /\ used (h_iom h1) fd ev = false) as [Hr1 Hu1].
  { unfold reg, used, ctx_at in *. rewrite E1, E2. done. }
  rewrite Hr1, Hu1 in Hadd. cbn in Hadd. destruct Hadd as (i & Hadd & Hh2 & Hreg & Hfs & Hself & Hbase).
  set (h2 := h1 <| h_iom := i |>) in *.
  assert (in_worker e h2 m p) as Hw2 by (by apply (in_worker_same e h1)).
  destruct (worker_Yield e h2 m p Hh2 Hw2) as (Hy & Hh3 & Ht3 & Hs3).
  exists h1, h2, (yielded e h2 m p). do 3 (split; [done|]). split; try done.
  - change (reg i fd ev = Some (mkEventContext (e_sched e) (Some p) None)).
    destruct (Hreg fd ev Hfd He) as [-> _]. by rewrite bool_decide_true.
  - rewrite <- Htm. apply timers_same; [exact Hself|exact Hbase].
  - exact (eq_trans Hself E5).
  - intros Hto. rewrite <- (Hobj Hto). apply timer_object_same; [exact Hself|exact Hbase].
Qed.

(** The C library reports that the call would block. *)
Definition would_block (fn : io_fun) (fd : Z) (args : nat) h (k' : K) : Prop :=
  exists out, k_libc (LIo fn fd args) (ikern (h_iom h)) = (mkRes (-1) EAGAIN out, k').

Lemma do_io_retry_wait fuel e h m p a now to tinfo fn fd ev args k' :
  hook_ok h -> in_worker e h m p -> fresh_timer h (a_timer a) -> can_wait h fd ev ->
  would_block fn fd args h k' ->
  exists h', do_io_retry garbage (S fuel) e a now tinfo to fn fd ev args h
      = Ok (IoWait (if to =? u64_max then None else Some (a_timer a)) (Some RCall), h')
    /\ waiting e h h' m p fd ev to now tinfo (a_timer a).
Proof.
  intros Hh Hw Hq Hc [out Hk]. unfold do_io_retry. munfold. cbn [io_eintr]. munfold.
  rewrite (libc_ret_eq _ h _ k' Hk). pose proof (after_io_ok h fn fd args _ k' Hh Hk) as Hh0.
  set (h0 := after_libc _ k' h) in *. cbn [lr_ret]. cbv beta iota.
  change ((-1 =? -1) && (h_errno h0 =? EINTR)) with false. cbv beta iota.
  change ((-1 =? -1) && (h_errno h0 =? EAGAIN)) with true. cbv beta iota.
  destruct (io_keeps _ _ _ _ _ _ Hk) as [_ Hpo].
  destruct (wait_spec "hook.cpp:99" "hook.cpp:109" e h0 m p a now to tinfo fd ev Hh0)
    as (h1 & h2 & h3 & Ht & Ha & Hy & Hwait).
  - by apply (in_worker_same e h).
  - exact Hq.
  - destruct Hc as (? & ? & ? & ? & ?). do 2 (split; [done|]). split; [by apply Hpo|done].
  - rewrite Ht, Ha. cbn [negb]. rewrite Hy. exists h3. split; [done|].
    destruct Hwait as [W1 W2 W3 W4 W5 W6 W7 W8]. by split.
Qed.

(** The context of a descriptor the library manages: a socket the user has not
    made non-blocking. *)
Definition managed h (fd : Z) (c : FdCtx) : Prop :=
  exists q, fd_table (fdm_of h) fd = Some q /\ h_fdctxs h !! q = Some c
    /\ m_isSocket c = true /\ m_userNonblock c = false.

Lemma managed_open h c q : hook_ok h -> h_fdctxs h !! q = Some c -> m_isClosed c = false.
Proof. intros Hh Hc. apply (fi_ctx _ (ho_fd h Hh) q c Hc). Qed.

(** The prologue of [do_io] on a managed descriptor. *)
Lemma do_io_managed fuel e h a now fn fd ev so args c :
  hook_ok h -> t_hooked e = true -> fd_ok fd -> managed h fd c ->
  do_io garbage fuel e a now fn fd ev so args h
  = do_io_retry garbage fuel e a now (a_info a) (getTimeout so c) fn fd ev args
      (h <| tinfos := <[a_info a := 0]> (tinfos h) |>).
Proof.
  intros Hh Hk Hfd (q & Hq & Hc & Hs & Hu). unfold do_io. rewrite Hk. cbn [negb]. munfold.
  rewrite fd_get_eq, Hq by done. unfold fd_ctx. munfold. rewrite Hc.
  by rewrite (managed_open h c q Hh Hc), Hs, Hu.
Qed.

(** A call that would block on a managed descriptor waits. *)
Lemma do_io_waits fuel e h m p a now fn fd ev so args c k' :
  hook_ok h -> in_worker e h m p -> fresh_timer h (a_timer a) -> managed h fd c -> can_wait h fd ev ->
  would_block fn fd args h k' ->
  exists h', do_io garbage (S fuel) e a now fn fd ev so args h
      = Ok (IoWait (if getTimeout so c =? u64_max then None else Some (a_timer a)) (Some RCall), h')
    /\ waiting e (h <| tinfos := <[a_info a := 0]> (tinfos h) |>) h' m p fd ev (getTimeout so c) now (a_info a) (a_timer a).
Proof.
  intros Hh Hw Hq Hm Hc Hk. pose proof Hc as (Hfd & _).
  rewrite (do_io_managed (S fuel) e h a now fn fd ev so args c Hh (iw_hooked _ _ _ _ Hw) Hfd Hm).
  set (h0 := h <| tinfos := _ |>).
  assert (hook_ok h0) as Hh0 by (destruct Hh as [G1 G2 G3 G4]; by split).
  apply (do_io_retry_wait fuel e h0 m p a now (getTimeout so c) (a_info a) fn fd ev args k'); try done.
  by apply (in_worker_same e h).
Qed.

(** ** Timing out and waking up *)

Lemma cancel_timer_spec h timer :
  hook_ok h -> exists h', cancel_timer timer h = Ok (tt, h') /\ hook_ok h'
    /\ (h' = h \/ exists sc, h' = with_sched sc h)
    /\ timers h' = match timer with Some q => delete q (timers h) | None => timers h end.
Proof.
  intros Hh. destruct timer as [q|]; [|by exists h; eauto 6].
  destruct (sched_live h Hh) as [sc Hs]. pose proof (ho_timers h Hh sc Hs) as Hwf.
  unfold cancel_timer. munfold. rewrite Hs, (cancel_eq q (base sc) Hwf).
  eexists. split; [reflexivity|]. split; [|split].
  - apply (with_sched_ok h sc); [done..|]. by apply filter_timers_wf.
  - right. by eexists.
  - unfold timers. cbn. rewrite lookup_insert_eq, Hs. cbn. apply filter_timers_deadlines.
Qed.

(** ** Properties *)

(** where the library has nothing to add, [do_io] is exactly one call of
    the C library function with its result and its [errno]: when the thread is
    not hooked, the descriptor has no context, is no socket, or was made
    non-blocking by the user. *)
Theorem do_io_passes_through fuel e h a now fn fd ev so args :
  hook_ok h -> fd_ok fd ->
  t_hooked e = false
  \/ fd_table (fdm_of h) fd = None
  \/ (exists q c, fd_table (fdm_of h) fd = Some q /\ h_fdctxs h !! q = Some c
        /\ (m_isSocket c = false \/ m_userNonblock c = true)) ->
  do_io garbage fuel e a now fn fd ev so args h
  = (let (r, k') := k_libc (LIo fn fd args) (ikern (h_iom h)) in Ok (IoDone (lr_ret r), after_libc r k' h)).
Proof.
  intros Hh Hfd Hcase. destruct (k_libc (LIo fn fd args) (ikern (h_iom h))) as [r k'] eqn:Hk.
  pose proof (libc_ret_eq _ h r k' Hk) as Hr. unfold do_io. destruct (t_hooked e) eqn:Ht; cbn [negb].
  2:{ munfold. by rewrite Hr. }
  munfold. rewrite fd_get_eq by done.
  destruct Hcase as [?|[->|(q & c & -> & Hc & Hs)]]; [done|by rewrite Hr|].
  unfold fd_ctx. munfold. rewrite Hc, (managed_open h c q Hh Hc).
  assert (negb (m_isSocket c) || m_userNonblock c = true) as ->.
  { destruct Hs as [-> | ->]; [done|apply orb_true_r]. }
  by rewrite Hr.
Qed.

(** a hooked call that would block suspends its fiber instead of the
    thread: the current fiber is registered for the event, with the timeout of
    the descriptor one timer is armed (none for an infinite timeout), no other
    timer and no other [timer_info] changes, the fiber is suspended and the
    thread is back in its main fiber. *)
Theorem do_io_suspends_fiber fuel e h m p a now fn fd ev so args c k' :
  hook_ok h -> in_worker e h m p -> fresh_timer h (a_timer a) -> managed h fd c -> can_wait h fd ev ->
  would_block fn fd args h k' ->
  exists h', do_io garbage (S fuel) e a now fn fd ev so args h
      = Ok (IoWait (if getTimeout so c =? u64_max then None else Some (a_timer a)) (Some RCall), h')
    /\ reg (h_iom h') fd ev = Some (mkEventContext (e_sched e) (Some p) None)
    /\ timers h' = (if getTimeout so c =? u64_max then timers h
                    else <[a_timer a := u64 (now + getTimeout so c)]> (timers h))
    /\ tinfos h' = <[a_info a := 0]> (tinfos h)
    /\ tls_of (fsys (h_iom h')) (e_tid e) = mkTLS (Some m) (Some m) (Some m)
    /\ (exists f, fibers (fsys (h_iom h')) !! p = Some f /\ m_state f = SUSPEND).
Proof.
  intros Hh Hw Hq Hm Hc Hk.
  destruct (do_io_waits fuel e h m p a now fn fd ev so args c k' Hh Hw Hq Hm Hc Hk)
    as (h' & He & [W1 W2 W3 (f & Hf & Hs & _) W5 W6 W7 _]).
  exists h'. split; [done|]. do 4 (split; [done|]). by exists f.
Qed.

(** a wait whose slot of the descriptor was used before aborts the process:
    since the slots are never emptied, the second time a call would block on the
    same descriptor in the same direction, [addEvent] fails its assertion. *)
Theorem second_wait_aborts fuel e h m p a now fn fd ev so args c k' :
  hook_ok h -> in_worker e h m p -> fresh_timer h (a_timer a) -> managed h fd c ->
  fd_ok fd -> valid_ev ev -> pollable (ikern (h_iom h)) fd = true ->
  used (h_iom h) fd ev = true -> would_block fn fd args h k' ->
  exists site, do_io garbage (S fuel) e a now fn fd ev so args h = AssertFailed site
    /\ (site = "iomanager.cpp:60" \/ site = "iomanager.cpp:78").
Proof.
  intros Hh Hw Hq Hm Hfd He Hp Hu [out Hk].
  rewrite (do_io_managed (S fuel) e h a now fn fd ev so args c Hh (iw_hooked _ _ _ _ Hw) Hfd Hm).
  set (h1 := h <| tinfos := _ |>).
  assert (hook_ok h1) as Hh1 by (destruct Hh as [G1 G2 G3 G4]; by split).
  unfold do_io_retry. munfold. cbn [io_eintr]. munfold. rewrite (libc_ret_eq _ h1 _ k' Hk).
  pose proof (after_io_ok h1 fn fd args _ k' Hh1 Hk) as Hh0.
  set (h0 := after_libc _ k' h1) in *. cbn [lr_ret]. cbv beta iota.
  change ((-1 =? -1) && (h_errno h0 =? EINTR)) with false. cbv beta iota.
  change ((-1 =? -1) && (h_errno h0 =? EAGAIN)) with true. cbv beta iota.
  destruct (io_keeps _ _ _ _ _ _ Hk) as [_ Hpo].
  assert (in_worker e h0 m p) as Hw0 by (by apply (in_worker_same e h)).
  destruct (io_timer_spec "hook.cpp:99" e h0 m p a now (getTimeout so c) (a_info a) fd ev Hh0 Hw0 Hq)
    as (h2 & -> & Hh2 & Hsame & _). cbv beta iota.
  assert (in_worker e h2 m p) as Hw2 by (apply (in_worker_same e h0); [done|by destruct Hsame as [->|[? ->]]..]).
  pose proof (iom_addEvent_spec "hook.cpp:109" e h2 m p (a_fiber a) fd ev Hh2 Hw2 Hfd He) as Hadd.
  assert (ikern (h_iom h2) = k' /\ used (h_iom h2) fd ev = true) as [Ek Eu].
  { destruct Hsame as [->|[? ->]]; done. }
  rewrite Ek, Eu in Hadd. specialize (Hadd (Hpo fd Hp)).
  destruct (bool_decide _); rewrite Hadd; eexists; eauto.
Qed.

Lemma release_done tinfo n h :
  release tinfo (IoDone n) h = Ok (IoDone n, h <| tinfos := delete tinfo (tinfos h) |>).
Proof. reflexivity. Qed.

(** A timeout closure whose call has returned does nothing. *)
Lemma expired_closure w cb h : tinfos h !! w = None -> run_closure (OnTimerBind w cb) h = Ok (tt, h).
Proof. intros Hw. cbn. munfold. rewrite Hw. done. Qed.

(** A resumed call that has timed out. *)
Lemma do_io_resume_timeout fuel e h a now w to timer fn fd ev args :
  hook_ok h -> tinfos h !! w = Some ETIMEDOUT ->
  exists h', do_io_resume garbage fuel e a now w to timer fn fd ev args h = Ok (IoDone (-1), h')
    /\ h_errno h' = ETIMEDOUT
    /\ timers h' = match timer with Some q => delete q (timers h) | None => timers h end
    /\ tinfos h' !! w = None
    /\ run_closure (OnTimerBind w (OnTimeout w fd ev)) h' = Ok (tt, h').
Proof.
  intros Hh Hw. destruct (cancel_timer_spec h timer Hh) as (h1 & Hc & _ & Hsame & Ht).
  assert (tinfos h1 = tinfos h) as Ei by (destruct Hsame as [->|[? ->]]; done).
  unfold do_io_resume. munfold. rewrite Hc, Ei, Hw. cbn [truthy ETIMEDOUT Z.eqb negb].
  rewrite release_done. eexists. split; [reflexivity|]. split; [done|]. split; [exact Ht|].
  split; [|apply expired_closure]; cbn; apply lookup_delete_eq.
Qed.

(** a wait that times out.  When the armed closure runs while the call
    still waits, the event is unregistered, the fiber is queued on its scheduler
    exactly once and the call is marked; resumed in any later state with the
    mark, the call returns -1 with [errno] ETIMEDOUT, its timer is disarmed, and
    the closure, should it run again, changes nothing. *)
Theorem do_io_times_out w fd ev h :
  hook_ok h -> fd_ok fd -> valid_ev ev -> tinfos h !! w = Some 0 -> is_Some (reg (h_iom h) fd ev) ->
  (exists h', run_closure (OnTimerBind w (OnTimeout w fd ev)) h = Ok (tt, h')
     /\ tinfos h' = <[w := ETIMEDOUT]> (tinfos h) /\ reg (h_iom h') fd ev = None
     /\ (forall q, queue (h_iom h') q = queue (h_iom h) q ++ tasks_of (h_iom h) fd ev q))
  /\ (forall h2 fuel e a now to timer fn args, hook_ok h2 -> tinfos h2 !! w = Some ETIMEDOUT ->
     exists h3, do_io_resume garbage fuel e a now w to timer fn fd ev args h2 = Ok (IoDone (-1), h3)
       /\ h_errno h3 = ETIMEDOUT
       /\ timers h3 = match timer with Some q => delete q (timers h2) | None => timers h2 end
       /\ run_closure (OnTimerBind w (OnTimeout w fd ev)) h3 = Ok (tt, h3)).
Proof.
  intros Hh Hfd He Hw Hr. split.
  - cbn. munfold. rewrite Hw. cbn. unfold on_timeout. munfold. rewrite Hw. cbn [truthy Z.eqb negb].
    pose proof (cancelEvent_spec interest pollable (h_iom h) fd ev (ho_iom h Hh) Hfd He) as Hc.
    destruct Hr as [ec Hr]. rewrite Hr in Hc. destruct Hc as (i & Hi & _ & Hu & Hq & _).
    unfold on_iom. munfold. cbn [h_iom upd_field]. rewrite Hi. eexists. split; [reflexivity|]. split; [done|].
    split; [|exact Hq]. destruct (Hu fd ev Hfd He) as [Hn _].
    change (reg i fd ev = None). rewrite Hn. rewrite bool_decide_true; [done|]. split; [done|left].
  - intros h2 fuel e a now to timer fn args Hh2 Hw2.
    destruct (do_io_resume_timeout fuel e h2 a now w to timer fn fd ev args Hh2 Hw2) as (h3 & ? & ? & ? & _ & ?).
    by exists h3.
Qed.

(** The C library's call is interrupted [n] times and then ends with [r]. *)
Inductive interrupted (fn : io_fun) (fd : Z) (args : nat) : nat -> K -> libc_res -> K -> Prop :=
| InterruptedEnd k r k' :
    k_libc (LIo fn fd args) k = (r, k') -> lr_ret r <> -1 \/ lr_errno r <> EINTR ->
    interrupted fn fd args 0 k r k'
| InterruptedMore n k r0 k1 r k' :
    k_libc (LIo fn fd args) k = (r0, k1) -> lr_ret r0 = -1 -> lr_errno r0 = EINTR ->
    interrupted fn fd args n k1 r k' -> interrupted fn fd args (S n) k r k'.

Lemma io_eintr_result n fuel fn fd args h r k' :
  interrupted fn fd args n (ikern (h_iom h)) r k' -> (n < fuel)%nat ->
  exists err, io_eintr fuel fn fd args h
      = Ok (Some (lr_ret r), h <| h_iom := (h_iom h) <| ikern := k' |> |> <| h_errno := err |>)
    /\ (lr_ret r = -1 -> err = lr_errno r).
Proof.
  intros Hint. remember (ikern (h_iom h)) as k eqn:Ek. revert fuel h Ek.
  induction Hint as [k r k' Hk Hend|n k r0 k1 r k' Hk Hr He _ IH]; intros fuel h -> Hlt.
  - destruct fuel as [|fuel]; [lia|]. cbn [io_eintr]. munfold. rewrite (libc_ret_eq _ h r k' Hk).
    exists (if lr_ret r =? -1 then lr_errno r else h_errno h). unfold after_libc.
    destruct (Z.eqb_spec (lr_ret r) (-1)) as [E|E]; cbn [h_errno upd_field].
    + rewrite (proj2 (Z.eqb_neq _ _)) by (destruct Hend; done). split; [done|done].
    + split; [by destruct h|done].
  - destruct fuel as [|fuel]; [lia|]. cbn [io_eintr]. munfold. rewrite (libc_ret_eq _ h r0 k1 Hk).
    unfold after_libc. rewrite Hr, He. cbn [h_errno upd_field]. rewrite Z.eqb_refl. cbn [andb Z.eqb EINTR].
    destruct (IH fuel (h <| h_iom := (h_iom h) <| ikern := k1 |> |> <| h_errno := EINTR |>)) as (err & He' & Herr);
      [done|lia|]. exists err. split; [exact He'|done].
Qed.


(** A resumed call that has not timed out and now gets a result. *)
Lemma do_io_resume_data n fuel e h a now w to timer fn fd ev args r k' :
  hook_ok h -> tinfos h !! w = Some 0 ->
  interrupted fn fd args n (ikern (h_iom h)) r k' -> (n < fuel)%nat -> lr_ret r <> -1 ->
  exists h', do_io_resume garbage fuel e a now w to timer fn fd ev args h = Ok (IoDone (lr_ret r), h')
    /\ timers h' = match timer with Some q => delete q (timers h) | None => timers h end
    /\ run_closure (OnTimerBind w (OnTimeout w fd ev)) h' = Ok (tt, h')
    /\ fsys (h_iom h') = fsys (h_iom h) /\ ikern (h_iom h') = k' /\ tinfos h' = delete w (tinfos h).
Proof.
  intros Hh Hw Hint Hlt Hend.
  destruct (cancel_timer_spec h timer Hh) as (h1 & Hc & Hh1 & Hsame & Ht).
  assert (tinfos h1 = tinfos h /\ ikern (h_iom h1) = ikern (h_iom h) /\ fsys (h_iom h1) = fsys (h_iom h)) as (Ei & Ek & Ef).
  { destruct Hsame as [->|[? ->]]; done. }
  rewrite <- Ek in Hint. destruct (io_eintr_result n fuel fn fd args h1 r k' Hint Hlt) as (err & He & _).
  unfold do_io_resume, do_io_retry. munfold. rewrite Hc, Ei, Hw. cbn [truthy Z.eqb negb]. rewrite He.
  rewrite (proj2 (Z.eqb_neq _ _) Hend). cbn [andb]. rewrite release_done.
  eexists. split; [reflexivity|]. split; [exact Ht|].
  split; [apply expired_closure; cbn; apply lookup_delete_eq|]. cbn. by rewrite Ei.
Qed.

(** a wait that is woken by its event.  Resumed without the mark of a
    timeout, the call disarms its timer and tries again; when the C library now
    has a result, the call returns it, and a timeout closure that was already
    queued finds the call gone and changes nothing: a call never both returns
    its data and times out. *)
Theorem do_io_wakes_up n fuel e h a now w to timer fn fd ev args r k' :
  hook_ok h -> tinfos h !! w = Some 0 ->
  interrupted fn fd args n (ikern (h_iom h)) r k' -> (n < fuel)%nat -> lr_ret r <> -1 ->
  exists h', do_io_resume garbage fuel e a now w to timer fn fd ev args h = Ok (IoDone (lr_ret r), h')
    /\ timers h' = match timer with Some q => delete q (timers h) | None => timers h end
    /\ run_closure (OnTimerBind w (OnTimeout w fd ev)) h' = Ok (tt, h').
Proof.
  intros Hh Hw Hint Hlt Hend.
  destruct (do_io_resume_data n fuel e h a now w to timer fn fd ev args r k' Hh Hw Hint Hlt Hend)
    as (h' & He & Ht & Hc & _). by exists h'.
Qed.

(** *** Sleeping *)

Lemma sleep_ms_spec site e h m p a now ms :
  hook_ok h -> in_worker e h m p -> fresh_timer h (a_timer a) ->
  exists h', sleep_ms site e a now ms h = Ok (Some RCall, h') /\ hook_ok h'
    /\ timers h' = <[a_timer a := u64 (now + ms)]> (timers h)
    /\ timer_object h' (a_timer a) = Some (new_Timer now ms (ScheduleFiber p) false)
    /\ tls_of (fsys (h_iom h')) (e_tid e) = mkTLS (Some m) (Some m) (Some m)
    /\ (exists f, fibers (fsys (h_iom h')) !! p = Some f /\ m_state f = SUSPEND /\ m_main f = false).
Proof.
  intros Hh Hw Hq. unfold sleep_ms, on_fibers, on_iom. munfold. rewrite (worker_GetThis e h m p _ Hh Hw).
  destruct (iom_addTimer_spec site e h m p (a_timer a) now ms (ScheduleFiber p) Hh Hw Hq) as (sc & Ha & Hh1 & Ht & Hobj).
  replace (h <| h_iom := (h_iom h) <| fsys := fsys (h_iom h) |> |>) with h by (by destruct h as [? ? ? [] ?]).
  rewrite Ha. set (h1 := with_sched sc h) in *.
  assert (in_worker e h1 m p) as Hw1 by (by apply (in_worker_same e h)).
  destruct (worker_Yield e h1 m p Hh1 Hw1) as (Hy & Hh2 & Ht2 & Hs2).
  unfold on_fibers, on_iom in Hy. munfold. rewrite Hy. eexists. split; [done|]. split; [done|].
  split; [rewrite <- Ht; by apply timers_same|]. split; [rewrite <- Hobj; by apply timer_object_same|]. done.
Qed.

(** The sleep family, by the period each call computes. *)
Inductive sleep_call (e : env) (a : addrs) (now : Z) : M (hook_sys K) sleep_ret -> Z -> Prop :=
| CallSleep s : sleep_call e a now (sleep e a now s) (sleep_period s)
| CallUsleep u : sleep_call e a now (usleep e a now u) (usleep_period u)
| CallNanosleep s ns : sleep_call e a now (nanosleep e a now s ns) (nanosleep_period s ns).

Lemma sleep_call_spec e h m p a now call period :
  hook_ok h -> in_worker e h m p -> fresh_timer h (a_timer a) -> sleep_call e a now call period ->
  exists h', call h = Ok (inr (Some RCall), h') /\ hook_ok h'
    /\ timers h' = <[a_timer a := u64 (now + period)]> (timers h)
    /\ timer_object h' (a_timer a) = Some (new_Timer now period (ScheduleFiber p) false)
    /\ tls_of (fsys (h_iom h')) (e_tid e) = mkTLS (Some m) (Some m) (Some m)
    /\ (exists f, fibers (fsys (h_iom h')) !! p = Some f /\ m_state f = SUSPEND /\ m_main f = false).
Proof.
  intros Hh Hw Hq []; unfold sleep, usleep, nanosleep; rewrite (iw_hooked _ _ _ _ Hw); cbn [negb]; munfold;
    match goal with |- context [sleep_ms ?site e a now ?ms h] =>
      destruct (sleep_ms_spec site e h m p a now ms Hh Hw Hq) as (h' & -> & ?) end;
    exists h'; done.
Qed.

(** The closure a sleeping call armed. *)
Lemma schedule_closure_ok p h :
  hook_ok h -> exists h', run_closure (ScheduleFiber p) h = Ok (tt, h') /\ hook_ok h'
    /\ queue (h_iom h') (this_sched (h_iom h)) = queue (h_iom h) (this_sched (h_iom h)) ++ [Task_fiber p (-1)]
    /\ fsys (h_iom h') = fsys (h_iom h).
Proof.
  intros Hh. destruct (sched_live h Hh) as [sc Hs].
  exists (with_sched (schedule (Task_fiber p (-1)) sc) h).
  assert (alter (schedule (Task_fiber p (-1))) (this_sched (h_iom h)) (scheds (h_iom h))
    = <[this_sched (h_iom h) := schedule (Task_fiber p (-1)) sc]> (scheds (h_iom h))) as E.
  { apply map_eq. intros q. rewrite lookup_alter, lookup_insert. case_decide; [subst; by rewrite Hs|done]. }
  destruct (schedule_frame (Task_fiber p (-1)) sc) as (_ & _ & _ & Ht & Hb & _).
  split; [unfold run_closure, with_sched; munfold; by rewrite E|]. split; [|split; [|done]].
  - apply (with_sched_ok h sc); [done..|apply schedule_pending|]. rewrite Hb. by apply (ho_timers h Hh).
  - unfold queue. cbn. by rewrite lookup_insert_eq, Hs, Ht.
Qed.

(** in a worker's fiber, [sleep], [usleep] and [nanosleep] suspend the
    fiber, with the thread back in its main fiber, and arm one timer, at the
    period each computes; the closure armed by them appends the fiber to the
    IOManager's queue, for any thread. *)
Theorem sleep_suspends_fiber e h m p a now :
  hook_ok h -> in_worker e h m p -> fresh_timer h (a_timer a) ->
  (forall call period, sleep_call e a now call period ->
     exists h', call h = Ok (inr (Some RCall), h')
       /\ timers h' = <[a_timer a := u64 (now + period)]> (timers h)
       /\ tls_of (fsys (h_iom h')) (e_tid e) = mkTLS (Some m) (Some m) (Some m)
       /\ (exists f, fibers (fsys (h_iom h')) !! p = Some f /\ m_state f = SUSPEND))
  /\ (exists h', run_closure (ScheduleFiber p) h = Ok (tt, h')
       /\ queue (h_iom h') (this_sched (h_iom h)) = queue (h_iom h) (this_sched (h_iom h)) ++ [Task_fiber p (-1)]).
Proof.
  intros Hh Hw Hq. split; [|destruct (schedule_closure_ok p h Hh) as (h' & ? & _ & ? & _); by exists h'].
  intros call period Hcall.
  destruct (sleep_call_spec e h m p a now call period Hh Hw Hq Hcall) as (h' & He & _ & Ht & _ & Hm & (f & ? & ? & _)).
  exists h'. repeat split; try done. by exists f.
Qed.

(** *** Descriptor flags *)

Lemma with_ctx_managed h fd q c g :
  hook_ok h -> fd_table (fdm_of h) fd = Some q -> h_fdctxs h !! q = Some c ->
  on_fdm (with_ctx q g) h = Ok (tt, h <| h_fdctxs := alter g q (h_fdctxs h) |>).
Proof.
  intros Hh Hq Hc. unfold on_fdm. munfold. rewrite (with_ctx_eq (fdm_of h) q g c Hc). cbn.
  by destruct h as [? ? ? [] ?].
Qed.

Lemma set_user_ok h q v :
  hook_ok h -> hook_ok (h <| h_fdctxs := alter (setUserNonblock v) q (h_fdctxs h) |>).
Proof.
  intros [[I1 I2 I3] G2 G3 G4]. split; try done. split; cbn in *.
  - done.
  - intros i x Hx. destruct (I2 i x Hx) as (c & Hc & Hf). destruct (decide (q = x)) as [->|Hne].
    + exists (setUserNonblock v c). by rewrite lookup_alter_eq, Hc.
    + exists c. by rewrite lookup_alter_ne.
  - intros x c Hc. destruct (decide (q = x)) as [->|Hne].
    + rewrite lookup_alter_eq in Hc. destruct (h_fdctxs h !! x) as [c0|] eqn:E; [|done].
      injection Hc as <-. exact (I3 x c0 E).
    + rewrite lookup_alter_ne in Hc by done. eauto.
Qed.

Lemma nonblocking_set a : nonblocking (Z.lor a O_NONBLOCK) = true.
Proof. rewrite nonblocking_bit, Z.lor_spec. change (Z.testbit O_NONBLOCK 11) with true. apply orb_true_r. Qed.

Lemma nonblocking_clear a : nonblocking (Z.land a (Z.lnot O_NONBLOCK)) = false.
Proof.
  rewrite nonblocking_bit, Z.land_spec, Z.lnot_spec by lia. change (Z.testbit O_NONBLOCK 11) with true.
  apply andb_false_r.
Qed.

(** C35: for a socket of the library, [fcntl(F_SETFL)] and [fcntl(F_GETFL)] give
    the user the flag he set (a round trip on O_NONBLOCK), while the kernel's
    descriptor stays non-blocking all the time. *)
Theorem fcntl_roundtrip (status : K -> Z -> option Z) (LF : FileLaws K status) h a fd q c arg fl :
  hook_ok h -> fd_ok fd -> fd_table (fdm_of h) fd = Some q -> h_fdctxs h !! q = Some c -> m_isSocket c = true ->
  status (ikern (h_iom h)) fd = Some fl ->
  exists h1 v fl1, fcntl a fd F_SETFL arg h = Ok (0, h1) /\ fcntl a fd F_GETFL 0 h1 = Ok (v, h1)
    /\ nonblocking v = nonblocking arg
    /\ status (ikern (h_iom h1)) fd = Some fl1 /\ nonblocking fl1 = true.
Proof.
  intros Hh Hfd Hq Hc Hs Hst.
  destruct (fi_ctx _ (ho_fd h Hh) q c Hc) as (Hcl & Hsys & _). rewrite Hs in Hsys.
  set (h0 := h <| h_fdctxs := alter (setUserNonblock (nonblocking arg)) q (h_fdctxs h) |>).
  assert (hook_ok h0) as Hh0 by (by apply set_user_ok).
  assert (h_fdctxs h0 !! q = Some (setUserNonblock (nonblocking arg) c)) as Hc0 by (cbn; by rewrite lookup_alter_eq, Hc).
  destruct (setfl_open (ikern (h_iom h)) fd (Z.lor arg O_NONBLOCK) fl Hst) as (k' & fl' & Hk & Hst' & Hn' & _).
  rewrite nonblocking_set in Hn'.
  set (h1 := h0 <| h_iom := (h_iom h0) <| ikern := k' |> |>).
  assert (fd_inv (fdm_of h1)) as Hi1 by (by apply (fd_inv_same h0); [apply Hh0|..]).
  assert (fcntl a fd F_SETFL arg h = Ok (0, h1)) as Hset.
  { unfold fcntl. change (fcntl_kind_of F_SETFL) with FSetfl. cbv beta iota. munfold.
    rewrite fd_get_eq, Hq by done. unfold fd_ctx. munfold. rewrite Hc. unfold not_ours. rewrite Hcl, Hs. cbn [orb negb].
    rewrite (with_ctx_managed h fd q c) by done. change (h_fdctxs (h <| h_fdctxs := _ |>)) with (h_fdctxs h0).
    rewrite Hc0. change (m_sysNonblock (setUserNonblock _ c)) with (m_sysNonblock c). rewrite Hsys.
    unfold fcntl_f, mkern. change (ikern (h_iom (h <| h_fdctxs := _ |>))) with (ikern (h_iom h)). by rewrite Hk. }
  exists h1. exists (if nonblocking arg then Z.lor fl' O_NONBLOCK else Z.land fl' (Z.lnot O_NONBLOCK)), fl'.
  split; [done|]. split; [|split; [|done]].
  - unfold fcntl. change (fcntl_kind_of F_GETFL) with FGetfl. cbv beta iota. munfold.
    unfold fcntl_f, mkern. rewrite (getfl_open k' fd None fl' Hst').
    replace (h1 <| h_iom := (h_iom h1) <| ikern := k' |> |>) with h1 by (by destruct h as [? ? ? [] ?]).
    unfold fd_get, on_fdm. munfold. rewrite get_lookup, fdm_id by done.
    change (fd_table (fdm_of h1) fd) with (fd_table (fdm_of h) fd). rewrite Hq.
    unfold fd_ctx. munfold. change (h_fdctxs h1) with (h_fdctxs h0). rewrite Hc0. unfold not_ours. cbn.
    rewrite Hcl, Hs. cbn. by destruct (nonblocking arg).
  - destruct (nonblocking arg); [apply nonblocking_set|apply nonblocking_clear].
Qed.

(** [ioctl(FIONBIO)] is passed on to the kernel unchanged, unlike
    [fcntl(F_SETFL)].  When the user switches a socket of the library to
    blocking with it, the kernel's descriptor becomes blocking while its context
    still says the library made it non-blocking; the library goes on to treat
    the descriptor as its own, and the next call blocks the whole thread. *)
Theorem ioctl_makes_kernel_blocking (status : K -> Z -> option Z) (LL : LibcLaws K status) h a fd q c fl :
  hook_ok h -> fd_ok fd -> fd_table (fdm_of h) fd = Some q -> h_fdctxs h !! q = Some c -> m_isSocket c = true ->
  status (ikern (h_iom h)) fd = Some fl ->
  exists h' c' fl', ioctl a fd FIONBIO 0 h = Ok (0, h')
    /\ managed h' fd c' /\ m_sysNonblock c' = true
    /\ status (ikern (h_iom h')) fd = Some fl' /\ nonblocking fl' = false.
Proof.
  intros Hh Hfd Hq Hc Hs Hst. destruct (fi_ctx _ (ho_fd h Hh) q c Hc) as (Hcl & Hsys & _). rewrite Hs in Hsys.
  destruct (fionbio_open (ikern (h_iom h)) fd 0 fl Hst) as (r & k' & fl' & Hk & Hr & Hst' & Hn & _).
  unfold ioctl. rewrite Z.eqb_refl. munfold. rewrite fd_get_eq, Hq by done. unfold fd_ctx. munfold. rewrite Hc.
  unfold not_ours. rewrite Hcl, Hs. cbn [orb negb]. rewrite (with_ctx_managed h fd q c) by done.
  set (h0 := h <| h_fdctxs := _ |>). rewrite (libc_ret_eq _ h0 r k' Hk). rewrite Hr.
  unfold after_libc. rewrite Hr. exists (h0 <| h_iom := (h_iom h0) <| ikern := k' |> |>), (setUserNonblock false c), fl'.
  split; [done|]. split; [|done]. exists q. cbn. rewrite lookup_alter_eq, Hc. done.
Qed.

(** [setsockopt] with SO_RCVTIMEO or SO_SNDTIMEO on a descriptor with a
    context records the [timeval] in milliseconds, rounded down, for exactly
    this direction, and passes the call on.  A [timeval] below a millisecond is
    recorded as 0, which is not the infinite timeout that 0 means to the kernel:
    the next wait arms a timer that is due immediately. *)
Theorem setsockopt_records_timeout e h a fd q c opt tv_sec tv_usec r k' :
  hook_ok h -> t_hooked e = true -> fd_ok fd -> fd_table (fdm_of h) fd = Some q -> h_fdctxs h !! q = Some c ->
  opt = SO_RCVTIMEO \/ opt = SO_SNDTIMEO ->
  k_libc (LSetsockopt fd SOL_SOCKET opt tv_sec tv_usec) (ikern (h_iom h)) = (r, k') ->
  exists h' c', setsockopt e a fd SOL_SOCKET opt tv_sec tv_usec h = Ok (lr_ret r, h')
    /\ fd_table (fdm_of h') fd = Some q /\ h_fdctxs h' !! q = Some c'
    /\ getTimeout opt c' = u64 (tv_sec * 1000 + Z.quot tv_usec 1000)
    /\ (forall opt', opt' = SO_RCVTIMEO \/ opt' = SO_SNDTIMEO -> opt' <> opt -> getTimeout opt' c' = getTimeout opt' c)
    /\ (0 <= tv_usec < 1000 -> getTimeout opt c' = u64 (tv_sec * 1000)).
Proof.
  intros Hh Ht Hfd Hq Hc Hopt Hk. unfold setsockopt. rewrite Ht, Z.eqb_refl.
  assert ((opt =? SO_RCVTIMEO) || (opt =? SO_SNDTIMEO) = true) as -> by (destruct Hopt as [-> | ->]; done).
  cbn [andb]. munfold. rewrite fd_get_eq, Hq by done. rewrite (with_ctx_managed h fd q c) by done.
  set (h0 := h <| h_fdctxs := _ |>). rewrite (libc_ret_eq _ h0 r k' Hk).
  exists (after_libc r k' h0), (setTimeout opt (timeval_ms tv_sec tv_usec) c). split; [done|].
  assert (getTimeout opt (setTimeout opt (timeval_ms tv_sec tv_usec) c) = u64 (tv_sec * 1000 + Z.quot tv_usec 1000)) as Hg.
  { destruct Hopt as [-> | ->]; done. }
  split; [unfold after_libc; by destruct (lr_ret r =? -1)|].
  split; [unfold after_libc; destruct (lr_ret r =? -1); cbn; by rewrite lookup_alter_eq, Hc|].
  split; [done|]. split.
  - intros opt' Hopt' Hne. destruct Hopt as [-> | ->], Hopt' as [-> | ->]; done.
  - intros Hu. rewrite Hg, Z.quot_small by lia. f_equal. lia.
Qed.

(** *** Closing *)

Lemma nothing_registered (i : iom_sys K) fd :
  iom_inv interest i -> fd_ok fd -> reg i fd READ = None -> reg i fd WRITE = None -> interest (ikern i) !! fd = None.
Proof.
  intros Hi Hfd Hr Hw. pose proof (ctx_at_lookup interest i fd Hi Hfd) as Hl.
  pose proof (in_size _ _ Hi) as Hsz. rewrite i32_small in Hl by lia.
  destruct (Z.leb_spec (Z.of_nat (length (m_fd_contexts i))) fd) as [Hle|Hgt].
  - by apply (in_beyond _ _ Hi).
  - destruct Hl as (p & c & Hat & _ & Hc & Hf).
    assert (armed c READ = false /\ armed c WRITE = false) as [Ha Hb].
    { rewrite <- (reg_armed i fd p c READ Hat READ_valid), <- (reg_armed i fd p c WRITE Hat WRITE_valid), Hr, Hw. done. }
    rewrite <- Hf, (in_interest _ _ Hi p c Hc). unfold kernel_entry.
    destruct (in_ctx _ _ Hi p c Hc) as [Hm _]. by rewrite (armed_none c Hm Ha Hb).
Qed.

(** [cancelAll], whether anything is registered or not. *)
Lemma cancelAll_clears (i : iom_sys K) fd :
  iom_inv interest i -> fd_ok fd ->
  exists b i', cancelAll fd i = Ok (b, i') /\ iom_inv interest i'
    /\ reg i' fd READ = None /\ reg i' fd WRITE = None
    /\ (forall q, queue i' q = queue i q ++ tasks_of i fd READ q ++ tasks_of i fd WRITE q).
Proof.
  intros Hi Hfd. pose proof (cancelAll_spec interest pollable i fd Hi Hfd) as Hs.
  destruct (Z.eqb_spec (nreg i fd) 0) as [E|E].
  - exists false, i. split; [done|]. split; [done|].
    assert (reg i fd READ = None /\ reg i fd WRITE = None) as [Hr Hw].
    { unfold nreg in E. destruct (reg i fd READ), (reg i fd WRITE); done. }
    split; [done|]. split; [done|]. intros q. unfold tasks_of. rewrite Hr, Hw. by rewrite !app_nil_r.
  - destruct Hs as (i' & Hc & Hi' & Hu & Hq & _). exists true, i'. do 2 (split; [done|]).
    destruct (Hu fd READ Hfd READ_valid) as [-> _]. destruct (Hu fd WRITE Hfd WRITE_valid) as [-> _].
    rewrite (bool_decide_true (fd = fd /\ READ ∈ [READ; WRITE])) by (split; [done|left]).
    rewrite (bool_decide_true (fd = fd /\ WRITE ∈ [READ; WRITE])) by (split; [done|right; left]). done.
Qed.

(** C36: the hooked [close] of a descriptor with a context, in a thread of the
    IOManager: everything registered for it is queued (the waiting fibers wake
    up, reads first) and unregistered, the context is forgotten and no other
    one, and only then the C library closes the descriptor, with nothing of it
    left in the interest list. *)
Theorem close_wakes_and_forgets e h a fd q :
  hook_ok h -> t_hooked e = true -> e_sched e = Some (this_sched (h_iom h)) -> fd_ok fd ->
  fd_table (fdm_of h) fd = Some q ->
  exists h' r k1 k2, close e a fd h = Ok (lr_ret r, h')
    /\ k_libc (LClose fd) k1 = (r, k2) /\ ikern (h_iom h') = k2 /\ interest k1 !! fd = None
    /\ (forall fd', fd_ok fd' -> fd_table (fdm_of h') fd' = if decide (fd = fd') then None else fd_table (fdm_of h) fd')
    /\ reg (h_iom h') fd READ = None /\ reg (h_iom h') fd WRITE = None
    /\ (forall s, queue (h_iom h') s = queue (h_iom h) s ++ tasks_of (h_iom h) fd READ s ++ tasks_of (h_iom h) fd WRITE s).
Proof.
  intros Hh Ht Hs Hfd Hq. destruct (cancelAll_clears (h_iom h) fd (ho_iom h Hh) Hfd)
    as (b & i & Hc & Hi & Hr & Hw & Hqu).
  set (h1 := h <| h_iom := i |>). assert (fd_inv (fdm_of h1)) as Hi1 by (by apply (fd_inv_same h); [apply Hh|..]).
  destruct (del_eq (fdm_of h1) fd Hi1 Hfd) as (s' & Hd & Hdc & Hdk & Hdm).
  set (h2 := fdm_put s' h1). destruct (k_libc (LClose fd) (ikern (h_iom h2))) as [r k2] eqn:Hk.
  exists (after_libc r k2 h2), r, (ikern (h_iom h2)), k2. split; [|split; [done|split]].
  - unfold close. rewrite Ht. cbn [negb]. munfold. rewrite fd_get_eq, Hq by done.
    unfold iom_GetThis. rewrite bool_decide_true by done. unfold on_iom. munfold. rewrite Hc.
    unfold on_fdm. munfold. change (h <| h_iom := i |>) with h1. rewrite Hd.
    cbv beta iota. fold h2. by rewrite (libc_ret_eq _ h2 r k2 Hk).
  - unfold after_libc. by destruct (lr_ret r =? -1).
  - assert (h_iom (after_libc r k2 h2) = (h_iom h2) <| ikern := k2 |>) as Ei
      by (unfold after_libc; by destruct (lr_ret r =? -1)).
    assert (fd_table (fdm_of (after_libc r k2 h2)) = fd_table s') as Ef.
    { unfold after_libc. by destruct (lr_ret r =? -1). }
    rewrite Ei, Ef. split; [|split; [|done]].
    + change (ikern (h_iom h2)) with (fkern s'). rewrite Hdk. by apply nothing_registered.
    + intros fd' Hfd'. apply option_eq. intros x. rewrite fd_table_lookup, Hdm by apply Hfd'.
      change (m_datas (fdm_of h1)) with (m_datas (fdm_of h)). destruct Hfd, Hfd'.
      destruct (decide (fd = fd')) as [<-|Hne].
      * split; [|done]. intros [(_ & ? & _)|[? _]]%list_lookup_insert_Some; done.
      * rewrite list_lookup_insert_ne by lia. by rewrite fd_table_lookup by lia.
Qed.

End HookProps.

(** *** How long the sleeps are *)

(** the periods the sleep calls pass to the timer.  [usleep] and
    [nanosleep] round down to milliseconds; [nanosleep] is exact in this sense
    only below 2^31 ms (24 days 20 hours), a longer sleep wraps to 32 bits; and
    [sleep] multiplies in 32 bits: it is exact for up to 4294967 seconds, and
    for any longer sleep the fiber wakes up too early. *)
Theorem sleep_periods :
  (forall s, is_u32 s -> (sleep_period s = s * 1000 <-> s <= 4294967)
     /\ (4294967 < s -> sleep_period s < s * 1000))
  /\ (forall u, is_u32 u -> usleep_period u * 1000 <= u < (usleep_period u + 1) * 1000)
  /\ (forall s ns, 0 <= s -> 0 <= ns < 1000000000 ->
        let ms := s * 1000 + ns / 1000000 in
        (ms < 2 ^ 31 -> nanosleep_period s ns = ms) /\ (2 ^ 31 <= ms -> nanosleep_period s ns <> ms \/ 2 ^ 63 <= ms)).
Proof.
  split; [|split].
  - intros s Hs. unfold is_u32, sleep_period, u32 in *.
    assert (s <= 4294967 -> (s * 1000) mod 2 ^ 32 = s * 1000) as Hsmall by (intros; apply Z.mod_small; lia).
    assert (4294967 < s -> (s * 1000) mod 2 ^ 32 < s * 1000) as Hbig.
    { intros. pose proof (Z.mod_pos_bound (s * 1000) (2 ^ 32)). lia. }
    split; [|done]. split; [|done]. intros E. destruct (Z.le_gt_cases s 4294967); [done|]. lia.
  - intros u Hu. unfold is_u32, usleep_period in *. rewrite Z.quot_div_nonneg by lia.
    pose proof (Z.div_mod u 1000). pose proof (Z.mod_pos_bound u 1000). lia.
  - intros s ns Hs Hns ms. unfold nanosleep_period. pose proof (Z.div_pos ns 1000).
    rewrite (Z.quot_div_nonneg ns 1000), (Z.quot_div_nonneg (ns / 1000) 1000) by lia.
    rewrite Z.div_div by lia. change (1000 * 1000) with 1000000. fold ms.
    assert (0 <= ms) by (unfold ms; pose proof (Z.div_pos ns 1000000); lia).
    split; intros Hms.
    + rewrite i32_small by lia. apply u64_small. unfold is_u64. lia.
    + destruct (Z.le_gt_cases (2 ^ 63) ms) as [?|Hlt]; [by right|]. left. intros E.
      unfold i32 in E. pose proof (Z.mod_pos_bound ms (2 ^ 32)).
      destruct (Z.ltb_spec (ms mod 2 ^ 32) (2 ^ 31)).
      * rewrite u64_small in E by (unfold is_u64; lia). lia.
      * unfold u64 in E. rewrite <- (Z.mod_unique (ms mod 2 ^ 32 - 2 ^ 32) (2 ^ 64) (-1) (ms mod 2 ^ 32 - 2 ^ 32 + 2 ^ 64)) in E by lia.
        lia.
Qed.
