(* ===== verification/HookDemo.v ===== *)
(** * Concrete runs of the hooked calls

    A kernel that satisfies all the laws of Posix.v, a process with one worker
    thread in a client fiber and one socket, and the properties of HookProps.v
    applied to it. *)

From S2P Require Import Prelude Timer Fiber Scheduler SchedulerThreads Posix FdManager IOManager IOManagerInv IOManagerProps Hook HookProps.

(** [sim_kernel] with a script of results for the C library's calls; without
    one, they would block. *)
Record hook_kernel := mkHookKernel {
  hk_sim : sim_kernel;
  hk_script : list libc_res;
}.
#[export] Instance eta_hook_kernel : Eta hook_kernel := fun k => mkHookKernel (hk_sim k) (hk_script k).

#[export] Instance hk_file_ops : FileOps hook_kernel := {|
  k_fstat fd k := k_fstat fd (hk_sim k);
  k_fcntl fd cmd arg k := let '(n, s) := k_fcntl fd cmd arg (hk_sim k) in (n, k <| hk_sim := s |>);
|}.
#[export] Instance hk_epoll_ops : EpollOps hook_kernel := {|
  k_epoll_ctl op fd e k := let '(n, s) := k_epoll_ctl op fd e (hk_sim k) in (n, k <| hk_sim := s |>);
|}.
#[export] Instance hk_libc_ops : LibcOps hook_kernel := {|
  k_libc c k :=
    match c with
    | LIoctl fd req v =>
        match sim_files (hk_sim k) !! fd with
        | Some (mode, fl) =>
            (mkRes 0 0 0, k <| hk_sim := (hk_sim k)
               <| sim_files := <[fd := (mode, if truthy v then O_NONBLOCK else 0)]> (sim_files (hk_sim k)) |> |>)
        | None => (mkRes (-1) EBADF 0, k)
        end
    | _ => match hk_script k with
           | [] => (mkRes (-1) EAGAIN 0, k)
           | r :: rest => (r, k <| hk_script := rest |>)
           end
    end;
|}.

Definition hk_status (k : hook_kernel) : Z -> option Z := sim_status (hk_sim k).
Definition hk_interest (k : hook_kernel) : gmap Z epoll_event := sim_interest (hk_sim k).
Definition hk_pollable (k : hook_kernel) : Z -> bool := sim_pollable (hk_sim k).

#[export] Instance hk_file_laws : FileLaws hook_kernel hk_status.
Proof.
  split; unfold hk_status; cbn -[k_fcntl k_fstat].
  - intros k fd. apply (fstat_open (hk_sim k) fd).
  - intros k fd a fl Hs. cbn -[F_GETFL]. pose proof (getfl_open (hk_sim k) fd a fl Hs) as Hg. cbn -[F_GETFL] in Hg.
    rewrite Hg. by destruct k.
  - intros k fd a Hs. pose proof (getfl_bad (hk_sim k) fd a Hs) as Hg. cbn -[F_GETFL] in *. rewrite Hg. by destruct k.
  - intros k fd fl. apply (status_nonneg (hk_sim k) fd fl).
  - intros k fd a fl Hs. destruct (setfl_open (hk_sim k) fd a fl Hs) as (s & fl' & Hk & H1 & H2 & H3 & H4).
    cbn -[F_SETFL sim_status] in *. rewrite Hk. eexists _, fl'. split; [reflexivity|]. done.
Qed.

#[export] Instance hk_epoll_laws : EpollLaws hook_kernel hk_interest hk_pollable.
Proof.
  split; unfold hk_interest, hk_pollable.
  - intros k fd e Hp Hi. destruct (ctl_add (hk_sim k) fd e Hp Hi) as (s & Hk & H1 & H2).
    cbn -[EPOLL_CTL_ADD] in *. rewrite Hk. eexists. split; [reflexivity|]. cbn. by rewrite H2.
  - intros k fd e e0 Hi. destruct (ctl_mod (hk_sim k) fd e e0 Hi) as (s & Hk & H1 & H2).
    cbn -[EPOLL_CTL_MOD] in *. rewrite Hk. eexists. split; [reflexivity|]. cbn. by rewrite H2.
  - intros k fd e e0 Hi. destruct (ctl_del (hk_sim k) fd e e0 Hi) as (s & Hk & H1 & H2).
    cbn -[EPOLL_CTL_DEL] in *. rewrite Hk. eexists. split; [reflexivity|]. cbn. by rewrite H2.
Qed.

#[export] Instance hk_libc_epoll_laws : LibcEpollLaws hook_kernel hk_interest hk_pollable.
Proof. split. intros k f fd args r k'. cbn. destruct (hk_script k); intros [= <- <-]; done. Qed.

#[export] Instance hk_libc_laws : LibcLaws hook_kernel hk_status.
Proof.
  split. intros k fd v fl Hs. unfold hk_status, sim_status in *. cbn.
  destruct (sim_files (hk_sim k) !! fd) as [[mode f]|]; [|done].
  eexists _, _, _. split; [reflexivity|]. split; [done|]. cbn. rewrite lookup_insert_eq. split; [reflexivity|].
  split; [by destruct (truthy v)|]. intros fd' Hne. by rewrite lookup_insert_ne by done.
Qed.

(** ** The process *)

(** Thread 1 executes client fiber 11 (its main fiber is 10); descriptor 3 is a
    blocking socket, descriptor 4 a file. *)
Definition hk0 : hook_kernel := mkHookKernel (mkSim {[3 := (49152, 2); 4 := (32768, 0)]} ∅) [].
Definition hd_iom0 : iom_sys hook_kernel :=
  match IOManager_ctor zeroed 1%nat {[1%nat := demo_sched]} hk0 demo_called with
  | Ok (_, s) => s
  | _ => mkIom 0%nat [] ∅ ∅ hk0 fiber_sys_init
  end.
Definition hd0 : hook_sys hook_kernel := mkHook 0 (replicate 64 None) ∅ hd_iom0 ∅.

(** The socket has its context at address 5. *)
Definition hd : hook_sys hook_kernel := run_state (fd_get 3 true 5%nat) hd0.

Definition hd_env : env := mkEnv 1%nat true (Some 1%nat).
Definition hd_addrs : addrs := mkAddrs 7%nat 8%nat 6%nat 9%nat.

Lemma hd_iom0_inv : iom_inv hk_interest hd_iom0.
Proof.
  destruct (IOManager_ctor_inv hk_interest zeroed (fun _ => eq_refl) 1%nat {[1%nat := demo_sched]} hk0 demo_called)
    as (s & Hc & Hi & _).
  - by eexists.
  - rewrite lookup_singleton_eq. by intros s0 [= <-].
  - done.
  - unfold hd_iom0. rewrite Hc. exact Hi.
Qed.

Lemma no_timers_wf : timers_wf empty_TimerManager.
Proof. split; [constructor|set_solver]. Qed.

(** Replacing the IOManager by a later one. *)
Lemma hook_ok_iom (h : hook_sys hook_kernel) (i : iom_sys hook_kernel) (ti : gmap ptr Z) :
  hook_ok hk_interest h -> iom_inv hk_interest i -> fsys i = fsys (h_iom h) ->
  (base <$> scheds i !! this_sched i) = Some empty_TimerManager ->
  hook_ok hk_interest (h <| h_iom := i |> <| tinfos := ti |>).
Proof.
  intros [H1 H2 H3 H4] Hi Hf Hb. split.
  - by apply (fd_inv_same h).
  - done.
  - cbn. by rewrite Hf.
  - cbn. intros sc Hs. rewrite Hs in Hb. injection Hb as ->. exact no_timers_wf.
Qed.

Lemma hd_created : get_write 3 5%nat (FdManager_ctor hk0) = Ok (5%nat, fdm_of hd).
Proof. vm_compute. reflexivity. Qed.

Lemma hd_fd_inv : fd_inv (fdm_of hd).
Proof.
  apply (fd_reachable_inv hk0). apply star_one.
  exact (FdWrite 3 5%nat 5%nat (FdManager_ctor hk0) (fdm_of hd) demo_fd3 eq_refl hd_created).
Qed.

Lemma hd_ok : hook_ok hk_interest hd.
Proof.
  split.
  - exact hd_fd_inv.
  - apply (rest_step_inv hk_interest hd_iom0); [exact hd_iom0_inv|].
    split; [vm_compute; reflexivity|]. split; [vm_compute; reflexivity|]. split; [vm_compute; reflexivity|].
    split; [vm_compute; reflexivity|]. split; [vm_compute; reflexivity|].
    assert (scheds (h_iom hd) = scheds hd_iom0) as -> by (vm_compute; reflexivity). done.
  - assert (fsys (h_iom hd) = demo_called) as -> by (vm_compute; reflexivity).
    apply reachable_inv, demo_called_reachable.
  - assert (base <$> scheds (h_iom hd) !! this_sched (h_iom hd) = Some empty_TimerManager) as Hb by (vm_compute; reflexivity).
    intros sc Hs. rewrite Hs in Hb. injection Hb as ->. exact no_timers_wf.
Qed.

Lemma hd_worker : in_worker hd_env hd 10%nat 11%nat.
Proof. split; try (vm_compute; reflexivity). discriminate. Qed.

Lemma hd_fresh_timer : fresh_timer hd 8%nat.
Proof.
  assert (base <$> scheds (h_iom hd) !! this_sched (h_iom hd) = Some empty_TimerManager) as Hb by (vm_compute; reflexivity).
  intros sc Hs. rewrite Hs in Hb. injection Hb as ->. reflexivity.
Qed.

Definition hd_ctx : FdCtx := mkFdCtx true true true false false 3 u64_max u64_max.

Lemma hd_table : fd_table (fdm_of hd) 3 = Some 5%nat /\ h_fdctxs hd !! 5%nat = Some hd_ctx.
Proof. split; vm_compute; reflexivity. Qed.

Lemma hd_managed : managed hd 3 hd_ctx.
Proof.
  exists 5%nat. destruct hd_table as [H1 H2]. exact (conj H1 (conj H2 (conj eq_refl eq_refl))).
Qed.

Lemma hd_pollable : hk_pollable (ikern (h_iom hd)) 3 = true.
Proof. vm_compute. reflexivity. Qed.

Lemma hd_can_wait : can_wait hk_pollable hd 3 READ.
Proof.
  split; [exact demo_fd3|]. split; [exact READ_valid|]. split; [exact hd_pollable|]. split; vm_compute; reflexivity.
Qed.

Lemma hd_would_block : would_block read_f 3 0 hd (ikern (h_iom hd)).
Proof. exists 0. vm_compute. reflexivity. Qed.

Lemma hd_status : hk_status (ikern (h_iom hd)) 3 = Some 2048.
Proof. vm_compute. reflexivity. Qed.

(** READ of the socket is registered; and it was registered and cancelled. *)
Definition hd_iom1 : iom_sys hook_kernel :=
  run_state (addEvent zeroed 1%nat (Some 1%nat) 9%nat 3 READ (Some (User 7))) (h_iom hd).
Definition hd_iom2 : iom_sys hook_kernel := run_state (cancelEvent 3 READ) hd_iom1.

Lemma hd_iom1_inv : iom_inv hk_interest hd_iom1.
Proof.
  assert (addEvent zeroed 1%nat (Some 1%nat) 9%nat 3 READ (Some (User 7)) (h_iom hd) = Ok (true, hd_iom1)) as Ha
    by (vm_compute; reflexivity).
  assert (bool_decide (is_Some (scheds (h_iom hd) !! 1%nat)) = true) as Hl by (vm_compute; reflexivity).
  apply bool_decide_eq_true_1 in Hl.
  exact (proj1 (iom_step_inv hk_interest hk_pollable zeroed (fun _ => eq_refl) (h_iom hd) hd_iom1 (ho_iom _ _ hd_ok)
    (IoAdd hk_interest hk_pollable zeroed 1%nat 1%nat 9%nat 3 READ (Some (User 7)) true (h_iom hd) hd_iom1
       demo_fd3 READ_valid Hl hd_pollable Ha))).
Qed.

Lemma hd_iom2_inv : iom_inv hk_interest hd_iom2.
Proof.
  assert (cancelEvent 3 READ hd_iom1 = Ok (true, hd_iom2)) as Hc by (vm_compute; reflexivity).
  exact (proj1 (iom_step_inv hk_interest hk_pollable zeroed (fun _ => eq_refl) hd_iom1 hd_iom2 hd_iom1_inv
    (IoCancel hk_interest hk_pollable zeroed 3 READ true hd_iom1 hd_iom2 demo_fd3 READ_valid Hc))).
Qed.

(** A call with its [timer_info] at address 7 waits for the socket. *)
Definition hd_waiting : hook_sys hook_kernel := hd <| h_iom := hd_iom1 |> <| tinfos := {[7%nat := 0]} |>.
Definition hd_used : hook_sys hook_kernel := hd <| h_iom := hd_iom2 |> <| tinfos := ∅ |>.

Lemma hd_waiting_ok : hook_ok hk_interest hd_waiting.
Proof. apply (hook_ok_iom hd hd_iom1 _ hd_ok hd_iom1_inv); vm_compute; reflexivity. Qed.
Lemma hd_used_ok : hook_ok hk_interest hd_used.
Proof. apply (hook_ok_iom hd hd_iom2 _ hd_ok hd_iom2_inv); vm_compute; reflexivity. Qed.

(** ** Witnesses *)

Lemma do_io_passes_through_witness :
  do_io zeroed 1 hd_env hd_addrs 100 read_f 4 READ SO_RCVTIMEO 0 hd
  = (let (r, k') := k_libc (LIo read_f 4 0) (ikern (h_iom hd)) in Ok (IoDone (lr_ret r), after_libc r k' hd)).
Proof.
  refine (do_io_passes_through hk_interest zeroed 1 hd_env hd hd_addrs 100 read_f 4 READ SO_RCVTIMEO 0 hd_ok _ _).
  - unfold fd_ok. lia.
  - right. left. vm_compute. reflexivity.
Defined.

Lemma do_io_suspends_fiber_witness :
  exists h', do_io zeroed 1 hd_env hd_addrs 100 read_f 3 READ SO_RCVTIMEO 0 hd
      = Ok (IoWait None (Some RCall), h')
    /\ reg (h_iom h') 3 READ = Some (mkEventContext (Some 1%nat) (Some 11%nat) None)
    /\ timers h' = timers hd
    /\ tinfos h' = <[7%nat := 0]> (tinfos hd)
    /\ tls_of (fsys (h_iom h')) 1%nat = mkTLS (Some 10%nat) (Some 10%nat) (Some 10%nat)
    /\ (exists f, fibers (fsys (h_iom h')) !! 11%nat = Some f /\ m_state f = SUSPEND).
Proof.
  exact (do_io_suspends_fiber hk_interest hk_pollable zeroed (fun _ => eq_refl) 0 hd_env hd 10%nat 11%nat hd_addrs 100
    read_f 3 READ SO_RCVTIMEO 0 hd_ctx (ikern (h_iom hd)) hd_ok hd_worker hd_fresh_timer hd_managed hd_can_wait hd_would_block).
Defined.

Lemma hd_used_state :
  in_worker hd_env hd_used 10%nat 11%nat /\ fresh_timer hd_used 8%nat /\ managed hd_used 3 hd_ctx
  /\ hk_pollable (ikern (h_iom hd_used)) 3 = true /\ used (h_iom hd_used) 3 READ = true
  /\ would_block read_f 3 0 hd_used (ikern (h_iom hd_used)).
Proof.
  split; [split; try (vm_compute; reflexivity); discriminate|]. split.
  { assert (base <$> scheds (h_iom hd_used) !! this_sched (h_iom hd_used) = Some empty_TimerManager) as Hb
      by (vm_compute; reflexivity).
    intros sc Hs. rewrite Hs in Hb. injection Hb as ->. reflexivity. }
  split. { exists 5%nat. destruct hd_table as [H1 H2]. exact (conj H1 (conj H2 (conj eq_refl eq_refl))). }
  split; [vm_compute; reflexivity|]. split; [vm_compute; reflexivity|]. exists 0. vm_compute. reflexivity.
Qed.

Lemma second_wait_aborts_witness :
  exists site, do_io zeroed 1 hd_env hd_addrs 100 read_f 3 READ SO_RCVTIMEO 0 hd_used = AssertFailed site
    /\ (site = "iomanager.cpp:60" \/ site = "iomanager.cpp:78").
Proof.
  destruct hd_used_state as (H1 & H2 & H3 & H4 & H5 & H6).
  exact (second_wait_aborts hk_interest hk_pollable zeroed (fun _ => eq_refl) 0 hd_env hd_used 10%nat 11%nat hd_addrs 100
    read_f 3 READ SO_RCVTIMEO 0 hd_ctx (ikern (h_iom hd_used)) hd_used_ok H1 H2 H3 demo_fd3 READ_valid H4 H5 H6).
Defined.

Lemma hd_waiting_reg : is_Some (reg (h_iom hd_waiting) 3 READ).
Proof.
  assert (reg (h_iom hd_waiting) 3 READ = Some (mkEventContext (Some 1%nat) None (Some (User 7)))) as -> by (vm_compute; reflexivity).
  by eexists.
Qed.

Lemma do_io_times_out_witness :
  exists h', run_closure (OnTimerBind 7%nat (OnTimeout 7%nat 3 READ)) hd_waiting = Ok (tt, h')
     /\ tinfos h' = <[7%nat := ETIMEDOUT]> (tinfos hd_waiting) /\ reg (h_iom h') 3 READ = None
     /\ (forall q, queue (h_iom h') q = queue (h_iom hd_waiting) q ++ tasks_of (h_iom hd_waiting) 3 READ q).
Proof.
  exact (proj1 (do_io_times_out hk_interest hk_pollable zeroed 7%nat 3 READ hd_waiting hd_waiting_ok demo_fd3 READ_valid
                  eq_refl hd_waiting_reg)).
Defined.

(** The C library is interrupted once, then reads five bytes. *)
Definition hd_script (h : hook_sys hook_kernel) : hook_sys hook_kernel :=
  h <| h_iom := (h_iom h) <| ikern := (ikern (h_iom h)) <| hk_script := [mkRes (-1) EINTR 0; mkRes 5 0 0] |> |> |>.

Lemma hd_script_ok h : hook_ok hk_interest h -> hook_ok hk_interest (hd_script h).
Proof.
  intros [H1 H2 H3 H4]. split.
  - by apply (fd_inv_same h).
  - apply (rest_step_inv hk_interest (h_iom h)); [done|]. done.
  - done.
  - done.
Qed.

Lemma hd_interrupted h :
  interrupted read_f 3 0 1 (ikern (h_iom (hd_script h))) (mkRes 5 0 0)
    ((ikern (h_iom h)) <| hk_script := [] |>).
Proof.
  apply (InterruptedMore _ _ _ 0 _ (mkRes (-1) EINTR 0) ((ikern (h_iom h)) <| hk_script := [mkRes 5 0 0] |>));
    [reflexivity..|]. apply InterruptedEnd; [reflexivity|]. by left.
Qed.

Lemma hd_script_managed h c : managed h 3 c -> managed (hd_script h) 3 c.
Proof. intros (q & Hq). exists q. exact Hq. Qed.


Lemma do_io_wakes_up_witness :
  exists h', do_io_resume zeroed 2 hd_env hd_addrs 100 7%nat u64_max (Some 8%nat) read_f 3 READ 0 (hd_script hd_waiting)
      = Ok (IoDone 5, h')
    /\ timers h' = delete 8%nat (timers (hd_script hd_waiting))
    /\ run_closure (OnTimerBind 7%nat (OnTimeout 7%nat 3 READ)) h' = Ok (tt, h').
Proof.
  refine (do_io_wakes_up hk_interest zeroed 1 2 hd_env (hd_script hd_waiting) hd_addrs 100 7%nat u64_max (Some 8%nat)
    read_f 3 READ 0 (mkRes 5 0 0) _ (hd_script_ok hd_waiting hd_waiting_ok) eq_refl (hd_interrupted hd_waiting) _ _).
  - lia.
  - discriminate.
Defined.

Lemma sleep_suspends_fiber_witness :
  exists h', sleep hd_env hd_addrs 100 2 hd = Ok (inr (Some RCall), h')
    /\ timers h' = <[8%nat := u64 (100 + 2000)]> (timers hd)
    /\ tls_of (fsys (h_iom h')) 1%nat = mkTLS (Some 10%nat) (Some 10%nat) (Some 10%nat)
    /\ (exists f, fibers (fsys (h_iom h')) !! 11%nat = Some f /\ m_state f = SUSPEND).
Proof.
  refine (proj1 (sleep_suspends_fiber hk_interest hd_env hd 10%nat 11%nat hd_addrs 100 hd_ok hd_worker hd_fresh_timer)
    (sleep hd_env hd_addrs 100 2) 2000 _).
  exact (CallSleep hd_env hd_addrs 100 2).
Defined.

Lemma fcntl_roundtrip_witness :
  exists h1 v fl1, fcntl hd_addrs 3 F_SETFL 2 hd = Ok (0, h1) /\ fcntl hd_addrs 3 F_GETFL 0 h1 = Ok (v, h1)
    /\ nonblocking v = nonblocking 2
    /\ hk_status (ikern (h_iom h1)) 3 = Some fl1 /\ nonblocking fl1 = true.
Proof.
  exact (fcntl_roundtrip hk_interest hk_status hk_file_laws hd hd_addrs 3 5%nat hd_ctx 2 2048 hd_ok demo_fd3
    (proj1 hd_table) (proj2 hd_table) eq_refl hd_status).
Defined.

Lemma ioctl_makes_kernel_blocking_witness :
  exists h' c' fl', ioctl hd_addrs 3 FIONBIO 0 hd = Ok (0, h')
    /\ managed h' 3 c' /\ m_sysNonblock c' = true
    /\ hk_status (ikern (h_iom h')) 3 = Some fl' /\ nonblocking fl' = false.
Proof.
  exact (ioctl_makes_kernel_blocking hk_interest hk_status hk_libc_laws hd hd_addrs 3 5%nat hd_ctx 2048 hd_ok demo_fd3
    (proj1 hd_table) (proj2 hd_table) eq_refl hd_status).
Defined.

Lemma setsockopt_records_timeout_witness :
  exists h' c', setsockopt hd_env hd_addrs 3 SOL_SOCKET SO_RCVTIMEO 2 500000 hd = Ok (-1, h')
    /\ fd_table (fdm_of h') 3 = Some 5%nat /\ h_fdctxs h' !! 5%nat = Some c'
    /\ getTimeout SO_RCVTIMEO c' = u64 (2 * 1000 + Z.quot 500000 1000)
    /\ (forall opt', opt' = SO_RCVTIMEO \/ opt' = SO_SNDTIMEO -> opt' <> SO_RCVTIMEO ->
          getTimeout opt' c' = getTimeout opt' hd_ctx)
    /\ (0 <= 500000 < 1000 -> getTimeout SO_RCVTIMEO c' = u64 (2 * 1000)).
Proof.
  refine (setsockopt_records_timeout hk_interest hd_env hd hd_addrs 3 5%nat hd_ctx SO_RCVTIMEO 2 500000
    (mkRes (-1) EAGAIN 0) (ikern (h_iom hd)) hd_ok eq_refl demo_fd3 (proj1 hd_table) (proj2 hd_table) _ _).
  - by left.
  - vm_compute. reflexivity.
Defined.

Lemma close_wakes_and_forgets_witness :
  exists h' r k1 k2, close hd_env hd_addrs 3 hd_waiting = Ok (lr_ret r, h')
    /\ k_libc (LClose 3) k1 = (r, k2) /\ ikern (h_iom h') = k2 /\ hk_interest k1 !! 3 = None
    /\ (forall fd', fd_ok fd' -> fd_table (fdm_of h') fd' = if decide (3 = fd') then None else fd_table (fdm_of hd_waiting) fd')
    /\ reg (h_iom h') 3 READ = None /\ reg (h_iom h') 3 WRITE = None
    /\ (forall s, queue (h_iom h') s = queue (h_iom hd_waiting) s ++ tasks_of (h_iom hd_waiting) 3 READ s
                                       ++ tasks_of (h_iom hd_waiting) 3 WRITE s).
Proof.
  refine (close_wakes_and_forgets hk_interest hk_pollable hd_env hd_waiting hd_addrs 3 5%nat hd_waiting_ok eq_refl _ demo_fd3 _).
  - vm_compute. reflexivity.
  - vm_compute. reflexivity.
Defined.
