(* ===== verification/HookEquiv.v ===== *)
(** * Threads that are not hooked (src/src/hook.h, src/src/hook.cpp)

    The function pointers behind the hooks and how [hook_init] fills them, and
    what the replaced functions are for a thread that did not call
    [set_hook(true)]: the functions of the C library, with two exceptions. *)

From S2P Require Import Prelude Timer Fiber Scheduler Posix FdManager IOManager IOManagerInv IOManagerProps Hook HookProps HookDemo.

(** ** The table of original functions *)

(** The functions of hook.h. *)
Inductive hook_fun :=
| Fsleep | Fusleep | Fnanosleep
| Fsocket | Fconnect | Faccept
| Fread | Freadv | Frecv | Frecvfrom | Frecvmsg
| Fwrite | Fwritev | Fsend | Fsendto | Fsendmsg
| Fclose | Ffcntl | Fioctl | Fgetsockopt | Fsetsockopt.

#[export] Instance hook_fun_eq_dec : EqDecision hook_fun.
Proof. solve_decision. Defined.

(** [#name] in [HOOK_FUN]. *)
Definition hook_name (f : hook_fun) : string :=
  match f with
  | Fsleep => "sleep" | Fusleep => "usleep" | Fnanosleep => "nanosleep"
  | Fsocket => "socket" | Fconnect => "connect" | Faccept => "accept"
  | Fread => "read" | Freadv => "readv" | Frecv => "recv" | Frecvfrom => "recvfrom" | Frecvmsg => "recvmsg"
  | Fwrite => "write" | Fwritev => "writev" | Fsend => "send" | Fsendto => "sendto" | Fsendmsg => "sendmsg"
  | Fclose => "close" | Ffcntl => "fcntl" | Fioctl => "ioctl"
  | Fgetsockopt => "getsockopt" | Fsetsockopt => "setsockopt"
  end.

(** [HOOK_FUN] *)
Definition HOOK_FUN : list hook_fun :=
  [Fsleep; Fusleep; Fnanosleep; Fsocket; Fconnect; Faccept; Fread; Freadv; Frecv; Frecvfrom; Frecvmsg;
   Fwrite; Fwritev; Fsend; Fsendto; Fsendmsg; Fclose; Ffcntl; Fioctl; Fgetsockopt; Fsetsockopt].

(** The pointers [name_f], null ([None]) before [hook_init], and its static. *)
Record hook_ptrs := mkHookPtrs {
  f_ptr : hook_fun -> option ptr;
  is_inited : bool;
}.
#[export] Instance eta_hook_ptrs : Eta hook_ptrs := fun x => mkHookPtrs (f_ptr x) (is_inited x).

Definition hook_ptrs_init : hook_ptrs := mkHookPtrs (fun _ => None) false.

Section Init.
(** [dlsym(RTLD_NEXT, name)] *)
Context (dlsym : string -> option ptr).

(** [name##_f = (name##_func)dlsym(RTLD_NEXT, #name)] *)
Definition hook_bind (f : hook_fun) (x : hook_ptrs) : hook_ptrs :=
  x <| f_ptr := fun g => if decide (g = f) then dlsym (hook_name f) else f_ptr x g |>.

(** [hook_init]: the static is tested and never set. *)
Definition hook_init (x : hook_ptrs) : hook_ptrs :=
  if is_inited x then x else foldl (fun x f => hook_bind f x) x HOOK_FUN.

Lemma hook_bind_all fs x g :
  f_ptr (foldl (fun x f => hook_bind f x) x fs) g = if decide (g ∈ fs) then dlsym (hook_name g) else f_ptr x g.
Proof.
  revert x. induction fs as [|f fs IH]; intros x; [done|]. cbn [foldl]. rewrite IH. cbn.
  destruct (decide (g ∈ fs)) as [Hin|Hin]; [by rewrite decide_True by set_solver|].
  destruct (decide (g = f)) as [->|Hne]; [by rewrite decide_True by set_solver|by rewrite decide_False by set_solver].
Qed.

Lemma HOOK_FUN_all f : f ∈ HOOK_FUN.
Proof. unfold HOOK_FUN. destruct f; set_solver. Qed.

(** After the static initialiser every pointer is what [dlsym] finds under its
    own name; since [is_inited] stays false, every further call looks all 21
    names up again, to the same effect. *)
Lemma hook_init_binds n f :
  f_ptr (Nat.iter (S n) hook_init hook_ptrs_init) f = dlsym (hook_name f)
  /\ is_inited (Nat.iter n hook_init hook_ptrs_init) = false.
Proof.
  assert (forall fs x, is_inited (foldl (fun x f => hook_bind f x) x fs) = is_inited x) as Hk.
  { intros fs. induction fs as [|g fs IH]; intros x; [done|]. cbn [foldl]. by rewrite IH. }
  assert (forall m, is_inited (Nat.iter m hook_init hook_ptrs_init) = false) as Hn.
  { induction m as [|m IH]; [done|]. rewrite Nat.iter_succ. unfold hook_init at 1. rewrite IH. by rewrite Hk. }
  split; [|done]. rewrite Nat.iter_succ. unfold hook_init at 1. rewrite Hn, hook_bind_all.
  by rewrite decide_True by apply HOOK_FUN_all.
Qed.
End Init.

(** ** Equivalence with the C library *)

Section Unhooked.
Context {K : Type} {FO : FileOps K} {EO : EpollOps K} {LO : LibcOps K} (garbage : ptr -> Z).
Implicit Type h : hook_sys K.

(** The C library function itself, as a call that is done. *)
Definition libc_io (c : libc_call) : M (hook_sys K) io_outcome := let! n := libc_ret c in mret_M (IoDone n).
Definition libc_sleep (c : libc_call) : M (hook_sys K) sleep_ret := let! n := libc_ret c in mret_M (inl n).


Lemma fd_inv_kernel h k :
  fd_inv (fdm_of h) -> fd_inv (fdm_of (h <| h_iom := (h_iom h) <| ikern := k |> |>)).
Proof. intros Hi. by apply (fd_inv_same h). Qed.

(** A created context changes the kernel as [FdCtx_ctor] does. *)
Lemma fd_get_create h fd a c k' :
  fd_inv (fdm_of h) -> fd_ok fd -> fd_table (fdm_of h) fd = None ->
  FdCtx_ctor fd (ikern (h_iom h)) = (c, k') ->
  exists h', fd_get fd true a h = Ok (Some a, h') /\ ikern (h_iom h') = k' /\ h_fdctxs h' !! a = Some c.
Proof.
  intros Hi Hfd Ht Hc. unfold fd_get, on_fdm, get. munfold.
  rewrite (proj2 (Z.eqb_neq fd (-1))) by (destruct Hfd; lia). rewrite get_read_eq, Ht by done. cbn [fmap option_fmap option_map].
  rewrite (get_write_eq (fdm_of h) fd a c k') by done. eexists. split; [reflexivity|]. cbn. by rewrite lookup_insert_eq.
Qed.

(** [accept] is the exception.  On a thread that is not hooked it still
    gives the new descriptor a context, whose construction switches the kernel's
    descriptor to non-blocking, although the thread, not being hooked, goes on
    with plain system calls: they now fail with EAGAIN where they used to wait. *)
Theorem unhooked_accept_makes_nonblocking (status : K -> Z -> option Z) (L : FileLaws K status)
    e a now h fuel s args r k' mode :
  is_hooked e = false -> fd_inv (fdm_of h) ->
  k_libc (LIo accept_f s args) (ikern (h_iom h)) = (r, k') ->
  fd_ok (lr_ret r) -> fd_table (fdm_of h) (lr_ret r) = None ->
  k_fstat (lr_ret r) k' = Some mode -> S_ISSOCK mode = true ->
  exists h' fl, accept garbage fuel e a now s args h = Ok (IoDone (lr_ret r), h')
    /\ status (ikern (h_iom h')) (lr_ret r) = Some fl /\ nonblocking fl = true
    /\ (forall fd, fd <> lr_ret r -> status (ikern (h_iom h')) fd = status k' fd).
Proof.
  intros He Hi Hk Hfd Ht Hst Hsock. unfold is_hooked in He. set (h1 := h <| h_iom := (h_iom h) <| ikern := k' |> |>).
  assert (libc_ret (LIo accept_f s args) h = Ok (lr_ret r, h1)) as Hl.
  { rewrite (libc_ret_eq _ h r k' Hk). unfold after_libc. rewrite (proj2 (Z.eqb_neq _ _)) by (destruct Hfd; lia). reflexivity. }
  destruct (FdCtx_ctor (lr_ret r) k') as [c k2] eqn:Ec.
  destruct (fd_get_create h1 (lr_ret r) (a_ctx a) c k2) as (h' & Hg & Hk' & _).
  { by apply fd_inv_kernel. }
  { done. }
  { exact Ht. }
  { exact Ec. }
  destruct (FdCtx_ctor_nonblocking status (lr_ret r) k' c k2 Ec) as (_ & Hnb & Hother).
  assert (m_isSocket c = true) as Hs.
  { revert Ec. unfold FdCtx_ctor, FdCtx_init. cbn [m_isInit m_fd upd_field]. rewrite Hst. cbn. rewrite Hsock.
    destruct (k_fcntl _ F_GETFL _ _) as [fl kk]. cbn. destruct (negb (nonblocking fl)); [destruct (k_fcntl _ F_SETFL _ _)|]; by intros [= <- _]. }
  destruct (Hnb Hs) as (fl & Hfl & Hnbl). exists h', fl. split; [|split; [by rewrite Hk'|split; [done|]]].
  - unfold accept, hooked_io, do_io. rewrite He. cbn [negb]. munfold. rewrite Hl. unfold accept_finish. munfold.
    rewrite (proj2 (Z.geb_le _ _)) by (destruct Hfd; lia). by rewrite Hg.
  - intros fd Hne. rewrite Hk'. apply Hother. by left.
Qed.
End Unhooked.

(** ** Witnesses *)

(** A thread without hooks; descriptor 6 is the socket the next [accept]
    returns, still blocking. *)
Definition he_env : env := mkEnv 1%nat false None.
Definition he_kernel : hook_kernel :=
  mkHookKernel (mkSim {[3 := (49152, 2); 6 := (49152, 2)]} ∅) [mkRes 6 0 0].
Definition he : hook_sys hook_kernel := hd <| h_iom := (h_iom hd) <| ikern := he_kernel |> |>.


Lemma he_accepts : k_libc (LIo accept_f 3 0) (ikern (h_iom he)) = (mkRes 6 0 0, he_kernel <| hk_script := [] |>).
Proof. vm_compute. reflexivity. Qed.
Lemma he_fd6 : fd_ok 6. Proof. unfold fd_ok. lia. Qed.
Lemma he_no_ctx : fd_table (fdm_of he) 6 = None.
Proof. vm_compute. reflexivity. Qed.

Lemma he_fd_inv : fd_inv (fdm_of he).
Proof. exact (fd_inv_kernel hd he_kernel hd_fd_inv). Qed.
Lemma he_socket : k_fstat 6 (he_kernel <| hk_script := [] |>) = Some 49152 /\ S_ISSOCK 49152 = true.
Proof. split; vm_compute; reflexivity. Qed.

Lemma unhooked_accept_makes_nonblocking_witness :
  exists h' fl, accept zeroed 1 he_env hd_addrs 0 3 0 he = Ok (IoDone 6, h')
    /\ hk_status (ikern (h_iom h')) 6 = Some fl /\ nonblocking fl = true
    /\ (forall fd, fd <> 6 -> hk_status (ikern (h_iom h')) fd = hk_status (he_kernel <| hk_script := [] |>) fd).
Proof.
  exact (unhooked_accept_makes_nonblocking zeroed hk_status hk_file_laws he_env hd_addrs 0 he 1 3 0 (mkRes 6 0 0)
    (he_kernel <| hk_script := [] |>) 49152 eq_refl he_fd_inv he_accepts he_fd6 he_no_ctx
    (proj1 he_socket) (proj2 he_socket)).
Defined.
