(* ===== verification/HookCompose.v ===== *)
(** * A blocking call from its first attempt to its result

    HookProps.v follows one component at a time.  Here the parts are composed:
    a hooked call blocks, [epoll_wait] reports its descriptor, the IOManager
    queues the fiber, a worker calls the fiber, and the call returns the data.
    Between the stages the rest of the process may do anything that leaves the
    call blocked, or woken. *)

From S2P Require Import Prelude Timer Fiber Scheduler SchedulerThreads SchedulerProps Posix FdManager IOManager IOManagerInv IOManagerProps IOManagerSched Hook HookProps HookDemo.

(** ** What an operation of the IOManager leaves alone *)

Section Frame.
Context {K : Type} `{EpollOps K}.

(** The part of the state that the stages of a call share with an operation. *)
Definition keeps_fibers {A} (m : M (iom_sys K) A) : Prop :=
  forall s a s', m s = Ok (a, s') -> fsys s' = fsys s.

Lemma keeps_bind {A B} (m : M (iom_sys K) A) (k : A -> M (iom_sys K) B) :
  keeps_fibers m -> (forall a, keeps_fibers (k a)) -> keeps_fibers (let! x := m in k x).
Proof.
  intros Hm Hk s b s' Hx. unfold mbind_M in Hx. destruct (m s) as [[a s1]| | | |] eqn:E; try done.
  rewrite (Hk a s1 b s' Hx). exact (Hm s a s1 E).
Qed.

Lemma keeps_ret {A} (a : A) : keeps_fibers (mret_M a).
Proof. by intros s a' s' [= <- <-]. Qed.

Lemma keeps_modify f : (forall s, fsys (f s) = fsys s) -> keeps_fibers (mmodify f).
Proof. intros Hf s a s' [= <- <-]. apply Hf. Qed.

Lemma keeps_deref {A} site (o : iom_sys K -> option A) : keeps_fibers (mderef site o).
Proof. intros s a s'. unfold mderef. destruct (o s); [|done]. by intros [= <- <-]. Qed.

Lemma keeps_assert site b : keeps_fibers (ASSERT site b).
Proof. intros s a s'. unfold ASSERT. destruct b; [|done]. by intros [= <- <-]. Qed.

Lemma keeps_epoll op fd e : keeps_fibers (epoll_ctl op fd e).
Proof. intros s a s'. unfold epoll_ctl, mkern. destruct (k_epoll_ctl op fd e (ikern s)). by intros [= <- <-]. Qed.

End Frame.

Ltac keeps :=
  repeat match goal with
  | |- forall _, _ => intro
  | |- keeps_fibers (mbind_M _ _) => apply keeps_bind
  | |- keeps_fibers (mret_M _) => apply keeps_ret
  | |- keeps_fibers mget => by intros ? ? ? [= <- <-]
  | |- keeps_fibers (mderef _ _) => apply keeps_deref
  | |- keeps_fibers (get_context _ _) => apply keeps_deref
  | |- keeps_fibers (ASSERT _ _) => apply keeps_assert
  | |- keeps_fibers (epoll_ctl _ _ _) => apply keeps_epoll
  | |- keeps_fibers (mmodify _) => apply keeps_modify; done
  | |- keeps_fibers (match ?x with _ => _ end) => destruct x
  | |- keeps_fibers (mfail _) => by intros ? ? ?
  end.

Section FrameOps.
Context {K : Type} `{EpollOps K}.

Lemma scheduleEvent_keeps_fibers ev : keeps_fibers (scheduleEvent (K := K) ev).
Proof. unfold scheduleEvent, trigger, FdContext_scheduleEvent, schedule_on. cbv zeta. keeps. Qed.

Lemma cancelEvent_keeps_fibers fd ev : keeps_fibers (cancelEvent (K := K) fd ev).
Proof.
  unfold cancelEvent, find_context, fd_context_at, FdContext_scheduleEvent, schedule_on. cbv zeta. keeps.
Qed.

(** The IOManager never touches the timers of a scheduler. *)
Lemma emits_same_timers {A} (m : M (iom_sys K) A) s a s' : emits m -> m s = Ok (a, s') -> same_timers s s'.
Proof.
  intros Hm Hx. destruct (Hm s a s' Hx) as (H1 & acts & Ha & Hs). split; [done|]. intros q. rewrite Hs. clear -Ha.
  generalize (scheds s). induction Ha as [|[q' a] acts Ha _ IH]; intros m0; [done|]. cbn. rewrite IH.
  unfold on_sched. cbn. rewrite lookup_alter. case_decide as Hq; [subst q'|done].
  destruct (m0 !! q) as [sc|]; cbn; [|done]. f_equal. destruct a; try done. cbn.
  unfold schedule, tickle. cbn. by repeat case_match.
Qed.
End FrameOps.

Section HookCompose.
Context {K : Type} {FO : FileOps K} {EO : EpollOps K} {LO : LibcOps K}
  (interest : K -> gmap Z epoll_event) (pollable : K -> Z -> bool)
  {L : EpollLaws K interest pollable} {LE : LibcEpollLaws K interest pollable}
  (garbage : ptr -> Z) (no_garbage : forall p, garbage p = 0).
Implicit Type h : hook_sys K.

(** The client fiber [p] is suspended. *)
Record suspended (p : ptr) h : Prop := {
  su_ok : hook_ok interest h;
  su_fiber : exists f, fibers (fsys (h_iom h)) !! p = Some f /\ m_state f = SUSPEND /\ m_main f = false;
}.

(** It is in a call with the [timer_info] [w] that has not timed out. *)
Record woken (p w : ptr) h : Prop := {
  wk_susp : suspended p h;
  wk_info : tinfos h !! w = Some 0;
}.

(** It also still waits for its event, with the IOManager [q]. *)
Record blocked (q p w : ptr) (fd ev : Z) h : Prop := {
  bk_woken : woken p w h;
  bk_reg : reg (h_iom h) fd ev = Some (mkEventContext (Some q) (Some p) None);
}.

(** *** The event is reported *)

Lemma hook_ok_event h i :
  hook_ok interest h -> iom_inv interest i -> fsys i = fsys (h_iom h) -> same_timers (h_iom h) i ->
  hook_ok interest (h <| h_iom := i |>).
Proof.
  intros [G1 G2 G3 G4] Hi Hf [E1 E2]. split; cbn.
  - by apply (fd_inv_same h).
  - done.
  - by rewrite Hf.
  - intros sc Hs. specialize (E2 (this_sched i)). rewrite Hs in E2.
    destruct (scheds (h_iom h) !! this_sched i) as [sc0|] eqn:E; [|done]. injection E2 as ->.
    apply G4. by rewrite <- E1.
Qed.

Lemma reg_is_armed (s : iom_sys K) fd ev ec cp cx :
  reg s fd ev = Some ec -> ctx_at s fd = Some (cp, cx) -> armed cx ev = true.
Proof. unfold reg. intros Hr Hc. rewrite Hc in Hr. by destruct (armed cx ev). Qed.

Lemma blocked_event q p w fd ev h cp cx evt :
  blocked q p w fd ev h -> fd_ok fd -> valid_ev ev ->
  ctx_at (h_iom h) fd = Some (cp, cx) -> ep_ptr evt = cp -> triggered cx (ep_events evt) = ev ->
  exists h', on_iom (scheduleEvent evt) h = Ok (true, h') /\ woken p w h'
    /\ reg (h_iom h') fd ev = None
    /\ (forall q', queue (h_iom h') q' = queue (h_iom h) q' ++ (if decide (q = q') then [Task_fiber p (-1)] else []))
    /\ timers h' = timers h /\ this_sched (h_iom h') = this_sched (h_iom h).
Proof.
  intros [[[Hok Hsusp] Hw] Hreg] Hfd Hev Hat <- Htr.
  pose proof (reg_is_armed _ _ _ _ _ _ Hreg Hat) as Harm.
  apply (ctx_at_Some interest) in Hat as [Hc Hcfd]; [|apply Hok].
  pose proof (scheduleEvent_spec interest pollable (h_iom h) evt cx (ho_iom _ _ Hok) Hc) as Hs.
  cbv zeta in Hs. rewrite Htr, Hcfd in Hs.
  assert (exists i, scheduleEvent evt (h_iom h) = Ok (true, i) /\ iom_inv interest i /\ reg i fd ev = None
    /\ forall q', queue i q' = queue (h_iom h) q' ++ tasks_of (h_iom h) fd ev q') as (i & He & Hi & Hr & Hq).
  { destruct Hev as [-> | ->]; cbn in Hs; rewrite Harm in Hs; cbn in Hs;
      destruct Hs as (i & He & Hi & Hu & Hq & _); exists i; do 2 (split; [done|]);
      (split; [|intros q'; rewrite Hq; by rewrite ?app_nil_r]).
    - destruct (Hu fd READ Hfd READ_valid) as [-> _]. rewrite bool_decide_true; [done|]. split; [done|left].
    - destruct (Hu fd WRITE Hfd WRITE_valid) as [-> _]. rewrite bool_decide_true; [done|]. split; [done|left]. }
  pose proof (scheduleEvent_keeps_fibers evt _ _ _ He) as Hf.
  pose proof (emits_same_timers _ _ _ _ (emits_scheduleEvent evt) He) as Ht.
  exists (h <| h_iom := i |>). unfold on_iom. munfold. rewrite He. split; [done|]. split; [|split; [done|split; [|split]]].
  - split; [|done]. split; [by apply hook_ok_event|]. cbn. by rewrite Hf.
  - intros q'. cbn. rewrite Hq. unfold tasks_of. rewrite Hreg. cbn. repeat case_decide; congruence.
  - apply timers_same; apply Ht.
  - apply Ht.
Qed.

(** *** The fiber is called *)

(** The state of [h] with [p] called by thread [t], whose main fiber is [m]. *)
Definition resumed (t : tid) (m p : ptr) h : hook_sys K :=
  h <| h_iom := (h_iom h) <| fsys := switch_in t m p (fsys (h_iom h)) |> |>.

Lemma suspended_call p h t m :
  suspended p h -> tls_of (fsys (h_iom h)) t = mkTLS (Some m) (Some m) (Some m) ->
  on_fibers (call t p) h = Ok (Some RBody, resumed t m p h)
  /\ hook_ok interest (resumed t m p h)
  /\ tls_of (fsys (h_iom (resumed t m p h))) t = mkTLS (Some p) (Some m) (Some p).
Proof.
  intros [Hok (f & Hf & Hst & Hmf)] Ht. pose proof (ho_fiber _ _ Hok) as Hi.
  assert (m_state f <> RUNNING) as Hnr by congruence.
  destruct (inv_fiber _ Hi p f Hf Hmf) as [_ Hctx]. destruct (Hctx Hnr) as [Hc Hre]. rewrite Hst in Hre. cbn in Hre.
  pose proof (inv_thread _ Hi t) as [_ Hth]. rewrite Ht in Hth. cbn in Hth. destruct Hth as (fm & (Hm & Hmm & _) & _).
  assert (p <> m) as Hne by congruence.
  split; [|split].
  - unfold on_fibers, on_iom. munfold. rewrite (call_eq t m p f fm) by (done || congruence). by rewrite Hre.
  - destruct Hok as [G1 G2 G3 G4]. split; [exact G1| | |exact G4].
    + apply (rest_step_inv interest _ _ G2). do 4 (split; [done|]). by split.
    + by apply (switch_in_inv t m p f).
  - cbn. by destruct (switch_in_lookup t m p f fm (fsys (h_iom h)) Hf Hm Hne) as (_ & _ & -> & _).
Qed.

(** C4: a blocking call from end to end.  A hooked call that would block
    suspends its fiber and is blocked, waiting for its event with the timer of
    its timeout.  Whatever else happened, as long as it is blocked: when
    [epoll_wait] reports exactly its event, [scheduleEvent] unregisters it and
    appends the fiber, once, to the queue of the IOManager.  Whatever else
    happened, as long as it has not timed out: a worker (the same or another
    one) that calls the fiber from its main fiber continues the call behind its
    [Yield], and when the C library now has a result the call returns it, with
    its timer disarmed and its [timer_info] gone, the fiber still executing on
    that worker. *)
Theorem blocked_call_completes fuel e h m p a now fn fd ev so args c k' :
  hook_ok interest h -> in_worker e h m p -> fresh_timer h (a_timer a) -> managed h fd c ->
  can_wait pollable h fd ev -> would_block fn fd args h k' ->
  let q := this_sched (h_iom h) in
  let timer := if getTimeout so c =? u64_max then None else Some (a_timer a) in
  exists h1, do_io garbage (S fuel) e a now fn fd ev so args h = Ok (IoWait timer (Some RCall), h1)
  /\ blocked q p (a_info a) fd ev h1
  /\ forall h2 cp cx evt,
    blocked q p (a_info a) fd ev h2 -> ctx_at (h_iom h2) fd = Some (cp, cx) -> ep_ptr evt = cp ->
    triggered cx (ep_events evt) = ev ->
    exists h3, on_iom (scheduleEvent evt) h2 = Ok (true, h3) /\ woken p (a_info a) h3
    /\ reg (h_iom h3) fd ev = None
    /\ queue (h_iom h3) q = queue (h_iom h2) q ++ [Task_fiber p (-1)]
    /\ forall h4 e' m',
      woken p (a_info a) h4 -> tls_of (fsys (h_iom h4)) (e_tid e') = mkTLS (Some m') (Some m') (Some m') ->
      exists h5, on_fibers (call (e_tid e') p) h4 = Ok (Some RBody, h5)
      /\ forall n fuel' a' now' r k'',
        interrupted fn fd args n (ikern (h_iom h5)) r k'' -> (n < fuel')%nat -> lr_ret r <> -1 ->
        exists h6, do_io_resume garbage fuel' e' a' now' (a_info a) (getTimeout so c) timer fn fd ev args h5
            = Ok (IoDone (lr_ret r), h6)
        /\ timers h6 = match timer with Some t => delete t (timers h5) | None => timers h5 end
        /\ tinfos h6 !! a_info a = None
        /\ tls_of (fsys (h_iom h6)) (e_tid e') = mkTLS (Some p) (Some m') (Some p).
Proof.
  intros Hh Hw Hq Hm Hc Hk q timer. pose proof Hc as (Hfd & Hev & _).
  destruct (do_io_waits interest pollable garbage no_garbage fuel e h m p a now fn fd ev so args c k' Hh Hw Hq Hm Hc Hk)
    as (h1 & He & [W1 W2 W3 W4 W5 W6 W7 _]).
  exists h1. split; [exact He|]. split.
  { split; [split; [done|]|by rewrite W2, (iw_sched _ _ _ _ Hw)]. rewrite W6. cbn. apply lookup_insert_eq. }
  intros h2 cp cx evt Hb Hat Hp Htr.
  destruct (blocked_event q p (a_info a) fd ev h2 cp cx evt Hb Hfd Hev Hat Hp Htr) as (h3 & H3 & Hw3 & Hr3 & Hq3 & _).
  exists h3. do 3 (split; [done|]). split; [by rewrite Hq3, decide_True|].
  intros h4 e' m' Hw4 Ht4. destruct (suspended_call p h4 (e_tid e') m' (wk_susp _ _ _ Hw4) Ht4) as (Hc4 & Hok & Ht5).
  exists (resumed (e_tid e') m' p h4). split; [done|]. intros n fuel' a' now' r k'' Hint Hlt Hr.
  destruct (do_io_resume_data interest garbage n fuel' e' _ a' now' (a_info a) (getTimeout so c) timer fn fd ev args r k''
    Hok (wk_info _ _ _ Hw4) Hint Hlt Hr) as (h6 & H6 & Ht6 & _ & Hf6 & _ & Hi6).
  exists h6. do 2 (split; [done|]). split; [rewrite Hi6; apply lookup_delete_eq|by rewrite Hf6].
Qed.
End HookCompose.

(** ** A concrete run *)

(** Fiber 11 reads from the socket, which has nothing; the socket becomes
    readable; thread 1 calls the fiber; the read is interrupted once and then
    gets five bytes. *)
Definition hc_wait : hook_sys hook_kernel :=
  run_state (do_io zeroed 1 hd_env hd_addrs 100 read_f 3 READ SO_RCVTIMEO 0) hd.
Definition hc_ctx : ptr := match ctx_at (h_iom hc_wait) 3 with Some (p, _) => p | None => 0%nat end.
Definition hc_event : epoll_event := mkEpollEvent EPOLLIN hc_ctx.
Definition hc_queued : hook_sys hook_kernel := run_state (on_iom (scheduleEvent hc_event)) hc_wait.
Definition hc_called : hook_sys hook_kernel := run_state (on_fibers (call 1%nat 11%nat)) (hd_script hc_queued).

Lemma hc_wait_eq :
  do_io zeroed 1 hd_env hd_addrs 100 read_f 3 READ SO_RCVTIMEO 0 hd = Ok (IoWait None (Some RCall), hc_wait).
Proof. vm_compute. reflexivity. Qed.
Lemma hc_queued_eq : on_iom (scheduleEvent hc_event) hc_wait = Ok (true, hc_queued).
Proof. vm_compute. reflexivity. Qed.
Lemma hc_called_eq : on_fibers (call 1%nat 11%nat) (hd_script hc_queued) = Ok (Some RBody, hc_called).
Proof. vm_compute. reflexivity. Qed.
Lemma hc_ctx_eq : exists cx, ctx_at (h_iom hc_wait) 3 = Some (hc_ctx, cx).
Proof. eexists. vm_compute. reflexivity. Qed.
Lemma hc_main : tls_of (fsys (h_iom (hd_script hc_queued))) 1%nat = mkTLS (Some 10%nat) (Some 10%nat) (Some 10%nat).
Proof. vm_compute. reflexivity. Qed.
Lemma hc_kernel : ikern (h_iom hc_called) = ikern (h_iom (hd_script hc_queued)).
Proof. vm_compute. reflexivity. Qed.

Lemma Ok_inj {A S} (a b : A) (s s' : S) : Ok (a, s) = Ok (b, s') -> s = s'.
Proof. by intros [= _ ->]. Qed.

Lemma hd_script_woken p w h : woken hk_interest p w h -> woken hk_interest p w (hd_script h).
Proof. intros [[H1 H2] H3]. split; [|done]. split; [by apply hd_script_ok|done]. Qed.

Lemma blocked_call_completes_witness :
  exists h6, do_io zeroed 1 hd_env hd_addrs 100 read_f 3 READ SO_RCVTIMEO 0 hd = Ok (IoWait None (Some RCall), hc_wait)
    /\ on_iom (scheduleEvent hc_event) hc_wait = Ok (true, hc_queued)
    /\ on_fibers (call 1%nat 11%nat) (hd_script hc_queued) = Ok (Some RBody, hc_called)
    /\ do_io_resume zeroed 2 hd_env hd_addrs 200 7%nat u64_max None read_f 3 READ 0 hc_called = Ok (IoDone 5, h6)
    /\ tls_of (fsys (h_iom h6)) 1%nat = mkTLS (Some 11%nat) (Some 10%nat) (Some 11%nat).
Proof.
  destruct (blocked_call_completes hk_interest hk_pollable zeroed (fun _ => eq_refl) 0 hd_env hd 10%nat 11%nat hd_addrs 100
    read_f 3 READ SO_RCVTIMEO 0 hd_ctx (ikern (h_iom hd)) hd_ok hd_worker hd_fresh_timer hd_managed hd_can_wait hd_would_block)
    as (h1 & H1 & B1 & Hnext).
  destruct (Ok_inj _ _ _ _ (eq_trans (eq_sym hc_wait_eq) H1)). destruct hc_ctx_eq as [cx Hcx].
  destruct (Hnext hc_wait hc_ctx cx hc_event B1 Hcx eq_refl eq_refl) as (h3 & H3 & W3 & _ & _ & Hnext').
  destruct (Ok_inj _ _ _ _ (eq_trans (eq_sym hc_queued_eq) H3)).
  destruct (Hnext' (hd_script hc_queued) hd_env 10%nat (hd_script_woken _ _ _ W3) hc_main) as (h5 & H5 & Hlast).
  destruct (Ok_inj _ _ _ _ (eq_trans (eq_sym hc_called_eq) H5)).
  destruct (Hlast 1%nat 2%nat hd_addrs 200 (mkRes 5 0 0) ((ikern (h_iom hc_queued)) <| hk_script := [] |>))
    as (h6 & H6 & _ & _ & T6).
  - rewrite hc_kernel. exact (hd_interrupted hc_queued).
  - lia.
  - discriminate.
  - exists h6. exact (conj hc_wait_eq (conj hc_queued_eq (conj hc_called_eq (conj H6 T6)))).
Defined.
