(* ===== verification/HookTime.v ===== *)
(** * Timeouts and sleeping, from end to end

    The idle loop takes the expired timers out of the manager and queues their
    callbacks; here that pass is run on the IOManager of the hooked calls, and
    the calls that depend on it are followed to their end: a wait that times
    out, and the sleep family.  As in HookCompose.v, the rest of the process may
    do anything between two stages that leaves the call where it is. *)

From S2P Require Import Prelude Timer Fiber Scheduler SchedulerThreads SchedulerProps Posix FdManager IOManager IOManagerInv IOManagerProps IOManagerSched Hook HookProps HookDemo HookCompose.

Section HookTime.
Context {K : Type} {FO : FileOps K} {EO : EpollOps K} {LO : LibcOps K}
  (interest : K -> gmap Z epoll_event) (pollable : K -> Z -> bool)
  {L : EpollLaws K interest pollable} {LE : LibcEpollLaws K interest pollable}
  (garbage : ptr -> Z) (no_garbage : forall p, garbage p = 0).
Implicit Type h : hook_sys K.

(** ** The expiry pass of the idle loop *)

(** [getExpiredFuncs(expired_funcs); if (!expired_funcs.empty()) { schedule(...);
    expired_funcs.clear(); }] *)
Definition idle_expire (now : Z) : M (hook_sys K) unit :=
  let! sc := mderef "idle" (fun h => scheds (h_iom h) !! this_sched (h_iom h)) in
  let (expired_funcs, tm) := getExpiredFuncs now [] (base sc) in
  let sc := sc <| base := tm |> in
  let sc := if bool_decide (expired_funcs = []) then sc else schedule_range expired_funcs (-1) sc in
  mmodify (fun h => h <| h_iom := (h_iom h) <| scheds := <[this_sched (h_iom h) := sc]> (scheds (h_iom h)) |> |>).

(** It is what the two labels of the interleaved model do to the scheduler. *)
Lemma idle_expire_labels now h t w ss :
  scheds (h_iom h) !! this_sched (h_iom h) = Some (sch ss) -> workers ss !! t = Some w ->
  at_pc w = IExpire -> expired_funcs w = [] -> m_mutex (sch ss) = None ->
  exists h' ss', idle_expire now h = Ok (tt, h') /\ exec_all [LExpire t now; LRun t] ss = Some (Ok ss')
    /\ scheds (h_iom h') !! this_sched (h_iom h') = Some (sch ss').
Proof.
  intros Hs Hw Hpc He Hm. unfold idle_expire. munfold. rewrite Hs. cbn [exec_all exec]. rewrite Hw. cbn [mbind option_bind].
  rewrite Hpc, He, bool_decide_true by done. unfold guard at 1.
  destruct (getExpiredFuncs now [] (base (sch ss))) as [fs tm]. cbn [workers set_worker upd_field].
  rewrite lookup_insert_eq. cbn [mbind option_bind]. unfold step_run. cbn [at_pc upd_field].
  unfold step_idle_sched, guard, lock_free. cbn [expired_funcs upd_field sch set_worker m_mutex].
  rewrite (bool_decide_true (m_mutex (sch ss) = None)) by done.
  destruct (bool_decide (fs = [])); eexists _, _; (split; [reflexivity|]); (split; [reflexivity|]);
    cbn; by rewrite lookup_insert_eq.
Qed.

(** An armed one-shot timer with its deadline and callback. *)
Definition armed_timer h (q : ptr) (d : Z) (f : closure) : Prop :=
  timers h !! q = Some d /\ exists t, timer_object h q = Some t /\ Timer.m_func t = f /\ m_recurring t = false.

(** What does not concern timers and queues is left as it is. *)
Record same_rest h h' : Prop := {
  sr_fibers : fsys (h_iom h') = fsys (h_iom h);
  sr_infos : tinfos h' = tinfos h;
  sr_reg : forall fd ev, reg (h_iom h') fd ev = reg (h_iom h) fd ev;
  sr_self : this_sched (h_iom h') = this_sched (h_iom h);
}.

Lemma with_sched_rest sc h : same_rest h (with_sched sc h).
Proof. by split. Qed.

Lemma suspended_rest p h h' : suspended interest p h -> hook_ok interest h' -> same_rest h h' -> suspended interest p h'.
Proof. intros [_ Hf] Hok [E _ _ _]. split; [done|]. by rewrite E. Qed.

Lemma blocked_rest q p w fd ev h h' :
  blocked interest q p w fd ev h -> hook_ok interest h' -> same_rest h h' -> blocked interest q p w fd ev h'.
Proof.
  intros [[Hs Hi] Hr] Hok Hsame. split; [split|].
  - by apply (suspended_rest p h).
  - by rewrite (sr_infos _ _ Hsame).
  - by rewrite (sr_reg _ _ Hsame).
Qed.

(** The pass on any state: the callbacks of exactly the due timers are appended
    to the queue of the IOManager, in order. *)
Lemma idle_expire_spec now h :
  hook_ok interest h ->
  exists h' expired, idle_expire now h = Ok (tt, h') /\ hook_ok interest h' /\ same_rest h h'
    /\ queue (h_iom h') (this_sched (h_iom h)) = queue (h_iom h) (this_sched (h_iom h))
         ++ ((fun f => Task_func f (-1)) <$> omap (fun q => Timer.m_func <$> timer_object h q) expired)
    /\ (forall q, q ∈ expired <-> exists d, timers h !! q = Some d /\ d <= now)
    /\ (forall q, timers h' !! q = timers h !! q ≫= fun d =>
          if d <=? now then timer_object h q ≫= fun t => if m_recurring t then Some (u64 (d + m_period t)) else None
          else Some d)
    /\ (forall q d t, timers h !! q = Some d -> now < d -> timer_object h q = Some t -> timer_object h' q = Some t).
Proof.
  intros Hh. destruct (sched_live interest h Hh) as [sc Hs]. pose proof (ho_timers _ h Hh sc Hs) as Hwf.
  assert (forall q, timer_object h q = timer_heap (base sc) !! q) as Eo by (intros q; unfold timer_object; by rewrite Hs).
  assert (timers h = deadlines (base sc)) as Et by (unfold timers; by rewrite Hs).
  pose proof (getExpiredFuncs_refines now [] (base sc) Hwf) as Hx.
  pose proof (getExpiredFuncs_heap now [] (base sc)) as Hheap.
  unfold idle_expire. munfold. rewrite Hs. destruct (getExpiredFuncs now [] (base sc)) as [fs tm]. cbn [snd] in Hheap.
  destruct Hx as (Hwf' & (expired & -> & _ & Hin) & Hdl). cbn [app] in *.
  set (fs := omap _ expired). set (sc1 := sc <| base := tm |>).
  set (sc2 := if bool_decide (fs = []) then sc1 else schedule_range fs (-1) sc1).
  assert (base sc2 = tm /\ m_pending_count sc2 = m_pending_count sc
    /\ m_tasks sc2 = m_tasks sc ++ ((fun f => Task_func f (-1)) <$> fs)) as (Hb & Hp & Htk).
  { unfold sc2. destruct (schedule_range_frame fs (-1) sc1) as (_ & _ & _ & H1 & H2 & _).
    pose proof (range_pending fs (-1) sc1). case_bool_decide as E; [|by rewrite H1, H2].
    rewrite E. cbn. by rewrite app_nil_r. }
  exists (with_sched sc2 h), expired. split; [done|]. split; [|split; [apply with_sched_rest|]].
  { apply (with_sched_ok interest h sc); [done..|]. by rewrite Hb. }
  split; [|split; [|split]].
  - unfold queue. cbn. rewrite lookup_insert_eq, Hs, Htk. unfold fs. do 2 f_equal. apply list_omap_ext, Forall_Forall2_diag, Forall_forall. intros q _. by rewrite Eo.
  - intros q. by rewrite Et.
  - intros q. unfold timers at 1. cbn. rewrite lookup_insert_eq, Hb, Hdl, <- Et.
    destruct (timers h !! q) as [d|]; [|done]. cbn. unfold expire_one. rewrite Eo. by destruct (d <=? now).
  - intros q d t Hq Hlt Ht. rewrite Eo in Ht. unfold timer_object. cbn. rewrite lookup_insert_eq. cbn. rewrite Hb.
    rewrite Hheap; [done|]. rewrite Et in Hq. apply deadlines_Some in Hq as [_ ->]. lia.
Qed.

Lemma queued_inside {A} (x : A) l l1 l2 : x ∈ l ++ l1 ++ [x] ++ l2.
Proof. do 2 (apply elem_of_app; right). by left. Qed.

(** One armed one-shot timer: not before its deadline; at the first pass at or
    after it, its callback is queued and it is disarmed. *)
Lemma idle_expire_timer now h q d f :
  hook_ok interest h -> armed_timer h q d f ->
  exists h', idle_expire now h = Ok (tt, h') /\ hook_ok interest h' /\ same_rest h h'
    /\ (now < d -> armed_timer h' q d f)
    /\ (d <= now -> timers h' !! q = None
          /\ exists before after, queue (h_iom h') (this_sched (h_iom h))
               = queue (h_iom h) (this_sched (h_iom h)) ++ before ++ [Task_func f (-1)] ++ after).
Proof.
  intros Hh (Hq & t & Ht & <- & Hrec).
  destruct (idle_expire_spec now h Hh) as (h' & expired & He & Hok & Hrest & Hqueue & Hin & Hdl & Hobj).
  exists h'. split; [done|]. split; [done|]. split; [done|]. split.
  - intros Hlt. split.
    + rewrite Hdl, Hq. cbn. by rewrite (proj2 (Z.leb_gt d now)) by lia.
    + exists t. split; [|done]. by apply (Hobj q d).
  - intros Hle. split.
    + rewrite Hdl, Hq. cbn. rewrite (proj2 (Z.leb_le d now)) by lia. by rewrite Ht; cbn; rewrite Hrec.
    + assert (q ∈ expired) as (l1 & l2 & ->)%list_elem_of_split by (apply Hin; eauto).
      rewrite Hqueue, omap_app, fmap_app. cbn. rewrite Ht. cbn. eauto.
Qed.

(** ** Properties *)

(** The closure of a timeout, run while the call still waits. *)
Lemma timeout_closure q p w fd ev h :
  blocked interest q p w fd ev h -> fd_ok fd -> valid_ev ev ->
  exists h', run_closure (OnTimerBind w (OnTimeout w fd ev)) h = Ok (tt, h') /\ suspended interest p h'
    /\ tinfos h' !! w = Some ETIMEDOUT /\ reg (h_iom h') fd ev = None
    /\ queue (h_iom h') q = queue (h_iom h) q ++ [Task_fiber p (-1)].
Proof.
  intros [[[Hok Hf] Hw] Hr] Hfd He. cbn. munfold. rewrite Hw. cbn. unfold on_timeout. munfold. rewrite Hw.
  cbn [truthy Z.eqb negb].
  pose proof (cancelEvent_spec interest pollable (h_iom h) fd ev (ho_iom _ h Hok) Hfd He) as Hc.
  rewrite Hr in Hc. destruct Hc as (i & Hx & Hi & Hu & Hq & _).
  pose proof (cancelEvent_keeps_fibers fd ev _ _ _ Hx) as Hfs.
  pose proof (emits_same_timers _ _ _ _ (emits_cancel fd ev) Hx) as Ht.
  unfold on_iom. munfold. cbn [h_iom upd_field]. rewrite Hx. eexists. split; [reflexivity|]. split; [|split; [|split]].
  - split; [|cbn; by rewrite Hfs]. pose proof (hook_ok_event interest h i Hok Hi Hfs Ht) as [G1 G2 G3 G4]. by split.
  - apply lookup_insert_eq.
  - destruct (Hu fd ev Hfd He) as [Hn _]. change (reg i fd ev = None). rewrite Hn. rewrite bool_decide_true; [done|].
    split; [done|left].
  - change (queue i q = queue (h_iom h) q ++ [Task_fiber p (-1)]). rewrite Hq. unfold tasks_of. rewrite Hr. cbn.
    by rewrite decide_True.
Qed.

(** C5: a blocking call that times out, from end to end.  A hooked call that
    would block on a descriptor with a timeout is blocked with one timer armed.
    As long as it is blocked, an expiry pass of the idle loop before the deadline
    leaves call and timer as they are, and a pass at or after it disarms the
    timer and queues its closure.  The closure, run while the call is blocked,
    unregisters the event, marks the call and queues the fiber, once.  A worker
    that then calls the fiber continues the call behind its [Yield], and it
    returns -1 with [errno] ETIMEDOUT, its [timer_info] gone, so that the closure
    would do nothing if it ran again. *)
Theorem timed_out_call_returns fuel e h m p a now fn fd ev so args c k' :
  hook_ok interest h -> in_worker e h m p -> fresh_timer h (a_timer a) -> managed h fd c ->
  can_wait pollable h fd ev -> would_block fn fd args h k' -> getTimeout so c <> u64_max ->
  let q := this_sched (h_iom h) in
  let w := a_info a in
  let d := u64 (now + getTimeout so c) in
  let f := OnTimerBind w (OnTimeout w fd ev) in
  (exists h1, do_io garbage (S fuel) e a now fn fd ev so args h = Ok (IoWait (Some (a_timer a)) (Some RCall), h1)
     /\ blocked interest q p w fd ev h1 /\ armed_timer h1 (a_timer a) d f)
  /\ (forall h2 now2, blocked interest q p w fd ev h2 -> armed_timer h2 (a_timer a) d f -> this_sched (h_iom h2) = q ->
     exists h3, idle_expire now2 h2 = Ok (tt, h3) /\ blocked interest q p w fd ev h3
       /\ (now2 < d -> armed_timer h3 (a_timer a) d f)
       /\ (d <= now2 -> timers h3 !! a_timer a = None /\ Task_func f (-1) ∈ queue (h_iom h3) q))
  /\ (forall h4, blocked interest q p w fd ev h4 ->
     exists h5, run_closure f h4 = Ok (tt, h5) /\ suspended interest p h5 /\ tinfos h5 !! w = Some ETIMEDOUT
       /\ reg (h_iom h5) fd ev = None /\ queue (h_iom h5) q = queue (h_iom h4) q ++ [Task_fiber p (-1)])
  /\ (forall h6 e' m', suspended interest p h6 -> tinfos h6 !! w = Some ETIMEDOUT ->
     tls_of (fsys (h_iom h6)) (e_tid e') = mkTLS (Some m') (Some m') (Some m') ->
     exists h7, on_fibers (call (e_tid e') p) h6 = Ok (Some RBody, h7)
     /\ forall fuel' a' now', exists h8,
       do_io_resume garbage fuel' e' a' now' w (getTimeout so c) (Some (a_timer a)) fn fd ev args h7 = Ok (IoDone (-1), h8)
       /\ h_errno h8 = ETIMEDOUT /\ timers h8 = delete (a_timer a) (timers h7)
       /\ tinfos h8 !! w = None /\ run_closure f h8 = Ok (tt, h8)).
Proof.
  intros Hh Hw Hq Hm Hc Hk Hto q w d f. pose proof Hc as (Hfd & Hev & _). split; [|split; [|split]].
  - destruct (do_io_waits interest pollable garbage no_garbage fuel e h m p a now fn fd ev so args c k' Hh Hw Hq Hm Hc Hk)
      as (h1 & He & [W1 W2 W3 W4 W5 W6 W7 W8]). rewrite (proj2 (Z.eqb_neq _ _) Hto) in He, W5.
    exists h1. split; [exact He|]. split.
    + split; [split; [done|]|by rewrite W2, (iw_sched _ _ _ _ Hw)]. rewrite W6. apply lookup_insert_eq.
    + split; [rewrite W5; apply lookup_insert_eq|]. eexists. split; [by apply W8|done].
  - intros h2 now2 Hb Ha Hself. destruct (idle_expire_timer now2 h2 _ d f (su_ok _ _ _ (wk_susp _ _ _ _ (bk_woken _ _ _ _ _ _ _ Hb))) Ha)
      as (h3 & He & Hok & Hrest & Hbefore & Hafter).
    exists h3. split; [done|]. split; [by apply (blocked_rest q p w fd ev h2)|]. split; [done|].
    intros Hle. destruct (Hafter Hle) as (Hn & l1 & l2 & Hqu). split; [done|]. rewrite Hself in Hqu. rewrite Hqu. apply queued_inside.
  - intros h4 Hb. by apply (timeout_closure q p w fd ev h4).
  - intros h6 e' m' Hs Hi Ht. destruct (suspended_call interest p h6 (e_tid e') m' Hs Ht) as (Hc7 & Hok & _).
    eexists. split; [exact Hc7|]. intros fuel' a' now'.
    by apply (do_io_resume_timeout interest garbage).
Qed.

(** C12: the sleep family from end to end.  [sleep], [usleep] and [nanosleep] in
    a worker's fiber suspend it with one timer armed, at the period each call
    computes.  While the fiber sleeps, an expiry pass before the deadline leaves
    it asleep, and a pass at or after the deadline disarms the timer and queues
    its closure, which, run, queues the fiber, once; a worker that then calls the
    fiber continues behind the [Yield] and the call returns 0. *)
Theorem sleeping_fiber_wakes e h m p a now call period :
  hook_ok interest h -> in_worker e h m p -> fresh_timer h (a_timer a) -> sleep_call e a now call period ->
  let q := this_sched (h_iom h) in
  let d := u64 (now + period) in
  (exists h1, call h = Ok (inr (Some RCall), h1) /\ suspended interest p h1
     /\ armed_timer h1 (a_timer a) d (ScheduleFiber p)
     /\ tls_of (fsys (h_iom h1)) (e_tid e) = mkTLS (Some m) (Some m) (Some m))
  /\ (forall h2 now2, suspended interest p h2 -> armed_timer h2 (a_timer a) d (ScheduleFiber p) ->
     this_sched (h_iom h2) = q ->
     exists h3, idle_expire now2 h2 = Ok (tt, h3) /\ suspended interest p h3
       /\ (now2 < d -> armed_timer h3 (a_timer a) d (ScheduleFiber p))
       /\ (d <= now2 -> timers h3 !! a_timer a = None /\ Task_func (ScheduleFiber p) (-1) ∈ queue (h_iom h3) q))
  /\ (forall h4, suspended interest p h4 -> this_sched (h_iom h4) = q ->
     exists h5, run_closure (ScheduleFiber p) h4 = Ok (tt, h5) /\ suspended interest p h5
       /\ queue (h_iom h5) q = queue (h_iom h4) q ++ [Task_fiber p (-1)])
  /\ (forall h6 t m', suspended interest p h6 -> tls_of (fsys (h_iom h6)) t = mkTLS (Some m') (Some m') (Some m') ->
     exists h7, on_fibers (Fiber.call t p) h6 = Ok (Some RBody, h7) /\ sleep_resume h7 = Ok (0, h7)
       /\ tls_of (fsys (h_iom h7)) t = mkTLS (Some p) (Some m') (Some p)).
Proof.
  intros Hh Hw Hq Hcall q d. split; [|split; [|split]].
  - destruct (sleep_call_spec interest e h m p a now call period Hh Hw Hq Hcall) as (h1 & He & Hok & Ht & Hobj & Hm & Hf).
    exists h1. split; [done|]. split; [by split|]. split; [|done]. split; [rewrite Ht; apply lookup_insert_eq|].
    eexists. split; [exact Hobj|done].
  - intros h2 now2 Hs Ha Hself. destruct (idle_expire_timer now2 h2 _ d _ (su_ok _ _ _ Hs) Ha)
      as (h3 & He & Hok & Hrest & Hbefore & Hafter).
    exists h3. split; [done|]. split; [by apply (suspended_rest p h2)|]. split; [done|].
    intros Hle. destruct (Hafter Hle) as (Hn & l1 & l2 & Hqu). split; [done|]. rewrite Hself in Hqu. rewrite Hqu. apply queued_inside.
  - intros h4 [Hok Hf] Hself. destruct (schedule_closure_ok interest p h4 Hok) as (h5 & He & Hok5 & Hqu & Hfs).
    exists h5. split; [done|]. rewrite <- Hself. split; [|done]. split; [done|]. by rewrite Hfs.
  - intros h6 t m' Hs Ht. destruct (suspended_call interest p h6 t m' Hs Ht) as (Hc7 & _ & Ht7).
    eexists. split; [exact Hc7|]. by split.
Qed.
(** Setting a receive timeout changes nothing else of the state. *)
Lemma set_timeout_ok h q t v :
  is_u64 v -> hook_ok interest h -> hook_ok interest (h <| h_fdctxs := alter (setTimeout t v) q (h_fdctxs h) |>).
Proof.
  intros Hv [[I1 I2 I3] G2 G3 G4]. split; try done. split; cbn in *.
  - done.
  - intros i x Hx. destruct (I2 i x Hx) as (c & Hc & Hf). destruct (decide (q = x)) as [->|Hne].
    + exists (setTimeout t v c). rewrite lookup_alter_eq, Hc. split; [done|]. unfold setTimeout.
      destruct (t =? SO_RCVTIMEO); exact Hf.
    + exists c. by rewrite lookup_alter_ne.
  - intros x c Hc. destruct (decide (q = x)) as [->|Hne].
    + rewrite lookup_alter_eq in Hc. destruct (h_fdctxs h !! x) as [c0|] eqn:E; [|done].
      injection Hc as <-. destruct (I3 x c0 E) as (? & ? & ? & ? & ?). unfold setTimeout.
      destruct (t =? SO_RCVTIMEO); done.
    + rewrite lookup_alter_ne in Hc by done. eauto.
Qed.

Lemma set_timeout_managed h fd c q t v :
  fd_table (fdm_of h) fd = Some q -> h_fdctxs h !! q = Some c -> m_isSocket c = true -> m_userNonblock c = false ->
  managed (h <| h_fdctxs := alter (setTimeout t v) q (h_fdctxs h) |>) fd (setTimeout t v c).
Proof.
  intros Ht Hc Hcl Hs. exists q. split; [done|]. split; [cbn; by rewrite lookup_alter_eq, Hc|].
  unfold setTimeout. by destruct (t =? SO_RCVTIMEO).
Qed.

Lemma set_timeout_keeps h q t v :
  let h' := h <| h_fdctxs := alter (setTimeout t v) q (h_fdctxs h) |> in
  (forall e m p, in_worker e h m p -> in_worker e h' m p)
  /\ (forall a, fresh_timer h a -> fresh_timer h' a)
  /\ (forall fd event, can_wait pollable h fd event -> can_wait pollable h' fd event)
  /\ (forall fun_ fd arg k, would_block fun_ fd arg h k -> would_block fun_ fd arg h' k).
Proof.
  cbn. split; [|split; [|split]].
  - intros e m p []. by split.
  - by intros a Ha.
  - by intros fd event Hc.
  - by intros fun_ fd arg k Hw.
Qed.

End HookTime.

(** ** Concrete runs *)

(** The socket of HookDemo.v with a receive timeout of 50 ms. *)
Definition ht : hook_sys hook_kernel :=
  hd <| h_fdctxs := alter (setTimeout SO_RCVTIMEO 50) 5%nat (h_fdctxs hd) |>.
Definition ht_ctx : FdCtx := setTimeout SO_RCVTIMEO 50 hd_ctx.

Lemma ht_ok : hook_ok hk_interest ht.
Proof. exact (set_timeout_ok hk_interest hd 5%nat SO_RCVTIMEO 50 ltac:(unfold is_u64; lia) hd_ok). Qed.

Lemma ht_state :
  in_worker hd_env ht 10%nat 11%nat /\ fresh_timer ht 8%nat /\ can_wait hk_pollable ht 3 READ
  /\ would_block read_f 3 0 ht (ikern (h_iom hd)).
Proof.
  destruct (set_timeout_keeps hk_pollable hd 5%nat SO_RCVTIMEO 50) as (H1 & H2 & H3 & H4).
  exact (conj (H1 _ _ _ hd_worker) (conj (H2 _ hd_fresh_timer) (conj (H3 _ _ hd_can_wait) (H4 _ _ _ _ hd_would_block)))).
Qed.

Lemma ht_managed : managed ht 3 ht_ctx.
Proof. exact (set_timeout_managed hd 3 hd_ctx 5%nat SO_RCVTIMEO 50 (proj1 hd_table) (proj2 hd_table) eq_refl eq_refl). Qed.

(** The read is blocked at time 100; a pass at 120 is too early, one at 160
    expires it; the closure runs, and thread 1 calls the fiber. *)
Definition ht_wait : hook_sys hook_kernel :=
  run_state (do_io zeroed 1 hd_env hd_addrs 100 read_f 3 READ SO_RCVTIMEO 0) ht.
Definition ht_early : hook_sys hook_kernel := run_state (idle_expire 120) ht_wait.
Definition ht_late : hook_sys hook_kernel := run_state (idle_expire 160) ht_early.
Definition ht_closure : closure := OnTimerBind 7%nat (OnTimeout 7%nat 3 READ).
Definition ht_fired : hook_sys hook_kernel := run_state (run_closure ht_closure) ht_late.
Definition ht_called : hook_sys hook_kernel := run_state (on_fibers (call 1%nat 11%nat)) ht_fired.

Lemma ht_wait_eq :
  do_io zeroed 1 hd_env hd_addrs 100 read_f 3 READ SO_RCVTIMEO 0 ht = Ok (IoWait (Some 8%nat) (Some RCall), ht_wait).
Proof. vm_compute. reflexivity. Qed.
Lemma ht_early_eq : idle_expire 120 ht_wait = Ok (tt, ht_early).
Proof. vm_compute. reflexivity. Qed.
Lemma ht_late_eq : idle_expire 160 ht_early = Ok (tt, ht_late).
Proof. vm_compute. reflexivity. Qed.
Lemma ht_fired_eq : run_closure ht_closure ht_late = Ok (tt, ht_fired).
Proof. vm_compute. reflexivity. Qed.
Lemma ht_called_eq : on_fibers (call 1%nat 11%nat) ht_fired = Ok (Some RBody, ht_called).
Proof. vm_compute. reflexivity. Qed.
Lemma ht_self : this_sched (h_iom ht_wait) = 1%nat /\ this_sched (h_iom ht_early) = 1%nat.
Proof. split; vm_compute; reflexivity. Qed.
Lemma ht_main : tls_of (fsys (h_iom ht_fired)) 1%nat = mkTLS (Some 10%nat) (Some 10%nat) (Some 10%nat).
Proof. vm_compute. reflexivity. Qed.

Lemma timed_out_call_returns_witness :
  timers ht_early !! 8%nat = Some 150 /\ timers ht_late !! 8%nat = None
  /\ Task_func ht_closure (-1) ∈ queue (h_iom ht_late) 1%nat
  /\ queue (h_iom ht_fired) 1%nat = queue (h_iom ht_late) 1%nat ++ [Task_fiber 11%nat (-1)]
  /\ exists h8, do_io_resume zeroed 1 hd_env hd_addrs 170 7%nat 50 (Some 8%nat) read_f 3 READ 0 ht_called = Ok (IoDone (-1), h8)
       /\ h_errno h8 = ETIMEDOUT.
Proof.
  destruct (timed_out_call_returns hk_interest hk_pollable zeroed (fun _ => eq_refl) 0 hd_env ht 10%nat 11%nat hd_addrs 100
    read_f 3 READ SO_RCVTIMEO 0 ht_ctx (ikern (h_iom hd)) ht_ok (proj1 ht_state) (proj1 (proj2 ht_state)) ht_managed
    (proj1 (proj2 (proj2 ht_state))) (proj2 (proj2 (proj2 ht_state)))
    ltac:(discriminate)) as ((h1 & H1 & B1 & A1) & Hpass & Hfire & Hret).
  destruct (Ok_inj _ _ _ _ (eq_trans (eq_sym ht_wait_eq) H1)).
  destruct (Hpass ht_wait 120 B1 A1 (proj1 ht_self)) as (h2 & H2 & B2 & A2 & _).
  destruct (Ok_inj _ _ _ _ (eq_trans (eq_sym ht_early_eq) H2)). specialize (A2 eq_refl).
  destruct (Hpass ht_early 160 B2 A2 (proj2 ht_self)) as (h3 & H3 & B3 & _ & A3).
  destruct (Ok_inj _ _ _ _ (eq_trans (eq_sym ht_late_eq) H3)). destruct (A3 ltac:(discriminate)) as [N3 Q3].
  destruct (Hfire ht_late B3) as (h5 & H5 & S5 & I5 & _ & Q5).
  destruct (Ok_inj _ _ _ _ (eq_trans (eq_sym ht_fired_eq) H5)).
  destruct (Hret ht_fired hd_env 10%nat S5 I5 ht_main) as (h7 & H7 & Hlast).
  destruct (Ok_inj _ _ _ _ (eq_trans (eq_sym ht_called_eq) H7)).
  destruct (Hlast 1%nat hd_addrs 170) as (h8 & H8 & E8 & _).
  exact (conj (proj1 A2) (conj N3 (conj Q3 (conj Q5 (ex_intro _ h8 (conj H8 E8)))))).
Defined.

(** Fiber 11 sleeps two seconds at time 100. *)
Definition ht_sleep : hook_sys hook_kernel := run_state (sleep hd_env hd_addrs 100 2) hd.
Definition ht_slept : hook_sys hook_kernel := run_state (idle_expire 2100) ht_sleep.

Lemma ht_sleep_eq : sleep hd_env hd_addrs 100 2 hd = Ok (inr (Some RCall), ht_sleep).
Proof. vm_compute. reflexivity. Qed.
Lemma ht_slept_eq : idle_expire 2100 ht_sleep = Ok (tt, ht_slept).
Proof. vm_compute. reflexivity. Qed.
Lemma ht_sleep_self : this_sched (h_iom ht_sleep) = 1%nat /\ this_sched (h_iom ht_slept) = 1%nat.
Proof. split; vm_compute; reflexivity. Qed.

Lemma sleeping_fiber_wakes_witness :
  timers ht_sleep !! 8%nat = Some 2100 /\ Task_func (ScheduleFiber 11%nat) (-1) ∈ queue (h_iom ht_slept) 1%nat
  /\ exists h5, run_closure (ScheduleFiber 11%nat) ht_slept = Ok (tt, h5)
       /\ queue (h_iom h5) 1%nat = queue (h_iom ht_slept) 1%nat ++ [Task_fiber 11%nat (-1)].
Proof.
  destruct (sleeping_fiber_wakes hk_interest hd_env hd 10%nat 11%nat hd_addrs 100 (sleep hd_env hd_addrs 100 2) 2000
    hd_ok hd_worker hd_fresh_timer (CallSleep hd_env hd_addrs 100 2)) as ((h1 & H1 & S1 & A1 & _) & Hpass & Hfire & _).
  destruct (Ok_inj _ _ _ _ (eq_trans (eq_sym ht_sleep_eq) H1)).
  destruct (Hpass ht_sleep 2100 S1 A1 (proj1 ht_sleep_self)) as (h3 & H3 & S3 & _ & A3).
  destruct (Ok_inj _ _ _ _ (eq_trans (eq_sym ht_slept_eq) H3)). destruct (A3 ltac:(discriminate)) as [_ Q3].
  destruct (Hfire ht_slept S3 (proj2 ht_sleep_self)) as (h5 & H5 & _ & Q5).
  exact (conj (proj1 A1) (conj Q3 (ex_intro _ h5 (conj H5 Q5)))).
Defined.
