(* ===== verification/HookSched.v ===== *)
(** * Hooked calls on top of the scheduler's workers

    The scheduler model of SchedulerThreads.v leaves open what a running task
    does: it may queue tasks, arm and cancel timers, and come back.  Here every
    hooked call, each half of the calls that are split at their [Yield], and the
    closures that the library itself schedules are shown to be such tasks: what
    they do to the scheduler is a sequence of labels of the worker they run on,
    followed, if the call waits, by the label of a task that yields. *)

From S2P Require Import Prelude Timer Fiber Scheduler SchedulerThreads SchedulerProps SchedulerLive Posix FdManager IOManager IOManagerInv IOManagerProps IOManagerSched Hook HookProps HookDemo HookCompose.

(** ** Actions and the labels that perform them *)

Definition hook_action (a : action) : bool :=
  match a with AAddTimer _ _ _ _ _ | ACancel _ => true | _ => io_action a end.

(** Where the actions put new timers. *)
Definition adds (acts : list action) : list ptr :=
  omap (fun a => match a with AAddTimer addr _ _ _ _ => Some addr | _ => None end) acts.

Definition heap_of (sc : Scheduler) : gmap ptr Timer := timer_heap (base sc).

(** An action needs the lock at most, and a free address for its timer. *)
Lemma sched_act_heap a sc x :
  hook_action a = true -> x ∉ adds [a] -> heap_of sc !! x = None -> heap_of (sched_act a sc) !! x = None.
Proof.
  intros Ha Hx Hn. destruct a as [k|addr now period f r|p| |n]; try done; cbn [sched_act].
  - unfold heap_of. destruct (schedule_frame k sc) as (_ & _ & _ & _ & -> & _). done.
  - unfold heap_of. destruct (sched_addTimer_frame addr now period f r sc) as (_ & _ & _ & _ & -> & _).
    unfold addTimer, addTimer_ptr. cbn. rewrite lookup_insert_ne; [done|]. intros ->. apply Hx. by left.
  - unfold heap_of, cancel. cbn. by destruct (set_erase _ _ _).
Qed.

Lemma body_exec a ss t w p :
  hook_action a = true -> m_mutex (sch ss) = None -> workers ss !! t = Some w -> running_fiber w = Some p ->
  (forall x, x ∈ adds [a] -> heap_of (sch ss) !! x = None) ->
  exists ss', exec (LBody t a) ss = Some (Ok ss') /\ sch ss' = sched_act a (sch ss)
    /\ m_mutex (sch ss') = None /\ workers ss' = workers ss /\ fstate ss' = fstate ss.
Proof.
  intros Ha Hm Hw Hr Hf. cbn [exec]. rewrite Hw. cbn [mbind option_bind]. rewrite Hr, bool_decide_true by done.
  destruct a as [k|addr now period f r|q| |n]; try done; cbn in Ha; cbn [client_action andb act]; unfold guard, lock_free.
  - rewrite Ha, bool_decide_true by done. eexists. split; [reflexivity|]. cbn.
    destruct (schedule_frame k (sch ss)) as (_ & _ & -> & _). done.
  - rewrite bool_decide_true by (apply Hf; by left). eexists. split; [reflexivity|]. cbn [sch upd_field].
    destruct (sched_addTimer_frame addr now period f r (sch ss)) as (_ & _ & Hx & _). split; [done|]. by rewrite Hx.
  - eexists. split; [reflexivity|]. done.
  - rewrite Ha. eexists. split; [reflexivity|]. done.
Qed.

Lemma bodies_exec acts ss t w p :
  Forall (fun a => hook_action a = true) acts -> m_mutex (sch ss) = None ->
  workers ss !! t = Some w -> running_fiber w = Some p ->
  NoDup (adds acts) -> (forall x, x ∈ adds acts -> heap_of (sch ss) !! x = None) ->
  exists ss', exec_all (LBody t <$> acts) ss = Some (Ok ss')
    /\ sch ss' = foldl (fun sc a => sched_act a sc) (sch ss) acts
    /\ m_mutex (sch ss') = None /\ workers ss' = workers ss /\ fstate ss' = fstate ss.
Proof.
  revert ss. induction acts as [|a acts IH]; intros ss Hall Hm Hw Hr Hnd Hf; [by exists ss|].
  apply Forall_cons in Hall as [Ha Hall]. change (a :: acts) with ([a] ++ acts) in Hnd, Hf.
  unfold adds in Hnd, Hf. rewrite omap_app in Hnd, Hf. apply NoDup_app in Hnd as (_ & Hdis & Hnd).
  destruct (body_exec a ss t w p Ha Hm Hw Hr) as (s1 & Hx & Hs & Hm1 & Hw1 & Hf1).
  { intros x Hin. apply Hf, elem_of_app. by left. }
  destruct (IH s1 Hall Hm1) as (s2 & Hx2 & Hs2 & Hm2 & Hw2 & Hf2); [by rewrite Hw1|done|done| |].
  { intros x Hin. rewrite Hs. apply sched_act_heap; [done|by intros Hin'; apply (Hdis x)|].
    apply Hf, elem_of_app. by right. }
  exists s2. cbn [fmap list_fmap exec_all]. rewrite Hx. split; [done|]. split; [by rewrite Hs2, Hs|].
  split; [done|]. split; congruence.
Qed.

Lemma adds_acts_of q acts : adds (acts_of q acts) ⊆+ adds acts.*2.
Proof.
  induction acts as [|[q' a] acts IH]; [done|]. cbn. unfold acts_of. cbn [omap list_omap].
  destruct (decide (q' = q)); destruct a; cbn; try done; try (by constructor).
Qed.

(** ** Code that acts on the scheduler *)

Section Steps.
Context {K : Type} {FO : FileOps K} {EO : EpollOps K} {LO : LibcOps K}.
Implicit Type h : hook_sys K.

(** The thread has a fiber: [Fiber::GetThis] creates none. *)
Definition has_fiber (t : tid) (f : fiber_sys) : Prop := is_Some (t_fiber (tls_of f t)).

(** The actions between two states; [b] bounds where new timers are put. *)
Definition acted (b : list ptr) h h' : Prop :=
  this_sched (h_iom h') = this_sched (h_iom h)
  /\ exists acts, Forall (fun qa => hook_action qa.2 = true) acts /\ adds acts.*2 ⊆+ b
       /\ scheds (h_iom h') = foldl on_sched (scheds (h_iom h)) acts.

(** Code that only acts on schedulers, and leaves the fibers alone. *)
Definition steps {A} (t : tid) (b : list ptr) (m : M (hook_sys K) A) : Prop :=
  forall h a h', has_fiber t (fsys (h_iom h)) -> m h = Ok (a, h') -> acted b h h' /\ fsys (h_iom h') = fsys (h_iom h).

(** Code whose last step, if the result waits, is the [Yield] of the fiber. *)
Definition waits {A} (t : tid) (b : list ptr) (w : A -> bool) (m : M (hook_sys K) A) : Prop :=
  forall h a h', has_fiber t (fsys (h_iom h)) -> m h = Ok (a, h') -> acted b h h'
    /\ if w a then exists r, Yield t (fsys (h_iom h)) = Ok (r, fsys (h_iom h')) else fsys (h_iom h') = fsys (h_iom h).

Lemma acted_refl h h' : this_sched (h_iom h') = this_sched (h_iom h) -> scheds (h_iom h') = scheds (h_iom h) -> acted [] h h'.
Proof. intros E1 E2. split; [done|]. exists []. by split; [constructor|]. Qed.

Lemma acted_trans b1 b2 h1 h2 h3 : acted b1 h1 h2 -> acted b2 h2 h3 -> acted (b1 ++ b2) h1 h3.
Proof.
  intros (E1 & a1 & F1 & S1 & H1) (E2 & a2 & F2 & S2 & H2). split; [congruence|]. exists (a1 ++ a2).
  split; [by apply Forall_app|]. split; [|by rewrite foldl_app, <- H1].
  unfold adds in *. rewrite fmap_app, omap_app. by apply submseteq_app.
Qed.

Lemma steps_ret {A} t (a : A) : steps t [] (mret_M a).
Proof. intros h x h' _ [= <- <-]. split; [by apply acted_refl|done]. Qed.

Lemma steps_bind {A B} t b1 b2 (m : M (hook_sys K) A) (k : A -> M (hook_sys K) B) :
  steps t b1 m -> (forall a, steps t b2 (k a)) -> steps t (b1 ++ b2) (let! x := m in k x).
Proof.
  intros Hm Hk h y h' Hf Hx. unfold mbind_M in Hx. destruct (m h) as [[a h1]| | | |] eqn:E; try done.
  destruct (Hm h a h1 Hf E) as [A1 F1]. assert (has_fiber t (fsys (h_iom h1))) as Hf1 by (by rewrite F1).
  destruct (Hk a h1 y h' Hf1 Hx) as [A2 F2]. split; [by eapply acted_trans|congruence].
Qed.

Lemma waits_bind {A B} t b1 b2 w (m : M (hook_sys K) A) (k : A -> M (hook_sys K) B) :
  steps t b1 m -> (forall a, waits t b2 w (k a)) -> waits t (b1 ++ b2) w (let! x := m in k x).
Proof.
  intros Hm Hk h y h' Hf Hx. unfold mbind_M in Hx. destruct (m h) as [[a h1]| | | |] eqn:E; try done.
  destruct (Hm h a h1 Hf E) as [A1 F1]. assert (has_fiber t (fsys (h_iom h1))) as Hf1 by (by rewrite F1).
  destruct (Hk a h1 y h' Hf1 Hx) as [A2 F2]. split; [by eapply acted_trans|by rewrite F1 in F2].
Qed.

Lemma waits_ret {A} t (w : A -> bool) a : w a = false -> waits t [] w (mret_M a).
Proof. intros Hw h x h' _ [= <- <-]. split; [by apply acted_refl|by rewrite Hw]. Qed.

Lemma waits_yield t : waits t [] (fun _ => true) (on_fibers (K := K) (Yield t)).
Proof.
  intros h r h' _ Hx. unfold on_fibers, on_iom in Hx. munfold.
  destruct (Yield t (fsys (h_iom h))) as [[r' f]| | | |] eqn:E; try done. injection Hx as <- <-.
  split; [by apply acted_refl|]. cbn. eauto.
Qed.

(** After code that may have waited. *)
Lemma waits_seq {A B} t b1 b2 w w' (m : M (hook_sys K) A) (k : A -> M (hook_sys K) B) :
  waits t b1 w m -> (forall a, w a = false -> waits t b2 w' (k a)) ->
  (forall a, w a = true -> exists x, k a = mret_M x /\ w' x = true) -> waits t (b1 ++ b2) w' (let! x := m in k x).
Proof.
  intros Hm Hk Hk' h y h' Hf Hx. unfold mbind_M in Hx. destruct (m h) as [[a h1]| | | |] eqn:E; try done.
  destruct (Hm h a h1 Hf E) as [A1 F1]. destruct (w a) eqn:Hw.
  - destruct (Hk' a Hw) as (x & Hkx & Hwx). rewrite Hkx in Hx. injection Hx as <- <-. rewrite Hwx. split; [|done].
    rewrite <- (app_nil_r b1). destruct A1 as (E1 & acts & H1 & H2 & H3). split; [done|]. exists acts.
    split; [done|]. split; [|done]. etransitivity; [exact H2|]. rewrite app_nil_r. apply submseteq_inserts_r. done.
  - assert (has_fiber t (fsys (h_iom h1))) as Hf1 by (by rewrite F1).
    destruct (Hk a Hw h1 y h' Hf1 Hx) as [A2 F2]. split; [by eapply acted_trans|by rewrite F1 in F2].
Qed.

Lemma waits_steps {A} t b w (m : M (hook_sys K) A) :
  steps t b m -> (forall h a h', m h = Ok (a, h') -> w a = false) -> waits t b w m.
Proof. intros Hm Hw h a h' Hf Hx. rewrite (Hw h a h' Hx). exact (Hm h a h' Hf Hx). Qed.

(** A larger bound. *)
Lemma acted_mono b b' h h' : b ⊆+ b' -> acted b h h' -> acted b' h h'.
Proof. intros Hb (E & acts & H1 & H2 & H3). split; [done|]. exists acts. split; [done|]. split; [by transitivity b|done]. Qed.

Lemma steps_nil {A} t b (m : M (hook_sys K) A) : steps t [] m -> steps t b m.
Proof. intros Hm h a h' Hf Hx. destruct (Hm h a h' Hf Hx) as [H1 H2]. split; [|done]. by eapply acted_mono, H1; apply submseteq_nil_l. Qed.

Lemma waits_nil {A} t b w (m : M (hook_sys K) A) : waits t [] w m -> waits t b w m.
Proof. intros Hm h a h' Hf Hx. destruct (Hm h a h' Hf Hx) as [H1 H2]. split; [|done]. by eapply acted_mono, H1; apply submseteq_nil_l. Qed.

(** *** The statements *)

(** Code that leaves schedulers and fibers alone. *)
Definition quiet {A} (m : M (hook_sys K) A) : Prop :=
  forall h a h', m h = Ok (a, h') -> this_sched (h_iom h') = this_sched (h_iom h)
    /\ scheds (h_iom h') = scheds (h_iom h) /\ fsys (h_iom h') = fsys (h_iom h).

Lemma steps_quiet {A} t (m : M (hook_sys K) A) : quiet m -> steps t [] m.
Proof. intros Hm h a h' _ Hx. destruct (Hm h a h' Hx) as (H1 & H2 & H3). split; [by apply acted_refl|done]. Qed.

Lemma quiet_get : quiet mget.
Proof. by intros h a h' [= <- <-]. Qed.

Lemma quiet_modify f :
  (forall h, this_sched (h_iom (f h)) = this_sched (h_iom h) /\ scheds (h_iom (f h)) = scheds (h_iom h)
     /\ fsys (h_iom (f h)) = fsys (h_iom h)) -> quiet (mmodify f).
Proof. intros Hf h a h' [= <- <-]. apply Hf. Qed.

Lemma quiet_deref {A} site (o : hook_sys K -> option A) : quiet (mderef site o).
Proof. intros h a h'. unfold mderef. destruct (o h); [|done]. by intros [= <- <-]. Qed.

Lemma quiet_fail {A} (r : res (A * hook_sys K)) : (forall x, r <> Ok x) -> quiet (mfail r).
Proof. intros Hr h a h' Hx. by destruct (Hr (a, h')). Qed.

Lemma quiet_fdm {A} (m : M (fd_sys K) A) : quiet (on_fdm m).
Proof. intros h a h'. unfold on_fdm, mzoom. destruct (m (fdm_of h)) as [[? ?]| | | |]; try done. by intros [= <- <-]. Qed.

Lemma quiet_libc c : quiet (libc c).
Proof.
  intros h a h'. unfold libc, mkern. munfold. destruct (k_libc c (ikern (h_iom h))) as [r k]. cbn.
  destruct (lr_ret r =? -1); by intros [= <- <-].
Qed.

Lemma quiet_fcntl_f fd cmd arg : quiet (fcntl_f fd cmd arg).
Proof. intros h a h'. unfold fcntl_f, mkern. munfold. destruct (k_fcntl fd cmd arg (ikern (h_iom h))). by intros [= <- <-]. Qed.

Lemma steps_addTimer t site e addr now period f : steps t [addr] (iom_addTimer (K := K) site e addr now period f).
Proof.
  intros h a h' _ Hx. unfold iom_addTimer in Hx. munfold. destruct (negb (iom_GetThis e h)); [done|].
  destruct (scheds (h_iom h) !! this_sched (h_iom h)) as [sc|] eqn:Hs; [|done].
  destruct (sched_addTimer addr now period f false sc) as [q sc'] eqn:Ea. injection Hx as <- <-.
  split; [|done]. split; [done|]. exists [(this_sched (h_iom h), AAddTimer addr now period f false)].
  split; [by repeat constructor|]. split; [done|]. cbn. unfold on_sched. cbn. apply map_eq. intros x.
  destruct (decide (this_sched (h_iom h) = x)) as [<-|Hne].
  - by rewrite lookup_insert_eq, lookup_alter_eq, Hs; cbn; rewrite Ea.
  - by rewrite lookup_insert_ne, lookup_alter_ne.
Qed.

Lemma steps_cancel_timer t timer : steps t [] (cancel_timer (K := K) timer).
Proof.
  destruct timer as [p|]; [|apply steps_ret]. intros h a h' _ Hx. unfold cancel_timer in Hx. munfold.
  destruct (scheds (h_iom h) !! this_sched (h_iom h)) as [sc|] eqn:Hs; [|done].
  destruct (cancel p (base sc)) as [b tm] eqn:Ec. injection Hx as <- <-.
  split; [|done]. split; [done|]. exists [(this_sched (h_iom h), ACancel p)].
  split; [by repeat constructor|]. split; [done|]. cbn. unfold on_sched. cbn. apply map_eq. intros x.
  destruct (decide (this_sched (h_iom h) = x)) as [<-|Hne].
  - by rewrite lookup_insert_eq, lookup_alter_eq, Hs; cbn; rewrite Ec.
  - by rewrite lookup_insert_ne, lookup_alter_ne.
Qed.

Lemma steps_GetThis t a : steps t [] (on_fibers (K := K) (GetThis t a)).
Proof.
  intros h p h' [q Hq] Hx. unfold on_fibers, on_iom, GetThis in Hx. munfold. 
  rewrite bool_decide_true in Hx by eauto. rewrite Hq in Hx. injection Hx as <- <-.
  split; [by apply acted_refl|done].
Qed.

(** *** Operations of the IOManager *)

(** On a thread with a fiber, [m] leaves the fibers alone. *)
Definition keeps_fsys {A} (t : tid) (m : M (iom_sys K) A) : Prop :=
  forall s a s', has_fiber t (fsys s) -> m s = Ok (a, s') -> fsys s' = fsys s.

Lemma keeps_fsys_of {A} t (m : M (iom_sys K) A) : keeps_fibers m -> keeps_fsys t m.
Proof. intros Hm s a s' _. apply Hm. Qed.

Lemma keeps_fsys_bind {A B} t (m : M (iom_sys K) A) (k : A -> M (iom_sys K) B) :
  keeps_fsys t m -> (forall a, keeps_fsys t (k a)) -> keeps_fsys t (let! x := m in k x).
Proof.
  intros Hm Hk s b s' Hf Hx. unfold mbind_M in Hx. destruct (m s) as [[a s1]| | | |] eqn:E; try done.
  pose proof (Hm s a s1 Hf E) as E1. rewrite (Hk a s1 b s'); [done|by rewrite E1|done].
Qed.

Lemma keeps_GetThis t a : keeps_fsys t (mzoom fsys (fun f s => s <| fsys := f |>) (GetThis t a)).
Proof.
  intros s p s' [q Hq] Hx. unfold GetThis in Hx. munfold. rewrite Hq in Hx.
  rewrite bool_decide_true in Hx by eauto. rewrite Hq in Hx. by injection Hx as <- <-.
Qed.

Lemma resizeContexts_keeps garbage size : keeps_fibers (resizeContexts (K := K) garbage size).
Proof.
  unfold resizeContexts. cbv zeta. apply keeps_bind; [by apply keeps_modify|]. intros _.
  generalize 0%nat. generalize (Z.to_nat size). intros n. induction n as [|n IH]; intros i; cbn; keeps; [|apply IH].
  unfold new_FdContext. keeps.
Qed.

Lemma addEvent_keeps garbage t cur a fd ev func : keeps_fsys t (addEvent (K := K) garbage t cur a fd ev func).
Proof.
  unfold addEvent, addEvent_need_resize, addEvent_find, addEvent_check, addEvent_locked, fd_context_at.
  repeat match goal with
  | |- forall _, _ => intro
  | |- keeps_fsys _ (mbind_M _ _) => apply keeps_fsys_bind
  | |- keeps_fsys _ (mzoom fsys _ _) => apply keeps_GetThis
  | |- keeps_fsys _ (resizeContexts _ _) => apply keeps_fsys_of, resizeContexts_keeps
  | |- keeps_fsys _ (mgets _) => apply keeps_fsys_of; by intros ? ? ? [= <- <-]
  | |- keeps_fsys _ (match ?x with _ => _ end) => destruct x
  | |- keeps_fsys _ (let _ := ?x in _) => cbv zeta
  | |- keeps_fsys _ _ => apply keeps_fsys_of; solve [keeps]
  end.
Qed.

Lemma cancelAll_keeps fd : keeps_fibers (cancelAll (K := K) fd).
Proof.
  unfold cancelAll, find_context, fd_context_at, trigger, FdContext_scheduleEvent, schedule_on. cbv zeta. keeps.
Qed.

Lemma steps_iom {A} t (m : M (iom_sys K) A) : emits m -> keeps_fsys t m -> steps t [] (on_iom m).
Proof.
  intros He Hk h a h' Hf Hx. unfold on_iom, mzoom in Hx. destruct (m (h_iom h)) as [[a' i]| | | |] eqn:E; try done.
  injection Hx as <- <-. split; [|exact (Hk (h_iom h) a' i Hf E)].
  destruct (He (h_iom h) a' i E) as (E1 & acts & Ha & Hs). split; [done|]. exists acts. split; [|split; [|done]].
  - eapply Forall_impl; [exact Ha|]. intros [q []] Hio; done.
  - enough (adds acts.*2 = []) as -> by done. clear -Ha. induction Ha as [|[q a] acts Hq Ha IH]; [done|].
    unfold adds in *. cbn. destruct a; try done.
Qed.

Lemma steps_iom_addEvent garbage site e a fd ev : steps (e_tid e) [] (iom_addEvent (K := K) garbage site e a fd ev).
Proof.
  intros h x h' Hf Hx. unfold iom_addEvent in Hx. unfold mget, mbind_M at 1 in Hx. destruct (negb (iom_GetThis e h)); [done|].
  exact (steps_iom (e_tid e) _ (emits_add garbage (e_tid e) (e_sched e) a fd ev None)
    (addEvent_keeps garbage (e_tid e) (e_sched e) a fd ev None) h x h' Hf Hx).
Qed.

Lemma steps_cancelEvent t fd ev : steps t [] (on_iom (cancelEvent (K := K) fd ev)).
Proof. apply steps_iom; [apply emits_cancel|]. apply keeps_fsys_of, cancelEvent_keeps_fibers. Qed.

Lemma steps_cancelAll t fd : steps t [] (on_iom (cancelAll (K := K) fd)).
Proof. apply steps_iom; [apply emits_cancelAll|]. apply keeps_fsys_of, cancelAll_keeps. Qed.

Lemma steps_schedule t p :
  steps t [] (mmodify (fun h => h <| h_iom := (h_iom h)
    <| scheds := alter (schedule (Task_fiber p (-1))) (this_sched (h_iom h)) (scheds (h_iom h)) |> |>)).
Proof.
  intros h a h' _ [= <- <-]. split; [|done]. split; [done|]. exists [(this_sched (h_iom h), ASchedule (Task_fiber p (-1)))].
  by split; [repeat constructor|].
Qed.

(** The same rules in the form in which the calls use them: at most one
    statement of a call arms a timer. *)
Lemma steps_then {A B} t b (m : M (hook_sys K) A) (k : A -> M (hook_sys K) B) :
  steps t [] m -> (forall a, steps t b (k a)) -> steps t b (let! x := m in k x).
Proof. apply (steps_bind t [] b). Qed.

Lemma steps_timer_then {A B} t b (m : M (hook_sys K) A) (k : A -> M (hook_sys K) B) :
  steps t b m -> (forall a, steps t [] (k a)) -> steps t b (let! x := m in k x).
Proof. intros Hm Hk. rewrite <- (app_nil_r b). by apply steps_bind. Qed.

Lemma waits_then {A B} t b w (m : M (hook_sys K) A) (k : A -> M (hook_sys K) B) :
  steps t [] m -> (forall a, waits t b w (k a)) -> waits t b w (let! x := m in k x).
Proof. apply (waits_bind t [] b). Qed.

Lemma waits_timer_then {A B} t b w (m : M (hook_sys K) A) (k : A -> M (hook_sys K) B) :
  steps t b m -> (forall a, waits t [] w (k a)) -> waits t b w (let! x := m in k x).
Proof. intros Hm Hk. rewrite <- (app_nil_r b). by apply waits_bind. Qed.

Lemma waits_yield_then {A} t w (f : option resume -> A) :
  (forall r, w (f r) = true) -> waits t [] w (let! r := on_fibers (K := K) (Yield t) in mret_M (f r)).
Proof.
  intros Hw. apply (waits_seq t [] [] (fun _ => true)); [apply waits_yield|done|]. intros r _. exists (f r). by split.
Qed.

Lemma steps_libc t c : steps t [] (libc (K := K) c).
Proof. apply steps_quiet, quiet_libc. Qed.
Lemma steps_fdm {A} t (m : M (fd_sys K) A) : steps t [] (on_fdm m).
Proof. apply steps_quiet, quiet_fdm. Qed.
Lemma steps_get t : steps t [] (mget (S := hook_sys K)).
Proof. apply steps_quiet, quiet_get. Qed.
Lemma steps_deref {A} t site (o : hook_sys K -> option A) : steps t [] (mderef site o).
Proof. apply steps_quiet, quiet_deref. Qed.
Lemma steps_modify t f :
  (forall h, this_sched (h_iom (f h)) = this_sched (h_iom h) /\ scheds (h_iom (f h)) = scheds (h_iom h)
     /\ fsys (h_iom (f h)) = fsys (h_iom h)) -> steps t [] (mmodify f).
Proof. intros Hf. by apply steps_quiet, quiet_modify. Qed.
Lemma steps_fcntl_f t fd cmd arg : steps t [] (fcntl_f (K := K) fd cmd arg).
Proof. apply steps_quiet, quiet_fcntl_f. Qed.
End Steps.

(** One statement of a call, which arms no timer. *)
Ltac hstep :=
  lazymatch goal with
  | |- steps _ _ (mret_M _) => apply steps_ret
  | |- steps _ _ mget => apply steps_get
  | |- steps _ _ (libc _) => apply steps_libc
  | |- steps _ _ (libc_ret _) => unfold libc_ret
  | |- steps _ _ (fcntl_f _ _ _) => apply steps_fcntl_f
  | |- steps _ _ (on_fdm _) => apply steps_fdm
  | |- steps _ _ (fd_get _ _ _) => unfold fd_get; apply steps_fdm
  | |- steps _ _ (fd_ctx _) => unfold fd_ctx; apply steps_deref
  | |- steps _ _ (mderef _ _) => apply steps_deref
  | |- steps _ _ (mmodify _) => apply steps_modify; done
  | |- steps _ _ (cancel_timer _) => apply steps_cancel_timer
  | |- steps _ _ (on_fibers (GetThis _ _)) => apply steps_GetThis
  | |- steps _ _ (iom_addEvent _ _ _ _ _ _) => apply steps_iom_addEvent
  | |- steps _ _ (on_iom (cancelEvent _ _)) => apply steps_cancelEvent
  | |- steps _ _ (on_iom (cancelAll _)) => apply steps_cancelAll
  | |- steps _ _ (mbind_M _ _) => apply steps_then
  | |- steps _ _ (match ?x with _ => _ end) => destruct x
  | |- forall _, _ => intro
  end.

(** A call: its statements up to its results and its [Yield]. *)
Ltac hwait :=
  lazymatch goal with
  | |- waits _ _ _ (mret_M _) => apply waits_nil, waits_ret; reflexivity
  | |- waits _ _ _ (mbind_M _ (on_fibers (Yield _))) => apply waits_nil, waits_yield_then; reflexivity
  | |- waits _ _ _ (mbind_M _ (io_timer _ _ _ _ _ _ _ _)) => apply waits_timer_then
  | |- waits _ _ _ (mbind_M _ _) => apply waits_then; [solve [repeat hstep]|]
  | |- waits _ _ _ (match ?x with _ => _ end) => destruct x
  | |- forall _, _ => intro
  end.

(** ** The calls *)

Section Calls.
Context {K : Type} {FO : FileOps K} {EO : EpollOps K} {LO : LibcOps K} (garbage : ptr -> Z).
Implicit Type h : hook_sys K.

Definition io_waits (o : io_outcome) : bool := match o with IoWait _ _ => true | _ => false end.
Definition sleep_waits (o : sleep_ret) : bool := match o with inr _ => true | inl _ => false end.

Lemma steps_io_timer site e a now to tinfo fd ev :
  steps (e_tid e) [a_timer a] (io_timer (K := K) site e a now to tinfo fd ev).
Proof.
  unfold io_timer, iom_addConditionTimer. destruct (negb (to =? u64_max)); [|apply steps_nil, steps_ret].
  apply steps_timer_then; [apply steps_addTimer|]. repeat hstep.
Qed.

Lemma steps_io_eintr t fuel fn fd args : steps t [] (io_eintr (K := K) fuel fn fd args).
Proof. induction fuel as [|fuel IH]; cbn; repeat hstep. exact IH. Qed.

Lemma waits_release {b : list ptr} t tinfo n : waits t b io_waits (release (K := K) tinfo (IoDone n)).
Proof. unfold release. repeat hwait. Qed.

Lemma waits_do_io_retry fuel e a now tinfo to fn fd ev args :
  waits (e_tid e) [a_timer a] io_waits (do_io_retry garbage fuel e a now tinfo to fn fd ev args).
Proof.
  unfold do_io_retry. apply waits_then; [apply steps_io_eintr|]. intros [n|]; [|repeat hwait].
  repeat hwait; [apply steps_io_timer|..|apply waits_release]; repeat hwait. apply waits_release.
Qed.

Lemma waits_do_io_resume fuel e a now tinfo to timer fn fd ev args :
  waits (e_tid e) [a_timer a] io_waits (do_io_resume garbage fuel e a now tinfo to timer fn fd ev args).
Proof. unfold do_io_resume. repeat hwait; [apply waits_release|apply waits_do_io_retry]. Qed.

Lemma waits_do_io fuel e a now fn fd ev so args :
  waits (e_tid e) [a_timer a] io_waits (do_io garbage fuel e a now fn fd ev so args).
Proof. unfold do_io. repeat hwait. apply waits_do_io_retry. Qed.

Lemma steps_accept_finish t a fd : steps t [] (accept_finish (K := K) a fd).
Proof. unfold accept_finish. repeat hstep. Qed.

Lemma waits_accept fuel e a now s args :
  waits (e_tid e) [a_timer a] io_waits (accept garbage fuel e a now s args).
Proof.
  unfold accept, hooked_io. rewrite <- (app_nil_r [a_timer a]). apply (waits_seq _ _ _ io_waits); [apply waits_do_io|..].
  - intros [n| |] Hw; [|done|by apply waits_ret]. apply waits_then; [apply steps_accept_finish|]. intros n'. by apply waits_ret.
  - intros [n|timer sw|] Hw; try done. by eexists.
Qed.

Lemma steps_connect_error t fd : steps t [] (connect_error (K := K) fd).
Proof. unfold connect_error. repeat hstep. Qed.

Lemma waits_connect e a now fd addr timeout :
  waits (e_tid e) [a_timer a] io_waits (connect_with_timeout (K := K) garbage e a now fd addr timeout).
Proof.
  unfold connect_with_timeout. repeat hwait; [apply steps_io_timer|]. repeat hwait.
  apply waits_then; [apply steps_connect_error|]. intros n. apply waits_release.
Qed.

Lemma waits_connect_resume t tinfo timer fd :
  waits t [] io_waits (connect_resume (K := K) tinfo timer fd).
Proof.
  unfold connect_resume. repeat hwait; [apply waits_release|]. apply waits_then; [apply steps_connect_error|].
  intros n. apply waits_release.
Qed.

Lemma waits_sleep_ms site e a now ms : waits (e_tid e) [a_timer a] (fun _ => true) (sleep_ms (K := K) site e a now ms).
Proof.
  unfold sleep_ms. apply waits_then; [repeat hstep|]. intros p. apply waits_timer_then; [apply steps_addTimer|].
  intros _. apply waits_yield.
Qed.

(** The sleep family: the call of the C library, or the common body. *)
Lemma waits_sleep e a c (m : M (hook_sys K) (option resume)) :
  waits (e_tid e) [a_timer a] (fun _ => true) m ->
  waits (e_tid e) [a_timer a] sleep_waits
    (if negb (t_hooked e) then let! n := libc_ret c in mret_M (inl n) else let! r := m in mret_M (inr r)).
Proof.
  intros Hm. destruct (negb (t_hooked e)); [repeat hwait|]. rewrite <- (app_nil_r [a_timer a]).
  apply (waits_seq _ _ _ (fun _ => true)); [done|done|]. intros r _. by exists (inr r).
Qed.

Lemma steps_run_closure t c : steps t [] (run_closure (K := K) c).
Proof.
  induction c as [id|q c IH|p|q fd ev|]; cbn [run_closure]; repeat hstep; [exact IH|apply steps_schedule|].
  unfold on_timeout. repeat hstep.
Qed.

Lemma steps_close e a fd : steps (e_tid e) [] (close (K := K) e a fd).
Proof. unfold close. repeat hstep. Qed.

(** What a task of the library's client may call, or the scheduler run: the
    hooked calls, the parts of the split ones behind their [Yield], and the
    closures.  The result says whether the call is in its [Yield]. *)
Inductive hook_call :=
| CallIo (fuel : nat) (now : Z) (fn : io_fun) (fd : Z) (args : nat)
| CallIoResume (fuel : nat) (now : Z) (tinfo : ptr) (to : Z) (timer : option ptr) (fn : io_fun) (fd ev : Z) (args : nat)
| CallAccept (fuel : nat) (now fd : Z) (args : nat)
| CallAcceptFinish (fd : Z)
| CallConnect (now fd : Z) (addr : nat)
| CallConnectResume (tinfo : ptr) (timer : option ptr) (fd : Z)
| CallSleep_ (now seconds : Z)
| CallUsleep_ (now usec : Z)
| CallNanosleep_ (now tv_sec tv_nsec : Z)
| CallSleepResume
| CallSocket (domain type protocol : Z)
| CallClose (fd : Z)
| CallFcntl (fd cmd arg : Z)
| CallIoctl (fd request arg : Z)
| CallGetsockopt (fd level optname : Z)
| CallSetsockopt (fd level optname tv_sec tv_usec : Z)
| CallClosure (c : closure).

Definition done_with {A} (m : M (hook_sys K) A) : M (hook_sys K) bool := let! _ := m in mret_M false.

Definition run_hook (c : hook_call) (e : env) (a : addrs) : M (hook_sys K) bool :=
  match c with
  | CallIo fuel now fn fd args => let! o := hooked_io garbage fuel e a now fn fd args in mret_M (io_waits o)
  | CallIoResume fuel now tinfo to timer fn fd ev args =>
      let! o := do_io_resume garbage fuel e a now tinfo to timer fn fd ev args in mret_M (io_waits o)
  | CallAccept fuel now fd args => let! o := accept garbage fuel e a now fd args in mret_M (io_waits o)
  | CallAcceptFinish fd => done_with (accept_finish a fd)
  | CallConnect now fd addr => let! o := connect garbage e a now fd addr in mret_M (io_waits o)
  | CallConnectResume tinfo timer fd => let! o := connect_resume tinfo timer fd in mret_M (io_waits o)
  | CallSleep_ now seconds => let! o := sleep e a now seconds in mret_M (sleep_waits o)
  | CallUsleep_ now usec => let! o := usleep e a now usec in mret_M (sleep_waits o)
  | CallNanosleep_ now tv_sec tv_nsec => let! o := nanosleep e a now tv_sec tv_nsec in mret_M (sleep_waits o)
  | CallSleepResume => done_with sleep_resume
  | CallSocket domain type protocol => done_with (socket e a domain type protocol)
  | CallClose fd => done_with (close e a fd)
  | CallFcntl fd cmd arg => done_with (fcntl a fd cmd arg)
  | CallIoctl fd request arg => done_with (ioctl a fd request arg)
  | CallGetsockopt fd level optname => done_with (getsockopt fd level optname)
  | CallSetsockopt fd level optname tv_sec tv_usec => done_with (setsockopt e a fd level optname tv_sec tv_usec)
  | CallClosure c => done_with (run_closure c)
  end.

Lemma waits_result {A} t b w (m : M (hook_sys K) A) : waits t b w m -> waits t b (fun x => x) (let! o := m in mret_M (w o)).
Proof.
  intros Hm. rewrite <- (app_nil_r b). apply (waits_seq _ _ _ w); [done|..].
  - intros a Hw. by apply waits_ret.
  - intros a Hw. by exists (w a).
Qed.

Lemma waits_done {A} t b (m : M (hook_sys K) A) : steps t [] m -> waits t b (fun x => x) (done_with m).
Proof. intros Hm. unfold done_with. apply waits_then; [done|]. intros _. by apply waits_nil, waits_ret. Qed.

Lemma waits_run_hook c e a : waits (e_tid e) [a_timer a] (fun x => x) (run_hook c e a).
Proof.
  destruct c; cbn [run_hook];
    lazymatch goal with |- waits _ _ _ (done_with _) => apply waits_done | _ => apply waits_result end.
  - apply waits_do_io.
  - apply waits_do_io_resume.
  - apply waits_accept.
  - apply steps_accept_finish.
  - apply waits_connect.
  - apply waits_nil, waits_connect_resume.
  - apply waits_sleep, waits_sleep_ms.
  - apply waits_sleep, waits_sleep_ms.
  - apply waits_sleep, waits_sleep_ms.
  - apply steps_ret.
  - unfold socket. repeat hstep.
  - apply steps_close.
  - unfold fcntl. repeat hstep.
  - unfold ioctl. repeat hstep.
  - unfold getsockopt. repeat hstep.
  - unfold setsockopt. repeat hstep.
  - apply steps_run_closure.
Qed.
End Calls.

(** ** The simulation *)

Lemma acts_of_hook q acts :
  Forall (fun qa => hook_action qa.2 = true) acts -> Forall (fun a => hook_action a = true) (acts_of q acts).
Proof.
  intros Hall. apply Forall_forall. intros a ([q' a'] & Hin & Hd)%list_elem_of_omap. cbn in Hd.
  destruct (decide (q' = q)); [|done]. injection Hd as <-. rewrite Forall_forall in Hall. exact (Hall _ Hin).
Qed.

(** At most one timer is armed, at the call's own address. *)
Lemma adds_one (l : list ptr) x : l ⊆+ [x] -> NoDup l /\ forall y, y ∈ l -> y = x.
Proof.
  intros Hl. split.
  - apply submseteq_length in Hl. destruct l as [|y [|z l]]; [constructor| |cbn in Hl; lia].
    apply NoDup_singleton.
  - intros y Hy. apply (elem_of_submseteq _ _ _ Hy) in Hl. by apply list_elem_of_singleton in Hl.
Qed.

Section Simulated.
Context {K : Type} {FO : FileOps K} {EO : EpollOps K} {LO : LibcOps K}
  (interest : K -> gmap Z epoll_event) (garbage : ptr -> Z).
Implicit Type h : hook_sys K.

(** The two models show one process: the IOManager's scheduler is the scheduler
    of the workers, and the fibers the workers know are in the states that
    Fiber.v gives them. *)
Record same_process h (ss : Sys) : Prop := {
  sp_sched : scheds (h_iom h) !! this_sched (h_iom h) = Some (sch ss);
  sp_fibers : fstate ss ⊆ states_of (fsys (h_iom h));
}.

(** Thread [t] runs client code, in the fiber [p]. *)
Definition runs_client (ss : Sys) (t : tid) (w : Worker) (p : ptr) : Prop :=
  workers ss !! t = Some w /\ running_fiber w = Some p.

(** The worker behind the call of its fiber. *)
Definition came_back (w : Worker) : Worker :=
  w <| at_pc := match at_pc w with PFiber => PFiberBack | _ => PFuncBack end |>.

(** The part of the simulation in which the fiber keeps running. *)
Lemma acted_simulated e h h' m p ss w x :
  in_worker e h m p -> same_process h ss -> m_mutex (sch ss) = None -> runs_client ss (e_tid e) w p ->
  fresh_timer h x -> acted [x] h h' ->
  exists acts ss', Forall (fun a => hook_action a = true) acts
    /\ exec_all (LBody (e_tid e) <$> acts) ss = Some (Ok ss')
    /\ scheds (h_iom h') !! this_sched (h_iom h') = Some (sch ss')
    /\ workers ss' = workers ss /\ fstate ss' = fstate ss.
Proof.
  intros Hw [Hs _] Hm [Hwk Hr] Hf (Eq & acts & Hall & Hb & Hsc). set (q := this_sched (h_iom h)) in *.
  assert (adds (acts_of q acts) ⊆+ [x]) as Hone by (etransitivity; [apply adds_acts_of|done]).
  destruct (adds_one _ _ Hone) as [Hnd Hx].
  destruct (bodies_exec (acts_of q acts) ss (e_tid e) w p (acts_of_hook q acts Hall) Hm Hwk Hr Hnd) as (ss' & He & Hsch & _ & Hws & Hfs).
  { intros y ->%Hx. by apply Hf. }
  exists (acts_of q acts), ss'. split; [by apply acts_of_hook|]. split; [done|]. split; [|done].
  rewrite Eq, Hsc, Hsch. by apply foldl_on_sched.
Qed.

(** C19: a hooked call is a task of the scheduler model.  Whatever a hooked
    call, the part of a split one behind its [Yield], or a closure of the library
    does (in any state in which it comes to its [Yield] or returns), its effect
    on the scheduler is that of labels of the worker it runs on, all enabled
    while the lock is free: tasks queued, [m_pending_count] set, timers
    cancelled and at most one armed.  If the call waits, the label of a task
    that yields follows, and the thread is back in its main fiber behind
    [Fiber::call]; otherwise worker and fibers stay as they are.  In either case
    both models still show one process. *)
Theorem hooked_calls_simulated c e a h m p b h' ss w :
  hook_ok interest h -> in_worker e h m p -> fresh_timer h (a_timer a) ->
  same_process h ss -> m_mutex (sch ss) = None -> runs_client ss (e_tid e) w p ->
  run_hook garbage c e a h = Ok (b, h') ->
  exists acts ss', Forall (fun l => hook_action l = true) acts
    /\ exec_all ((LBody (e_tid e) <$> acts) ++ (if b then [LBack (e_tid e) CYield] else [])) ss = Some (Ok ss')
    /\ same_process h' ss'
    /\ if b then workers ss' = <[e_tid e := came_back w]> (workers ss)
                /\ fstate ss' = <[p := SUSPEND]> (fstate ss)
                /\ tls_of (fsys (h_iom h')) (e_tid e) = mkTLS (Some m) (Some m) (Some m)
       else workers ss' = workers ss /\ fstate ss' = fstate ss /\ fsys (h_iom h') = fsys (h_iom h).
Proof.
  intros Hh Hw Hf Hp Hm Hrun Hx.
  destruct (worker_fiber interest e h m p Hh Hw) as (f & fm & Ht & (Hfm & _) & Hfp & _ & _ & Hc & Hre).
  assert (has_fiber (e_tid e) (fsys (h_iom h))) as Hhas by (unfold has_fiber; rewrite Ht; by eexists).
  destruct (waits_run_hook garbage c e a h b h' Hhas Hx) as [Hacted Hfib].
  destruct (acted_simulated e h h' m p ss w _ Hw Hp Hm Hrun Hf Hacted) as (acts & s1 & Hall & He & Hsch & Hws & Hfs).
  destruct Hrun as [Hwk Hr]. destruct b.
  - destruct Hfib as [r Hy]. unfold Yield in Hy.
    rewrite (Yield_to_eq SUSPEND _ m p f fm _ Ht Hfm Hfp (iw_client _ _ _ _ Hw) Hc Hre) in Hy. injection Hy as _ Hy.
    destruct (switch_out_lookup (e_tid e) m p SUSPEND RBody f _ Hfp) as (_ & Htl & _).
    eexists acts, _. split; [done|]. split; [rewrite (exec_all_app _ _ ss s1 He)|]; cbn [exec_all exec].
    + rewrite Hws, Hwk. cbn [mbind option_bind]. unfold step_back. rewrite Hr. reflexivity.
    + split; [split|].
      * exact Hsch.
      * rewrite <- Hy, (states_switch_out _ m p SUSPEND RBody f _ Hfp). cbn. rewrite Hfs.
        apply insert_mono, Hp.
      * cbn. rewrite Hws, Hfs, <- Hy. done.
  - exists acts, s1. rewrite app_nil_r. split; [done|]. split; [done|]. split; [|done].
    split; [exact Hsch|]. rewrite Hfs, Hfib. apply Hp.
Qed.
End Simulated.

(** ** A concrete run *)

(** The scheduler of the process of HookDemo.v, whose worker, thread 1, runs
    fiber 11 as a task; the fiber sleeps, or reads from the empty socket. *)
Definition hs_worker : Worker := Worker_init <| at_pc := PFiber |> <| tk := Task_fiber 11%nat (-1) |>.
Definition hs_sched : Scheduler := default demo_sched (scheds (h_iom hd) !! this_sched (h_iom hd)).
Definition hs_sys : Sys := mkSys hs_sched {[11%nat := RUNNING]} {[1%nat := hs_worker]} [] [] 0.

Definition hs_sleep : hook_call := CallSleep_ 100 2.
Definition hs_read : hook_call := CallIo 1 100 read_f 3 0.
Definition hs_after (c : hook_call) : hook_sys hook_kernel := run_state (run_hook zeroed c hd_env hd_addrs) hd.

Lemma hs_same : same_process hd hs_sys.
Proof.
  split; [vm_compute; reflexivity|]. apply map_singleton_subseteq_l. vm_compute. reflexivity.
Qed.

Lemma hs_waits c : c = hs_sleep \/ c = hs_read -> run_hook zeroed c hd_env hd_addrs hd = Ok (true, hs_after c).
Proof. intros [-> | ->]; vm_compute; reflexivity. Qed.

Lemma hooked_calls_simulated_witness :
  (exists acts ss', exec_all ((LBody 1%nat <$> acts) ++ [LBack 1%nat CYield]) hs_sys = Some (Ok ss')
     /\ same_process (hs_after hs_sleep) ss')
  /\ (exists acts ss', exec_all ((LBody 1%nat <$> acts) ++ [LBack 1%nat CYield]) hs_sys = Some (Ok ss')
     /\ same_process (hs_after hs_read) ss').
Proof.
  split.
  - destruct (hooked_calls_simulated hk_interest zeroed hs_sleep hd_env hd_addrs hd 10%nat 11%nat true (hs_after hs_sleep)
      hs_sys hs_worker hd_ok hd_worker hd_fresh_timer hs_same eq_refl (conj eq_refl eq_refl) (hs_waits _ (or_introl eq_refl)))
      as (acts & ss' & _ & Hx & Hp & _). exact (ex_intro _ acts (ex_intro _ ss' (conj Hx Hp))).
  - destruct (hooked_calls_simulated hk_interest zeroed hs_read hd_env hd_addrs hd 10%nat 11%nat true (hs_after hs_read)
      hs_sys hs_worker hd_ok hd_worker hd_fresh_timer hs_same eq_refl (conj eq_refl eq_refl) (hs_waits _ (or_intror eq_refl)))
      as (acts & ss' & _ & Hx & Hp & _). exact (ex_intro _ acts (ex_intro _ ss' (conj Hx Hp))).
Defined.
