(* ===== verification/Log.v ===== *)
(** * Logging (src/src/log.h, src/src/log.cpp)

    Levels, the pattern language of [LogFormatter], the appenders, loggers and
    the [LoggerManager].  Strings are byte strings; [localtime_r] and [strftime]
    are the parameter [strftime] (a result that does not fit the 64-byte buffer
    is [None], and leaves the buffer undefined).  Loggers and appenders are
    objects behind shared pointers. *)

From Stdlib Require Import Ascii.
From stdpp Require Import pretty.
From S2P Require Import Prelude.

(** ** Levels and events *)

(** [LogLevel::Level] *)
Definition UNKNOW : Z := 0.
Definition DEBUG : Z := 1.
Definition INFO : Z := 2.
Definition WARN : Z := 3.
Definition ERROR : Z := 4.
Definition FATAL : Z := 5.

(** [LogLevel::toString] *)
Definition toString (level : Z) : string :=
  if level =? UNKNOW then "UNKNOW"
  else if level =? DEBUG then "DEBUG"
  else if level =? INFO then "INFO"
  else if level =? WARN then "WARN"
  else if level =? ERROR then "ERROR"
  else if level =? FATAL then "FATAL"
  else "".

Record LogEvent := mkLogEvent {
  ev_file : string;
  ev_line : Z;           (* int32_t *)
  ev_time : Z;           (* uint64_t *)
  ev_level : Z;
  ev_thread_id : Z;      (* uint32_t *)
  ev_fiber_id : Z;       (* uint64_t *)
  ev_thread_name : string;
  ev_ss : string;        (* the message stream *)
  ev_logger_name : string;
}.
#[export] Instance eta_LogEvent : Eta LogEvent := fun e =>
  mkLogEvent (ev_file e) (ev_line e) (ev_time e) (ev_level e) (ev_thread_id e) (ev_fiber_id e) (ev_thread_name e)
    (ev_ss e) (ev_logger_name e).

(** [LogEvent::LogEvent]: the parameters at their widths, and [m_ss << message].
    Of the logger an event only uses the name, which never changes. *)
Definition LogEvent_ctor (logger_name file : string) (line time level thread_id fiber_id : Z) (thread_name message : string)
    : LogEvent :=
  mkLogEvent file (i32 line) (u64 time) level (u32 thread_id) (u64 fiber_id) thread_name message logger_name.

(** [event->getSS() << text] *)
Definition getSS_write (text : string) (ev : LogEvent) : LogEvent := ev <| ev_ss := ev_ss ev +:+ text |>.

(** Where a logging statement stands, and what the macros read when it is
    executed: [time(0)], [GetThreadId()], [Fiber::GetFiberId()] and
    [Thread::GetName()]. *)
Record log_site := mkSite { __FILE__ : string; __LINE__ : Z }.
Record log_env := mkLogEnv { le_time : Z; le_thread : Z; le_fiber : Z; le_name : string }.

(** [EVA_LOG_EVENT(logger, level, message)]: the ids are 0. *)
Definition EVA_LOG_EVENT (logger_name : string) (level : Z) (message : string) (at_ : log_site) (e : log_env) : LogEvent :=
  LogEvent_ctor logger_name (__FILE__ at_) (__LINE__ at_) (le_time e) level 0 0 (le_name e) message.

(** The event that [EVA_LOG_LEVEL(logger, level)] builds. *)
Definition EVA_LOG_LEVEL_event (logger_name : string) (level : Z) (at_ : log_site) (e : log_env) : LogEvent :=
  LogEvent_ctor logger_name (__FILE__ at_) (__LINE__ at_) (le_time e) level (le_thread e) (le_fiber e) (le_name e) "".

(** ** Items *)

Inductive Item :=
| MessageLogItem
| LevelLogItem
| NameLogItem
| ThreadIdLogItem
| NewLineLogItem
| FileLogItem (pattern : string)
| LineLogItem
| TabLogItem
| DateLogItem (pattern : string)
| ThreadNameLogItem
| FiberIdLogItem
| StringLogItem (pattern : string).

(** The constructor of [DateLogItem] *)
Definition DateLogItem_ctor (pattern : string) : Item :=
  DateLogItem (if bool_decide (pattern = "") then "%Y-%m-%d %H:%M:%S" else pattern).

(** [LogFormatter::FORMATS] *)
Definition FORMATS (key : ascii) : option (string -> Item) :=
  match key with
  | "m"%char => Some (fun _ => MessageLogItem)
  | "p"%char => Some (fun _ => LevelLogItem)
  | "c"%char => Some (fun _ => NameLogItem)
  | "t"%char => Some (fun _ => ThreadIdLogItem)
  | "n"%char => Some (fun _ => NewLineLogItem)
  | "f"%char => Some FileLogItem
  | "l"%char => Some (fun _ => LineLogItem)
  | "T"%char => Some (fun _ => TabLogItem)
  | "d"%char => Some DateLogItem_ctor
  | "N"%char => Some (fun _ => ThreadNameLogItem)
  | "F"%char => Some (fun _ => FiberIdLogItem)
  | _ => None
  end.

Definition tab : string := String "009"%char EmptyString.
Definition newline : string := String "010"%char EmptyString.

(** [atoi]: white space, a sign, digits; the rest is ignored. *)
Definition is_space (c : ascii) : bool :=
  let n := Ascii.nat_of_ascii c in (bool_decide (n = 32%nat) || ((9 <=? n)%nat && (n <=? 13)%nat)).

Definition digit_of (c : ascii) : option Z :=
  let n := Z.of_nat (Ascii.nat_of_ascii c) in if (48 <=? n) && (n <=? 57) then Some (n - 48) else None.

Fixpoint atoi_digits (acc : Z) (s : string) : Z :=
  match s with
  | EmptyString => acc
  | String c s => match digit_of c with Some d => atoi_digits (acc * 10 + d) s | None => acc end
  end.

Definition atoi_signed (s : string) : Z :=
  match s with
  | String "-"%char s => - atoi_digits 0 s
  | String "+"%char s => atoi_digits 0 s
  | _ => atoi_digits 0 s
  end.

Fixpoint atoi (s : string) : Z :=
  match s with
  | String c s' => if is_space c then atoi s' else atoi_signed s
  | EmptyString => 0
  end.

(** The loop of [FileLogItem::format] over the C string [s]: [None] when it
    runs past the terminating NUL, which it does not test for. *)
Fixpoint skip_dirs (depth : Z) (s : string) : option string :=
  match s with
  | EmptyString => if depth =? 0 then Some "" else None
  | String c s' =>
      if bool_decide (c = "010"%char) || (depth =? 0) then Some s
      else skip_dirs (if bool_decide (c = "/"%char) then depth - 1 else depth) s'
  end.

Section Log.
Context (strftime : string -> Z -> option string).

(** [Item::format]: what the item adds to the stream. *)
Definition Item_format (it : Item) (ev : LogEvent) : res string :=
  match it with
  | MessageLogItem => Ok (ev_ss ev)
  | LevelLogItem => Ok (toString (ev_level ev))
  | NameLogItem => Ok (ev_logger_name ev)
  | ThreadIdLogItem => Ok (pretty (ev_thread_id ev))
  | NewLineLogItem => Ok newline
  | FileLogItem pattern =>
      match skip_dirs (atoi pattern) (ev_file ev) with
      | Some s => Ok s
      | None => Undefined "log.cpp:129"
      end
  | LineLogItem => Ok (pretty (ev_line ev))
  | TabLogItem => Ok tab
  | DateLogItem pattern =>
      match strftime pattern (ev_time ev) with
      | Some s => Ok s
      | None => Undefined "log.cpp:54"
      end
  | ThreadNameLogItem => Ok (ev_thread_name ev)
  | FiberIdLogItem => Ok (pretty (ev_fiber_id ev))
  | StringLogItem pattern => Ok pattern
  end.

(** [LogFormatter::format] on the parsed items. *)
Fixpoint format (items : list Item) (ev : LogEvent) : res string :=
  match items with
  | [] => Ok ""
  | it :: items =>
      match Item_format it ev with
      | Ok s =>
          match format items ev with
          | Ok r => Ok (s +:+ r)
          | e => e
          end
      | e => e
      end
  end.

(** ** The pattern parser *)

(** The inner loop: collects up to a closing brace; [None] if there is none. *)
Fixpoint read_fmt (s : string) : string * option string :=
  match s with
  | EmptyString => ("", None)
  | String c s =>
      if bool_decide (c = "}"%char) then ("", Some s)
      else let '(fmt, rest) := read_fmt s in (String c fmt, rest)
  end.

Inductive parse_error := DoublePercent | OpenBrace | InvalidItem (c : ascii).

(** The loop of [initItems] from the iterator's position, with [found]; the
    items it appends and the messages it prints.  [fmt.clear()] resets the
    stream's error state, not its text. *)
Fixpoint initItems_loop (fuel : nat) (found : bool) (s : string) : option (list Item * list parse_error) :=
  match fuel with
  | O => None
  | S fuel =>
      match s with
      | EmptyString => Some ([], [])
      | String c s =>
          if bool_decide (c = "%"%char) then
            if found then Some ([], [DoublePercent]) else initItems_loop fuel true s
          else if found then
            match FORMATS c with
            | None => Some ([], [InvalidItem c])
            | Some mk =>
                match s with
                | String "{"%char s' =>
                    match read_fmt s' with
                    | (fmt, Some rest) =>
                        '(items, errs) ← initItems_loop fuel false rest; Some (mk fmt :: items, errs)
                    | (fmt, None) => Some ([mk fmt], [OpenBrace])
                    end
                | _ => '(items, errs) ← initItems_loop fuel false s; Some (mk "" :: items, errs)
                end
            end
          else
            '(items, errs) ← initItems_loop fuel false s; Some (StringLogItem (String c EmptyString) :: items, errs)
      end
  end.

(** [LogFormatter::initItems]; the iterator advances at every turn, so the
    length of the pattern is enough fuel. *)
Definition initItems (pattern : string) : list Item * list parse_error :=
  default ([], []) (initItems_loop (S (String.length pattern)) false pattern).

(** [LogFormatter::LogFormatter]: the formatter is its items. *)
Definition LogFormatter (pattern : string) : list Item := (initItems pattern).1.

Definition DEFAULT_PATTERN : string :=
  "%d{%Y-%m-%d %a %H:%M:%S}%T[%p]%T[%c]%T%t%T%N%T%F%T%f{5}%T%l%T%m%n".

(** What [initItems] prints to [std::cout]. *)
Definition parse_message (e : parse_error) : string :=
  match e with
  | DoublePercent => "parse_error: %" +:+ newline
  | OpenBrace => "parse_error: open {}" +:+ newline
  | InvalidItem c => "parse_error: invalid item" +:+ String c newline
  end.

Definition parse_output (pattern : string) : string :=
  foldr (fun e text => parse_message e +:+ text) "" (initItems pattern).2.

(** ** Appenders *)

Inductive appender_kind :=
| StdoutLogAppender
| FileLogAppender (fname : string) (good : bool)   (* the state of m_fstream *)
| StreamLogAppender (ss : string).                 (* the text of m_ss *)

Record LogAppender := mkAppender {
  ap_kind : appender_kind;
  ap_formatter : option (list Item);
  ap_level : Z;
}.

Record Logger := mkLogger {
  lg_name : string;
  lg_level : Z;
  lg_formatter : list Item;
  lg_appenders : list ptr;
}.

Record log_sys := mkLogSys {
  appenders : gmap ptr LogAppender;
  loggers : gmap ptr Logger;
  cout : string;                       (* what was written to std::cout *)
  files : gmap string string;
  m_loggers : gmap string ptr;         (* LoggerManager *)
}.

#[global] Instance eta_LogAppender : Eta LogAppender := fun a => mkAppender (ap_kind a) (ap_formatter a) (ap_level a).
#[global] Instance eta_Logger : Eta Logger := fun l =>
  mkLogger (lg_name l) (lg_level l) (lg_formatter l) (lg_appenders l).
#[global] Instance eta_log_sys : Eta log_sys := fun s =>
  mkLogSys (appenders s) (loggers s) (cout s) (files s) (m_loggers s).

(** Append [text] where the appender writes; a stream in a failed state drops
    it.  Opening a file has created it; [files] is what its streams were given,
    which they write out at each [std::endl]. *)
Definition emit (a : ptr) (text : string) (s : log_sys) : log_sys :=
  match ap_kind <$> appenders s !! a with
  | Some StdoutLogAppender => s <| cout := cout s +:+ text |>
  | Some (FileLogAppender fname good) =>
      if good then s <| files := alter (fun t => t +:+ text) fname (files s) |> else s
  | Some (StreamLogAppender ss) =>
      s <| appenders := alter (fun ap => ap <| ap_kind := StreamLogAppender (ss +:+ text) |>) a (appenders s) |>
  | None => s
  end.

(** [LogAppender::log], the three overrides. *)
Definition appender_log (a : ptr) (ev : LogEvent) : M log_sys unit :=
  let! ap := mderef "appender" (fun s => appenders s !! a) in
  if ap_level ap <=? ev_level ev then
    let! items := mderef "log.cpp: m_formatter" (fun _ => ap_formatter ap) in
    match format items ev with
    | Ok text => mmodify (emit a text)
    | AssertFailed w => mfail (AssertFailed w)
    | Undefined w => mfail (Undefined w)
    | Thrown w => mfail (Thrown w)
    | Terminated w => mfail (Terminated w)
    end
  else mret_M tt.

(** [StreamLogAppender::flush]: [m_ss.clear()] keeps the text. *)
Definition flush (a : ptr) : M log_sys string :=
  let! ap := mderef "appender" (fun s => appenders s !! a) in
  match ap_kind ap with
  | StreamLogAppender ss => mret_M ss
  | _ => mfail (Undefined "flush")
  end.

(** [FileLogAppender::reopen]; [can_open] is what the file system says.  Opening
    with [std::ios::app] creates the file, and keeps what is in it. *)
Definition reopen (can_open : string -> bool) (a : ptr) : M log_sys bool :=
  let! ap := mderef "appender" (fun s => appenders s !! a) in
  match ap_kind ap with
  | FileLogAppender fname _ =>
      mmodify (fun s => s <| appenders := <[a := ap <| ap_kind := FileLogAppender fname (can_open fname) |>]> (appenders s) |>
        <| files := if can_open fname then <[fname := default "" (files s !! fname)]> (files s) else files s |>) ;;;
      mret_M (can_open fname)
  | _ => mfail (Undefined "reopen")
  end.

(** New appenders: no formatter, level DEBUG. *)
Definition new_appender (a : ptr) (k : appender_kind) (s : log_sys) : log_sys :=
  s <| appenders := <[a := mkAppender k None DEBUG]> (appenders s) |>.

(** [FileLogAppender::FileLogAppender]: the new file stream is good, then [reopen()]. *)
Definition FileLogAppender_ctor (can_open : string -> bool) (a : ptr) (fname : string) : M log_sys unit :=
  mmodify (new_appender a (FileLogAppender fname true)) ;;;
  let! _ := reopen can_open a in
  mret_M tt.

(** ** Loggers *)

(** [Logger::Logger]; building the formatter may print. *)
Definition new_Logger (l : ptr) (name : string) (level : Z) (pattern : string) (s : log_sys) : log_sys :=
  s <| loggers := <[l := mkLogger name level (LogFormatter pattern) []]> (loggers s) |>
    <| cout := cout s +:+ parse_output pattern |>.

(** [Logger::addLogAppender] *)
Definition addLogAppender (l a : ptr) : M log_sys unit :=
  let! lg := mderef "logger" (fun s => loggers s !! l) in
  let! ap := mderef "appender" (fun s => appenders s !! a) in
  mmodify (fun s => s <| loggers := <[l := lg <| lg_appenders := lg_appenders lg ++ [a] |>]> (loggers s) |>) ;;;
  match ap_formatter ap with
  | None => mmodify (fun s => s <| appenders := <[a := ap <| ap_formatter := Some (lg_formatter lg) |>]> (appenders s) |>)
  | Some _ => mret_M tt
  end.

(** [Logger::delLogAppender]: [list::remove] removes every occurrence. *)
Definition delLogAppender (l a : ptr) : M log_sys unit :=
  let! lg := mderef "logger" (fun s => loggers s !! l) in
  mmodify (fun s => s <| loggers :=
    <[l := lg <| lg_appenders := filter (fun x => x <> a) (lg_appenders lg) |>]> (loggers s) |>).

(** [Logger::clearLogAppenders] *)
Definition clearLogAppenders (l : ptr) : M log_sys unit :=
  let! lg := mderef "logger" (fun s => loggers s !! l) in
  mmodify (fun s => s <| loggers := <[l := lg <| lg_appenders := [] |>]> (loggers s) |>).

(** [setLevel] and [setFormatter] of loggers ... *)
Definition Logger_setLevel (l : ptr) (level : Z) (s : log_sys) : log_sys :=
  s <| loggers := alter (fun lg => lg <| lg_level := level |>) l (loggers s) |>.
Definition Logger_setFormatter (l : ptr) (pattern : string) (s : log_sys) : log_sys :=
  s <| loggers := alter (fun lg => lg <| lg_formatter := LogFormatter pattern |>) l (loggers s) |>
    <| cout := cout s +:+ parse_output pattern |>.

(** ... and of appenders. *)
Definition Appender_setLevel (a : ptr) (level : Z) (s : log_sys) : log_sys :=
  s <| appenders := alter (fun ap => ap <| ap_level := level |>) a (appenders s) |>.
Definition Appender_setFormatter (a : ptr) (pattern : string) (s : log_sys) : log_sys :=
  s <| appenders := alter (fun ap => ap <| ap_formatter := Some (LogFormatter pattern) |>) a (appenders s) |>
    <| cout := cout s +:+ parse_output pattern |>.

Fixpoint log_all (l : list ptr) (ev : LogEvent) : M log_sys unit :=
  match l with
  | [] => mret_M tt
  | a :: l => appender_log a ev ;;; log_all l ev
  end.

(** [Logger::log] *)
Definition Logger_log (l : ptr) (level : Z) (ev : LogEvent) : M log_sys unit :=
  let! lg := mderef "logger" (fun s => loggers s !! l) in
  if lg_level lg <=? level then log_all (lg_appenders lg) ev else mret_M tt.

(** [Logger::info] and the like: the logger compares the level of the method,
    its appenders that of the event. *)
Definition Logger_info (l : ptr) (ev : LogEvent) : M log_sys unit := Logger_log l INFO ev.
Definition Logger_debug (l : ptr) (ev : LogEvent) : M log_sys unit := Logger_log l DEBUG ev.
Definition Logger_warn (l : ptr) (ev : LogEvent) : M log_sys unit := Logger_log l WARN ev.
Definition Logger_error (l : ptr) (ev : LogEvent) : M log_sys unit := Logger_log l ERROR ev.
Definition Logger_fatal (l : ptr) (ev : LogEvent) : M log_sys unit := Logger_log l FATAL ev.

(** [LogWrapper]: its destructor logs the event. *)
Record LogWrapper := mkLogWrapper { wr_logger : ptr; wr_event : LogEvent }.
Definition LogWrapper_dtor (w : LogWrapper) : M log_sys unit := Logger_log (wr_logger w) (ev_level (wr_event w)) (wr_event w).

(** [EVA_LOG_LEVEL(logger, level) << message;]: the event is built only if the
    logger's level lets it through; the message goes to its stream, and at the
    end of the statement the wrapper is destroyed. *)
Definition EVA_LOG_LEVEL (l : ptr) (level : Z) (at_ : log_site) (e : log_env) (message : string) : M log_sys unit :=
  let! lg := mderef "logger" (fun s => loggers s !! l) in
  if lg_level lg <=? level then
    LogWrapper_dtor (mkLogWrapper l (getSS_write message (EVA_LOG_LEVEL_event (lg_name lg) level at_ e)))
  else mret_M tt.

Definition EVA_LOG_DEBUG (l : ptr) := EVA_LOG_LEVEL l DEBUG.
Definition EVA_LOG_INFO (l : ptr) := EVA_LOG_LEVEL l INFO.
Definition EVA_LOG_WARN (l : ptr) := EVA_LOG_LEVEL l WARN.
Definition EVA_LOG_ERROR (l : ptr) := EVA_LOG_LEVEL l ERROR.
Definition EVA_LOG_FATAL (l : ptr) := EVA_LOG_LEVEL l FATAL.

(** ** LoggerManager *)

(** A logger with a stdout appender at [a], entered under its name. *)
Definition make_logger (l a : ptr) (name : string) : M log_sys unit :=
  mmodify (new_Logger l name DEBUG DEFAULT_PATTERN) ;;;
  mmodify (new_appender a StdoutLogAppender) ;;;
  addLogAppender l a ;;;
  mmodify (fun s => s <| m_loggers := <[name := l]> (m_loggers s) |>).

(** [LoggerManager::LoggerManager] *)
Definition LoggerManager_ctor (l a : ptr) : M log_sys ptr := make_logger l a "root" ;;; mret_M l.

(** [LoggerManager::getLogger] *)
Definition getLogger (l a : ptr) (name : string) : M log_sys ptr :=
  let! s := mget in
  match m_loggers s !! name with
  | Some p => mret_M p
  | None => make_logger l a name ;;; mret_M l
  end.

(** ** The singleton *)

(** The logging objects and the one [LoggerManager], the function-local static
    of [Singleton<LoggerManager>::Get]: it is constructed by the first call, and
    is its [m_root_logger]. *)
Record log_process := mkLogProcess {
  lp_log : log_sys;
  lp_manager : option ptr;
}.
#[global] Instance eta_log_process : Eta log_process := fun s => mkLogProcess (lp_log s) (lp_manager s).

Definition on_log {A} (m : M log_sys A) : M log_process A := mzoom lp_log (fun g s => s <| lp_log := g |>) m.

(** [LoggerManager::Instance::Get()]; [l] and [a] are where the constructor puts
    the root logger and its appender. *)
Definition Instance_Get (l a : ptr) : M log_process ptr :=
  let! s := mget in
  match lp_manager s with
  | Some root => mret_M root
  | None =>
      let! root := on_log (LoggerManager_ctor l a) in
      mmodify (fun s => s <| lp_manager := Some root |>) ;;;
      mret_M root
  end.

(** [EVA_ROOT_LOGGER()] *)
Definition EVA_ROOT_LOGGER (l a : ptr) : M log_process ptr := Instance_Get l a.

(** [EVA_LOGGER(name)]; [l'] and [a'] are for a logger that is not there yet. *)
Definition EVA_LOGGER (l a l' a' : ptr) (name : string) : M log_process ptr :=
  let! _ := Instance_Get l a in
  on_log (getLogger l' a' name).

End Log.
