(* ===== verification/LogProps.v ===== *)
(** * Properties of logging

    The pattern parser is total and inverts the printing of a pattern; what it
    does with malformed patterns; which appenders an event reaches; the
    registry of loggers; and the prefix of a file name that [%f] drops. *)

From Stdlib Require Import Ascii.
From stdpp Require Import pretty.
From S2P Require Import Prelude Log.

Local Open Scope Z_scope.

(** ** The parser *)

Lemma read_fmt_length s fmt rest :
  read_fmt s = (fmt, Some rest) -> (String.length rest < String.length s)%nat.
Proof.
  revert fmt rest. induction s as [|c s IH]; intros fmt rest; [done|]. cbn [read_fmt String.length]. case_bool_decide.
  - intros [= <- <-]. lia.
  - destruct (read_fmt s) as [f r] eqn:E. intros [= <- ->]. specialize (IH f rest eq_refl). lia.
Qed.

(** One turn of the loop, on what is left of the pattern. *)
Definition parse_step (go : bool -> string -> option (list Item * list parse_error)) (found : bool) (s : string)
    : option (list Item * list parse_error) :=
  match s with
  | EmptyString => Some ([], [])
  | String c s =>
      if bool_decide (c = "%"%char) then
        if found then Some ([], [DoublePercent]) else go true s
      else if found then
        match FORMATS c with
        | None => Some ([], [InvalidItem c])
        | Some mk =>
            match s with
            | String "{"%char s' =>
                match read_fmt s' with
                | (fmt, Some rest) => '(items, errs) ← go false rest; Some (mk fmt :: items, errs)
                | (fmt, None) => Some ([mk fmt], [OpenBrace])
                end
            | _ => '(items, errs) ← go false s; Some (mk EmptyString :: items, errs)
            end
        end
      else '(items, errs) ← go false s; Some (StringLogItem (String c EmptyString) :: items, errs)
  end.

Lemma loop_step fuel found s :
  initItems_loop (S fuel) found s = parse_step (initItems_loop fuel) found s.
Proof. reflexivity. Qed.

(** The loop calls itself only on shorter rests. *)
Lemma parse_step_ext go go' found s :
  (forall b s', (String.length s' < String.length s)%nat -> go b s' = go' b s') ->
  parse_step go found s = parse_step go' found s.
Proof.
  intros Hgo. destruct s as [|c s]; [done|]. cbn [parse_step].
  case_bool_decide; [destruct found; [done|apply Hgo; cbn; lia]|].
  destruct found; [|rewrite Hgo; [done|cbn; lia]].
  destruct (FORMATS c) as [mk|]; [|done].
  assert (go false s = go' false s) as Hs by (apply Hgo; cbn; lia). rewrite Hs.
  destruct s as [|b s]; [done|].
  assert (forall fmt rest, read_fmt s = (fmt, Some rest) -> go false rest = go' false rest) as Hr.
  { intros fmt rest Hf. apply Hgo. apply read_fmt_length in Hf. cbn. lia. }
  destruct (read_fmt s) as [fmt [rest|]]; [by rewrite (Hr fmt rest eq_refl)|done].
Qed.

Lemma loop_fuel n m found s :
  (String.length s < n)%nat -> (String.length s < m)%nat -> initItems_loop n found s = initItems_loop m found s.
Proof.
  revert m found s. induction n as [|n IH]; intros m found s Hn Hm; [lia|]. destruct m as [|m]; [lia|].
  rewrite !loop_step. apply parse_step_ext. intros b s' Hlt. apply IH; lia.
Qed.

Lemma parse_step_some go found s :
  (forall b s', (String.length s' < String.length s)%nat -> is_Some (go b s')) -> is_Some (parse_step go found s).
Proof.
  intros Hgo. destruct s as [|c s]; [by eexists|]. cbn [parse_step].
  case_bool_decide; [destruct found; [by eexists|apply Hgo; cbn; lia]|].
  assert (is_Some (go false s)) as [[i e] Hs] by (apply Hgo; cbn; lia). rewrite Hs.
  destruct found; [|by eexists]. destruct (FORMATS c) as [mk|]; [|by eexists].
  destruct s as [|b s]; [by eexists|].
  assert (forall fmt rest, read_fmt s = (fmt, Some rest) -> is_Some (go false rest)) as Hr.
  { intros fmt rest Hf. apply Hgo. apply read_fmt_length in Hf. cbn. lia. }
  destruct (read_fmt s) as [fmt [rest|]].
  - destruct (Hr fmt rest eq_refl) as [[i' e'] ->]. repeat case_match; by eexists.
  - repeat case_match; by eexists.
Qed.

Lemma loop_total n found s : (String.length s < n)%nat -> is_Some (initItems_loop n found s).
Proof.
  revert found s. induction n as [|n IH]; intros found s Hn; [lia|]. rewrite loop_step.
  apply parse_step_some. intros b s' Hlt. apply IH. lia.
Qed.

(** The parse of a rest of the pattern, with all the fuel it needs. *)
Definition parse (found : bool) (s : string) : list Item * list parse_error :=
  default ([], []) (initItems_loop (S (String.length s)) found s).

Lemma parse_eq found s :
  Some (parse found s) = parse_step (fun b s' => Some (parse b s')) found s.
Proof.
  unfold parse at 1. destruct (loop_total (S (String.length s)) found s) as [r Hr]; [lia|].
  rewrite Hr. cbn [default from_option id]. rewrite <- Hr, loop_step. apply parse_step_ext. intros b s' Hlt.
  unfold parse. destruct (loop_total (S (String.length s')) b s') as [r' Hr']; [lia|]. rewrite Hr'. cbn.
  rewrite <- Hr'. apply loop_fuel; lia.
Qed.

(** ** Well-formed patterns *)

(** A character of its own, or an item with its sub-format in braces. *)
Inductive piece :=
| PLit (c : ascii)
| PSpec (c : ascii) (fmt : string).

Fixpoint has_close (s : string) : bool :=
  match s with EmptyString => false | String c s => bool_decide (c = "}"%char) || has_close s end.

Definition piece_ok (p : piece) : Prop :=
  match p with
  | PLit c => c <> "%"%char
  | PSpec c fmt => is_Some (FORMATS c) /\ has_close fmt = false
  end.

(** The pattern that says [ps], in front of [tail]. *)
Definition show_piece (p : piece) (tail : string) : string :=
  match p with
  | PLit c => String c tail
  | PSpec c fmt => String "%"%char (String c (String "{"%char (fmt +:+ String "}"%char tail)))
  end.
Definition show (ps : list piece) (tail : string) : string := foldr show_piece tail ps.

Definition piece_item (p : piece) : Item :=
  match p with
  | PLit c => StringLogItem (String c EmptyString)
  | PSpec c fmt => match FORMATS c with Some mk => mk fmt | None => StringLogItem EmptyString end
  end.

Lemma read_fmt_close fmt tail : has_close fmt = false -> read_fmt (fmt +:+ String "}"%char tail) = (fmt, Some tail).
Proof.
  induction fmt as [|c fmt IH]; [done|]. intros [Hc Hf]%orb_false_iff. 
  change (read_fmt (String c (fmt +:+ String "}"%char tail)) = (String c fmt, Some tail)). cbn [read_fmt].
  rewrite Hc. by rewrite IH.
Qed.

Lemma read_fmt_open fmt : has_close fmt = false -> read_fmt fmt = (fmt, None).
Proof.
  induction fmt as [|c fmt IH]; [done|]. intros [Hc Hf]%orb_false_iff. cbn [read_fmt]. rewrite Hc. by rewrite IH.
Qed.

Lemma FORMATS_percent : FORMATS "%"%char = None.
Proof. reflexivity. Qed.

Lemma parse_piece p tail :
  piece_ok p -> parse false (show_piece p tail) = (piece_item p :: (parse false tail).1, (parse false tail).2).
Proof.
  intros Hp. apply (inj Some). rewrite parse_eq. destruct p as [c|c fmt]; cbn [show_piece parse_step piece_ok piece_item] in *.
  - rewrite bool_decide_false by done. by destruct (parse false tail).
  - destruct Hp as [[mk Hmk] Hf]. rewrite bool_decide_true by done. rewrite parse_eq. cbn [parse_step].
    rewrite bool_decide_false by (intros ->; by rewrite FORMATS_percent in Hmk).
    rewrite Hmk, read_fmt_close by done. by destruct (parse false tail).
Qed.

Lemma parse_show ps tail :
  Forall piece_ok ps ->
  parse false (show ps tail) = ((piece_item <$> ps) ++ (parse false tail).1, (parse false tail).2).
Proof.
  induction 1 as [|p ps Hp _ IH].
  { change (show [] tail) with tail. by destruct (parse false tail). }
  cbn [show foldr]. rewrite parse_piece by done. change (foldr show_piece tail ps) with (show ps tail).
  by rewrite IH.
Qed.

Lemma initItems_parse pattern : initItems pattern = parse false pattern.
Proof. reflexivity. Qed.

(** ** Properties *)

(** C26: parsing a pattern inverts printing it: for any sequence of plain
    characters and known items with sub-formats in braces, the formatter's items
    are exactly the items of the sequence, in order, with their sub-formats, and
    nothing is reported.  The parser returns for every pattern within as many
    turns as the pattern has characters, plus one. *)
Theorem pattern_roundtrip ps :
  Forall piece_ok ps ->
  initItems (show ps EmptyString) = (piece_item <$> ps, [])
  /\ (forall found s, is_Some (initItems_loop (S (String.length s)) found s)).
Proof.
  intros Hps. split; [|intros; apply loop_total; lia].
  rewrite initItems_parse, parse_show by done. cbn. by rewrite app_nil_r.
Qed.

Definition demo_pieces : list piece := [PLit "["%char; PSpec "p"%char EmptyString; PLit "]"%char; PSpec "d"%char "%H:%M"].

Lemma pattern_roundtrip_witness :
  initItems "[%p{}]%d{%H:%M}" = ([StringLogItem "["; LevelLogItem; StringLogItem "]"; DateLogItem "%H:%M"], []).
Proof.
  apply (pattern_roundtrip demo_pieces). repeat (apply Forall_cons; split); try apply Forall_nil_2;
    cbn; first [discriminate | split; [by eexists|reflexivity]].
Defined.

(** C38: malformed patterns.  After any well-formed beginning: an unknown item
    ([%r] of the README is one) or a doubled percent sign stops the parser, and
    the rest of the pattern, well-formed or not, is silently missing from every
    log line; an unclosed brace is reported, but the text after it stays the
    item's sub-format although the code means to clear it. *)
Theorem malformed_patterns ps :
  Forall piece_ok ps ->
  (forall c rest, c <> "%"%char -> FORMATS c = None ->
     initItems (show ps (String "%"%char (String c rest))) = (piece_item <$> ps, [InvalidItem c]))
  /\ (forall rest, initItems (show ps (String "%"%char (String "%"%char rest))) = (piece_item <$> ps, [DoublePercent]))
  /\ (forall c mk fmt, FORMATS c = Some mk -> has_close fmt = false ->
     initItems (show ps (String "%"%char (String c (String "{"%char fmt))))
     = ((piece_item <$> ps) ++ [mk fmt], [OpenBrace]))
  /\ FORMATS "r"%char = None.
Proof.
  intros Hps.
  assert (forall s, parse false (String "%"%char s) = parse true s) as Hpc.
  { intros s. apply (inj Some). by rewrite parse_eq. }
  split; [|split; [|split; [|reflexivity]]].
  - intros c rest Hc Hf. rewrite initItems_parse, parse_show, Hpc by done.
    assert (parse true (String c rest) = ([], [InvalidItem c])) as ->; [|cbn; by rewrite app_nil_r].
    apply (inj Some). rewrite parse_eq. cbn [parse_step]. by rewrite bool_decide_false, Hf.
  - intros rest. rewrite initItems_parse, parse_show, Hpc by done.
    assert (parse true (String "%"%char rest) = ([], [DoublePercent])) as ->; [|cbn; by rewrite app_nil_r].
    apply (inj Some). by rewrite parse_eq.
  - intros c mk fmt Hf Hfmt. rewrite initItems_parse, parse_show, Hpc by done.
    assert (parse true (String c (String "{"%char fmt)) = ([mk fmt], [OpenBrace])) as ->; [|done].
    apply (inj Some). rewrite parse_eq. cbn [parse_step].
    rewrite bool_decide_false by (intros ->; by rewrite FORMATS_percent in Hf).
    by rewrite Hf, read_fmt_open.
Qed.

Lemma demo_pieces_ok : Forall piece_ok demo_pieces.
Proof.
  repeat (apply Forall_cons; split); try apply Forall_nil_2; cbn; first [discriminate | split; [by eexists|reflexivity]].
Qed.

Lemma demo_pattern : show demo_pieces "%r %m" = "[%p{}]%d{%H:%M}%r %m".
Proof. reflexivity. Qed.

Lemma malformed_patterns_witness :
  initItems "[%p{}]%d{%H:%M}%r %m" = (piece_item <$> demo_pieces, [InvalidItem "r"%char]).
Proof.
  rewrite <- demo_pattern.
  exact (proj1 (malformed_patterns demo_pieces demo_pieces_ok) "r"%char " %m" ltac:(discriminate) eq_refl).
Defined.

(** ** File names *)

Fixpoint slashes (s : string) : Z :=
  match s with EmptyString => 0 | String c s => (if bool_decide (c = "/"%char) then 1 else 0) + slashes s end.

Fixpoint has_newline (s : string) : bool :=
  match s with EmptyString => false | String c s => bool_decide (c = "010"%char) || has_newline s end.

Lemma slashes_nonneg s : 0 <= slashes s.
Proof. induction s as [|c s IH]; cbn [slashes]; [lia|]. case_bool_decide; lia. Qed.

Lemma skip_dirs_negative s depth : has_newline s = false -> depth < 0 -> skip_dirs depth s = None.
Proof.
  revert depth. induction s as [|c s IH]; intros depth Hn Hd; cbn [skip_dirs has_newline] in *.
  - destruct (Z.eqb_spec depth 0); [lia|done].
  - apply orb_false_iff in Hn as [Hc Hn]. rewrite Hc. destruct (Z.eqb_spec depth 0); [lia|]. cbn [orb].
    destruct (bool_decide (c = "/"%char)); apply IH; (done || lia).
Qed.

Lemma skip_dirs_deep s depth : has_newline s = false -> slashes s < depth -> skip_dirs depth s = None.
Proof.
  revert depth. induction s as [|c s IH]; intros depth Hn Hd; cbn [skip_dirs has_newline slashes] in *.
  - destruct (Z.eqb_spec depth 0); [lia|done].
  - apply orb_false_iff in Hn as [Hc Hn]. rewrite Hc. pose proof (slashes_nonneg s).
    destruct (Z.eqb_spec depth 0); [destruct (bool_decide (c = "/"%char)); lia|]. cbn [orb].
    destruct (bool_decide (c = "/"%char)); apply IH; (done || lia).
Qed.

Lemma skip_dirs_some s depth :
  has_newline s = false -> 0 <= depth <= slashes s ->
  exists pre r, s = pre +:+ r /\ slashes pre = depth /\ skip_dirs depth s = Some r
    /\ (depth = 0 -> pre = EmptyString) /\ (0 < depth -> exists q, pre = q +:+ "/").
Proof.
  revert depth. induction s as [|c s IH]; intros depth Hn Hd; cbn [skip_dirs has_newline slashes] in *.
  - exists EmptyString, EmptyString. assert (depth = 0) as -> by lia. repeat split; try done; lia.
  - apply orb_false_iff in Hn as [Hc Hn]. rewrite Hc. destruct (Z.eqb_spec depth 0) as [->|Hne]; cbn [orb].
    + exists EmptyString, (String c s). repeat split; try done; lia.
    + destruct (bool_decide_reflect (c = "/"%char)) as [Hsl|Hsl].
      * destruct (IH (depth - 1) Hn) as (pre & r & -> & Hp & Hs & H0 & H1); [lia|].
        exists (String c pre), r. split; [done|]. split; [cbn [slashes]; rewrite bool_decide_true by done; lia|].
        split; [done|]. split; [lia|]. intros _. destruct (Z.eqb_spec (depth - 1) 0) as [E|E].
        -- exists EmptyString. rewrite (H0 E). by subst.
        -- destruct H1 as [q ->]; [lia|]. by exists (String c q).
      * destruct (IH depth Hn) as (pre & r & -> & Hp & Hs & _ & H1); [lia|].
        exists (String c pre), r. split; [done|]. split; [cbn [slashes]; rewrite bool_decide_false by done; lia|].
        split; [done|]. split; [lia|]. intros _. destruct H1 as [q ->]; [lia|]. by exists (String c q).
Qed.

(** [%f{n}] drops the file name's prefix up to and including its [n]-th
    slash, if it has [n]; but the loop looks for a newline instead of the end of
    the string, so for a negative depth or one larger than the number of
    slashes (the default pattern has [%f{5}]) it runs past the string, which is
    undefined. *)
Theorem file_item_depth file depth :
  has_newline file = false ->
  (0 <= depth <= slashes file ->
     exists pre r, file = pre +:+ r /\ slashes pre = depth /\ skip_dirs depth file = Some r
       /\ (depth = 0 -> pre = EmptyString) /\ (0 < depth -> exists q, pre = q +:+ "/"))
  /\ (depth < 0 \/ slashes file < depth -> forall strftime ev pattern,
       ev_file ev = file -> atoi pattern = depth ->
       Item_format strftime (FileLogItem pattern) ev = Undefined "log.cpp:129").
Proof.
  intros Hn. split; [by apply skip_dirs_some|]. intros Hd strftime ev pattern <- <-. cbn.
  destruct Hd as [Hd|Hd]; [by rewrite skip_dirs_negative|by rewrite skip_dirs_deep].
Qed.

Lemma file_item_depth_witness :
  Item_format (fun _ _ => None) (FileLogItem "5")
    (mkLogEvent "/root/EVA01/src/log.cpp" 1 0 DEBUG 0 0 EmptyString EmptyString "root") = Undefined "log.cpp:129".
Proof.
  apply (file_item_depth "/root/EVA01/src/log.cpp" 5); [reflexivity|right; reflexivity|reflexivity|reflexivity].
Defined.

(** ** Where an event goes *)

Section Delivery.
Context (strftime : string -> Z -> option string).
Implicit Type s : log_sys.

(** The text of a stream appender. *)
Definition stream_text s (a : ptr) : option string :=
  match appenders s !! a with
  | Some ap => match ap_kind ap with StreamLogAppender ss => Some ss | _ => None end
  | None => None
  end.

(** An appender that can print an event. *)
Definition can_print s (ev : LogEvent) (a : ptr) : Prop :=
  exists ap items text, appenders s !! a = Some ap /\ ap_formatter ap = Some items /\ format strftime items ev = Ok text.

Definition printed s (ev : LogEvent) (a : ptr) : string :=
  match appenders s !! a with
  | Some ap => match ap_formatter ap with
               | Some items => match format strftime items ev with Ok t => t | _ => EmptyString end
               | None => EmptyString
               end
  | None => EmptyString
  end.

Definition accepts s (ev : LogEvent) (a : ptr) : bool :=
  match appenders s !! a with Some ap => ap_level ap <=? ev_level ev | None => false end.

(** Where an appender writes: to [std::cout], to a file (if its stream is good)
    or to its own string stream. *)
Inductive destination := ToCout | ToFile (fname : string) (good : bool) | ToStream.

Definition destination_of (ap : LogAppender) : destination :=
  match ap_kind ap with
  | StdoutLogAppender => ToCout
  | FileLogAppender fname good => ToFile fname good
  | StreamLogAppender _ => ToStream
  end.

(** Same appenders but for the texts of streams. *)
Definition setup_of (ap : LogAppender) : option (list Item) * Z * destination :=
  (ap_formatter ap, ap_level ap, destination_of ap).

Definition same_setup s s' : Prop :=
  loggers s' = loggers s /\ m_loggers s' = m_loggers s
  /\ forall a, setup_of <$> appenders s' !! a = setup_of <$> appenders s !! a.

#[global] Instance same_setup_equivalence : Equivalence same_setup.
Proof.
  split.
  - by intros s.
  - intros s s' (E1 & E2 & E3). by split; [|split].
  - intros s1 s2 s3 (E1 & E2 & E3) (F1 & F2 & F3). split; [congruence|]. split; [congruence|]. intros a. by rewrite F3, E3.
Qed.

Lemma same_setup_appender s s' a ap :
  same_setup s s' -> appenders s !! a = Some ap ->
  exists ap', appenders s' !! a = Some ap' /\ ap_formatter ap' = ap_formatter ap /\ ap_level ap' = ap_level ap
    /\ destination_of ap' = destination_of ap.
Proof.
  intros (_ & _ & Hs) Ha. specialize (Hs a). rewrite Ha in Hs. apply fmap_Some in Hs as (ap' & Ha' & [= E1 E2 E3]). by exists ap'.
Qed.

Lemma string_app_nil_r (x : string) : x +:+ EmptyString = x.
Proof. induction x as [|c x IH]; [done|]. change (String c (x +:+ EmptyString) = String c x). by rewrite IH. Qed.

Lemma string_app_assoc (x y z : string) : (x +:+ y) +:+ z = x +:+ (y +:+ z).
Proof. induction x as [|c x IH]; [done|]. change (String c ((x +:+ y) +:+ z) = String c (x +:+ (y +:+ z))). by rewrite IH. Qed.

Lemma emit_same a text s : same_setup s (emit a text s).
Proof.
  unfold emit. destruct (appenders s !! a) as [ap|] eqn:Ha; [|done]. cbn.
  destruct (ap_kind ap) as [|fname [|]|ss] eqn:Ek; try done. split; [done|]. split; [done|]. intros b. cbn.
  destruct (decide (a = b)) as [->|Hne]; [|by rewrite lookup_alter_ne].
  rewrite lookup_alter_eq, Ha. cbn. unfold setup_of, destination_of. by rewrite Ek.
Qed.

Lemma emit_text a text s b t :
  stream_text s b = Some t -> stream_text (emit a text s) b = Some (t +:+ (if decide (a = b) then text else EmptyString)).
Proof.
  unfold stream_text, emit. intros Hb. destruct (appenders s !! b) as [bp|] eqn:Eb; [|done].
  destruct (ap_kind bp) as [| |ss] eqn:Ek; try done. injection Hb as ->.
  destruct (decide (a = b)) as [->|Hne].
  - rewrite Eb. cbn. rewrite Ek. cbn. rewrite lookup_alter_eq, Eb. done.
  - rewrite string_app_nil_r. destruct (appenders s !! a) as [ap|]; cbn [fmap option_fmap option_map]; [|by rewrite Eb, Ek].
    destruct (ap_kind ap) as [|fname good|ss]; [|destruct good|]; cbn [appenders upd_field];
      rewrite ?lookup_alter_ne by done; by rewrite Eb, Ek.
Qed.

Lemma appender_log_eq a ev s :
  can_print s ev a ->
  appender_log strftime a ev s = Ok (tt, if accepts s ev a then emit a (printed s ev a) s else s).
Proof.
  intros (ap & items & text & Ha & Hi & Ht). unfold appender_log, accepts, printed. munfold. rewrite Ha, Hi, Ht.
  by destruct (ap_level ap <=? ev_level ev).
Qed.

Lemma same_setup_print s s' ev a : same_setup s s' -> can_print s ev a ->
  can_print s' ev a /\ accepts s' ev a = accepts s ev a /\ printed s' ev a = printed s ev a.
Proof.
  intros Hs (ap & items & text & Ha & Hi & Ht). destruct (same_setup_appender s s' a ap Hs Ha) as (ap' & Ha' & Hf & Hl & _).
  split; [exists ap', items, text; by rewrite Hf|]. unfold accepts, printed. by rewrite Ha, Ha', Hf, Hl.
Qed.

Lemma log_all_spec l ev s :
  Forall (can_print s ev) l -> NoDup l ->
  exists s', log_all strftime l ev s = Ok (tt, s') /\ same_setup s s'
    /\ (forall b t, stream_text s b = Some t ->
          stream_text s' b = Some (t +:+ (if bool_decide (b ∈ l) && accepts s ev b then printed s ev b else EmptyString))).
Proof.
  revert s. induction l as [|a l IH]; intros s Hp Hnd.
  - exists s. split; [done|]. split; [by repeat split; eauto|]. intros b t Hb.
    rewrite bool_decide_false by apply not_elem_of_nil. cbn [andb]. by rewrite string_app_nil_r.
  - apply Forall_cons in Hp as [Ha Hp]. apply NoDup_cons in Hnd as [Hni Hnd].
    cbn [log_all]. munfold. rewrite (appender_log_eq a ev s Ha).
    set (s1 := if accepts s ev a then _ else _).
    assert (same_setup s s1) as Hs1.
    { unfold s1. by destruct (accepts s ev a); [apply emit_same|]. }
    assert (Forall (can_print s1 ev) l) as Hp1.
    { eapply Forall_impl; [exact Hp|]. intros b Hb. by apply (same_setup_print s s1). }
    destruct (IH s1 Hp1 Hnd) as (s' & Hl & Hs' & Ht). exists s'. split; [done|]. split.
    + by transitivity s1.
    + intros b t Hb. destruct (decide (b = a)) as [->|Hne].
      * rewrite (bool_decide_true (a ∈ a :: l)) by left. cbn [andb].
        assert (stream_text s1 a = Some (t +:+ (if accepts s ev a then printed s ev a else EmptyString))) as H1.
        { unfold s1. destruct (accepts s ev a); [|by rewrite string_app_nil_r].
          rewrite (emit_text a _ s a t Hb). by rewrite decide_True. }
        rewrite (Ht a _ H1), bool_decide_false by done. cbn [andb]. by rewrite string_app_nil_r.
      * assert (stream_text s1 b = Some t) as H1.
        { unfold s1. destruct (accepts s ev a); [|done]. rewrite (emit_text a _ s b t Hb).
          by rewrite decide_False, string_app_nil_r. }
        rewrite (Ht b t H1). rewrite (bool_decide_ext (b ∈ a :: l) (b ∈ l)) by set_solver.
        case_bool_decide as Hin; [|done]. cbn [andb].
        rewrite Forall_forall in Hp. destruct (same_setup_print s s1 ev b Hs1 (Hp b Hin)) as (_ & -> & ->). done.
Qed.

(** an event reaches exactly the appenders it should: [Logger::log] with a
    level below the logger's changes nothing; otherwise every appender of the
    logger whose own level lets the event through gets its text, as its own
    formatter prints it, once, behind what it had; no other stream appender gets
    anything, and loggers and formatters stay as they are. *)
Theorem event_reaches_its_appenders l lg level ev s :
  loggers s !! l = Some lg -> Forall (can_print s ev) (lg_appenders lg) -> NoDup (lg_appenders lg) ->
  exists s', Logger_log strftime l level ev s = Ok (tt, s') /\ same_setup s s'
    /\ (level < lg_level lg -> s' = s)
    /\ (forall b t, stream_text s b = Some t ->
          stream_text s' b
          = Some (t +:+ (if (lg_level lg <=? level) && bool_decide (b ∈ lg_appenders lg) && accepts s ev b
                         then printed s ev b else EmptyString))).
Proof.
  intros Hl Hp Hnd. unfold Logger_log. munfold. rewrite Hl.
  destruct (Z.leb_spec (lg_level lg) level) as [Hle|Hgt].
  - destruct (log_all_spec (lg_appenders lg) ev s Hp Hnd) as (s' & Hs & Hsame & Ht).
    exists s'. split; [done|]. split; [done|]. split; [lia|]. exact Ht.
  - exists s. split; [done|]. split; [by repeat split; eauto|]. split; [done|].
    intros b t Hb. cbn [andb]. by rewrite string_app_nil_r.
Qed.

(** [StreamLogAppender::flush] returns the whole text logged since the
    appender was created, and keeps it: [m_ss.clear()] does not empty the
    stream.  A second [flush] returns everything again, followed by what was
    logged in between. *)
Theorem flush_keeps_text a ev s t :
  stream_text s a = Some t -> can_print s ev a -> accepts s ev a = true ->
  exists s', flush a s = Ok (t, s) /\ appender_log strftime a ev s = Ok (tt, s')
    /\ flush a s' = Ok (t +:+ printed s ev a, s').
Proof.
  intros Ht Hp Ha.
  assert (forall s0 t0, stream_text s0 a = Some t0 -> flush a s0 = Ok (t0, s0)) as Hf.
  { intros s0 t0. unfold stream_text, flush. munfold. destruct (appenders s0 !! a) as [ap|]; [|done].
    destruct (ap_kind ap); try done. by intros [= ->]. }
  exists (emit a (printed s ev a) s). split; [by apply Hf|]. rewrite (appender_log_eq a ev s Hp), Ha.
  split; [done|]. apply Hf. rewrite (emit_text a _ s a t Ht). by rewrite decide_True.
Qed.

End Delivery.

(** ** The line of the default pattern *)

Section Lines.
Context (strftime : string -> Z -> option string).

(** The line that [DEFAULT_PATTERN] prints, from the formatted date and the
    path without its first five directories. *)
Definition default_line (date path : string) (ev : LogEvent) : string :=
  date +:+ tab +:+ "[" +:+ toString (ev_level ev) +:+ "]" +:+ tab +:+ "[" +:+ ev_logger_name ev +:+ "]" +:+ tab
  +:+ pretty (ev_thread_id ev) +:+ tab +:+ ev_thread_name ev +:+ tab +:+ pretty (ev_fiber_id ev) +:+ tab
  +:+ path +:+ tab +:+ pretty (ev_line ev) +:+ tab +:+ ev_ss ev +:+ newline.

Lemma default_pattern_prints date path ev :
  strftime "%Y-%m-%d %a %H:%M:%S" (ev_time ev) = Some date -> skip_dirs 5 (ev_file ev) = Some path ->
  format strftime (LogFormatter DEFAULT_PATTERN) ev = Ok (default_line date path ev).
Proof.
  intros Hd Hp. set (its := LogFormatter DEFAULT_PATTERN). vm_compute in its. unfold its. clear its.
  cbn [format Item_format]. rewrite Hd. change (atoi "5") with 5. rewrite Hp. unfold default_line.
  rewrite string_app_nil_r. done.
Qed.
End Lines.

(** ** The registry *)

Lemma make_logger_eq l a name s :
  make_logger l a name s
  = Ok (tt, mkLogSys (<[a := mkAppender StdoutLogAppender (Some (LogFormatter DEFAULT_PATTERN)) DEBUG]> (appenders s))
               (<[l := mkLogger name DEBUG (LogFormatter DEFAULT_PATTERN) [a]]> (loggers s))
               (cout s) (files s) (<[name := l]> (m_loggers s))).
Proof.
  unfold make_logger, addLogAppender, new_Logger, new_appender. munfold.
  assert (parse_output DEFAULT_PATTERN = EmptyString) as -> by (vm_compute; reflexivity). rewrite string_app_nil_r.
  cbn [loggers appenders upd_field]. rewrite lookup_insert_eq. cbn -[LogFormatter insert lookup].
  rewrite lookup_insert_eq. cbn -[LogFormatter insert lookup]. by rewrite !insert_insert_eq.
Qed.

(** A new file appender opens its file; a file that cannot be opened leaves the
    stream in a failed state. *)
Lemma FileLogAppender_ctor_eq can_open a fname s :
  FileLogAppender_ctor can_open a fname s
  = Ok (tt, mkLogSys (<[a := mkAppender (FileLogAppender fname (can_open fname)) None DEBUG]> (appenders s)) (loggers s) (cout s)
               (if can_open fname then <[fname := default EmptyString (files s !! fname)]> (files s) else files s) (m_loggers s)).
Proof.
  unfold FileLogAppender_ctor, reopen, new_appender. munfold. cbn [appenders upd_field]. rewrite lookup_insert_eq.
  cbn -[insert lookup]. by rewrite insert_insert_eq.
Qed.

(** Attaching a new appender: it takes the logger's formatter. *)
Lemma addLogAppender_new l a lg k level s :
  loggers s !! l = Some lg -> appenders s !! a = Some (mkAppender k None level) ->
  addLogAppender l a s
  = Ok (tt, mkLogSys (<[a := mkAppender k (Some (lg_formatter lg)) level]> (appenders s))
               (<[l := lg <| lg_appenders := lg_appenders lg ++ [a] |>]> (loggers s)) (cout s) (files s) (m_loggers s)).
Proof. intros Hl Ha. unfold addLogAppender. munfold. by rewrite Hl, Ha. Qed.

(** [getLogger] is a function of the name: the first call for a name
    creates one logger of that name with one stdout appender that uses the
    logger's formatter, every later call returns the same logger and changes
    nothing, and no other name is affected. *)
Theorem getLogger_is_stable l a name s p s' :
  getLogger l a name s = Ok (p, s') ->
  m_loggers s' !! name = Some p
  /\ (forall l' a', getLogger l' a' name s' = Ok (p, s'))
  /\ (forall other, other <> name -> m_loggers s' !! other = m_loggers s !! other)
  /\ (m_loggers s !! name = None ->
        p = l /\ loggers s' !! l = Some (mkLogger name DEBUG (LogFormatter DEFAULT_PATTERN) [a])
        /\ appenders s' !! a = Some (mkAppender StdoutLogAppender (Some (LogFormatter DEFAULT_PATTERN)) DEBUG)).
Proof.
  unfold getLogger at 1. munfold. destruct (m_loggers s !! name) as [q|] eqn:E.
  - intros [= -> ->]. split; [done|]. split; [|done]. intros l' a'. unfold getLogger. munfold. by rewrite E.
  - rewrite make_logger_eq. intros [= <- <-]. cbn [m_loggers loggers appenders].
    rewrite lookup_insert_eq. split; [done|]. split; [|split].
    + intros l' a'. unfold getLogger. munfold. cbn [m_loggers]. by rewrite lookup_insert_eq.
    + intros other Hne. by rewrite lookup_insert_ne.
    + intros _. by rewrite !lookup_insert_eq.
Qed.

(** The manager is constructed once: after any call of [Get] every later one
    returns the same root logger and changes nothing; the root logger is also
    the one [EVA_LOGGER] finds under the name "root". *)
Lemma Instance_Get_once l a s r s' :
  Instance_Get l a s = Ok (r, s') ->
  lp_manager s' = Some r
  /\ (forall l' a', EVA_ROOT_LOGGER l' a' s' = Ok (r, s'))
  /\ (lp_manager s = None -> r = l /\ forall l1 a1 l2 a2, EVA_LOGGER l1 a1 l2 a2 "root" s' = Ok (r, s')).
Proof.
  unfold Instance_Get, LoggerManager_ctor, EVA_ROOT_LOGGER, EVA_LOGGER, getLogger, on_log. munfold.
  destruct (lp_manager s) as [r0|] eqn:E; [intros [= -> ->]; split; [done|]; split; [|done]; intros; unfold Instance_Get; munfold; by rewrite E|].
  rewrite make_logger_eq. intros [= <- <-]. split; [done|]. split; [done|]. intros _. split; [done|]. intros l1 a1 l2 a2.
  unfold Instance_Get. munfold. cbn. by rewrite lookup_insert_eq.
Qed.

(** ** Witnesses *)

(** Logger 1 (level WARN) with stream appenders 2 and 3; 3 takes only FATAL. *)
Definition demo_fmt : list Item := LogFormatter "[%p] %m".
Definition demo_log : log_sys :=
  mkLogSys {[2%nat := mkAppender (StreamLogAppender "old;") (Some demo_fmt) DEBUG;
             3%nat := mkAppender (StreamLogAppender EmptyString) (Some demo_fmt) FATAL]}
    {[1%nat := mkLogger "net" WARN demo_fmt [2%nat; 3%nat]]} EmptyString ∅ ∅.
Definition demo_event : LogEvent := mkLogEvent "/src/a.cpp" 3 0 ERROR 1 2 "main" "down" "net".

Lemma demo_can_print : Forall (can_print (fun _ _ => None) demo_log demo_event) [2%nat; 3%nat].
Proof.
  repeat (apply Forall_cons; split); try apply Forall_nil_2; eexists _, _, _; repeat split.
Qed.

Lemma event_reaches_its_appenders_witness :
  exists s', Logger_log (fun _ _ => None) 1%nat ERROR demo_event demo_log = Ok (tt, s')
    /\ stream_text s' 2%nat = Some "old;[ERROR] down"%string /\ stream_text s' 3%nat = Some EmptyString.
Proof.
  destruct (event_reaches_its_appenders (fun _ _ => None) 1%nat (mkLogger "net" WARN demo_fmt [2%nat; 3%nat])
    ERROR demo_event demo_log) as (s' & H1 & _ & _ & H2).
  - reflexivity.
  - apply demo_can_print.
  - repeat constructor; set_solver.
  - exists s'. split; [exact H1|]. split; [exact (H2 2%nat _ eq_refl)|exact (H2 3%nat _ eq_refl)].
Defined.

Lemma flush_keeps_text_witness :
  exists s', flush 2%nat demo_log = Ok ("old;"%string, demo_log)
    /\ appender_log (fun _ _ => None) 2%nat demo_event demo_log = Ok (tt, s')
    /\ flush 2%nat s' = Ok ("old;[ERROR] down"%string, s').
Proof.
  apply (flush_keeps_text (fun _ _ => None) 2%nat demo_event demo_log "old;"); [reflexivity| |reflexivity].
  pose proof demo_can_print as Hp. apply Forall_cons in Hp as [Hp _]. exact Hp.
Defined.

Definition demo_registry : log_sys :=
  match getLogger 7%nat 8%nat "system" (mkLogSys ∅ ∅ EmptyString ∅ ∅) with
  | Ok (_, s) => s
  | _ => mkLogSys ∅ ∅ EmptyString ∅ ∅
  end.

Lemma getLogger_is_stable_witness :
  m_loggers demo_registry !! ("system"%string) = Some 7%nat
  /\ (forall l' a', getLogger l' a' "system" demo_registry = Ok (7%nat, demo_registry)).
Proof.
  destruct (getLogger_is_stable 7%nat 8%nat "system" (mkLogSys ∅ ∅ EmptyString ∅ ∅) 7%nat demo_registry) as (H1 & H2 & _).
  - vm_compute. reflexivity.
  - exact (conj H1 H2).
Defined.
