(* ===== verification/LogInv.v ===== *)
(** * The logging objects never go wrong

    A well-formedness invariant of the loggers, appenders and the registry, that
    every operation of log.h/log.cpp keeps: registered names lead to live loggers
    of that name, loggers only know live appenders, and an appender that any
    logger knows has a formatter.  So logging never follows a null or dangling
    pointer. *)

From Stdlib Require Import Ascii.
From S2P Require Import Prelude Log LogProps.

Record log_wf (s : log_sys) : Prop := {
  lw_names : forall name l, m_loggers s !! name = Some l ->
    exists lg, loggers s !! l = Some lg /\ lg_name lg = name;
  lw_appenders : forall l lg a, loggers s !! l = Some lg -> a ∈ lg_appenders lg ->
    exists ap, appenders s !! a = Some ap /\ is_Some (ap_formatter ap);
}.

Definition log_init : log_sys := mkLogSys ∅ ∅ EmptyString ∅ ∅.

Section LogInv.
Context (strftime : string -> Z -> option string) (can_open : string -> bool).

(** The operations, with pointers the program can have: new objects at unused
    addresses, the others at live ones. *)
Inductive log_step : log_sys -> log_sys -> Prop :=
| LsNewLogger l name level pattern s :
    loggers s !! l = None -> log_step s (new_Logger l name level pattern s)
| LsNewAppender a k s :
    appenders s !! a = None -> k = StdoutLogAppender \/ k = StreamLogAppender EmptyString -> log_step s (new_appender a k s)
| LsNewFile a fname s s' :
    appenders s !! a = None -> FileLogAppender_ctor can_open a fname s = Ok (tt, s') -> log_step s s'
| LsGet l a name p s s' :
    loggers s !! l = None -> appenders s !! a = None -> getLogger l a name s = Ok (p, s') -> log_step s s'
| LsAdd l a s s' : addLogAppender l a s = Ok (tt, s') -> log_step s s'
| LsDel l a s s' : delLogAppender l a s = Ok (tt, s') -> log_step s s'
| LsClear l s s' : clearLogAppenders l s = Ok (tt, s') -> log_step s s'
| LsLevel l level s : log_step s (Logger_setLevel l level s)
| LsFormatter l pattern s : log_step s (Logger_setFormatter l pattern s)
| LsAppLevel a level s : log_step s (Appender_setLevel a level s)
| LsAppFormatter a pattern s : log_step s (Appender_setFormatter a pattern s)
| LsReopen a b s s' : reopen can_open a s = Ok (b, s') -> log_step s s'
| LsFlush a t s s' : flush a s = Ok (t, s') -> log_step s s'
| LsLog l level ev s s' : Logger_log strftime l level ev s = Ok (tt, s') -> log_step s s'.

(** A step that keeps the loggers' names and appenders and the formatters of
    the appenders keeps the invariant. *)
Definition appender_le (ap ap' : LogAppender) : Prop := is_Some (ap_formatter ap) -> is_Some (ap_formatter ap').

Definition log_frame (s s' : log_sys) : Prop :=
  m_loggers s' = m_loggers s
  /\ (forall l lg, loggers s !! l = Some lg -> exists lg', loggers s' !! l = Some lg' /\ lg_name lg' = lg_name lg)
  /\ (forall l lg', loggers s' !! l = Some lg' -> lg_appenders lg' = [] \/
        exists lg, loggers s !! l = Some lg /\ lg_appenders lg' ⊆ lg_appenders lg)
  /\ (forall a ap, appenders s !! a = Some ap -> exists ap', appenders s' !! a = Some ap' /\ appender_le ap ap').

Lemma log_frame_wf s s' : log_wf s -> log_frame s s' -> log_wf s'.
Proof.
  intros [Hn Ha] (Hm & Hl & Hl' & Hap). split.
  - intros name l. rewrite Hm. intros (lg & Hlg & <-)%Hn. by apply Hl.
  - intros l lg' a Hlg' Hin. destruct (Hl' l lg' Hlg') as [E|(lg & Hlg & Hsub)]; [rewrite E in Hin; set_solver|].
    destruct (Ha l lg a Hlg (Hsub a Hin)) as (ap & Hapa & Hf). destruct (Hap a ap Hapa) as (ap' & ? & Hle). eauto.
Qed.

Lemma log_frame_same s s' :
  m_loggers s' = m_loggers s -> loggers s' = loggers s -> appenders s' = appenders s -> log_frame s s'.
Proof.
  intros Hm Hl Ha. unfold log_frame. rewrite Hm, Hl, Ha. split; [done|]. split; [by eauto|]. split; [by eauto|].
  intros a ap H. exists ap. by split; [|intros ?].
Qed.

Lemma log_frame_refl s : log_frame s s.
Proof. by apply log_frame_same. Qed.

Lemma log_frame_trans s1 s2 s3 : log_frame s1 s2 -> log_frame s2 s3 -> log_frame s1 s3.
Proof.
  intros (M1 & L1 & R1 & A1) (M2 & L2 & R2 & A2). split; [congruence|]. split; [|split].
  - intros l lg (lg' & H1 & E1)%L1. apply L2 in H1 as (lg2 & ? & ?). exists lg2. split; congruence.
  - intros l lg3 [E|(lg2 & H2 & Hs)]%R2; [by left|]. destruct (R1 l lg2 H2) as [E|(lg & H1 & Hs')].
    + left. rewrite E in Hs. destruct (lg_appenders lg3) as [|a ?]; [done|]. exfalso. apply (not_elem_of_nil a). set_solver.
    + right. exists lg. set_solver.
  - intros a ap (ap' & H1 & E1)%A1. apply A2 in H1 as (ap2 & ? & E2). exists ap2. split; [done|]. intros ?. by apply E2, E1.
Qed.

(** Changing one appender without taking its formatter away. *)
Lemma log_frame_appender s f a :
  (forall ap, appender_le ap (f ap)) -> log_frame s (s <| appenders := alter f a (appenders s) |>).
Proof.
  intros Hf. split; [done|]. split; [by eauto|]. split; [by eauto|]. cbn. intros b ap Hb.
  destruct (decide (b = a)) as [->|Hne].
  - exists (f ap). by rewrite lookup_alter_eq, Hb.
  - exists ap. rewrite lookup_alter_ne by done. by split; [|intros ?].
Qed.

(** Changing one logger without renaming it or giving it appenders. *)
Lemma log_frame_logger s f l :
  (forall lg, lg_name (f lg) = lg_name lg /\ lg_appenders (f lg) ⊆ lg_appenders lg) ->
  log_frame s (s <| loggers := alter f l (loggers s) |>).
Proof.
  intros Hf. split; [done|]. split; [|split]; cbn.
  - intros l' lg Hl. destruct (decide (l' = l)) as [->|Hne].
    + exists (f lg). rewrite lookup_alter_eq, Hl. by split; [|apply Hf].
    + exists lg. by rewrite lookup_alter_ne.
  - intros l' lg' Hl. right. destruct (decide (l' = l)) as [->|Hne].
    + rewrite lookup_alter_eq in Hl. apply fmap_Some in Hl as (lg & Hl & ->). exists lg. by split; [|apply Hf].
    + rewrite lookup_alter_ne in Hl by done. by exists lg'.
  - intros a ap H. exists ap. by split; [|intros ?].
Qed.

(** The same for an update of an object that was just read. *)
Lemma log_frame_put_logger s l lg lg' :
  loggers s !! l = Some lg -> lg_name lg' = lg_name lg -> lg_appenders lg' ⊆ lg_appenders lg ->
  log_frame s (mkLogSys (appenders s) (<[l := lg']> (loggers s)) (cout s) (files s) (m_loggers s)).
Proof.
  intros Hl Hn Hs. split; [done|]. split; [|split]; cbn.
  - intros k lgk Hk. destruct (decide (k = l)) as [->|Hne].
    + exists lg'. rewrite lookup_insert_eq. split; [done|congruence].
    + exists lgk. by rewrite lookup_insert_ne.
  - intros k lgk [(<- & <-)|(_ & Hk)]%lookup_insert_Some; right; [by exists lg|by exists lgk].
  - intros a ap H. exists ap. by split; [|intros ?].
Qed.

Lemma log_frame_put_appender s a ap' fs :
  (forall ap, appenders s !! a = Some ap -> appender_le ap ap') ->
  log_frame s (mkLogSys (<[a := ap']> (appenders s)) (loggers s) (cout s) fs (m_loggers s)).
Proof.
  intros Hle. split; [done|]. split; [by eauto|]. split; [by eauto|]. cbn. intros b apb Hb.
  destruct (decide (b = a)) as [->|Hne].
  - exists ap'. rewrite lookup_insert_eq. split; [done|]. by apply Hle.
  - exists apb. rewrite lookup_insert_ne by done. by split; [|intros ?].
Qed.

Lemma log_frame_emit a text s : log_frame s (emit a text s).
Proof.
  unfold emit. destruct (ap_kind <$> appenders s !! a) as [[|fname good|ss]|]; try by apply log_frame_same.
  - destruct good; by apply log_frame_same.
  - apply log_frame_appender. by intros ap ?.
Qed.

(** Logging on live appenders with formatters: the only way not to return is an
    item that cannot print. *)
Definition print_error {A} (r : res A) : Prop := r = Undefined "log.cpp:129" \/ r = Undefined "log.cpp:54".

Lemma format_cases items ev :
  (exists text, format strftime items ev = Ok text) \/ print_error (format strftime items ev).
Proof.
  induction items as [|it items IH]; cbn; [left; by eexists|].
  assert ((exists t, Item_format strftime it ev = Ok t) \/ print_error (Item_format strftime it ev)) as [[t ->]|Hi].
  { destruct it; cbn; try (left; by eexists).
    - destruct (skip_dirs _ _); [left; by eexists|right; by left].
    - destruct (strftime _ _); [left; by eexists|right; by right]. }
  - destruct IH as [[r ->]|[-> | ->]]; [left; by eexists|right; by left|right; by right].
  - right. destruct Hi as [-> | ->]; [by left|by right].
Qed.

Lemma appender_log_cases a ev s :
  (exists ap, appenders s !! a = Some ap /\ is_Some (ap_formatter ap)) ->
  (exists s', appender_log strftime a ev s = Ok (tt, s') /\ log_frame s s' /\ loggers s' = loggers s)
  \/ print_error (appender_log strftime a ev s).
Proof.
  intros (ap & Ha & [items Hf]). unfold appender_log. munfold. rewrite Ha.
  destruct (ap_level ap <=? ev_level ev); [|left; exists s; split; [done|]; split; [apply log_frame_refl|done]].
  rewrite Hf. destruct (format_cases items ev) as [[text ->]|[-> | ->]].
  - left. eexists. split; [reflexivity|]. split; [apply log_frame_emit|].
    unfold emit. repeat case_match; done.
  - right. by left.
  - right. by right.
Qed.

Lemma log_all_cases l ev s :
  (forall a, a ∈ l -> exists ap, appenders s !! a = Some ap /\ is_Some (ap_formatter ap)) ->
  (exists s', log_all strftime l ev s = Ok (tt, s') /\ log_frame s s')
  \/ print_error (log_all strftime l ev s).
Proof.
  revert s. induction l as [|a l IH]; intros s Hl; cbn.
  { left. exists s. split; [done|apply log_frame_refl]. }
  unfold mbind_M. destruct (appender_log_cases a ev s) as [(s1 & -> & Hf & _)|[-> | ->]].
  - apply Hl. left.
  - destruct (IH s1) as [(s' & -> & Hf')|He].
    + intros b Hb. destruct (Hl b) as (ap & H1 & H2); [by right|]. destruct Hf as (_ & _ & _ & Hap).
      destruct (Hap b ap H1) as (ap' & ? & Hle). exists ap'. split; [done|by apply Hle].
    + left. exists s'. split; [done|]. by eapply log_frame_trans.
    + by right.
  - right. by left.
  - right. by right.
Qed.

Lemma Logger_log_cases l lg level ev s :
  log_wf s -> loggers s !! l = Some lg ->
  (exists s', Logger_log strftime l level ev s = Ok (tt, s') /\ log_frame s s')
  \/ print_error (Logger_log strftime l level ev s).
Proof.
  intros Hw Hl. unfold Logger_log. munfold. rewrite Hl.
  destruct (lg_level lg <=? level); [|left; exists s; split; [done|apply log_frame_refl]].
  apply log_all_cases. intros a Ha. by apply (lw_appenders s Hw l lg).
Qed.

Lemma addLogAppender_wf l a s s' : log_wf s -> addLogAppender l a s = Ok (tt, s') -> log_wf s'.
Proof.
  intros [Hn Ha] Hx. unfold addLogAppender in Hx. munfold. destruct (loggers s !! l) as [lg|] eqn:Hl; [|done].
  destruct (appenders s !! a) as [ap|] eqn:Hap; [|done].
  set (f := match ap_formatter ap with Some f => f | None => lg_formatter lg end).
  assert (s' = mkLogSys (<[a := ap <| ap_formatter := Some f |>]> (appenders s))
                 (<[l := lg <| lg_appenders := lg_appenders lg ++ [a] |>]> (loggers s)) (cout s) (files s) (m_loggers s)) as ->.
  { unfold f. destruct (ap_formatter ap) as [it|] eqn:Ef; injection Hx as <-; [|done].
    cbn. rewrite (insert_id (appenders s)); [done|]. rewrite Hap. destruct ap. cbn in *. by subst. }
  split; cbn.
  - intros name l' (lg' & Hl' & <-)%Hn. destruct (decide (l' = l)) as [->|Hne].
    + rewrite lookup_insert_eq. eexists. split; [reflexivity|]. cbn. congruence.
    + exists lg'. by rewrite lookup_insert_ne.
  - intros l' lg' b Hl' Hb. destruct (decide (b = a)) as [->|Hba]; [rewrite lookup_insert_eq; by eexists|].
    rewrite lookup_insert_ne by done. apply lookup_insert_Some in Hl' as [(<- & <-)|(_ & Hl')]; [|by apply (Ha l' lg')].
    cbn in Hb. apply (Ha l lg); [done|set_solver].
Qed.

Lemma getLogger_wf l a name p s s' :
  log_wf s -> loggers s !! l = None -> appenders s !! a = None -> getLogger l a name s = Ok (p, s') -> log_wf s'.
Proof.
  intros Hw Hl Ha. unfold getLogger. munfold. destruct (m_loggers s !! name) as [q|] eqn:E; [by intros [= <- <-]|].
  rewrite make_logger_eq. intros [= <- <-]. destruct Hw as [Hn Hap]. split; cbn -[LogFormatter].
  - intros name' l' [(<- & <-)|(_ & (lg & Hlg & <-)%Hn)]%lookup_insert_Some.
    + rewrite lookup_insert_eq. by eexists.
    + exists lg. rewrite lookup_insert_ne by congruence. done.
  - intros l' lg b [(_ & <-)|(_ & Hlg)]%lookup_insert_Some Hb; cbn in Hb.
    + apply list_elem_of_singleton in Hb as ->. rewrite lookup_insert_eq. by eexists.
    + destruct (Hap l' lg b Hlg Hb) as (ap & ? & ?). exists ap. rewrite lookup_insert_ne by congruence. done.
Qed.

Lemma log_step_frame s s' :
  log_wf s -> log_step s s' ->
  log_frame s s'
  \/ (exists l a, addLogAppender l a s = Ok (tt, s'))
  \/ (exists l a name p, loggers s !! l = None /\ appenders s !! a = None /\ getLogger l a name s = Ok (p, s')).
Proof.
  intros Hw Hst. revert Hw.
  destruct Hst as [l name level pattern s Hl|a k s Ha _|a fname s s' Ha Hx|l a name p s s' Hl Ha Hx|l a s s' Hx|l a s s' Hx|l s s' Hx
    |l level s|l pattern s|a level s|a pattern s|a b s s' Hx|a t s s' Hx|l level ev s s' Hx]; intros Hw.
  - left. split; [done|]. split; [|split; [|by intros a ap Ha; exists ap; split; [|intros ?]]]; cbn.
    + intros l' lg Hl'. exists lg. rewrite lookup_insert_ne; [done|congruence].
    + intros l' lg' [(_ & <-)|(_ & H1)]%lookup_insert_Some; [by left|right; by exists lg'].
  - left. apply (log_frame_put_appender s a). intros ap Hap. congruence.
  - left. unfold FileLogAppender_ctor, reopen, new_appender in Hx. munfold. cbn [appenders upd_field] in Hx.
    rewrite lookup_insert_eq in Hx. cbn in Hx. injection Hx as <-. rewrite insert_insert_eq.
    apply (log_frame_put_appender s a). intros ap Hap. congruence.
  - right; right. by exists l, a, name, p.
  - right; left. eauto.
  - left. unfold delLogAppender in Hx. munfold. destruct (loggers s !! l) as [lg|] eqn:E; [|done]. injection Hx as <-.
    apply (log_frame_put_logger s l lg); [done..|]. cbn. intros x. rewrite list_elem_of_filter. naive_solver.
  - left. unfold clearLogAppenders in Hx. munfold. destruct (loggers s !! l) as [lg|] eqn:E; [|done]. injection Hx as <-.
    apply (log_frame_put_logger s l lg); [done..|]. cbn. set_solver.
  - left. apply log_frame_logger. intros lg. by split.
  - left. apply log_frame_logger. intros lg. by split.
  - left. apply log_frame_appender. by intros ap ?.
  - left. apply log_frame_appender. intros ap ?. by eexists.
  - left. unfold reopen in Hx. munfold. destruct (appenders s !! a) as [ap|] eqn:E; [|done].
    destruct (ap_kind ap) as [|fname good|ss]; try done. injection Hx as <- <-.
    apply (log_frame_put_appender s a). intros ap' Hap'. assert (ap' = ap) as -> by congruence. by intros ?.
  - left. unfold flush in Hx. munfold. destruct (appenders s !! a) as [ap|]; [|done]. destruct (ap_kind ap); try done.
    injection Hx as <- <-. apply log_frame_refl.
  - left. destruct (loggers s !! l) as [lg|] eqn:E; [|unfold Logger_log in Hx; munfold; by rewrite E in Hx].
    destruct (Logger_log_cases l lg level ev s Hw E) as [(s1 & H1 & Hf)|[H1|H1]]; rewrite Hx in H1; [|done..].
    by injection H1 as <-.
Qed.

Lemma log_step_wf s s' : log_wf s -> log_step s s' -> log_wf s'.
Proof.
  intros Hw [Hf|[(l & a & Hx)|(l & a & name & p & Hl & Ha & Hx)]]%log_step_frame; [| | |done].
  - by apply (log_frame_wf s).
  - by apply (addLogAppender_wf l a s).
  - by apply (getLogger_wf l a name p s).
Qed.

Lemma log_init_wf : log_wf log_init.
Proof. split; cbn; intros; by rewrite lookup_empty in *. Qed.

End LogInv.

(** ** Witness *)

Definition lw_strftime (pattern : string) (time : Z) : option string := Some "now".
Definition lw_state : log_sys :=
  match getLogger 1%nat 2%nat "system" log_init with Ok (_, s) => s | _ => log_init end.
Definition lw_event : LogEvent := mkLogEvent "/a/b/c/d/e/main.cpp" 3 0 ERROR 1 2 "main" "down" "system".

