(* ===== verification/Mutex.v ===== *)
(** * Locks (src/src/mutex.h)

    [Mutex] and [RWMutex] over the pthread objects they wrap, and the three
    guards.  A call that has to wait is [None]: the thread cannot take that
    step now.  Unlocking a pthread lock the thread does not hold is undefined.
    Thread ids are those of [GetThreadId], which are positive. *)

From S2P Require Import Prelude.

(** ** Mutex *)

Record Mutex := mkMutex {
  mx_owner : option Z;      (* pthread_mutex_t: the thread that holds it *)
  m_thread : Z;             (* pid_t *)
}.
#[export] Instance eta_Mutex : Eta Mutex := fun m => mkMutex (mx_owner m) (m_thread m).

(** [Mutex::Mutex] *)
Definition Mutex_ctor : Mutex := mkMutex None 0.

(** [Mutex::lock]: the two statements. *)
Definition Mutex_lock_acquire (t : Z) (m : Mutex) : option Mutex :=
  match mx_owner m with None => Some (m <| mx_owner := Some t |>) | Some _ => None end.
Definition Mutex_lock_record (t : Z) (m : Mutex) : Mutex := m <| m_thread := t |>.

(** [Mutex::unlock]: the two statements. *)
Definition Mutex_unlock_clear (m : Mutex) : Mutex := m <| m_thread := 0 |>.
Definition Mutex_unlock_release (t : Z) (m : Mutex) : res Mutex :=
  if bool_decide (mx_owner m = Some t) then Ok (m <| mx_owner := None |>) else Undefined "pthread_mutex_unlock".

(** [Mutex::isLockedByThisThread] *)
Definition isLockedByThisThread (t : Z) (m : Mutex) : bool := m_thread m =? t.

(** [Mutex::~Mutex] *)
Definition Mutex_dtor (m : Mutex) : res unit := if m_thread m =? 0 then Ok tt else AssertFailed "mutex.h:15".

(** A thread that uses the mutex through [MutexGuard]: outside, between the two
    statements of [lock], in the guarded block, between the two statements of
    [unlock]. *)
Inductive guard_pc := GOut | GLocked | GIn | GCleared.

#[export] Instance guard_pc_eq_dec : EqDecision guard_pc.
Proof. solve_decision. Defined.

Record guard_sys := mkGuardSys {
  gs_mutex : Mutex;
  gs_pc : gmap Z guard_pc;
}.

Definition pc_of (s : guard_sys) (t : Z) : guard_pc := default GOut (gs_pc s !! t).

(** The statements of the guard's constructor and destructor, by any threads. *)
Inductive guard_step : guard_sys -> guard_sys -> Prop :=
| GsAcquire t m pcs m' :
    0 < t -> pc_of (mkGuardSys m pcs) t = GOut -> Mutex_lock_acquire t m = Some m' ->
    guard_step (mkGuardSys m pcs) (mkGuardSys m' (<[t := GLocked]> pcs))
| GsRecord t m pcs :
    pc_of (mkGuardSys m pcs) t = GLocked ->
    guard_step (mkGuardSys m pcs) (mkGuardSys (Mutex_lock_record t m) (<[t := GIn]> pcs))
| GsClear t m pcs :
    pc_of (mkGuardSys m pcs) t = GIn ->
    guard_step (mkGuardSys m pcs) (mkGuardSys (Mutex_unlock_clear m) (<[t := GCleared]> pcs))
| GsRelease t m pcs m' :
    pc_of (mkGuardSys m pcs) t = GCleared -> Mutex_unlock_release t m = Ok m' ->
    guard_step (mkGuardSys m pcs) (mkGuardSys m' (<[t := GOut]> pcs)).

Definition guard_init : guard_sys := mkGuardSys Mutex_ctor ∅.

(** The mutex belongs to the thread that is not outside; [m_thread] is it
    exactly in the guarded block. *)
Definition guard_inv (s : guard_sys) : Prop :=
  (forall t, pc_of s t <> GOut <-> mx_owner (gs_mutex s) = Some t)
  /\ (forall t, pc_of s t <> GOut -> 0 < t)
  /\ m_thread (gs_mutex s) = match mx_owner (gs_mutex s) with
                             | Some t => if decide (pc_of s t = GIn) then t else 0
                             | None => 0
                             end.

Lemma pc_of_insert m m' pcs t t' x :
  pc_of (mkGuardSys m' (<[t := x]> pcs)) t' = if decide (t = t') then x else pc_of (mkGuardSys m pcs) t'.
Proof. unfold pc_of. cbn. rewrite lookup_insert. by case_decide. Qed.

(** All four steps keep the owner or hand it over, and move one thread. *)
Lemma guard_inv_owner t m m' pcs x :
  guard_inv (mkGuardSys m pcs) -> mx_owner m = Some t -> mx_owner m' = Some t -> x <> GOut ->
  m_thread m' = (if decide (x = GIn) then t else 0) -> guard_inv (mkGuardSys m' (<[t := x]> pcs)).
Proof.
  intros (Ho & Hp & _) Hm Hm' Hx Hth. cbn [gs_mutex] in *. split; [|split].
  - intros t'. cbn [gs_mutex]. rewrite (pc_of_insert m), Hm'. destruct (decide (t = t')) as [E|E]; [by subst|]. by rewrite Ho, Hm.
  - intros t' Ht'. apply Hp. intros E. rewrite (pc_of_insert m) in Ht'. destruct (decide (t = t')) as [E'|E']; [|by apply Ht'].
    subst t'. by apply (Ho t) in Hm.
  - cbn [gs_mutex]. rewrite Hm', (pc_of_insert m). destruct (decide (t = t)); [exact Hth|done].
Qed.

Lemma guard_step_inv s s' : guard_inv s -> guard_step s s' -> guard_inv s'.
Proof.
  intros Hi Hst. revert Hi. destruct Hst as [t m pcs m' Ht Hpc Ha|t m pcs Hpc|t m pcs Hpc|t m pcs m' Hpc Hr]; intros Hi.
  - unfold Mutex_lock_acquire in Ha. destruct (mx_owner m) eqn:Hm; [done|]. injection Ha as <-.
    destruct Hi as (Ho & Hp & Hth). cbn [gs_mutex] in *. rewrite Hm in Hth. split; [|split].
    + intros t'. rewrite (pc_of_insert m). cbn. destruct (decide (t = t')) as [E|E]; [by subst|]. rewrite Ho, Hm. split; congruence.
    + intros t' Ht'. rewrite (pc_of_insert m) in Ht'. destruct (decide (t = t')); [by subst|by apply Hp].
    + cbn. rewrite (pc_of_insert m). by destruct (decide (t = t)).
  - assert (mx_owner m = Some t) as Hm by (apply (proj1 Hi t); by rewrite Hpc).
    apply (guard_inv_owner t m); [done..|]. by rewrite decide_True.
  - assert (mx_owner m = Some t) as Hm by (apply (proj1 Hi t); by rewrite Hpc).
    apply (guard_inv_owner t m); done.
  - unfold Mutex_unlock_release in Hr. case_bool_decide as Hm; [|done]. injection Hr as <-.
    destruct Hi as (Ho & Hp & Hth). cbn [gs_mutex] in *. rewrite Hm, Hpc in Hth. cbn in Hth. split; [|split].
    + intros t'. rewrite (pc_of_insert m). cbn. destruct (decide (t = t')) as [E|E]; [by subst|]. rewrite Ho, Hm. split; congruence.
    + intros t' Ht'. rewrite (pc_of_insert m) in Ht'. destruct (decide (t = t')); [done|by apply Hp].
    + exact Hth.
Qed.

Lemma guard_reachable_inv s : star guard_step guard_init s -> guard_inv s.
Proof.
  intros Hs. eapply star_invariant; [apply guard_step_inv|exact Hs|].
  split; [|split]; unfold pc_of, guard_init; cbn; intros; rewrite ?lookup_empty in *; naive_solver.
Qed.

(** C30: guarded blocks exclude each other: in every interleaving of the
    statements of [MutexGuard]s, at most one thread is in its guarded block;
    there [isLockedByThisThread] is true for it and for no other thread; every
    release is legal; and when all threads are outside, the mutex is free and
    its destructor's assertion holds. *)
Theorem guarded_blocks_exclude s :
  star guard_step guard_init s ->
  (forall t1 t2, pc_of s t1 = GIn -> pc_of s t2 = GIn -> t1 = t2)
  /\ (forall t t', pc_of s t = GIn -> 0 < t' -> isLockedByThisThread t' (gs_mutex s) = bool_decide (t' = t))
  /\ (forall t, pc_of s t = GCleared -> exists m', Mutex_unlock_release t (gs_mutex s) = Ok m')
  /\ ((forall t, pc_of s t = GOut) -> mx_owner (gs_mutex s) = None /\ Mutex_dtor (gs_mutex s) = Ok tt).
Proof.
  intros (Ho & Hp & Hth)%guard_reachable_inv. split; [|split; [|split]].
  - intros t1 t2 H1 H2. assert (pc_of s t1 <> GOut) as G1%Ho by (by rewrite H1).
    assert (pc_of s t2 <> GOut) as G2%Ho by (by rewrite H2). congruence.
  - intros t t' Ht Ht'. assert (pc_of s t <> GOut) as G1%Ho by (by rewrite Ht).
    unfold isLockedByThisThread. rewrite Hth, G1, decide_True by done.
    case_bool_decide as E; [by apply Z.eqb_eq|apply Z.eqb_neq; congruence].
  - intros t Ht. assert (pc_of s t <> GOut) as G1%Ho by (by rewrite Ht).
    unfold Mutex_unlock_release. rewrite bool_decide_true by done. by eexists.
  - intros Hall. destruct (mx_owner (gs_mutex s)) as [t|] eqn:Hm.
    + destruct (Ho t) as [_ Ho']. by destruct (Ho' eq_refl).
    + split; [done|]. unfold Mutex_dtor. by rewrite Hth.
Qed.

Definition demo_guard : guard_sys := mkGuardSys (mkMutex (Some 5) 5) {[5 := GIn]}.

Lemma demo_guard_reachable : star guard_step guard_init demo_guard.
Proof.
  eapply star_step; [apply (GsAcquire 5 Mutex_ctor ∅ (mkMutex (Some 5) 0)); [lia|reflexivity..]|].
  apply star_one. exact (GsRecord 5 (mkMutex (Some 5) 0) {[5 := GLocked]} eq_refl).
Qed.

Lemma guarded_blocks_exclude_witness :
  isLockedByThisThread 5 (gs_mutex demo_guard) = true /\ isLockedByThisThread 7 (gs_mutex demo_guard) = false.
Proof.
  destruct (guarded_blocks_exclude demo_guard demo_guard_reachable) as (_ & H & _).
  split; [apply (H 5 5)|apply (H 5 7)]; reflexivity.
Defined.

(** ** RWMutex *)

(** [pthread_rwlock_t]: a writer, or the readers, with multiplicity. *)
Record RWMutex := mkRW {
  rw_writer : option Z;
  rw_readers : list Z;
}.
#[export] Instance eta_RWMutex : Eta RWMutex := fun m => mkRW (rw_writer m) (rw_readers m).

Definition RWMutex_ctor : RWMutex := mkRW None [].

(** [RWMutex::rdlock], [wrlock], [unlock] *)
Definition rdlock (t : Z) (m : RWMutex) : option RWMutex :=
  match rw_writer m with None => Some (m <| rw_readers := t :: rw_readers m |>) | Some _ => None end.
Definition wrlock (t : Z) (m : RWMutex) : option RWMutex :=
  match rw_writer m, rw_readers m with None, [] => Some (m <| rw_writer := Some t |>) | _, _ => None end.
Fixpoint remove_one (t : Z) (l : list Z) : list Z :=
  match l with [] => [] | x :: l => if x =? t then l else x :: remove_one t l end.
Definition rw_unlock (t : Z) (m : RWMutex) : res RWMutex :=
  if bool_decide (rw_writer m = Some t) then Ok (m <| rw_writer := None |>)
  else if bool_decide (t ∈ rw_readers m) then Ok (m <| rw_readers := remove_one t (rw_readers m) |>)
  else Undefined "pthread_rwlock_unlock".

(** ** Guards of the RWMutex: the lock and the guard's [m_locked] *)

Definition guarded := (RWMutex * bool)%type.

(** [MutexReadGuard::MutexReadGuard], [lock], [unlock] (also the destructor) *)
Definition ReadGuard_ctor (t : Z) (m : RWMutex) : option guarded := (fun m' => (m', true)) <$> rdlock t m.
Definition ReadGuard_lock (t : Z) (g : guarded) : option guarded :=
  if negb g.2 then (fun m' => (m', true)) <$> rdlock t g.1 else Some g.
Definition ReadGuard_unlock (t : Z) (g : guarded) : res guarded :=
  if g.2 then match rw_unlock t g.1 with Ok m' => Ok (m', false) | AssertFailed w => AssertFailed w
              | Undefined w => Undefined w | Thrown w => Thrown w | Terminated w => Terminated w end
  else Ok g.

(** [MutexWriteGuard]: its constructor does not initialise [m_locked], which
    keeps what the stack held there. *)
Definition WriteGuard_ctor (garbage : bool) (t : Z) (m : RWMutex) : option guarded :=
  (fun m' => (m', garbage)) <$> wrlock t m.
Definition WriteGuard_lock (t : Z) (g : guarded) : option guarded :=
  if negb g.2 then (fun m' => (m', true)) <$> wrlock t g.1 else Some g.
Definition WriteGuard_unlock (t : Z) (g : guarded) : res guarded :=
  if g.2 then match rw_unlock t g.1 with Ok m' => Ok (m', false) | AssertFailed w => AssertFailed w
              | Undefined w => Undefined w | Thrown w => Thrown w | Terminated w => Terminated w end
  else Ok g.

Lemma remove_one_head t l : remove_one t (t :: l) = l.
Proof. cbn. by rewrite Z.eqb_refl. Qed.

(** the guards of the read-write lock.  A read guard gives back exactly
    what it took, also when it was unlocked by hand before its destructor.  A
    write guard does so only if the uninitialised [m_locked] happens to be true:
    if it is false, its destructor leaves the lock held, and from then on no
    thread can read- or write-lock it, this one included. *)
Theorem rwlock_guards t m :
  rw_writer m = None ->
  (exists g g', ReadGuard_ctor t m = Some g /\ ReadGuard_unlock t g = Ok g' /\ g'.1 = m
     /\ ReadGuard_unlock t g' = Ok g')
  /\ (rw_readers m = [] -> forall garbage, exists g g',
       WriteGuard_ctor garbage t m = Some g /\ WriteGuard_unlock t g = Ok g'
       /\ if garbage then g'.1 = m else forall t', rdlock t' g'.1 = None /\ wrlock t' g'.1 = None).
Proof.
  intros Hw. destruct m as [w rs]. cbn in Hw. subst w. split.
  - eexists _, (mkRW None rs, false). split; [reflexivity|]. split; [|done].
    unfold ReadGuard_unlock, rw_unlock. cbn [fst snd rw_writer rw_readers].
    rewrite bool_decide_false by done. rewrite bool_decide_true by (cbn; left). cbn. by rewrite Z.eqb_refl.
  - cbn. intros -> garbage. destruct garbage; (eexists _, _; split; [reflexivity|]).
    + unfold WriteGuard_unlock, rw_unlock. cbn. rewrite bool_decide_true by done. split; [reflexivity|done].
    + split; [reflexivity|]. done.
Qed.

Lemma rwlock_guards_witness :
  exists g g', ReadGuard_ctor 4 (mkRW None [9]) = Some g /\ ReadGuard_unlock 4 g = Ok g' /\ g'.1 = mkRW None [9]
     /\ ReadGuard_unlock 4 g' = Ok g'.
Proof. apply (rwlock_guards 4 (mkRW None [9])). reflexivity. Defined.

(** ** Threads that use the lock through guards *)

(** A thread holds no guard, a read guard or a write guard; of a write guard the
    value [m_locked] happened to have matters. *)
Inductive rw_pc := RwOut | RwRead | RwWrite (m_locked : bool).

Record rw_sys := mkRwSys {
  rs_lock : RWMutex;
  rs_pc : gmap Z rw_pc;
  rs_leaked : bool;         (* ghost: a write guard did not release *)
}.

Definition rw_pc_of (s : rw_sys) (t : Z) : rw_pc := default RwOut (rs_pc s !! t).

(** Constructors and destructors of guards, by any threads. *)
Inductive rw_step : rw_sys -> rw_sys -> Prop :=
| RwsRead t m m' pcs b :
    rw_pc_of (mkRwSys m pcs b) t = RwOut -> ReadGuard_ctor t m = Some (m', true) ->
    rw_step (mkRwSys m pcs b) (mkRwSys m' (<[t := RwRead]> pcs) b)
| RwsReadEnd t m m' pcs b :
    rw_pc_of (mkRwSys m pcs b) t = RwRead -> ReadGuard_unlock t (m, true) = Ok (m', false) ->
    rw_step (mkRwSys m pcs b) (mkRwSys m' (<[t := RwOut]> pcs) b)
| RwsWrite t garbage m m' pcs b :
    rw_pc_of (mkRwSys m pcs b) t = RwOut -> WriteGuard_ctor garbage t m = Some (m', garbage) ->
    rw_step (mkRwSys m pcs b) (mkRwSys m' (<[t := RwWrite garbage]> pcs) b)
| RwsWriteEnd t garbage m m' pcs b :
    rw_pc_of (mkRwSys m pcs b) t = RwWrite garbage -> WriteGuard_unlock t (m, garbage) = Ok (m', false) ->
    rw_step (mkRwSys m pcs b) (mkRwSys m' (<[t := RwOut]> pcs) (b || negb garbage)).

Definition rw_init : rw_sys := mkRwSys RWMutex_ctor ∅ false.

Record rw_inv (s : rw_sys) : Prop := {
  ri_readers : forall t, t ∈ rw_readers (rs_lock s) <-> rw_pc_of s t = RwRead;
  ri_nodup : NoDup (rw_readers (rs_lock s));
  ri_writer : forall t g, rw_pc_of s t = RwWrite g -> rw_writer (rs_lock s) = Some t;
  ri_excl : forall t, rw_writer (rs_lock s) = Some t -> rw_readers (rs_lock s) = [];
  ri_leak : forall t, rs_leaked s = false -> rw_writer (rs_lock s) = Some t -> exists g, rw_pc_of s t = RwWrite g;
}.

Lemma rw_pc_insert m m' pcs b b' t x t' :
  rw_pc_of (mkRwSys m' (<[t := x]> pcs) b') t' = if decide (t = t') then x else rw_pc_of (mkRwSys m pcs b) t'.
Proof. unfold rw_pc_of. cbn. rewrite lookup_insert. by case_decide. Qed.

Lemma remove_one_elem t l x : NoDup l -> x ∈ remove_one t l <-> x ∈ l /\ x <> t.
Proof.
  induction l as [|y l IH]; intros Hn; cbn; [set_solver|]. apply NoDup_cons in Hn as [Hy Hn].
  destruct (Z.eqb_spec y t) as [->|E]; [set_solver|]. rewrite !elem_of_cons, IH by done. set_solver.
Qed.

Lemma remove_one_nodup t l : NoDup l -> NoDup (remove_one t l).
Proof.
  induction l as [|y l IH]; intros Hn; cbn; [constructor|]. apply NoDup_cons in Hn as [Hy Hn].
  destruct (y =? t); [done|]. constructor; [|by apply IH]. rewrite remove_one_elem by done. naive_solver.
Qed.

Lemma rw_step_inv s s' : rw_inv s -> rw_step s s' -> rw_inv s'.
Proof.
  intros Hi Hst. revert Hi.
  destruct Hst as [t m m' pcs b Hpc Hx|t m m' pcs b Hpc Hx|t g m m' pcs b Hpc Hx|t g m m' pcs b Hpc Hx];
    intros [Hr Hn Hw Hex Hk]; cbn [rs_lock rs_leaked] in *.
  - unfold ReadGuard_ctor, rdlock in Hx. destruct (rw_writer m) eqn:Ew; [done|]. injection Hx as <-.
    split; cbn [rs_lock rs_leaked rw_readers rw_writer upd_field].
    + intros t'. rewrite (rw_pc_insert m _ _ b), elem_of_cons, Hr. destruct (decide (t = t')); naive_solver.
    + constructor; [|done]. rewrite Hr, Hpc. done.
    + intros t' g. rewrite (rw_pc_insert m _ _ b). destruct (decide (t = t')); [done|]. intros H%Hw. congruence.
    + congruence.
    + congruence.
  - unfold ReadGuard_unlock, rw_unlock in Hx. cbn [fst snd] in Hx.
    assert (t ∈ rw_readers m) as Hin by (by apply Hr). assert (rw_writer m = None) as Ew.
    { destruct (rw_writer m) eqn:E; [|done]. rewrite (Hex _ eq_refl) in Hin. set_solver. }
    rewrite Ew, bool_decide_false in Hx by done. rewrite bool_decide_true in Hx by done. injection Hx as <-.
    split; cbn [rs_lock rs_leaked rw_readers rw_writer upd_field].
    + intros t'. rewrite (rw_pc_insert m _ _ b), remove_one_elem, Hr by done. destruct (decide (t = t')); naive_solver.
    + by apply remove_one_nodup.
    + intros t' g. rewrite (rw_pc_insert m _ _ b). destruct (decide (t = t')); [done|]. intros H%Hw. congruence.
    + congruence.
    + congruence.
  - unfold WriteGuard_ctor, wrlock in Hx. destruct (rw_writer m) eqn:Ew; [done|]. destruct (rw_readers m) eqn:Er; [|done].
    injection Hx as <-. split; cbn [rs_lock rs_leaked rw_readers rw_writer upd_field]; rewrite ?Er.
    + intros t'. rewrite (rw_pc_insert m _ _ b). destruct (decide (t = t')); [set_solver|apply Hr].
    + constructor.
    + intros t' g'. rewrite (rw_pc_insert m _ _ b). destruct (decide (t = t')) as [->|]; [done|]. intros H%Hw. congruence.
    + done.
    + intros t' _ [= <-]. exists g. rewrite (rw_pc_insert m _ _ b). by destruct (decide (t = t)).
  - pose proof (Hw t g Hpc) as Ew. pose proof (Hex t Ew) as Er.
    assert (m' = if g then m <| rw_writer := None |> else m) as ->.
    { unfold WriteGuard_unlock, rw_unlock in Hx. cbn [fst snd] in Hx. rewrite bool_decide_true in Hx by done.
      destruct g; by injection Hx as <-. }
    assert (rw_readers (if g then m <| rw_writer := None |> else m) = []) as Er' by (by destruct g).
    split; cbn [rs_lock rs_leaked]; rewrite ?Er'.
    + intros t'. rewrite (rw_pc_insert m _ _ b). rewrite Er in Hr. destruct (decide (t = t')); [set_solver|apply Hr].
    + constructor.
    + intros t' g'. rewrite (rw_pc_insert m _ _ b). destruct (decide (t = t')) as [->|]; [done|]. intros H%Hw. congruence.
    + done.
    + intros t' Hl. destruct g; [done|]. by destruct b.
Qed.

Lemma rw_reachable_inv s : star rw_step rw_init s -> rw_inv s.
Proof.
  intros Hs. eapply star_invariant; [apply rw_step_inv|exact Hs|].
  split; cbn; try (intros; congruence); [|constructor|].
  - intros t. unfold rw_pc_of. cbn. rewrite lookup_empty. cbn. split; [set_solver|done].
  - intros t g. unfold rw_pc_of. cbn. by rewrite lookup_empty.
Qed.

(** C31: the read-write lock keeps writers alone.  In every interleaving of read
    and write guards, whatever the uninitialised [m_locked] of each write guard
    was: two threads with write guards are the same thread, no thread has a read
    guard while another has a write guard, and every unlock in a destructor is
    legal.  Unless some write guard was constructed with [m_locked] false, the
    lock is free when no thread has a guard; and while a writer is recorded, by
    a live guard or a leaked one, no thread gets a guard. *)
Theorem rw_guards_exclude s :
  star rw_step rw_init s ->
  (forall t1 t2 g1 g2, rw_pc_of s t1 = RwWrite g1 -> rw_pc_of s t2 = RwWrite g2 -> t1 = t2)
  /\ (forall t1 t2 g, rw_pc_of s t1 = RwWrite g -> rw_pc_of s t2 <> RwRead)
  /\ (forall t, rw_pc_of s t = RwRead -> exists m', ReadGuard_unlock t (rs_lock s, true) = Ok (m', false))
  /\ (forall t g, rw_pc_of s t = RwWrite g -> exists m', WriteGuard_unlock t (rs_lock s, g) = Ok (m', false))
  /\ (rs_leaked s = false -> (forall t, rw_pc_of s t = RwOut) -> rs_lock s = RWMutex_ctor)
  /\ (forall t1, rw_writer (rs_lock s) = Some t1 -> forall t g, ReadGuard_ctor t (rs_lock s) = None
        /\ WriteGuard_ctor g t (rs_lock s) = None).
Proof.
  intros [Hr Hn Hw Hex Hk]%rw_reachable_inv. split; [|split; [|split; [|split; [|split]]]].
  - intros t1 t2 g1 g2 H1%Hw H2%Hw. congruence.
  - intros t1 t2 g H1%Hw H2%Hr. rewrite (Hex t1 H1) in H2. set_solver.
  - intros t Ht. apply Hr in Ht. unfold ReadGuard_unlock, rw_unlock. cbn [fst snd].
    destruct (bool_decide (rw_writer (rs_lock s) = Some t)); [by eexists|]. rewrite bool_decide_true by done. by eexists.
  - intros t g Ht%Hw. unfold WriteGuard_unlock, rw_unlock. cbn [fst snd]. rewrite bool_decide_true by done.
    destruct g; by eexists.
  - intros Hl Hout. destruct (rs_lock s) as [[t|] [|t' rs]] eqn:E; cbn in *.
    + destruct (Hk t Hl eq_refl) as [g Hg]. by rewrite Hout in Hg.
    + by specialize (Hex t eq_refl).
    + done.
    + assert (rw_pc_of s t' = RwRead) as Hc by (apply Hr; left). by rewrite Hout in Hc.
  - intros t1 Ht1 t g. unfold ReadGuard_ctor, rdlock, WriteGuard_ctor, wrlock. by rewrite Ht1.
Qed.

Definition demo_rw : rw_sys := mkRwSys (mkRW None [8; 5]) {[8 := RwRead; 5 := RwRead]} false.

Lemma rw_guards_exclude_witness :
  exists m', ReadGuard_unlock 5 (rs_lock demo_rw, true) = Ok (m', false).
Proof.
  destruct (rw_guards_exclude demo_rw) as (_ & _ & Hr & _).
  - eapply star_step; [apply (RwsRead 5 RWMutex_ctor (mkRW None [5]) ∅ false); reflexivity|].
    apply star_one. exact (RwsRead 8 (mkRW None [5]) (mkRW None [8; 5]) {[5 := RwRead]} false eq_refl eq_refl).
  - exact (Hr 5 eq_refl).
Defined.
