(* ===== verification/LogThreads.v ===== *)
(** * Threads that log (Logger::log and the appenders of log.cpp, MutexGuard)

    [Logger::log] and [LogAppender::log] lock the mutexes of the logger and of
    the appender.  Here the threads of a program execute their logging
    statements in every interleaving: each lock and unlock is a step, each item
    of the formatter is, and so is each run of characters the stream takes.  A
    thread may wrap statements in a block with a [MutexGuard] of its own.  While
    the threads run, loggers and appenders are not reconfigured. *)

From S2P Require Import Prelude Log LogProps Mutex.

(** ** Statements, locks and threads *)

(** A statement [EVA_LOG_LEVEL(logger, level) << message;] *)
Record log_call := mkCall {
  lc_logger : ptr;
  lc_level : Z;
  lc_site : log_site;
  lc_env : log_env;
  lc_message : string;
}.

(** Statements, in a block that is guarded by a mutex or not. *)
Definition block := (option ptr * list log_call)%type.

(** The mutexes: the program's own, [Logger::m_mtx] and [LogAppender::m_mtx]. *)
Inductive lock_id := LkUser (m : ptr) | LkLogger (l : ptr) | LkAppender (a : ptr).

#[export] Instance lock_id_eq_dec : EqDecision lock_id.
Proof. solve_decision. Defined.
#[export] Instance lock_id_countable : Countable lock_id.
Proof.
  refine (inj_countable' (fun k => match k with LkUser p => (0%nat, p) | LkLogger p => (1%nat, p) | LkAppender p => (2%nat, p) end)
    (fun x => match x with (0%nat, p) => LkUser p | (1%nat, p) => LkLogger p | (_, p) => LkAppender p end) _).
  by intros [].
Defined.

(** Where a thread is in a statement: not in one; with the event built, before
    the destructor of [LogWrapper]; in the loop of [Logger::log] with the
    appenders still to visit; in the appender's [log], with the text the stream
    has not taken yet and the items still to print. *)
Inductive log_pc :=
| LOut
| LEvent (l : ptr) (ev : LogEvent)
| LLoop (l : ptr) (ev : LogEvent) (rest : list ptr)
| LWrite (l : ptr) (ev : LogEvent) (a : ptr) (text : string) (items : list Item) (rest : list ptr).

Record log_thread := mkLogThread {
  th_guard : option ptr;        (* the mutex of the block it is in *)
  th_calls : list log_call;     (* the statements left of the block *)
  th_blocks : list block;       (* the blocks left *)
  th_pc : log_pc;
}.
#[export] Instance eta_log_thread : Eta log_thread := fun th =>
  mkLogThread (th_guard th) (th_calls th) (th_blocks th) (th_pc th).

Record logt_sys := mkLogtSys {
  lt_log : log_sys;
  lt_locks : gmap lock_id Mutex;
  lt_threads : gmap Z log_thread;
}.
#[export] Instance eta_logt_sys : Eta logt_sys := fun s => mkLogtSys (lt_log s) (lt_locks s) (lt_threads s).

Inductive lock_op := NoLock | Acquire (k : lock_id) | Release (k : lock_id).

Definition mutex_of (ls : gmap lock_id Mutex) (k : lock_id) : Mutex := default Mutex_ctor (ls !! k).

Definition res_map {A B} (f : A -> B) (r : res A) : res B :=
  match r with
  | Ok a => Ok (f a)
  | AssertFailed w => AssertFailed w
  | Undefined w => Undefined w
  | Thrown w => Thrown w
  | Terminated w => Terminated w
  end.

(** [Mutex::lock] and [Mutex::unlock]; [None] when the thread has to wait. *)
Definition apply_lock (t : Z) (op : lock_op) (ls : gmap lock_id Mutex) : option (res (gmap lock_id Mutex)) :=
  match op with
  | NoLock => Some (Ok ls)
  | Acquire k => (fun m => Ok (<[k := Mutex_lock_record t m]> ls)) <$> Mutex_lock_acquire t (mutex_of ls k)
  | Release k => Some (res_map (fun m => <[k := m]> ls) (Mutex_unlock_release t (Mutex_unlock_clear (mutex_of ls k))))
  end.

(** The first [n] characters and the others. *)
Fixpoint split_text (n : nat) (s : string) : string * string :=
  match n, s with
  | S n, String c s => let '(x, y) := split_text n s in (String c x, y)
  | _, _ => (EmptyString, s)
  end.

Section LogThreads.
Context (strftime : string -> Z -> option string).

(** ** One step of a thread *)

Definition call_event (lg : Logger) (c : log_call) : LogEvent :=
  getSS_write (lc_message c) (EVA_LOG_LEVEL_event (lg_name lg) (lc_level c) (lc_site c) (lc_env c)).

(** The test of the macro, and the event. *)
Definition step_call (c : log_call) (g : log_sys) : res log_pc :=
  match loggers g !! lc_logger c with
  | None => Undefined "logger"
  | Some lg => Ok (if lg_level lg <=? lc_level c then LEvent (lc_logger c) (call_event lg c) else LOut)
  end.

(** [Logger::log], up to its loop. *)
Definition step_log (l : ptr) (ev : LogEvent) (g : log_sys) : res log_pc :=
  match loggers g !! l with
  | None => Undefined "logger"
  | Some lg => Ok (LLoop l ev (if lg_level lg <=? ev_level ev then lg_appenders lg else []))
  end.

(** [appender->log(event)], up to the first output: a stream appender formats
    the event into a string first. *)
Definition step_appender (l : ptr) (ev : LogEvent) (a : ptr) (rest : list ptr) (g : log_sys) : res log_pc :=
  match appenders g !! a with
  | None => Undefined "appender"
  | Some ap =>
      if ap_level ap <=? ev_level ev then
        match ap_formatter ap with
        | None => Undefined "log.cpp: m_formatter"
        | Some items =>
            match ap_kind ap with
            | StreamLogAppender _ => res_map (fun text => LWrite l ev a text [] rest) (format strftime items ev)
            | _ => Ok (LWrite l ev a EmptyString items rest)
            end
        end
      else Ok (LWrite l ev a EmptyString [] rest)
  end.

(** What a thread does next, with the lock it takes or gives back; [n] more
    characters than one are taken by the stream.  [None] when it has finished. *)
Definition next (n : nat) (th : log_thread) (g : log_sys) : option (lock_op * res (log_thread * log_sys)) :=
  let at_pc r := res_map (fun pc => (th <| th_pc := pc |>, g)) r in
  match th_pc th with
  | LOut =>
      match th_calls th, th_guard th, th_blocks th with
      | c :: calls, _, _ => Some (NoLock, res_map (fun pc => (th <| th_calls := calls |> <| th_pc := pc |>, g)) (step_call c g))
      | [], Some m, _ => Some (Release (LkUser m), Ok (th <| th_guard := None |>, g))
      | [], None, (Some m, calls) :: blocks => Some (Acquire (LkUser m), Ok (mkLogThread (Some m) calls blocks LOut, g))
      | [], None, (None, calls) :: blocks => Some (NoLock, Ok (mkLogThread None calls blocks LOut, g))
      | [], None, [] => None
      end
  | LEvent l ev => Some (Acquire (LkLogger l), at_pc (step_log l ev g))
  | LLoop l ev (a :: rest) => Some (Acquire (LkAppender a), at_pc (step_appender l ev a rest g))
  | LLoop l ev [] => Some (Release (LkLogger l), at_pc (Ok LOut))
  | LWrite l ev a EmptyString (it :: items) rest =>
      Some (NoLock, at_pc (res_map (fun text => LWrite l ev a text items rest) (Item_format strftime it ev)))
  | LWrite l ev a EmptyString [] rest => Some (Release (LkAppender a), at_pc (Ok (LLoop l ev rest)))
  | LWrite l ev a text items rest =>
      let '(taken, kept) := split_text (S n) text in
      Some (NoLock, Ok (th <| th_pc := LWrite l ev a kept items rest |>, emit a taken g))
  end.

(** One step of thread [t]. *)
Definition logt_exec (t : Z) (n : nat) (s : logt_sys) : option (res logt_sys) :=
  th ← lt_threads s !! t;
  '(op, r) ← next n th (lt_log s);
  locks ← apply_lock t op (lt_locks s);
  Some (match locks, r with
        | Ok ls, Ok (th', g) => Ok (mkLogtSys g ls (<[t := th']> (lt_threads s)))
        | Ok _, e => res_map (fun _ => s) e
        | e, _ => res_map (fun _ => s) e
        end).

Definition logt_step (s s' : logt_sys) : Prop := exists t n, logt_exec t n s = Some (Ok s').

(** The threads before their first statement, with their blocks. *)
Definition logt_init (g : log_sys) (prog : gmap Z (list block)) : logt_sys :=
  mkLogtSys g ∅ ((fun bs => mkLogThread None [] bs LOut) <$> prog).

Definition th_finished (th : log_thread) : Prop :=
  th_pc th = LOut /\ th_calls th = [] /\ th_guard th = None /\ th_blocks th = [].

Definition finished (s : logt_sys) : Prop := forall t th, lt_threads s !! t = Some th -> th_finished th.

(** ** Who holds which lock *)

Definition holds (th : log_thread) (k : lock_id) : bool :=
  match k with
  | LkUser m => bool_decide (th_guard th = Some m)
  | LkLogger l => match th_pc th with LLoop l' _ _ | LWrite l' _ _ _ _ _ => bool_decide (l' = l) | _ => false end
  | LkAppender a => match th_pc th with LWrite _ _ a' _ _ _ => bool_decide (a' = a) | _ => false end
  end.

(** A step takes or gives back exactly the lock it says. *)
Lemma next_holds n th g op th' g' :
  next n th g = Some (op, Ok (th', g')) ->
  match op with
  | NoLock => forall k, holds th' k = holds th k
  | Acquire k => holds th k = false /\ forall k', holds th' k' = bool_decide (k' = k) || holds th k'
  | Release k => holds th k = true /\ forall k', holds th' k' = negb (bool_decide (k' = k)) && holds th k'
  end.
Proof.
  destruct th as [gu calls blocks pc]. unfold next. cbn [th_pc th_calls th_guard th_blocks].
  destruct pc as [|l ev|l ev [|a rest]|l ev a [|ch text] [|it items] rest].
  - destruct calls as [|c calls]; [destruct gu as [m|]; [|destruct blocks as [|[[m|] calls] blocks]; [done|..]]|].
    + intros [= <- <- <-]. split; [by apply bool_decide_true|]. intros [m'|l|a]; cbn; repeat case_bool_decide; naive_solver.
    + intros [= <- <- <-]. split; [done|]. intros [m'|l|a]; cbn; repeat case_bool_decide; naive_solver.
    + intros [= <- <- <-]. by intros [m'|l|a].
    + unfold step_call. destruct (loggers g !! lc_logger c) as [lg|]; [|done]. intros [= <- <- <-].
      intros [m'|l|a]; cbn; by destruct (lg_level lg <=? lc_level c).
  - unfold step_log. destruct (loggers g !! l) as [lg|]; [|done]. intros [= <- <- <-].
    split; [done|]. intros [m'|l'|a]; cbn; repeat case_bool_decide; naive_solver.
  - intros [= <- <- <-]. cbn. split; [by apply bool_decide_true|].
    intros [m'|l'|a]; cbn; repeat case_bool_decide; naive_solver.
  - unfold step_appender. destruct (appenders g !! a) as [ap|]; [|done].
    set (r := if ap_level ap <=? ev_level ev then _ else _).
    assert (forall pc, r = Ok pc -> exists text items, pc = LWrite l ev a text items rest) as Hr.
    { unfold r. destruct (ap_level ap <=? ev_level ev); [|intros ? [= <-]; eauto].
      destruct (ap_formatter ap) as [items|]; [|done]. destruct (ap_kind ap); try (intros ? [= <-]; by eauto).
      destruct (format strftime items ev); try done. intros ? [= <-]. eauto. }
    destruct r as [pc| | | |]; try done. destruct (Hr pc eq_refl) as (text & items & ->). intros [= <- <- <-].
    split; [done|]. intros [m'|l'|a']; cbn; repeat case_bool_decide; naive_solver.
  - intros [= <- <- <-]. cbn. split; [by apply bool_decide_true|].
    intros [m'|l'|a']; cbn; repeat case_bool_decide; naive_solver.
  - destruct (Item_format strftime it ev); try done. intros [= <- <- <-]. by intros [m'|l'|a'].
  - destruct (split_text (S n) (String ch text)) as [x y]. intros [= <- <- <-]. by intros [m'|l'|a'].
  - destruct (split_text (S n) (String ch text)) as [x y]. intros [= <- <- <-]. by intros [m'|l'|a'].
Qed.

(** The owner of a mutex is the thread that holds it. *)
Definition locks_inv (s : logt_sys) : Prop :=
  forall k t, mx_owner (mutex_of (lt_locks s) k) = Some t <-> exists th, lt_threads s !! t = Some th /\ holds th k = true.

Lemma locks_inv_init g prog : locks_inv (logt_init g prog).
Proof.
  intros k t. cbn. unfold mutex_of. rewrite lookup_empty. split; [done|]. intros (th & Hth & Hh).
  apply lookup_fmap_Some in Hth as (bs & <- & _). by destruct k.
Qed.

Lemma mutex_of_insert ls k k' m : mutex_of (<[k := m]> ls) k' = if bool_decide (k' = k) then m else mutex_of ls k'.
Proof. unfold mutex_of. case_bool_decide as E; [subst; by rewrite lookup_insert_eq|by rewrite lookup_insert_ne]. Qed.

(** What a step does, in terms of its thread. *)
Lemma logt_exec_inv t n s r :
  logt_exec t n s = Some r ->
  exists th op r' locks, lt_threads s !! t = Some th /\ next n th (lt_log s) = Some (op, r')
    /\ apply_lock t op (lt_locks s) = Some locks
    /\ r = match locks, r' with
           | Ok ls, Ok (th', g) => Ok (mkLogtSys g ls (<[t := th']> (lt_threads s)))
           | Ok _, e => res_map (fun _ => s) e
           | e, _ => res_map (fun _ => s) e
           end.
Proof.
  unfold logt_exec. destruct (lt_threads s !! t) as [th|]; [|done]. cbn.
  destruct (next n th (lt_log s)) as [[op r']|] eqn:En; [|done]. cbn.
  destruct (apply_lock t op (lt_locks s)) as [locks|] eqn:El; [|done]. cbn. intros [= <-]. by exists th, op, r', locks.
Qed.

Lemma logt_step_inv s s' :
  logt_step s s' ->
  exists t n th op th' g ls, lt_threads s !! t = Some th /\ next n th (lt_log s) = Some (op, Ok (th', g))
    /\ apply_lock t op (lt_locks s) = Some (Ok ls) /\ s' = mkLogtSys g ls (<[t := th']> (lt_threads s)).
Proof.
  intros (t & n & (th & op & r' & locks & Ht & Hn & Hl & Hr)%logt_exec_inv).
  destruct locks as [ls| | | |]; try done. destruct r' as [[th' g]| | | |]; try done. injection Hr as ->.
  by exists t, n, th, op, th', g, ls.
Qed.

(** A thread that holds a lock can give it back. *)
Lemma release_ok s t th k :
  locks_inv s -> lt_threads s !! t = Some th -> holds th k = true ->
  exists ls, apply_lock t (Release k) (lt_locks s) = Some (Ok ls).
Proof.
  intros Hi Ht Hh. assert (mx_owner (mutex_of (lt_locks s) k) = Some t) as Ho by (apply Hi; eauto).
  cbn. unfold Mutex_unlock_release, Mutex_unlock_clear. cbn [mx_owner upd_field]. rewrite bool_decide_true by done. by eexists.
Qed.

Lemma locks_inv_step s t th th' g op ls :
  locks_inv s -> lt_threads s !! t = Some th -> apply_lock t op (lt_locks s) = Some (Ok ls) ->
  (match op with
   | NoLock => forall k, holds th' k = holds th k
   | Acquire k => holds th k = false /\ forall k', holds th' k' = bool_decide (k' = k) || holds th k'
   | Release k => holds th k = true /\ forall k', holds th' k' = negb (bool_decide (k' = k)) && holds th k'
   end) ->
  locks_inv (mkLogtSys g ls (<[t := th']> (lt_threads s))).
Proof.
  intros Hi Ht Hl Hh k0 t0. cbn.
  assert ((exists th0, <[t := th']> (lt_threads s) !! t0 = Some th0 /\ holds th0 k0 = true)
    <-> if decide (t0 = t) then holds th' k0 = true
        else mx_owner (mutex_of (lt_locks s) k0) = Some t0) as ->.
  { destruct (decide (t0 = t)) as [->|Hne].
    - rewrite lookup_insert_eq. naive_solver.
    - rewrite lookup_insert_ne by done. symmetry. apply Hi. }
  assert (holds th k0 = true <-> mx_owner (mutex_of (lt_locks s) k0) = Some t) as Hme.
  { rewrite (Hi k0 t). rewrite Ht. naive_solver. }
  destruct op as [|k|k]; cbn in Hl.
  - injection Hl as <-. rewrite Hh. destruct (decide (t0 = t)) as [->|]; by rewrite ?Hme.
  - destruct Hh as [_ Hh]. rewrite Hh. unfold Mutex_lock_acquire in Hl.
    destruct (mx_owner (mutex_of (lt_locks s) k)) eqn:Ho; [done|]. injection Hl as <-. rewrite mutex_of_insert.
    case_bool_decide as E; cbn [orb].
    + subst. cbn [mx_owner Mutex_lock_record upd_field]. destruct (decide (t0 = t)) as [->|Hne]; [done|].
      rewrite Ho. split; [by intros [= ->]|done].
    + destruct (decide (t0 = t)) as [->|]; by rewrite ?Hme.
  - destruct Hh as [Hk Hh]. rewrite Hh. unfold Mutex_unlock_release, Mutex_unlock_clear in Hl. cbn [mx_owner upd_field] in Hl.
    case_bool_decide as Ho; [|done]. cbn in Hl. injection Hl as <-. rewrite mutex_of_insert.
    case_bool_decide as E; cbn [negb andb].
    + subst. cbn. rewrite Ho. destruct (decide (t0 = t)) as [->|Hne]; split; congruence.
    + destruct (decide (t0 = t)) as [->|]; by rewrite ?Hme.
Qed.

(** ** What a thread has still to do in its block *)

Definition run_call (c : log_call) : M log_sys unit :=
  EVA_LOG_LEVEL strftime (lc_logger c) (lc_level c) (lc_site c) (lc_env c) (lc_message c).

Fixpoint run_calls (calls : list log_call) : M log_sys unit :=
  match calls with
  | [] => mret_M tt
  | c :: calls => run_call c ;;; run_calls calls
  end.

(** The rest of the statement, without interruption. *)
Definition finish_pc (pc : log_pc) : M log_sys unit :=
  match pc with
  | LOut => mret_M tt
  | LEvent l ev => Logger_log strftime l (ev_level ev) ev
  | LLoop l ev rest => log_all strftime rest ev
  | LWrite l ev a text items rest =>
      let! more := (fun g => res_map (fun more => (more, g)) (format strftime items ev)) in
      mmodify (emit a (text +:+ more)) ;;;
      log_all strftime rest ev
  end.

Definition finish (th : log_thread) : M log_sys unit := finish_pc (th_pc th) ;;; run_calls (th_calls th).

(** The loggers and appenders a statement needs are there and can print. *)
Definition call_ok (g : log_sys) (c : log_call) : Prop :=
  exists lg, loggers g !! lc_logger c = Some lg /\ Forall (can_print strftime g (call_event lg c)) (lg_appenders lg).

Definition pc_ok (g : log_sys) (pc : log_pc) : Prop :=
  match pc with
  | LOut => True
  | LEvent l ev => exists lg, loggers g !! l = Some lg /\ Forall (can_print strftime g ev) (lg_appenders lg)
  | LLoop l ev rest => Forall (can_print strftime g ev) rest
  | LWrite l ev a text items rest =>
      (exists more, format strftime items ev = Ok more) /\ can_print strftime g ev a /\ Forall (can_print strftime g ev) rest
  end.

Definition thread_ok (g : log_sys) (th : log_thread) : Prop :=
  pc_ok g (th_pc th) /\ Forall (call_ok g) (th_calls th) /\ Forall (fun b => Forall (call_ok g) b.2) (th_blocks th).

Lemma same_setup_prints g g' ev l :
  same_setup g g' -> Forall (can_print strftime g ev) l -> Forall (can_print strftime g' ev) l.
Proof. intros Hs Hl. eapply Forall_impl; [exact Hl|]. intros a Ha. by apply (same_setup_print strftime g g'). Qed.

Lemma same_setup_call g g' c : same_setup g g' -> call_ok g c -> call_ok g' c.
Proof.
  intros Hs (lg & Hl & Hp). exists lg. destruct Hs as (E & Hs). split; [by rewrite E|]. by apply (same_setup_prints g).
Qed.

Lemma same_setup_thread g g' th : same_setup g g' -> thread_ok g th -> thread_ok g' th.
Proof.
  intros Hs (Hp & Hc & Hb). split; [|split].
  - destruct (th_pc th) as [|l ev|l ev rest|l ev a text items rest]; cbn in *; [done|..].
    + destruct Hp as (lg & Hl & Hp). exists lg. split; [by rewrite (proj1 Hs)|by apply (same_setup_prints g)].
    + by apply (same_setup_prints g).
    + destruct Hp as (? & Ha & Hp). split; [done|]. split; [by apply (same_setup_print strftime g g')|by apply (same_setup_prints g)].
  - eapply Forall_impl; [exact Hc|]. intros c. by apply same_setup_call.
  - eapply Forall_impl; [exact Hb|]. intros b Hbc. eapply Forall_impl; [exact Hbc|]. intros c. by apply same_setup_call.
Qed.

Lemma split_text_app n text : (split_text n text).1 +:+ (split_text n text).2 = text.
Proof.
  revert text. induction n as [|n IH]; intros [|c text]; try done. cbn. specialize (IH text).
  destruct (split_text n text) as [x y]. cbn in *. change (String c (x +:+ y) = String c text). by rewrite IH.
Qed.

Lemma emit_nil a g : emit a EmptyString g = g.
Proof.
  unfold emit. destruct (appenders g !! a) as [ap|] eqn:Ha; [|done]. cbn. destruct g as [aps lgs co fs ml]. cbn in *.
  destruct (ap_kind ap) as [|fname [|]|ss] eqn:Ek; cbn; [by rewrite string_app_nil_r| |done|].
  - f_equal. apply alter_id. intros t _. apply string_app_nil_r.
  - f_equal. apply alter_id. intros ap' Hap'. rewrite Ha in Hap'. injection Hap' as ->.
    rewrite string_app_nil_r. destruct ap'. cbn in *. by subst.
Qed.

Lemma emit_app a x y g : emit a y (emit a x g) = emit a (x +:+ y) g.
Proof.
  destruct (appenders g !! a) as [ap|] eqn:Ha; unfold emit; rewrite Ha; cbn [fmap option_fmap option_map]; [|by rewrite Ha].
  destruct (ap_kind ap) as [|fname [|]|ss] eqn:Ek; cbn.
  - rewrite Ha. cbn. rewrite Ek. cbn. by rewrite string_app_assoc.
  - rewrite Ha. cbn. rewrite Ek. cbn. f_equal. rewrite alter_alter_eq. apply alter_ext. intros t _. cbn. apply string_app_assoc.
  - rewrite Ha. cbn. by rewrite Ek.
  - rewrite lookup_alter_eq, Ha. cbn. f_equal. rewrite alter_alter_eq. apply alter_ext. intros ap' _. cbn.
    by rewrite string_app_assoc.
Qed.

Lemma format_cons it items ev text :
  format strftime (it :: items) ev = Ok text ->
  exists x y, Item_format strftime it ev = Ok x /\ format strftime items ev = Ok y /\ text = x +:+ y.
Proof.
  cbn. destruct (Item_format strftime it ev) as [x| | | |]; try done.
  destruct (format strftime items ev) as [y| | | |]; try done. intros [= <-]. eauto.
Qed.

Definition in_block (th : log_thread) : bool :=
  match th_pc th, th_calls th with LOut, [] => false | _, _ => true end.

(** The steps in a block: they never go wrong, take the thread's block one step
    further, and leave the configuration alone. *)
Definition inside (g : log_sys) (th : log_thread) (r : res (log_thread * log_sys)) : Prop :=
  exists th' g', r = Ok (th', g') /\ thread_ok g' th' /\ same_setup g g' /\ finish th' g' = finish th g
    /\ th_guard th' = th_guard th /\ th_blocks th' = th_blocks th.

Lemma inside_pc g g' th pc calls :
  thread_ok g th -> same_setup g g' -> pc_ok g' pc -> Forall (call_ok g) calls ->
  (finish_pc pc ;;; run_calls calls) g' = finish th g ->
  inside g th (Ok (mkLogThread (th_guard th) calls (th_blocks th) pc, g')).
Proof.
  intros (_ & _ & Hb) Hs Hp Hc Hf. eexists _, _. split; [reflexivity|]. split; [|by split].
  split; [done|]. split.
  - eapply Forall_impl; [exact Hc|]. intros c. by apply same_setup_call.
  - eapply Forall_impl; [exact Hb|]. intros b Hbc. eapply Forall_impl; [exact Hbc|]. intros c. by apply same_setup_call.
Qed.

Lemma next_call th g c calls r :
  thread_ok g th -> th_pc th = LOut -> th_calls th = c :: calls ->
  r = res_map (fun pc => (th <| th_calls := calls |> <| th_pc := pc |>, g)) (step_call c g) -> inside g th r.
Proof.
  intros Hok Hpc Hca ->. pose proof Hok as (_ & Hc & _). rewrite Hca in Hc. apply Forall_cons in Hc as [(lg & Hl & Hp) Hc].
  unfold step_call. rewrite Hl. apply (inside_pc g g th); [done|reflexivity| |done|].
  - destruct (lg_level lg <=? lc_level c); [|done]. by exists lg.
  - unfold finish. rewrite Hpc, Hca. cbn [finish_pc run_calls]. unfold run_call, EVA_LOG_LEVEL. munfold. rewrite Hl.
    by destruct (lg_level lg <=? lc_level c).
Qed.

Lemma next_log th g l ev r :
  thread_ok g th -> th_pc th = LEvent l ev -> r = res_map (fun pc => (th <| th_pc := pc |>, g)) (step_log l ev g) ->
  inside g th r.
Proof.
  intros Hok Hpc ->. pose proof Hok as (Hp & Hc & _). rewrite Hpc in Hp. destruct Hp as (lg & Hl & Hp).
  unfold step_log. rewrite Hl. apply (inside_pc g g th); [done|reflexivity| |done|].
  - cbn. destruct (lg_level lg <=? ev_level ev); [done|by apply Forall_nil].
  - unfold finish. rewrite Hpc. cbn [finish_pc]. unfold Logger_log. munfold. rewrite Hl.
    by destruct (lg_level lg <=? ev_level ev).
Qed.

Lemma next_appender th g l ev a rest r :
  thread_ok g th -> th_pc th = LLoop l ev (a :: rest) ->
  r = res_map (fun pc => (th <| th_pc := pc |>, g)) (step_appender l ev a rest g) -> inside g th r.
Proof.
  intros Hok Hpc ->. pose proof Hok as (Hp & Hc & _). rewrite Hpc in Hp. cbn in Hp. apply Forall_cons in Hp as [Ha Hp].
  pose proof Ha as (ap & items & text & Hap & Hi & Ht). unfold step_appender. rewrite Hap.
  assert (finish th g = (log_all strftime rest ev ;;; run_calls (th_calls th))
    (if ap_level ap <=? ev_level ev then emit a text g else g)) as Hf.
  { unfold finish. rewrite Hpc. cbn [finish_pc log_all]. unfold mbind_M at 1 2. rewrite (appender_log_eq strftime a ev g Ha).
    unfold accepts, printed. by rewrite Hap, Hi, Ht. }
  destruct (ap_level ap <=? ev_level ev).
  - rewrite Hi. set (x := match ap_kind ap with StreamLogAppender _ => text | _ => EmptyString end).
    set (its := match ap_kind ap with StreamLogAppender _ => [] | _ => items end).
    assert (match ap_kind ap with
            | StreamLogAppender _ => res_map (fun text => LWrite l ev a text [] rest) (format strftime items ev)
            | _ => Ok (LWrite l ev a EmptyString items rest)
            end = Ok (LWrite l ev a x its rest)) as -> by (unfold x, its; rewrite Ht; by destruct (ap_kind ap)).
    assert (exists more, format strftime its ev = Ok more /\ x +:+ more = text) as (more & Hm & Hx).
    { unfold x, its. destruct (ap_kind ap); [by exists text..|]. exists EmptyString. split; [done|apply string_app_nil_r]. }
    apply (inside_pc g g th); [done|reflexivity| |done|].
    + cbn. eauto.
    + rewrite Hf. cbn [finish_pc]. munfold. rewrite Hm. cbn. by rewrite Hx.
  - apply (inside_pc g g th); [done|reflexivity| |done|].
    + cbn. eauto.
    + rewrite Hf. cbn [finish_pc format]. munfold. cbn [res_map]. by rewrite emit_nil.
Qed.

Lemma next_item th g l ev a it items rest r :
  thread_ok g th -> th_pc th = LWrite l ev a EmptyString (it :: items) rest ->
  r = res_map (fun pc => (th <| th_pc := pc |>, g))
        (res_map (fun text => LWrite l ev a text items rest) (Item_format strftime it ev)) -> inside g th r.
Proof.
  intros Hok Hpc ->. pose proof Hok as (Hp & Hc & _). rewrite Hpc in Hp. destruct Hp as ((more & Hm) & Ha & Hp).
  destruct (format_cons _ _ _ _ Hm) as (x & y & Hx & Hy & ->). rewrite Hx.
  apply (inside_pc g g th); [done|reflexivity| |done|].
  - split; [by exists y|done].
  - unfold finish. rewrite Hpc. cbn [finish_pc]. munfold. by rewrite Hm, Hy.
Qed.

Lemma next_chars n th g l ev a text items rest r :
  thread_ok g th -> th_pc th = LWrite l ev a text items rest ->
  r = Ok (th <| th_pc := LWrite l ev a (split_text n text).2 items rest |>, emit a (split_text n text).1 g) -> inside g th r.
Proof.
  intros Hok Hpc ->. pose proof Hok as (Hp & Hc & _). rewrite Hpc in Hp. destruct Hp as ((more & Hm) & Ha & Hp).
  pose proof (emit_same a (split_text n text).1 g) as Hs.
  apply (inside_pc g _ th); [done|done| |done|].
  - split; [by exists more|]. split; [by apply (same_setup_print strftime g)|by apply (same_setup_prints g)].
  - unfold finish. rewrite Hpc. cbn [finish_pc]. munfold. rewrite Hm. cbn [res_map].
    by rewrite emit_app, <- string_app_assoc, split_text_app.
Qed.

Lemma next_inside n th g op r : thread_ok g th -> in_block th = true -> next n th g = Some (op, r) -> inside g th r.
Proof.
  intros Hok Hin. unfold next. unfold in_block in Hin. destruct (th_pc th) as [|l ev|l ev [|a rest]|l ev a [|ch text] [|it items] rest] eqn:Hpc.
  - destruct (th_calls th) as [|c calls] eqn:Hca; [done|]. intros [= <- <-]. by eapply next_call.
  - intros [= <- <-]. by eapply next_log.
  - intros [= <- <-]. pose proof Hok as (_ & Hc & _). apply (inside_pc g g th); [done|reflexivity|done|done|].
    unfold finish. by rewrite Hpc.
  - intros [= <- <-]. by eapply next_appender.
  - intros [= <- <-]. pose proof Hok as (Hp & Hc & _). rewrite Hpc in Hp. destruct Hp as (_ & _ & Hp).
    apply (inside_pc g g th); [done|reflexivity|done|done|].
    unfold finish. rewrite Hpc. cbn [finish_pc format]. munfold. cbn [res_map]. by rewrite emit_nil.
  - intros [= <- <-]. by eapply next_item.
  - destruct (split_text (S n) (String ch text)) as [x y] eqn:E. intros [= <- <-].
    eapply (next_chars (S n)); [done|done|]. by rewrite E.
  - destruct (split_text (S n) (String ch text)) as [x y] eqn:E. intros [= <- <-].
    eapply (next_chars (S n)); [done|done|]. by rewrite E.
Qed.

(** The steps between blocks. *)
Lemma next_between n th g op r :
  in_block th = false -> next n th g = Some (op, r) ->
  (exists m, th_guard th = Some m /\ op = Release (LkUser m) /\ r = Ok (th <| th_guard := None |>, g))
  \/ (exists m calls blocks, th_guard th = None /\ th_blocks th = (m, calls) :: blocks
        /\ op = match m with Some m => Acquire (LkUser m) | None => NoLock end
        /\ r = Ok (mkLogThread m calls blocks LOut, g)).
Proof.
  intros Hn. assert (th_pc th = LOut /\ th_calls th = []) as [Hpc Hca].
  { unfold in_block in Hn. by destruct (th_pc th), (th_calls th). }
  unfold next. rewrite Hpc, Hca. intros Hx. destruct (th_guard th) as [m|]; [injection Hx as <- <-; left; by exists m|].
  right. destruct (th_blocks th) as [|[[m|] calls] blocks]; [done|..]; injection Hx as <- <-.
  - by exists (Some m), calls, blocks.
  - by exists None, calls, blocks.
Qed.

(** ** Every step is defined, and some thread can always go on *)

Definition logt_inv (s : logt_sys) : Prop :=
  locks_inv s /\ forall t th, lt_threads s !! t = Some th -> thread_ok (lt_log s) th.

Definition prog_ok (g : log_sys) (prog : gmap Z (list block)) : Prop :=
  forall t bs, prog !! t = Some bs -> Forall (fun b => Forall (call_ok g) b.2) bs.

Lemma logt_inv_init g prog : prog_ok g prog -> logt_inv (logt_init g prog).
Proof.
  intros Hp. split; [apply locks_inv_init|]. intros t th Ht. cbn in Ht. apply lookup_fmap_Some in Ht as (bs & <- & Hb).
  split; [done|]. split; [by apply Forall_nil|by apply (Hp t)].
Qed.

Lemma next_ok n th g op r :
  thread_ok g th -> next n th g = Some (op, r) ->
  exists th' g', r = Ok (th', g') /\ thread_ok g' th' /\ same_setup g g'.
Proof.
  intros Hok Hn. destruct (in_block th) eqn:Hb.
  - destruct (next_inside n th g op r Hok Hb Hn) as (th' & g' & ? & ? & ? & _). by exists th', g'.
  - destruct Hok as (Hp & Hc & Hbl).
    destruct (next_between n th g op r Hb Hn) as [(m & _ & _ & ->)|(m & calls & blocks & _ & Hbs & _ & ->)].
    + eexists _, g. split; [reflexivity|]. split; [done|reflexivity].
    + eexists _, g. split; [reflexivity|]. rewrite Hbs in Hbl. apply Forall_cons in Hbl as [Hb1 Hb2].
      split; [by split|reflexivity].
Qed.

Lemma logt_inv_step s t th th' g ls op n :
  logt_inv s -> lt_threads s !! t = Some th -> next n th (lt_log s) = Some (op, Ok (th', g)) ->
  apply_lock t op (lt_locks s) = Some (Ok ls) ->
  logt_inv (mkLogtSys g ls (<[t := th']> (lt_threads s))) /\ same_setup (lt_log s) g.
Proof.
  intros [Hl Hok] Ht Hn Ha. destruct (next_ok n th _ op _ (Hok t th Ht) Hn) as (th1 & g1 & [= <- <-] & Hok' & Hs).
  split; [|done]. split.
  - eapply locks_inv_step; [done|done|done|]. by apply (next_holds n th (lt_log s) op th' g).
  - cbn. intros t0 th0 [(<- & <-)|(_ & Ht0)]%lookup_insert_Some; [done|]. by apply (same_setup_thread (lt_log s)), (Hok t0).
Qed.

(** A thread that can take the lock it wants takes its step. *)
Lemma exec_defined s t th n op r :
  logt_inv s -> lt_threads s !! t = Some th -> next n th (lt_log s) = Some (op, r) ->
  (forall k, op = Acquire k -> mx_owner (mutex_of (lt_locks s) k) = None) ->
  exists s', logt_exec t n s = Some (Ok s').
Proof.
  intros Hi Ht Hn Hfree. destruct (next_ok n th _ op r (proj2 Hi t th Ht) Hn) as (th' & g & -> & _ & _).
  pose proof (next_holds n th _ op th' g Hn) as Hh.
  assert (exists ls, apply_lock t op (lt_locks s) = Some (Ok ls)) as [ls Hl].
  { destruct op as [|k|k].
    - by eexists.
    - cbn. unfold Mutex_lock_acquire. rewrite (Hfree k eq_refl). by eexists.
    - destruct Hh as [Hk _]. exact (release_ok s t th k (proj1 Hi) Ht Hk). }
  unfold logt_exec. rewrite Ht. cbn. rewrite Hn. cbn. rewrite Hl. by eexists.
Qed.

Lemma exec_ok s t n r : logt_inv s -> logt_exec t n s = Some r -> exists s', r = Ok s'.
Proof.
  intros Hi Hr. destruct (logt_exec_inv t n s r Hr) as (th & op & r' & locks & Ht & Hn & Hl & _).
  destruct (exec_defined s t th n op r' Hi Ht Hn) as [s' Hs].
  - intros k ->. cbn in Hl. unfold Mutex_lock_acquire in Hl. by destruct (mx_owner (mutex_of (lt_locks s) k)).
  - rewrite Hr in Hs. injection Hs as ->. by exists s'.
Qed.

(** Locks are taken in one order: the program's, the logger's, the appender's. *)
Definition lock_rank (k : lock_id) : nat := match k with LkUser _ => 2 | LkLogger _ => 1 | LkAppender _ => 0 end.

Lemma holder_next th g k :
  holds th k = true ->
  exists op r, next 0 th g = Some (op, r) /\ forall k', op = Acquire k' -> (lock_rank k' < lock_rank k)%nat.
Proof.
  intros Hh. unfold next. destruct (th_pc th) as [|l ev|l ev [|a rest]|l ev a [|ch text] [|it items] rest] eqn:Hpc.
  - destruct k as [m|l|a]; cbn in Hh; rewrite ?Hpc in Hh; try done. apply bool_decide_eq_true in Hh. rewrite Hh.
    destruct (th_calls th); by eexists _, _.
  - destruct k as [m|l'|a]; cbn in Hh; rewrite ?Hpc in Hh; try done. eexists _, _. split; [reflexivity|].
    intros k' [= <-]. cbn. lia.
  - by eexists _, _.
  - eexists _, _. split; [reflexivity|]. intros k' [= <-]. destruct k as [m|l'|a']; cbn in *; rewrite ?Hpc in Hh; (done || lia).
  - by eexists _, _.
  - by eexists _, _.
  - destruct (split_text 1 (String ch text)); by eexists _, _.
  - destruct (split_text 1 (String ch text)); by eexists _, _.
Qed.

Lemma holder_steps s t th k :
  logt_inv s -> lt_threads s !! t = Some th -> holds th k = true -> exists s', logt_step s s'.
Proof.
  intros Hi. remember (lock_rank k) as d eqn:Hd. revert t th k Hd.
  induction d as [d IH] using lt_wf_ind. intros t th k -> Ht Hk.
  destruct (holder_next th (lt_log s) k Hk) as (op & r & Hn & Hrank).
  destruct op as [|k'|k'].
  - destruct (exec_defined s t th 0 _ r Hi Ht Hn) as [s' Hs]; [done|]. by exists s', t, 0%nat.
  - destruct (mx_owner (mutex_of (lt_locks s) k')) as [t'|] eqn:Ho.
    + apply Hi in Ho as (th' & Ht' & Hk'). by apply (IH _ (Hrank k' eq_refl) t' th' k').
    + destruct (exec_defined s t th 0 _ r Hi Ht Hn) as [s' Hs]; [by intros ? [= <-]|]. by exists s', t, 0%nat.
  - destruct (exec_defined s t th 0 _ r Hi Ht Hn) as [s' Hs]; [done|]. by exists s', t, 0%nat.
Qed.

Lemma unfinished_next th g : ~ th_finished th -> exists op r, next 0 th g = Some (op, r).
Proof.
  intros Hf. unfold next. destruct (th_pc th) as [|l ev|l ev [|a rest]|l ev a [|ch text] [|it items] rest] eqn:Hpc;
    try by eexists _, _.
  destruct (th_calls th) eqn:Hc; [|by eexists _, _]. destruct (th_guard th) eqn:Hg; [by eexists _, _|].
  destruct (th_blocks th) as [|[[m|] calls] bs] eqn:Hb; [|by eexists _, _..]. exfalso. by apply Hf.
Qed.

Lemma unfinished_steps s t th :
  logt_inv s -> lt_threads s !! t = Some th -> ~ th_finished th -> exists s', logt_step s s'.
Proof.
  intros Hi Ht Hf. destruct (unfinished_next th (lt_log s) Hf) as (op & r & Hn).
  destruct op as [|k|k]; try (destruct (exec_defined s t th 0 _ r Hi Ht Hn) as [s' Hs]; [done|]; by exists s', t, 0%nat).
  destruct (mx_owner (mutex_of (lt_locks s) k)) as [t'|] eqn:Ho.
  - apply Hi in Ho as (th' & Ht' & Hk'). by apply (holder_steps s t' th' k).
  - destruct (exec_defined s t th 0 _ r Hi Ht Hn) as [s' Hs]; [by intros ? [= <-]|]. by exists s', t, 0%nat.
Qed.

End LogThreads.
