(* ===== verification/LogThreadsProps.v ===== *)
(** * What threads that log can rely on

    Every interleaving of the threads of LogThreads.v ends, with every thread
    finished and without undefined behaviour; a program that guards its logging
    by one mutex logs its blocks one after the other; the lines that go through
    one appender arrive whole, and in each thread's order. *)

From S2P Require Import Prelude Log LogProps LogInv Mutex LogThreads.

#[export] Instance th_finished_dec th : Decision (th_finished th).
Proof.
  unfold th_finished. destruct (th_pc th); [|right; by intros [? _]..]. destruct (th_calls th); [|right; by intros (_ & ? & _)].
  destruct (th_guard th); [right; by intros (_ & _ & ? & _)|]. destruct (th_blocks th); [by left|right; by intros (_ & _ & _ & ?)].
Defined.

Section LogThreadsProps.
Context (strftime : string -> Z -> option string).
Notation next := (next strftime).
Notation logt_exec := (logt_exec strftime).
Notation logt_step := (logt_step strftime).
Notation thread_ok := (thread_ok strftime).
Notation call_ok := (call_ok strftime).
Notation prog_ok := (prog_ok strftime).
Notation logt_inv := (logt_inv strftime).
Notation can_print := (can_print strftime).
Notation printed := (printed strftime).
Notation format := (format strftime).

(** ** Termination *)

(** The steps a thread has still to take, one character at a time. *)
Definition items_of (g : log_sys) (a : ptr) : list Item := default [] (appenders g !! a ≫= ap_formatter).

Definition text_of (items : list Item) (ev : LogEvent) : string :=
  match format items ev with Ok text => text | _ => EmptyString end.

Definition line_cost (g : log_sys) (ev : LogEvent) (a : ptr) : nat :=
  2 + length (items_of g a) + String.length (text_of (items_of g a) ev).

Definition visit_cost (g : log_sys) (ev : LogEvent) (l : list ptr) : nat := sum_list (line_cost g ev <$> l).

Definition logger_cost (g : log_sys) (l : ptr) (ev : LogEvent) : nat :=
  2 + visit_cost g ev (from_option lg_appenders [] (loggers g !! l)).

Definition pc_cost (g : log_sys) (pc : log_pc) : nat :=
  match pc with
  | LOut => 0
  | LEvent l ev => logger_cost g l ev
  | LLoop l ev rest => 1 + visit_cost g ev rest
  | LWrite l ev a text items rest =>
      2 + String.length text + length items + String.length (text_of items ev) + visit_cost g ev rest
  end.

Definition call_cost (g : log_sys) (c : log_call) : nat :=
  match loggers g !! lc_logger c with Some lg => 1 + logger_cost g (lc_logger c) (call_event lg c) | None => 0 end.

Definition calls_cost (g : log_sys) (calls : list log_call) : nat := sum_list (call_cost g <$> calls).

Definition th_cost (g : log_sys) (th : log_thread) : nat :=
  pc_cost g (th_pc th) + calls_cost g (th_calls th) + (if th_guard th then 1 else 0)
  + sum_list ((fun b => 2 + calls_cost g b.2)%nat <$> th_blocks th).

#[local] Arguments visit_cost : simpl never.
#[local] Arguments logger_cost : simpl never.
#[local] Arguments call_cost : simpl never.
#[local] Arguments calls_cost : simpl never.
#[local] Arguments text_of : simpl never.

Lemma calls_cost_cons g c calls : calls_cost g (c :: calls) = (call_cost g c + calls_cost g calls)%nat.
Proof. done. Qed.

(** The cost depends on the configuration alone. *)
Lemma line_cost_same g g' ev a : same_setup g g' -> can_print g ev a -> line_cost g' ev a = line_cost g ev a.
Proof.
  intros Hs (ap & items & text & Ha & Hi & _). destruct (same_setup_appender g g' a ap Hs Ha) as (ap' & Ha' & Hf & _).
  unfold line_cost, items_of. rewrite Ha, Ha'. cbn. by rewrite Hf.
Qed.

Lemma visit_cost_same g g' ev l : same_setup g g' -> Forall (can_print g ev) l -> visit_cost g' ev l = visit_cost g ev l.
Proof.
  intros Hs Hl. unfold visit_cost. f_equal. apply Forall_fmap_ext_1. eapply Forall_impl; [exact Hl|].
  intros a. by apply line_cost_same.
Qed.

Lemma call_cost_same g g' c : same_setup g g' -> call_ok g c -> call_cost g' c = call_cost g c.
Proof.
  intros Hs (lg & Hl & Hp). unfold call_cost, logger_cost. rewrite (proj1 Hs), Hl. cbn [from_option]. by rewrite (visit_cost_same g g').
Qed.

Lemma calls_cost_same g g' calls : same_setup g g' -> Forall (call_ok g) calls -> calls_cost g' calls = calls_cost g calls.
Proof.
  intros Hs Hl. unfold calls_cost. f_equal. apply Forall_fmap_ext_1. eapply Forall_impl; [exact Hl|].
  intros c. by apply call_cost_same.
Qed.

Lemma th_cost_same g g' th : same_setup g g' -> thread_ok g th -> th_cost g' th = th_cost g th.
Proof.
  intros Hs (Hp & Hc & Hb). unfold th_cost. rewrite (calls_cost_same g g') by done.
  assert (pc_cost g' (th_pc th) = pc_cost g (th_pc th)) as ->.
  { destruct (th_pc th) as [|l ev|l ev rest|l ev a text items rest]; cbn [pc_cost pc_ok] in *; [done|..].
    - destruct Hp as (lg & Hl & Hp). unfold logger_cost. rewrite (proj1 Hs), Hl. cbn [from_option]. by rewrite (visit_cost_same g g').
    - by rewrite (visit_cost_same g g').
    - destruct Hp as (_ & _ & Hp). by rewrite (visit_cost_same g g'). }
  f_equal. f_equal. apply Forall_fmap_ext_1. eapply Forall_impl; [exact Hb|]. intros b Hb1. cbn.
  by rewrite (calls_cost_same g g').
Qed.

Lemma length_app_string (x y : string) : String.length (x +:+ y) = (String.length x + String.length y)%nat.
Proof. induction x as [|c x IH]; [done|]. change (S (String.length (x +:+ y)) = S (String.length x + String.length y)). by rewrite IH. Qed.

Lemma split_text_shorter n c text : (String.length (split_text (S n) (String c text)).2 <= String.length text)%nat.
Proof.
  cbn. pose proof (split_text_app n text) as E. destruct (split_text n text) as [x y]. cbn in *. subst text.
  rewrite length_app_string. lia.
Qed.

Lemma step_call_cost g c pc :
  call_ok g c -> step_call c g = Ok pc -> (pc_cost g pc < call_cost g c)%nat.
Proof.
  intros (lg & Hl & _). unfold step_call, call_cost. rewrite Hl. intros [= <-].
  destruct (lg_level lg <=? lc_level c); cbn; lia.
Qed.

Lemma step_log_cost g l ev pc :
  step_log l ev g = Ok pc -> (pc_cost g pc < logger_cost g l ev)%nat.
Proof.
  unfold step_log, logger_cost. destruct (loggers g !! l) as [lg|]; [|done]. intros [= <-].
  cbn [pc_cost from_option]. destruct (lg_level lg <=? ev_level ev); [lia|]. change (visit_cost g ev []) with 0%nat. lia.
Qed.

Lemma step_appender_cost g l ev a rest pc :
  can_print g ev a -> step_appender strftime l ev a rest g = Ok pc ->
  (pc_cost g pc < pc_cost g (LLoop l ev (a :: rest)))%nat.
Proof.
  intros (ap & items & text & Ha & Hi & Ht). unfold step_appender. rewrite Ha.
  assert (visit_cost g ev (a :: rest) = 2 + length items + String.length text + visit_cost g ev rest)%nat as Hv.
  { unfold visit_cost. cbn. unfold line_cost, items_of, text_of. rewrite Ha. cbn. rewrite Hi. cbn. rewrite Ht. lia. }
  cbn [pc_cost]. rewrite Hv. destruct (ap_level ap <=? ev_level ev); [|intros [= <-]; unfold pc_cost, text_of; cbn; lia].
  rewrite Hi, Ht. destruct (ap_kind ap); intros [= <-]; cbn; unfold text_of; rewrite ?Ht; cbn; lia.
Qed.

Lemma item_cost it items ev x text :
  format (it :: items) ev = Ok text -> Item_format strftime it ev = Ok x ->
  (String.length x + String.length (text_of items ev) = String.length (text_of (it :: items) ev))%nat.
Proof.
  intros Ht Hx. destruct (format_cons strftime it items ev text Ht) as (x' & y & Hx' & Hy & Et). rewrite Hx in Hx'. injection Hx' as <-.
  unfold text_of. rewrite Ht, Hy, Et. by rewrite length_app_string.
Qed.

(** Every step brings the thread closer to its end. *)
Lemma next_cost n th g op th' g' :
  thread_ok g th -> next n th g = Some (op, Ok (th', g')) -> (th_cost g th' < th_cost g th)%nat.
Proof.
  destruct th as [gu calls blocks pc]. unfold th_cost, LogThreads.next. cbn [th_pc th_calls th_guard th_blocks].
  intros (Hp & Hc & _). cbn in Hp, Hc. destruct pc as [|l ev|l ev [|a rest]|l ev a [|ch text] [|it items] rest].
  - destruct calls as [|c calls]; [destruct gu as [m|]; [|destruct blocks as [|[[m|] calls] blocks]; [done|..]]|].
    + intros [= <- <- <-]. cbn. lia.
    + intros [= <- <- <-]. cbn. lia.
    + intros [= <- <- <-]. cbn. lia.
    + apply Forall_cons in Hc as [Hc _]. destruct (step_call c g) as [pc| | | |] eqn:E; try done. intros [= <- <- <-].
      pose proof (step_call_cost g c pc Hc E). cbn in *. rewrite calls_cost_cons. lia.
  - destruct (step_log l ev g) as [pc| | | |] eqn:E; try done. intros [= <- <- <-].
    pose proof (step_log_cost g l ev pc E). cbn in *. lia.
  - intros [= <- <- <-]. cbn. lia.
  - apply Forall_cons in Hp as [Ha _].
    destruct (step_appender strftime l ev a rest g) as [pc| | | |] eqn:E; try done. intros [= <- <- <-].
    pose proof (step_appender_cost g l ev a rest pc Ha E). cbn in *. lia.
  - intros [= <- <- <-]. cbn. lia.
  - destruct Hp as ((text & Ht) & _). destruct (Item_format strftime it ev) as [x| | | |] eqn:E; try done.
    intros [= <- <- <-]. pose proof (item_cost it items ev x text Ht E). cbn in *. lia.
  - pose proof (split_text_shorter n ch text). destruct (split_text (S n) (String ch text)) as [x y].
    intros [= <- <- <-]. cbn in *. lia.
  - pose proof (split_text_shorter n ch text). destruct (split_text (S n) (String ch text)) as [x y].
    intros [= <- <- <-]. cbn in *. lia.
Qed.

Definition steps_left (s : logt_sys) : nat := map_total (th_cost (lt_log s)) (lt_threads s).

Lemma logt_step_ok s s' :
  logt_inv s -> logt_step s s' ->
  logt_inv s' /\ same_setup (lt_log s) (lt_log s') /\ (steps_left s' < steps_left s)%nat.
Proof.
  intros Hi Hst. destruct (logt_step_inv strftime s s' Hst) as (t & n & th & op & th' & g & ls & Ht & Hn & Hl & ->).
  destruct (logt_inv_step strftime s t th th' g ls op n Hi Ht Hn Hl) as [Hi' Hs]. split; [done|]. split; [done|].
  unfold steps_left. cbn. rewrite (map_total_ext (th_cost g) (th_cost (lt_log s))).
  - pose proof (map_total_update (th_cost (lt_log s)) (lt_threads s) t th th' Ht).
    pose proof (next_cost n th _ op th' g (proj2 Hi t th Ht) Hn). lia.
  - intros t0 th0 Ht0. apply th_cost_same; [done|]. symmetry in Hs. by apply (same_setup_thread strftime g), (proj2 Hi' t0).
Qed.

Lemma nsteps_bound k s s' :
  logt_inv s -> nsteps logt_step k s s' -> logt_inv s' /\ (k + steps_left s' <= steps_left s)%nat.
Proof.
  intros Hi Hn. induction Hn as [s|k s1 s2 s3 Hst Hn IH]; [by split; [|lia]|].
  destruct (logt_step_ok s1 s2 Hi Hst) as (Hi2 & _ & Hlt). destruct (IH Hi2) as [Hi3 Hle]. split; [done|lia].
Qed.

Lemma logt_reachable s0 s : logt_inv s0 -> star logt_step s0 s -> logt_inv s /\ same_setup (lt_log s0) (lt_log s).
Proof.
  intros Hi Hs. induction Hs as [s|s1 s2 s3 Hst Hs IH]; [by split|].
  destruct (logt_step_ok s1 s2 Hi Hst) as (Hi2 & Hs2 & _). destruct (IH Hi2) as [Hi3 Hs3]. split; [done|]. by transitivity (lt_log s2).
Qed.

Lemma threads_kept g prog s t : star logt_step (logt_init g prog) s -> is_Some (prog !! t) -> is_Some (lt_threads s !! t).
Proof.
  intros Hs Ht. apply (star_invariant logt_step (fun s => is_Some (lt_threads s !! t))) with (logt_init g prog); [|exact Hs|].
  - intros s1 s2 H1 Hst. destruct (logt_step_inv strftime s1 s2 Hst) as (t0 & n & th & op & th' & g' & ls & _ & _ & _ & ->).
    cbn. apply lookup_insert_is_Some'. by right.
  - cbn. rewrite lookup_fmap. by apply fmap_is_Some.
Qed.

Lemma finished_or_steps s : logt_inv s -> finished s \/ exists s', logt_step s s'.
Proof.
  intros Hi. destruct (decide (map_Forall (fun _ => th_finished) (lt_threads s))) as [Hf|Hf]; [by left|right].
  apply map_not_Forall in Hf as (t & th & Ht & Hf); [|apply _]. by apply (unfinished_steps strftime s t th).
Qed.

(** C15: threads that log never go wrong, never deadlock, and finish.  Let the
    loggers of the program exist and their appenders be able to print its
    events.  In every state that any interleaving of the threads reaches, no
    step of any thread is undefined (no mutex is unlocked by a thread that does
    not hold it, no null or dangling pointer is followed), and unless all threads
    have finished some thread can move: the mutexes of the program, the loggers
    and the appenders are taken in one order.  No run is longer than a bound that
    the program alone determines, so every run that is continued as long as
    possible ends with all threads finished. *)
Theorem logging_threads_finish g prog :
  prog_ok g prog ->
  (forall s, star logt_step (logt_init g prog) s ->
     (forall t n r, logt_exec t n s = Some r -> exists s', r = Ok s')
     /\ (finished s \/ exists s', logt_step s s'))
  /\ (forall k s, nsteps logt_step k (logt_init g prog) s -> (k <= steps_left (logt_init g prog))%nat).
Proof.
  intros Hp. pose proof (logt_inv_init strftime g prog Hp) as Hi0. split.
  - intros s Hs. destruct (logt_reachable _ s Hi0 Hs) as [Hi _]. split; [intros t n r; by apply exec_ok|by apply finished_or_steps].
  - intros k s Hk. destruct (nsteps_bound k _ s Hi0 Hk). lia.
Qed.

(** ** Programs whose logging is guarded by one mutex *)

Notation run_calls := (run_calls strftime).
Notation finish := (finish strftime).

(** Blocks of threads, executed one after the other. *)
Fixpoint run_blocks (order : list (Z * list log_call)) : M log_sys unit :=
  match order with
  | [] => mret_M tt
  | (t, calls) :: order => run_calls calls ;;; run_blocks order
  end.

(** The blocks of thread [t] among them. *)
Definition blocks_of (m : ptr) (t : Z) (order : list (Z * list log_call)) : list block :=
  (fun b => (Some m, b.2)) <$> filter (fun b => b.1 = t) order.

Definition guarded_by (m : ptr) (prog : gmap Z (list block)) : Prop :=
  forall t bs, prog !! t = Some bs -> Forall (fun b => b.1 = Some m) bs.

Lemma log_all_total l ev g :
  Forall (can_print g ev) l -> exists g', log_all strftime l ev g = Ok (tt, g') /\ same_setup g g'.
Proof.
  revert g. induction l as [|a l IH]; intros g Hl; [by exists g|]. apply Forall_cons in Hl as [Ha Hl].
  cbn [log_all]. unfold mbind_M. rewrite (appender_log_eq strftime a ev g Ha).
  assert (same_setup g (if accepts g ev a then emit a (printed g ev a) g else g)) as Hs
    by (destruct (accepts g ev a); [apply emit_same|done]).
  destruct (IH _ (same_setup_prints strftime _ _ ev l Hs Hl)) as (g' & Hg & Hs'). exists g'. split; [done|]. by etransitivity.
Qed.

Lemma run_calls_total calls g :
  Forall (call_ok g) calls -> exists g', run_calls calls g = Ok (tt, g') /\ same_setup g g'.
Proof.
  revert g. induction calls as [|c calls IH]; intros g Hl; [by exists g|]. apply Forall_cons in Hl as [Hc Hl].
  assert (exists g1, run_call strftime c g = Ok (tt, g1) /\ same_setup g g1) as (g1 & Hg1 & Hs1).
  { destruct Hc as (lg & Hlg & Hp). unfold run_call, EVA_LOG_LEVEL, LogWrapper_dtor, Logger_log. munfold. rewrite Hlg.
    destruct (lg_level lg <=? lc_level c); [|by exists g]. cbn [wr_logger wr_event]. rewrite Hlg.
    destruct (lg_level lg <=? _); [|by exists g]. by apply log_all_total. }
  assert (Forall (call_ok g1) calls) as Hl1 by (eapply Forall_impl; [exact Hl|]; intros c'; by apply same_setup_call).
  destruct (IH g1 Hl1) as (g' & Hg' & Hs'). exists g'. cbn [LogThreads.run_calls]. unfold mbind_M. rewrite Hg1.
  split; [done|]. by transitivity g1.
Qed.

Lemma run_blocks_snoc order t calls g g1 :
  run_blocks order g = Ok (tt, g1) -> run_blocks (order ++ [(t, calls)]) g = run_calls calls g1.
Proof.
  revert g. induction order as [|[t' calls'] order IH]; intros g; cbn [run_blocks app]; unfold mbind_M.
  - intros [= ->]. by destruct (run_calls calls g1) as [[[] g2]| | | |].
  - destruct (run_calls calls' g) as [[[] g2]| | | |]; try done. apply IH.
Qed.

Lemma blocks_of_snoc m t order t' calls :
  blocks_of m t (order ++ [(t', calls)])
  = blocks_of m t order ++ (if decide (t' = t) then [(Some m, calls)] else []).
Proof. unfold blocks_of. rewrite filter_app, fmap_app. f_equal. unfold filter. cbn. by destruct (decide (t' = t)). Qed.

Section Guarded.
Context (m : ptr) (g0 : log_sys) (prog : gmap Z (list block)).
Context (prog_ok0 : prog_ok g0 prog) (guarded0 : guarded_by m prog).

(** The blocks entered so far, one after the other, lead to the state in which
    the thread in its block will leave it. *)
Record serial (s : logt_sys) (order : list (Z * list log_call)) : Prop := {
  se_inv : logt_inv s;
  se_threads : forall t th, lt_threads s !! t = Some th ->
    prog !! t = Some (blocks_of m t order ++ th_blocks th)
    /\ (th_guard th = Some m \/ th_guard th = None /\ in_block th = false);
  se_order : Forall (fun b => is_Some (prog !! b.1)) order;
  se_log : exists g, run_blocks order g0 = Ok (tt, g)
    /\ match mx_owner (mutex_of (lt_locks s) (LkUser m)) with
       | None => lt_log s = g
       | Some t => exists th, lt_threads s !! t = Some th /\ finish th (lt_log s) = Ok (tt, g)
       end;
}.

Lemma serial_init : serial (logt_init g0 prog) [].
Proof.
  split.
  - by apply logt_inv_init.
  - intros t th Ht. cbn in Ht. apply lookup_fmap_Some in Ht as (bs & <- & Hb). split; [done|]. by right.
  - by apply Forall_nil.
  - by exists g0.
Qed.

Lemma owner_is s t th : locks_inv s -> lt_threads s !! t = Some th -> th_guard th = Some m ->
  mx_owner (mutex_of (lt_locks s) (LkUser m)) = Some t.
Proof. intros Hl Ht Hg. apply Hl. exists th. split; [done|]. cbn. by rewrite bool_decide_true. Qed.

Lemma owner_guard s t : locks_inv s -> mx_owner (mutex_of (lt_locks s) (LkUser m)) = Some t ->
  exists th, lt_threads s !! t = Some th /\ th_guard th = Some m.
Proof. intros Hl (th & Ht & Hh)%Hl. exists th. split; [done|]. cbn in Hh. by apply bool_decide_eq_true in Hh. Qed.

(** A step inside a block. *)
Lemma serial_inside s t th th' g ls order :
  serial s order -> lt_threads s !! t = Some th -> in_block th = true ->
  inside strftime (lt_log s) th (Ok (th', g)) -> logt_inv (mkLogtSys g ls (<[t := th']> (lt_threads s))) ->
  serial (mkLogtSys g ls (<[t := th']> (lt_threads s))) order.
Proof.
  intros [Hi Hth Ho (ga & Hr & Hlog)] Ht Hb (? & ? & [= <- <-] & _ & _ & Hf & Hg & Hbl) Hi'.
  destruct (Hth t th Ht) as [Hp [Hgu|[_ Hno]]]; [|congruence].
  pose proof (owner_is s t th (proj1 Hi) Ht Hgu) as How. rewrite How in Hlog. destruct Hlog as (th0 & Ht0 & Hf0).
  rewrite Ht in Ht0. injection Ht0 as <-. split; [done| |done|].
  - cbn. intros t0 th0 [(<- & <-)|(_ & Ht0)]%lookup_insert_Some; [|by apply Hth]. rewrite Hbl, Hg. split; [done|by left].
  - exists ga. split; [done|]. rewrite (owner_is _ t th' (proj1 Hi')); [|apply lookup_insert_eq|congruence].
    exists th'. split; [apply lookup_insert_eq|]. cbn. congruence.
Qed.

(** Leaving a block. *)
Lemma serial_leave s t th th' g ls order :
  serial s order -> lt_threads s !! t = Some th -> in_block th = false -> th_guard th = Some m ->
  th' = th <| th_guard := None |> -> g = lt_log s -> logt_inv (mkLogtSys g ls (<[t := th']> (lt_threads s))) ->
  serial (mkLogtSys g ls (<[t := th']> (lt_threads s))) order.
Proof.
  intros [Hi Hth Ho (ga & Hr & Hlog)] Ht Hb Hgu -> -> Hi'. pose proof (owner_is s t th (proj1 Hi) Ht Hgu) as How.
  rewrite How in Hlog. destruct Hlog as (th0 & Ht0 & Hf0). rewrite Ht in Ht0. injection Ht0 as <-.
  assert (lt_log s = ga) as Hg.
  { unfold LogThreads.finish in Hf0. unfold in_block in Hb. destruct (th_pc th), (th_calls th); try done. by injection Hf0. }
  split; [done| |done|].
  - cbn. intros t0 th0 [(<- & <-)|(_ & Ht0)]%lookup_insert_Some; [|by apply Hth].
    destruct (Hth t th Ht) as [Hp _]. split; [done|]. by right.
  - exists ga. split; [done|]. cbn [lt_locks]. destruct (mx_owner (mutex_of ls (LkUser m))) as [t1|] eqn:E; [|done]. exfalso.
    destruct (owner_guard _ t1 (proj1 Hi') E) as (th1 & Ht1 & Hg1). cbn in Ht1.
    apply lookup_insert_Some in Ht1 as [(<- & <-)|(Hne & Ht1)]; [done|].
    pose proof (owner_is s t1 th1 (proj1 Hi) Ht1 Hg1). congruence.
Qed.

(** Entering the next block. *)
Lemma serial_enter s t th th' g ls order calls blocks :
  serial s order -> lt_threads s !! t = Some th -> in_block th = false -> th_guard th = None ->
  th_blocks th = (Some m, calls) :: blocks -> th' = mkLogThread (Some m) calls blocks LOut -> g = lt_log s ->
  mx_owner (mutex_of (lt_locks s) (LkUser m)) = None -> logt_inv (mkLogtSys g ls (<[t := th']> (lt_threads s))) ->
  serial (mkLogtSys g ls (<[t := th']> (lt_threads s))) (order ++ [(t, calls)]).
Proof.
  intros [Hi Hth Ho (ga & Hr & Hlog)] Ht Hb Hgu Hbl -> -> Hfree Hi'. rewrite Hfree in Hlog.
  pose proof (proj2 Hi t th Ht) as (_ & _ & Hok). rewrite Hbl in Hok. apply Forall_cons in Hok as [Hok _]. cbn in Hok.
  destruct (run_calls_total calls (lt_log s) Hok) as (g1 & Hg1 & _). destruct (Hth t th Ht) as [Hp _]. split; [done| | |].
  - cbn [lt_threads]. intros t0 th0 [(<- & <-)|(Hne & Ht0)]%lookup_insert_Some; rewrite blocks_of_snoc.
    + rewrite decide_True by done. rewrite <- app_assoc. split; [|by left]. rewrite Hp. f_equal. f_equal. exact Hbl.
    + rewrite decide_False, app_nil_r by done. by apply Hth.
  - apply Forall_app. split; [done|]. apply Forall_singleton. by eexists.
  - exists g1. split; [by rewrite (run_blocks_snoc order t calls g0 ga Hr), <- Hlog|].
    rewrite (owner_is _ t (mkLogThread (Some m) calls blocks LOut) (proj1 Hi')); [|apply lookup_insert_eq|done].
    eexists. split; [apply lookup_insert_eq|]. done.
Qed.

Lemma serial_step s s' order : serial s order -> logt_step s s' -> exists order', serial s' order'.
Proof.
  intros Hse Hst. pose proof (se_inv s order Hse) as Hi.
  destruct (logt_step_inv strftime s s' Hst) as (t & n & th & op & th' & g & ls & Ht & Hn & Hl & ->).
  destruct (logt_inv_step strftime s t th th' g ls op n Hi Ht Hn Hl) as [Hi' _].
  destruct (in_block th) eqn:Hb.
  - exists order. apply (serial_inside s t th); try done. exact (next_inside strftime n th _ op _ (proj2 Hi t th Ht) Hb Hn).
  - destruct (se_threads s order Hse t th Ht) as [Hp Hgu].
    destruct (next_between strftime n th _ op _ Hb Hn)
      as [(m' & Hm & -> & [= -> ->])|(m' & calls & blocks & Hg & Hbl & -> & [= -> ->])].
    + exists order. apply (serial_leave s t th); try done. by destruct Hgu as [?|[? _]]; congruence.
    + assert (m' = Some m) as ->.
      { pose proof (guarded0 t _ Hp) as Hall. rewrite Hbl in Hall. apply Forall_app in Hall as [_ Hall].
        by apply Forall_cons in Hall as [? _]. }
      exists (order ++ [(t, calls)]). eapply (serial_enter s t th); try done.
      cbn in Hl. unfold Mutex_lock_acquire in Hl. by destruct (mx_owner (mutex_of (lt_locks s) (LkUser m))).
Qed.

Lemma serial_reachable s : star logt_step (logt_init g0 prog) s -> exists order, serial s order.
Proof.
  intros Hs. apply (star_invariant logt_step (fun s => exists order, serial s order)) with (logt_init g0 prog); [|exact Hs|].
  - intros s1 s2 (order & Hse) Hst. by apply (serial_step s1 s2 order).
  - exists []. apply serial_init.
Qed.
Lemma serial_finished s :
  star logt_step (logt_init g0 prog) s -> finished s ->
  exists order, run_blocks order g0 = Ok (tt, lt_log s)
    /\ (forall t bs, prog !! t = Some bs -> blocks_of m t order = bs)
    /\ Forall (fun b => is_Some (prog !! b.1)) order.
Proof.
  intros Hs Hf. destruct (serial_reachable s Hs) as (order & [Hi Hth Ho (ga & Hr & Hlog)]).
  exists order. split; [|split; [|done]].
  - rewrite Hr. destruct (mx_owner _) as [t|] eqn:E; [|by rewrite Hlog]. exfalso.
    destruct (owner_guard s t (proj1 Hi) E) as (th & Ht & Hgu). destruct (Hf t th Ht) as (_ & _ & Hno & _). congruence.
  - intros t bs Hb. destruct (threads_kept g0 prog s t Hs) as [th Ht]; [by eexists|].
    destruct (Hth t th Ht) as [Hb' _]. destruct (Hf t th Ht) as (_ & _ & _ & Hno). rewrite Hno, app_nil_r in Hb'. congruence.
Qed.
End Guarded.

(** C6: a mutex around the logging statements makes the blocks atomic.  If every
    block of every thread is guarded by the same mutex, then however the threads
    interleave, lock by lock and character by character, what the finished
    program has written, on standard output, to files and to streams, is what
    the sequential execution of the blocks in some order writes: the order has
    the blocks of every thread in the thread's order and no others. *)
Theorem guarded_logging_serialises m g prog s :
  prog_ok g prog -> guarded_by m prog -> star logt_step (logt_init g prog) s -> finished s ->
  exists order, run_blocks order g = Ok (tt, lt_log s)
    /\ (forall t bs, prog !! t = Some bs -> blocks_of m t order = bs)
    /\ Forall (fun b => is_Some (prog !! b.1)) order.
Proof.
  intros Hp Hg. by apply serial_finished.
Qed.

End LogThreadsProps.
