(* ===== verification/LogArrival.v ===== *)
(** * Lines from many threads at one appender

    An appender's mutex keeps the lines apart that go through it.  If no other
    appender writes to the same place, the text there is made of whole lines, in
    the order in which the threads took the mutex, and each thread's lines are
    exactly those it logged, in its order.  Two appenders on [std::cout], which
    is what [LoggerManager] gives to two loggers, have two mutexes: their lines
    can mix. *)

From S2P Require Import Prelude Log LogProps LogInv Mutex LogThreads LogThreadsProps.

(** ** The text an appender writes to *)

(** The text at the appender's destination. *)
Definition dest_text (g : log_sys) (a : ptr) : string :=
  match ap_kind <$> appenders g !! a with
  | Some StdoutLogAppender => cout g
  | Some (FileLogAppender fname _) => default EmptyString (files g !! fname)
  | Some (StreamLogAppender ss) => ss
  | None => EmptyString
  end.

Definition same_place (d d' : destination) : bool :=
  match d, d' with
  | ToCout, ToCout => true
  | ToFile f _, ToFile f' _ => bool_decide (f = f')
  | _, _ => false
  end.

(** No other appender writes there. *)
Definition sole_writer (g : log_sys) (a : ptr) : Prop :=
  forall b ap bp, b <> a -> appenders g !! a = Some ap -> appenders g !! b = Some bp ->
    same_place (destination_of ap) (destination_of bp) = false.

(** The appender is there, and if it writes to a file the file is open. *)
Definition writable (g : log_sys) (a : ptr) : Prop :=
  exists ap, appenders g !! a = Some ap
    /\ match ap_kind ap with FileLogAppender fname good => good = true /\ is_Some (files g !! fname) | _ => True end.

Lemma emit_self a x g : writable g a -> dest_text (emit a x g) a = dest_text g a +:+ x /\ writable (emit a x g) a.
Proof.
  intros (ap & Ha & Hw). unfold emit, dest_text, writable. rewrite Ha. cbn [fmap option_fmap option_map].
  destruct (ap_kind ap) as [|fname good|ss] eqn:Ek.
  - cbn. rewrite Ha. cbn. rewrite Ek. split; [done|]. exists ap. by rewrite Ek.
  - destruct Hw as [-> [t Ht]]. cbn. rewrite Ha. cbn. rewrite Ek, lookup_alter_eq, Ht. cbn. split; [done|].
    exists ap. split; [done|]. rewrite Ek, lookup_alter_eq, Ht. split; [done|]. by eexists.
  - cbn. rewrite lookup_alter_eq, Ha. cbn. split; [done|]. eexists. by split.
Qed.

Lemma emit_other a b x g :
  b <> a -> sole_writer g a -> writable g a ->
  dest_text (emit b x g) a = dest_text g a /\ writable (emit b x g) a.
Proof.
  intros Hne Hs (ap & Ha & Hw). unfold emit. destruct (appenders g !! b) as [bp|] eqn:Hb; [|split; [done|by exists ap]].
  specialize (Hs b ap bp Hne Ha Hb). unfold destination_of in Hs. cbn [fmap option_fmap option_map].
  assert (forall g', appenders g' !! a = Some ap ->
    (ap_kind ap = StdoutLogAppender -> cout g' = cout g) ->
    (forall f good, ap_kind ap = FileLogAppender f good -> files g' !! f = files g !! f) ->
    dest_text g' a = dest_text g a /\ writable g' a) as Hkeep.
  { intros g' Ha' Hc Hf. unfold dest_text, writable. rewrite Ha', Ha. cbn. split.
    - destruct (ap_kind ap) as [|f good|ss]; [by apply Hc|by rewrite (Hf f good)|done].
    - exists ap. split; [done|]. destruct (ap_kind ap) as [|f good|ss]; [done| |done]. by rewrite (Hf f good). }
  destruct (ap_kind bp) as [|fname [|]|ss] eqn:Ekb.
  - apply Hkeep; [done| |done]. intros E. by rewrite E in Hs.
  - apply Hkeep; [done|done|]. intros f good E. rewrite E in Hs. cbn in *. apply bool_decide_eq_false in Hs.
    by rewrite lookup_alter_ne.
  - by apply Hkeep.
  - apply Hkeep; [|done|done]. cbn. by rewrite lookup_alter_ne.
Qed.

Section LogArrival.
Context (strftime : string -> Z -> option string).
Notation next := (next strftime).
Notation logt_step := (logt_step strftime).
Notation thread_ok := (thread_ok strftime).
Notation prog_ok := (prog_ok strftime).
Notation logt_inv := (logt_inv strftime).
Notation can_print := (can_print strftime).
Notation printed := (printed strftime).
Notation format := (format strftime).
Notation text_of := (text_of strftime).

Context (g0 : log_sys) (a : ptr).

(** ** What should arrive *)

(** The lines of events, as the appender prints them. *)
Definition lines (evs : list LogEvent) : string := foldr (fun ev text => printed g0 ev a +:+ text) EmptyString evs.

(** The events that a visit to some appenders, a call of [Logger::log], a
    statement and a program bring to the appender. *)
Definition visit_events (ev : LogEvent) (l : list ptr) : list LogEvent :=
  if accepts g0 ev a then (fun _ => ev) <$> filter (fun b => b = a) l else [].

Definition logger_events (l : ptr) (ev : LogEvent) : list LogEvent :=
  match loggers g0 !! l with
  | Some lg => if lg_level lg <=? ev_level ev then visit_events ev (lg_appenders lg) else []
  | None => []
  end.

Definition call_events (c : log_call) : list LogEvent :=
  match loggers g0 !! lc_logger c with
  | Some lg => if lg_level lg <=? lc_level c then logger_events (lc_logger c) (call_event lg c) else []
  | None => []
  end.

Definition calls_events (calls : list log_call) : list LogEvent := calls ≫= call_events.
Definition blocks_events (bs : list block) : list LogEvent := bs ≫= fun b => calls_events b.2.

Definition pc_events (pc : log_pc) : list LogEvent :=
  match pc with
  | LOut => []
  | LEvent l ev => logger_events l ev
  | LLoop l ev rest => visit_events ev rest
  | LWrite l ev b text items rest => visit_events ev rest
  end.

Definition th_events (th : log_thread) : list LogEvent :=
  pc_events (th_pc th) ++ calls_events (th_calls th) ++ blocks_events (th_blocks th).

(** The part of its line that a thread has still to write through the appender. *)
Definition unwritten (th : log_thread) : string :=
  match th_pc th with
  | LWrite l ev b text items rest => if bool_decide (b = a) then text +:+ text_of items ev else EmptyString
  | _ => EmptyString
  end.

Lemma lines_app x y : lines (x ++ y) = lines x +:+ lines y.
Proof. unfold lines. induction x as [|ev x IH]; [done|]. cbn [foldr app]. by rewrite IH, string_app_assoc. Qed.

Lemma visit_cons ev b l :
  visit_events ev (b :: l) = (if bool_decide (b = a) && accepts g0 ev a then [ev] else []) ++ visit_events ev l.
Proof.
  unfold visit_events. destruct (accepts g0 ev a); [|by rewrite andb_false_r]. rewrite andb_true_r, filter_cons.
  case_bool_decide; [by rewrite decide_True|by rewrite decide_False].
Qed.

(** One step of a thread: what it adds to the destination and what it has still
    to bring. *)
Definition arrives (th th' : log_thread) (g g' : log_sys) : Prop :=
  exists new, th_events th = new ++ th_events th'
    /\ dest_text g' a +:+ unwritten th' = dest_text g a +:+ unwritten th +:+ lines new
    /\ writable g' a
    /\ (holds th (LkAppender a) = false -> holds th' (LkAppender a) = false -> dest_text g' a = dest_text g a /\ new = []).

(** A step that writes nothing. *)
Lemma arrives_quiet th th' g :
  writable g a -> th_events th = th_events th' -> unwritten th' = unwritten th -> arrives th th' g g.
Proof.
  intros Hw He Hu. exists []. split; [done|]. split; [|done]. rewrite Hu. unfold lines. cbn. by rewrite string_app_nil_r.
Qed.

Lemma text_of_cons it items ev x text :
  format (it :: items) ev = Ok text -> Item_format strftime it ev = Ok x -> text_of (it :: items) ev = x +:+ text_of items ev.
Proof.
  intros Ht Hx. destruct (format_cons strftime it items ev text Ht) as (x' & y & Hx' & Hy & Et).
  unfold LogThreadsProps.text_of. rewrite Ht, Hy. congruence.
Qed.

Lemma call_arrives th g c calls pc :
  same_setup g0 g -> writable g a -> th_pc th = LOut -> th_calls th = c :: calls -> step_call c g = Ok pc ->
  arrives th (th <| th_calls := calls |> <| th_pc := pc |>) g g.
Proof.
  intros Hs Hw Hpc Hca. unfold step_call. rewrite (proj1 Hs).
  destruct (loggers g0 !! lc_logger c) as [lg|] eqn:Hl; [|done]. intros [= <-]. apply arrives_quiet; [done| |].
  - unfold th_events. rewrite Hpc, Hca. cbn. unfold calls_events. cbn. rewrite <- app_assoc. f_equal.
    unfold call_events. rewrite Hl. by destruct (lg_level lg <=? lc_level c).
  - unfold unwritten. rewrite Hpc. cbn. by destruct (lg_level lg <=? lc_level c).
Qed.

Lemma log_arrives th g l ev pc :
  same_setup g0 g -> writable g a -> th_pc th = LEvent l ev -> step_log l ev g = Ok pc ->
  arrives th (th <| th_pc := pc |>) g g.
Proof.
  intros Hs Hw Hpc. unfold step_log. rewrite (proj1 Hs).
  destruct (loggers g0 !! l) as [lg|] eqn:Hl; [|done]. intros [= <-]. apply arrives_quiet; [done| |].
  - unfold th_events. rewrite Hpc. cbn. f_equal. unfold logger_events. rewrite Hl.
    destruct (lg_level lg <=? ev_level ev); [done|]. unfold visit_events. by destruct (accepts g0 ev a).
  - unfold unwritten. by rewrite Hpc.
Qed.

(** Taking the appender's mutex. *)
Lemma appender_arrives th g l ev b rest pc :
  same_setup g0 g -> writable g a -> th_pc th = LLoop l ev (b :: rest) -> can_print g ev b ->
  step_appender strftime l ev b rest g = Ok pc -> arrives th (th <| th_pc := pc |>) g g.
Proof.
  intros Hs Hw Hpc Hb Hst. assert (same_setup g g0) as Hs' by (by symmetry).
  destruct (same_setup_print strftime g g0 ev b Hs' Hb) as (_ & Hacc & Hpr).
  destruct Hb as (ap & items & text & Hap & Hi & Ht).
  assert (accepts g ev b = (ap_level ap <=? ev_level ev)) as Ea by (unfold accepts; by rewrite Hap).
  assert (printed g ev b = text) as Ep by (unfold LogProps.printed; by rewrite Hap, Hi, Ht).
  assert (exists x its, pc = LWrite l ev b x its rest
    /\ x +:+ text_of its ev = if accepts g0 ev b then printed g0 ev b else EmptyString) as (x & its & -> & Hx).
  { unfold step_appender in Hst. rewrite Hap in Hst. rewrite Hacc, Hpr, Ea, Ep.
    destruct (ap_level ap <=? ev_level ev); [|injection Hst as <-; by eexists _, _].
    rewrite Hi, Ht in Hst. destruct (ap_kind ap); injection Hst as <-; eexists _, _; (split; [reflexivity|]);
      unfold LogThreadsProps.text_of; rewrite ?Ht; [done|done|apply string_app_nil_r]. }
  exists (if bool_decide (b = a) && accepts g0 ev a then [ev] else []). split; [|split; [|split; [done|]]].
  - unfold th_events. rewrite Hpc. cbn [th_pc th_calls th_blocks upd_field pc_events]. by rewrite visit_cons, <- app_assoc.
  - unfold unwritten. rewrite Hpc. cbn [th_pc upd_field]. case_bool_decide as E; cbn [andb].
    + subst b. rewrite Hx. destruct (accepts g0 ev a); unfold lines; cbn; by rewrite ?string_app_nil_r.
    + done.
  - intros _ Hh. cbn in Hh. split; [done|]. by rewrite Hh.
Qed.

(** Characters taken by the stream. *)
Lemma chars_arrive th g l ev b text items rest n :
  sole_writer g a -> writable g a -> th_pc th = LWrite l ev b text items rest ->
  arrives th (th <| th_pc := LWrite l ev b (split_text n text).2 items rest |>) g (emit b (split_text n text).1 g).
Proof.
  intros Hso Hw Hpc. exists []. split; [unfold th_events; by rewrite Hpc|]. unfold unwritten. rewrite Hpc.
  cbn [th_pc upd_field holds]. change (lines []) with EmptyString. rewrite string_app_nil_r.
  destruct (decide (b = a)) as [->|Hne].
  - rewrite bool_decide_true by done. destruct (emit_self a (split_text n text).1 g Hw) as [-> Hw']. split; [|split; [done|]].
    + rewrite string_app_assoc. f_equal. by rewrite <- string_app_assoc, split_text_app.
    + rewrite Hpc. by rewrite bool_decide_true.
  - rewrite !bool_decide_false by done. destruct (emit_other a b (split_text n text).1 g Hne Hso Hw) as [E Hw'].
    rewrite E. by split; [|split].
Qed.

Lemma next_arrives n th g op th' g' :
  thread_ok g th -> same_setup g0 g -> sole_writer g a -> writable g a ->
  next n th g = Some (op, Ok (th', g')) -> arrives th th' g g'.
Proof.
  intros (Hp & _ & _) Hs Hso Hw. unfold LogThreads.next.
  destruct (th_pc th) as [|l ev|l ev [|b rest]|l ev b [|ch text] [|it items] rest] eqn:Hpc.
  - destruct (th_calls th) as [|c calls] eqn:Hca; [destruct (th_guard th) as [m|] eqn:Hg;
      [|destruct (th_blocks th) as [|[[m|] calls] blocks] eqn:Hbl; [done|..]]|].
    + intros [= <- <- <-]. by apply arrives_quiet.
    + intros [= <- <- <-]. apply arrives_quiet; [done| |unfold unwritten; by rewrite Hpc].
      unfold th_events. by rewrite Hpc, Hca, Hbl.
    + intros [= <- <- <-]. apply arrives_quiet; [done| |unfold unwritten; by rewrite Hpc].
      unfold th_events. by rewrite Hpc, Hca, Hbl.
    + destruct (step_call c g) as [pc| | | |] eqn:E; try done. intros [= <- <- <-]. by apply (call_arrives th g c).
  - destruct (step_log l ev g) as [pc| | | |] eqn:E; try done. intros [= <- <- <-]. by apply (log_arrives th g l ev).
  - intros [= <- <- <-]. apply arrives_quiet; [done| |unfold unwritten; by rewrite Hpc].
    unfold th_events. rewrite Hpc. cbn. unfold visit_events. by destruct (accepts g0 ev a).
  - cbn in Hp. apply Forall_cons in Hp as [Hb _].
    destruct (step_appender strftime l ev b rest g) as [pc| | | |] eqn:E; try done. intros [= <- <- <-].
    by apply (appender_arrives th g l ev b rest).
  - intros [= <- <- <-]. apply arrives_quiet; [done| |]; unfold th_events, unwritten; rewrite Hpc; [done|].
    cbn. by case_bool_decide.
  - destruct Hp as ((text & Ht) & _). destruct (Item_format strftime it ev) as [x| | | |] eqn:E; try done.
    intros [= <- <- <-]. apply arrives_quiet; [done| |]; unfold th_events, unwritten; rewrite Hpc; [done|].
    cbn. by rewrite (text_of_cons it items ev x text Ht E).
  - pose proof (chars_arrive th g l ev b (String ch text) [] rest (S n) Hso Hw Hpc) as Hx.
    destruct (split_text (S n) (String ch text)) as [x y]. by intros [= <- <- <-].
  - pose proof (chars_arrive th g l ev b (String ch text) (it :: items) rest (S n) Hso Hw Hpc) as Hx.
    destruct (split_text (S n) (String ch text)) as [x y]. by intros [= <- <- <-].
Qed.

(** ** All threads together *)

Definition pending (s : logt_sys) : string :=
  match mx_owner (mutex_of (lt_locks s) (LkAppender a)) with
  | Some t => from_option unwritten EmptyString (lt_threads s !! t)
  | None => EmptyString
  end.

Lemma unwritten_holds th : holds th (LkAppender a) = false -> unwritten th = EmptyString.
Proof. cbn. unfold unwritten. destruct (th_pc th); try done. by intros ->. Qed.

(** If no other thread is in the appender, what is unwritten is this thread's. *)
Lemma pending_alone s t th :
  locks_inv s -> lt_threads s !! t = Some th ->
  (forall t1 th1, t1 <> t -> lt_threads s !! t1 = Some th1 -> holds th1 (LkAppender a) = false) ->
  pending s = unwritten th.
Proof.
  intros Hl Ht Ho. unfold pending. destruct (mx_owner (mutex_of (lt_locks s) (LkAppender a))) as [t1|] eqn:E.
  - apply Hl in E as (th1 & Ht1 & Hh). destruct (decide (t1 = t)) as [->|Hne]; [by rewrite Ht|].
    by rewrite (Ho t1 th1 Hne Ht1) in Hh.
  - symmetry. apply unwritten_holds. destruct (holds th (LkAppender a)) eqn:Hh; [|done].
    assert (mx_owner (mutex_of (lt_locks s) (LkAppender a)) = Some t) by (apply Hl; eauto). congruence.
Qed.

Lemma pending_others s g ls t th th' :
  locks_inv s -> locks_inv (mkLogtSys g ls (<[t := th']> (lt_threads s))) -> lt_threads s !! t = Some th ->
  holds th (LkAppender a) = false -> holds th' (LkAppender a) = false ->
  pending (mkLogtSys g ls (<[t := th']> (lt_threads s))) = pending s.
Proof.
  intros Hl Hl' Ht Hh Hh'. unfold pending. cbn [lt_locks lt_threads].
  destruct (mx_owner (mutex_of (lt_locks s) (LkAppender a))) as [t1|] eqn:E.
  - apply Hl in E as (th1 & Ht1 & Hh1). assert (t1 <> t) as Hne by congruence.
    assert (mx_owner (mutex_of ls (LkAppender a)) = Some t1) as ->.
    { apply Hl'. exists th1. split; [|done]. cbn. by rewrite lookup_insert_ne. }
    by rewrite lookup_insert_ne.
  - destruct (mx_owner (mutex_of ls (LkAppender a))) as [t1|] eqn:E'; [|done]. exfalso.
    apply Hl' in E' as (th1 & Ht1 & Hh1). cbn in Ht1. apply lookup_insert_Some in Ht1 as [(-> & ->)|(Hne & Ht1)]; [congruence|].
    assert (mx_owner (mutex_of (lt_locks s) (LkAppender a)) = Some t1) by (apply Hl; eauto). congruence.
Qed.

Lemma holder_alone s t th t1 th1 k :
  locks_inv s -> lt_threads s !! t = Some th -> holds th k = true -> t1 <> t -> lt_threads s !! t1 = Some th1 ->
  holds th1 k = false.
Proof.
  intros Hl Ht Hh Hne Ht1. destruct (holds th1 k) eqn:Hh1; [|done].
  assert (mx_owner (mutex_of (lt_locks s) k) = Some t) by (apply Hl; eauto).
  assert (mx_owner (mutex_of (lt_locks s) k) = Some t1) by (apply Hl; eauto). congruence.
Qed.

(** The events of thread [t] among those that arrived. *)
Definition events_of (t : Z) (arrivals : list (Z * LogEvent)) : list LogEvent :=
  (filter (fun x => x.1 = t) arrivals).*2.

Lemma events_of_app t arrivals t' new :
  events_of t (arrivals ++ (pair t' <$> new)) = events_of t arrivals ++ (if decide (t' = t) then new else []).
Proof.
  unfold events_of. rewrite filter_app, fmap_app. f_equal.
  induction new as [|ev new IH]; [by destruct (decide (t' = t))|]. cbn [fmap list_fmap]. rewrite filter_cons. cbn.
  destruct (decide (t' = t)); cbn; [by rewrite IH|done].
Qed.

Record arrived (prog : gmap Z (list block)) (s : logt_sys) (arrivals : list (Z * LogEvent)) : Prop := {
  ar_inv : logt_inv s;
  ar_setup : same_setup g0 (lt_log s);
  ar_writable : writable (lt_log s) a;
  ar_text : dest_text (lt_log s) a +:+ pending s = dest_text g0 a +:+ lines arrivals.*2;
  ar_threads : forall t th, lt_threads s !! t = Some th ->
    exists bs, prog !! t = Some bs /\ blocks_events bs = events_of t arrivals ++ th_events th;
  ar_known : Forall (fun x => is_Some (prog !! x.1)) arrivals;
}.

Lemma arrived_init prog : prog_ok g0 prog -> writable g0 a -> arrived prog (logt_init g0 prog) [].
Proof.
  intros Hp Hw. split; try done.
  - by apply logt_inv_init.
  - intros t th Ht. cbn in Ht. apply lookup_fmap_Some in Ht as (bs & <- & Hb). by exists bs.
Qed.

Lemma sole_writer_same g : same_setup g0 g -> sole_writer g0 a -> sole_writer g a.
Proof.
  intros Hs Hso b ap bp Hne Ha Hb. symmetry in Hs.
  destruct (same_setup_appender g g0 a ap Hs Ha) as (ap' & Ha' & _ & _ & <-).
  destruct (same_setup_appender g g0 b bp Hs Hb) as (bp' & Hb' & _ & _ & <-). by apply (Hso b).
Qed.

Lemma arrived_step prog s s' arrivals :
  sole_writer g0 a -> arrived prog s arrivals -> logt_step s s' -> exists arrivals', arrived prog s' arrivals'.
Proof.
  intros Hso [Hi Hs Hw Htx Hth Hk] Hst.
  destruct (logt_step_inv strftime s s' Hst) as (t & n & th & op & th' & g & ls & Ht & Hn & Hl & ->).
  destruct (logt_inv_step strftime s t th th' g ls op n Hi Ht Hn Hl) as [Hi' Hs'].
  destruct (next_arrives n th _ op th' g (proj2 Hi t th Ht) Hs (sole_writer_same _ Hs Hso) Hw Hn) as (new & Hev & Hd & Hw' & Hq).
  destruct (Hth t th Ht) as (bs & Hbs & Hbe). exists (arrivals ++ (pair t <$> new)). split; try done.
  - by transitivity (lt_log s).
  - cbn [lt_log]. rewrite fmap_app, lines_app, <- string_app_assoc, <- Htx.
    replace ((pair t <$> new).*2) with new by (by rewrite <- list_fmap_compose, list_fmap_id).
    destruct (holds th (LkAppender a) || holds th' (LkAppender a)) eqn:Hh.
    + assert (forall t1 th1, t1 <> t -> lt_threads s !! t1 = Some th1 -> holds th1 (LkAppender a) = false) as Ho.
      { intros t1 th1 Hne Ht1. apply orb_true_iff in Hh as [Hh|Hh].
        - exact (holder_alone s t th t1 th1 _ (proj1 Hi) Ht Hh Hne Ht1).
        - refine (holder_alone _ t th' t1 th1 _ (proj1 Hi') _ Hh Hne _); [apply lookup_insert_eq|].
          cbn. by rewrite lookup_insert_ne. }
      rewrite (pending_alone s t th (proj1 Hi) Ht Ho).
      rewrite (pending_alone _ t th' (proj1 Hi')); [by rewrite string_app_assoc|apply lookup_insert_eq|].
      cbn. intros t1 th1 Hne. rewrite lookup_insert_ne by done. by apply Ho.
    + apply orb_false_iff in Hh as [Hh Hh']. destruct (Hq Hh Hh') as [-> ->].
      rewrite (pending_others s g ls t th th' (proj1 Hi) (proj1 Hi') Ht Hh Hh'). by rewrite string_app_nil_r.
  - cbn [lt_threads]. intros t0 th0 Ht0. rewrite events_of_app. apply lookup_insert_Some in Ht0 as [(<- & <-)|(Hne & Ht0)].
    + exists bs. split; [done|]. by rewrite decide_True, <- app_assoc, <- Hev.
    + rewrite decide_False, app_nil_r by done. by apply Hth.
  - apply Forall_app. split; [done|]. apply Forall_fmap, Forall_true. intros ev. by eexists.
Qed.

Lemma finished_nothing_pending s : locks_inv s -> finished s -> pending s = EmptyString.
Proof.
  intros Hl Hf. unfold pending. destruct (mx_owner _) as [t|] eqn:E; [|done].
  apply Hl in E as (th & Ht & Hh). destruct (Hf t th Ht) as (Hpc & _). cbn in Hh. by rewrite Hpc in Hh.
Qed.

Lemma arrived_reachable prog s :
  prog_ok g0 prog -> sole_writer g0 a -> writable g0 a -> star logt_step (logt_init g0 prog) s ->
  exists arrivals, arrived prog s arrivals.
Proof.
  intros Hp Hso Hw Hs.
  apply (star_invariant logt_step (fun s => exists arrivals, arrived prog s arrivals)) with (logt_init g0 prog); [|exact Hs|].
  - intros s1 s2 (arrivals & Har) Hst. by apply (arrived_step prog s1 s2 arrivals).
  - exists []. by apply arrived_init.
Qed.
End LogArrival.

(** C7: lines of many threads do not mix at an appender, and none is lost.  Let
    an appender be the only one that writes to its destination.  At any moment,
    in any interleaving of the threads, the text there, completed by what the
    thread in the appender has still to write of its line, is the text there was
    followed by whole lines; the lines of each thread among them are the first of
    those its statements should bring there, in its order: once for each
    statement that the levels of the logger and the appender let through.  When
    all threads have finished they are all there, and nothing else is. *)
Theorem lines_arrive_whole strftime g a prog s :
  prog_ok strftime g prog -> sole_writer g a -> writable g a -> star (logt_step strftime) (logt_init g prog) s ->
  exists arrivals rest,
    dest_text (lt_log s) a +:+ rest = dest_text g a +:+ lines strftime g a arrivals.*2
    /\ (forall t bs, prog !! t = Some bs -> events_of t arrivals `prefix_of` blocks_events g a bs)
    /\ Forall (fun x => is_Some (prog !! x.1)) arrivals
    /\ (finished s -> rest = EmptyString
          /\ forall t bs, prog !! t = Some bs -> events_of t arrivals = blocks_events g a bs).
Proof.
  intros Hp Hso Hw Hs. destruct (arrived_reachable strftime g a prog s Hp Hso Hw Hs) as (arrivals & [Hi Hse Hwr Htx Hth Hk]).
  exists arrivals, (pending strftime a s). split; [done|].
  assert (forall t bs, prog !! t = Some bs -> exists th, lt_threads s !! t = Some th
    /\ blocks_events g a bs = events_of t arrivals ++ th_events g a th) as Hall.
  { intros t bs Hb. destruct (threads_kept strftime g prog s t Hs) as [th Ht]; [by eexists|]. exists th. split; [done|].
    destruct (Hth t th Ht) as (bs' & Hb' & E). rewrite Hb in Hb'. by injection Hb' as <-. }
  split; [|split; [done|]].
  - intros t bs (th & _ & ->)%Hall. by apply prefix_app_r.
  - intros Hf. split; [by apply (finished_nothing_pending strftime a), Hf; apply Hi|].
    intros t bs (th & Ht & ->)%Hall. destruct (Hf t th Ht) as (Hpc & Hca & _ & Hbl). unfold th_events.
    rewrite Hpc, Hca, Hbl. cbn. by rewrite app_nil_r.
Qed.

(** ** Runs *)

Section Runs.
Context (strftime : string -> Z -> option string).

(** A schedule: the threads that move, with how many characters their stream
    takes; a thread that cannot move is passed over. *)
Definition logt_run (sched : list (Z * nat)) (s : logt_sys) : logt_sys :=
  foldl (fun s x => match logt_exec strftime x.1 x.2 s with Some (Ok s') => s' | _ => s end) s sched.

Lemma logt_run_star sched s : star (logt_step strftime) s (logt_run sched s).
Proof.
  revert s. induction sched as [|[t n] sched IH]; intros s; cbn; [apply star_refl|].
  destruct (logt_exec strftime t n s) as [[s'| | | |]|] eqn:E; try apply IH.
  eapply star_step; [by exists t, n|apply IH].
Qed.

(** Executable tests of the hypotheses. *)
Definition can_printb (g : log_sys) (ev : LogEvent) (a : ptr) : bool :=
  match appenders g !! a ≫= ap_formatter with
  | Some items => match format strftime items ev with Ok _ => true | _ => false end
  | None => false
  end.

Definition call_okb (g : log_sys) (c : log_call) : bool :=
  match loggers g !! lc_logger c with
  | Some lg => forallb (can_printb g (call_event lg c)) (lg_appenders lg)
  | None => false
  end.

Lemma call_okb_spec g c : call_okb g c = true -> call_ok strftime g c.
Proof.
  unfold call_okb, call_ok. destruct (loggers g !! lc_logger c) as [lg|]; [|done]. intros Hf. exists lg. split; [done|].
  apply Forall_forall. intros a Ha. rewrite forallb_forall in Hf. apply list_elem_of_In, Hf in Ha.
  unfold can_printb in Ha. destruct (appenders g !! a) as [ap|] eqn:Hap; [|done]. cbn in Ha.
  destruct (ap_formatter ap) as [items|] eqn:Hi; [|done]. destruct (format strftime items _) as [text| | | |] eqn:Ht; try done.
  by exists ap, items, text.
Qed.

Lemma prog_ok_list g (l : list (Z * list block)) :
  forallb (fun x => forallb (fun b => forallb (call_okb g) b.2) x.2) l = true ->
  prog_ok strftime g (list_to_map l).
Proof.
  intros Hl t bs Hb. apply elem_of_list_to_map_2, list_elem_of_In in Hb. rewrite forallb_forall in Hl.
  specialize (Hl _ Hb). cbn in Hl. rewrite forallb_forall in Hl. apply Forall_forall. intros b Hin.
  apply list_elem_of_In, Hl in Hin. rewrite forallb_forall in Hin. apply Forall_forall. intros c Hc.
  apply call_okb_spec, Hin. by apply list_elem_of_In.
Qed.

Definition th_finishedb (th : log_thread) : bool := bool_decide (th_finished th).

Lemma finished_list s : forallb (fun x => th_finishedb x.2) (map_to_list (lt_threads s)) = true -> finished s.
Proof.
  intros Hf t th Ht. rewrite forallb_forall in Hf. apply elem_of_map_to_list, list_elem_of_In, Hf in Ht.
  by apply bool_decide_eq_true in Ht.
Qed.
End Runs.

(** Two loggers of the [LoggerManager], with their own stdout appenders. *)
Definition two_loggers : log_sys :=
  match (getLogger 1%nat 2%nat "net" ;;; getLogger 3%nat 4%nat "db") log_init with Ok (_, s) => s | _ => log_init end.

Definition say (l : ptr) (t : Z) (message : string) : log_call :=
  mkCall l INFO (mkSite "/home/eva/src/EVA01/examples/main.cpp" 7) (mkLogEnv 0 t 0 "worker") message.

(** Two threads, one statement each, on two loggers or on one. *)
Definition two_threads (l1 l2 : ptr) : list (Z * list block) :=
  [(101, [(None, [say l1 101 "hello"])]); (102, [(None, [say l2 102 "world"])])].

Definition mixed_run (l1 l2 : ptr) : logt_sys :=
  logt_run lw_strftime (concat (replicate 120 [(101, 100%nat); (102, 100%nat)]))
    (logt_init two_loggers (list_to_map (two_threads l1 l2))).

Definition line_of (l a : ptr) (t : Z) (message : string) : string :=
  match loggers two_loggers !! l with
  | Some lg => printed lw_strftime two_loggers (call_event lg (say l t message)) a
  | None => EmptyString
  end.

(** lines of two loggers can mix on standard output.  [LoggerManager::getLogger]
    gives every logger a stdout appender of its own, and each appender locks only
    its own mutex while it prints item by item to the one [std::cout].  Two
    threads that log one line each, on two loggers of the manager, can finish
    with a standard output that is neither line followed by the other. *)
Theorem cout_lines_mix :
  exists s, star (logt_step lw_strftime) (logt_init two_loggers (list_to_map (two_threads 1%nat 3%nat))) s /\ finished s
    /\ prog_ok lw_strftime two_loggers (list_to_map (two_threads 1%nat 3%nat))
    /\ cout (lt_log s) <> line_of 1%nat 2%nat 101 "hello" +:+ line_of 3%nat 4%nat 102 "world"
    /\ cout (lt_log s) <> line_of 3%nat 4%nat 102 "world" +:+ line_of 1%nat 2%nat 101 "hello".
Proof.
  exists (mixed_run 1%nat 3%nat). split; [apply logt_run_star|]. split; [apply finished_list; vm_compute; reflexivity|].
  split; [apply prog_ok_list; vm_compute; reflexivity|]. split; apply (bool_decide_eq_false_1 _); vm_compute; reflexivity.
Qed.

(** ** Witnesses *)

(** Both threads on the logger at 1: its appender is the only one on
    [std::cout] that this state has. *)
Definition one_logger : log_sys :=
  match getLogger 1%nat 2%nat "net" log_init with Ok (_, s) => s | _ => log_init end.

Definition shared_run : logt_sys :=
  logt_run lw_strftime (concat (replicate 120 [(101, 100%nat); (102, 3%nat)]))
    (logt_init one_logger (list_to_map (two_threads 1%nat 1%nat))).

Lemma one_logger_prog : prog_ok lw_strftime one_logger (list_to_map (two_threads 1%nat 1%nat)).
Proof. apply prog_ok_list. vm_compute. reflexivity. Qed.

Lemma one_logger_appender : sole_writer one_logger 2%nat /\ writable one_logger 2%nat.
Proof.
  assert (appenders one_logger = {[2%nat := mkAppender StdoutLogAppender (Some (LogFormatter DEFAULT_PATTERN)) DEBUG]}) as E
    by (vm_compute; reflexivity).
  unfold sole_writer, writable. rewrite E. split.
  - intros b ap bp Hne _ Hb. apply lookup_singleton_Some in Hb as [? _]. congruence.
  - eexists. rewrite lookup_singleton_eq. by split.
Qed.

Lemma shared_run_finished : finished shared_run.
Proof. apply finished_list. vm_compute. reflexivity. Qed.

Lemma logging_threads_finish_witness :
  finished shared_run \/ exists s', logt_step lw_strftime shared_run s'.
Proof.
  destruct (logging_threads_finish lw_strftime one_logger _ one_logger_prog) as [H _].
  exact (proj2 (H shared_run (logt_run_star lw_strftime _ _))).
Defined.

Lemma lines_arrive_whole_witness :
  exists arrivals, cout (lt_log shared_run) +:+ EmptyString = lines lw_strftime one_logger 2%nat arrivals.*2
    /\ length (events_of 101 arrivals) = 1%nat /\ length (events_of 102 arrivals) = 1%nat.
Proof.
  destruct (lines_arrive_whole lw_strftime one_logger 2%nat (list_to_map (two_threads 1%nat 1%nat)) shared_run one_logger_prog
    (proj1 one_logger_appender) (proj2 one_logger_appender) (logt_run_star lw_strftime _ _))
    as (arrivals & rest & Htx & _ & _ & Hfin).
  destruct (Hfin shared_run_finished) as [-> Hev]. exists arrivals.
  split; [|split; [rewrite (Hev 101 _ eq_refl)|rewrite (Hev 102 _ eq_refl)]; vm_compute; reflexivity].
  assert (dest_text (lt_log shared_run) 2%nat = cout (lt_log shared_run)) as E by (vm_compute; reflexivity).
  rewrite <- E. exact Htx.
Defined.

(** The same two statements on two loggers, but each in a block guarded by the
    program's mutex. *)
Definition guarded_threads : list (Z * list block) :=
  [(101, [(Some 9%nat, [say 1%nat 101 "hello"; say 3%nat 101 "hello"])]);
   (102, [(Some 9%nat, [say 1%nat 102 "world"; say 3%nat 102 "world"])])].

Definition guarded_run : logt_sys :=
  logt_run lw_strftime (concat (replicate 240 [(101, 100%nat); (102, 3%nat)]))
    (logt_init two_loggers (list_to_map guarded_threads)).

Lemma guarded_threads_guarded : guarded_by 9%nat (list_to_map guarded_threads).
Proof.
  intros t bs Hb. apply elem_of_list_to_map_2 in Hb. unfold guarded_threads in Hb.
  apply elem_of_cons in Hb as [[= -> ->]|Hb]; [by apply Forall_singleton|].
  apply list_elem_of_singleton in Hb as [= -> ->]. by apply Forall_singleton.
Qed.

Lemma guarded_logging_serialises_witness :
  exists order, run_blocks lw_strftime order two_loggers = Ok (tt, lt_log guarded_run)
    /\ blocks_of 9%nat 101 order = [(Some 9%nat, [say 1%nat 101 "hello"; say 3%nat 101 "hello"])]
    /\ blocks_of 9%nat 102 order = [(Some 9%nat, [say 1%nat 102 "world"; say 3%nat 102 "world"])].
Proof.
  destruct (guarded_logging_serialises lw_strftime 9%nat two_loggers (list_to_map guarded_threads) guarded_run)
    as (order & Hr & Hb & _).
  - apply prog_ok_list. vm_compute. reflexivity.
  - exact guarded_threads_guarded.
  - exact (logt_run_star lw_strftime _ _).
  - apply finished_list. vm_compute. reflexivity.
  - exact (ex_intro _ order (conj Hr (conj (Hb 101 _ eq_refl) (Hb 102 _ eq_refl)))).
Defined.
