(* ===== verification/ExampleLogging.v ===== *)
(** * The example program src/examples/logging.cpp

    [main] on the model of the logging library, and what it writes to standard
    output, to its file and to its stream. *)

From S2P Require Import Prelude Log LogProps LogInv.

(** ** The program *)

Section Logging.
Context (strftime : string -> Z -> option string) (can_open : string -> bool).

(** [__FILE__], and what each of the three statements reads in round [times]. *)
Context (file : string) (e : Z -> Z -> log_env).

(** The objects: [logger] and its appenders, the root logger and its own. *)
Definition logger : ptr := 1%nat.
Definition appender : ptr := 2%nat.
Definition fappender : ptr := 3%nat.
Definition sappender : ptr := 4%nat.
Definition root : ptr := 5%nat.
Definition root_appender : ptr := 6%nat.

(** [while (--times >= 0) { ... }] *)
Fixpoint logging_loop (fuel : nat) (logger2 : ptr) (times : Z) : M log_process unit :=
  match fuel with
  | O => mfail (Undefined "fuel")
  | S fuel =>
      let times := times - 1 in
      if times >=? 0 then
        on_log (EVA_LOG_DEBUG strftime logger (mkSite file 31) (e times 31) "hello example") ;;;
        on_log (EVA_LOG_INFO strftime logger (mkSite file 32) (e times 32) "hello example") ;;;
        on_log (EVA_LOG_INFO strftime logger2 (mkSite file 33) (e times 33) "hello example") ;;;
        logging_loop fuel logger2 times
      else mret_M tt
  end.

(** [main], up to the loop; the root logger is what it returns. *)
Definition logging_setup : M log_process ptr :=
  on_log (mmodify (new_Logger logger "system" DEBUG DEFAULT_PATTERN)) ;;;
  let! logger2 := EVA_ROOT_LOGGER root root_appender in
  on_log (mmodify (new_appender appender StdoutLogAppender)) ;;;
  on_log (FileLogAppender_ctor can_open fappender "test.log") ;;;
  on_log (mmodify (Appender_setLevel fappender ERROR)) ;;;
  on_log (mmodify (new_appender sappender (StreamLogAppender EmptyString))) ;;;
  on_log (addLogAppender logger fappender) ;;;
  on_log (addLogAppender logger appender) ;;;
  on_log (addLogAppender logger sappender) ;;;
  mret_M logger2.

(** [main]; the loop tests its condition 101 times. *)
Definition logging_main : M log_process unit :=
  let! logger2 := logging_setup in
  logging_loop 101 logger2 100.

(** ** Its output *)

(** The state in the loop: what was written to standard output, to the stream
    and to files. *)
Definition fmt : option (list Item) := Some (LogFormatter DEFAULT_PATTERN).
Definition in_loop (out text : string) (fs : gmap string string) : log_process :=
  mkLogProcess
    (mkLogSys
       (<[sappender := mkAppender (StreamLogAppender text) fmt DEBUG]>
       (<[appender := mkAppender StdoutLogAppender fmt DEBUG]>
       (<[fappender := mkAppender (FileLogAppender "test.log" (can_open "test.log")) fmt ERROR]>
       (<[root_appender := mkAppender StdoutLogAppender fmt DEBUG]> ∅))))
       (<[logger := mkLogger "system" DEBUG (LogFormatter DEFAULT_PATTERN) [fappender; appender; sappender]]>
       (<[root := mkLogger "root" DEBUG (LogFormatter DEFAULT_PATTERN) [root_appender]]> ∅))
       out fs {["root" := root]})
    (Some root).

Definition files_after (fs : gmap string string) : gmap string string :=
  if can_open "test.log" then <["test.log" := default EmptyString (fs !! "test.log")]> fs else fs.

Lemma logging_setup_eq fs :
  logging_setup (mkLogProcess (mkLogSys ∅ ∅ EmptyString fs ∅) None) = Ok (root, in_loop EmptyString EmptyString (files_after fs)).
Proof. unfold in_loop, files_after. vm_compute. destruct (can_open _); reflexivity. Qed.

Lemma on_log_Ok {A} (m : M log_sys A) (s : log_process) (x : A) g :
  m (lp_log s) = Ok (x, g) -> on_log m s = Ok (x, mkLogProcess g (lp_manager s)).
Proof. unfold on_log. munfold. by intros ->. Qed.

Section Round.
Context (out text : string) (fs : gmap string string).
Let sys0 := lp_log (in_loop out text fs).

Lemma logger_lookup : loggers sys0 !! logger
  = Some (mkLogger "system" DEBUG (LogFormatter DEFAULT_PATTERN) [fappender; appender; sappender]).
Proof. reflexivity. Qed.
Lemma root_lookup : loggers sys0 !! root = Some (mkLogger "root" DEBUG (LogFormatter DEFAULT_PATTERN) [root_appender]).
Proof. reflexivity. Qed.

(** A statement on [logger] below ERROR: one line to standard output, one to
    the stream, none to the file. *)
Lemma logger_statement level at_ env message line :
  DEBUG <= level < ERROR ->
  format strftime (LogFormatter DEFAULT_PATTERN)
    (getSS_write message (EVA_LOG_LEVEL_event "system" level at_ env)) = Ok line ->
  on_log (EVA_LOG_LEVEL strftime logger level at_ env message) (in_loop out text fs)
  = Ok (tt, in_loop (out +:+ line) (text +:+ line) fs).
Proof.
  intros Hl Hf. apply (on_log_Ok _ (in_loop out text fs)). unfold EVA_LOG_LEVEL, LogWrapper_dtor, Logger_log. munfold.
  fold sys0. rewrite logger_lookup. cbn [lg_level lg_name]. set (ev := getSS_write _ _) in *.
  assert (ev_level ev = level) as Elv by done. rewrite (proj2 (Z.leb_le DEBUG level)) by lia. cbn [wr_logger wr_event].
  rewrite Elv, logger_lookup. cbn [lg_level lg_appenders]. rewrite (proj2 (Z.leb_le DEBUG level)) by lia. cbn [log_all]. munfold.
  assert (appender_log strftime fappender ev sys0 = Ok (tt, sys0)) as ->.
  { unfold appender_log. munfold. change (appenders sys0 !! fappender)
      with (Some (mkAppender (FileLogAppender "test.log" (can_open "test.log")) fmt ERROR)).
    cbn [ap_level]. by rewrite Elv, (proj2 (Z.leb_gt ERROR level)) by lia. }
  assert (appender_log strftime appender ev sys0 = Ok (tt, sys0 <| cout := out +:+ line |>)) as ->.
  { unfold appender_log. munfold. change (appenders sys0 !! appender) with (Some (mkAppender StdoutLogAppender fmt DEBUG)).
    cbn [ap_level ap_formatter fmt]. rewrite Elv, (proj2 (Z.leb_le DEBUG level)) by lia. by rewrite Hf. }
  unfold appender_log. munfold. set (sys1 := sys0 <| cout := _ |>).
  change (appenders sys1 !! sappender) with (Some (mkAppender (StreamLogAppender text) fmt DEBUG)).
  cbn [ap_level ap_formatter fmt]. rewrite Elv, (proj2 (Z.leb_le DEBUG level)) by lia. rewrite Hf.
  unfold emit. change (appenders sys1 !! sappender) with (Some (mkAppender (StreamLogAppender text) fmt DEBUG)).
  cbn [fmap option_fmap option_map ap_kind]. by do 2 f_equal.
Qed.

(** A statement on the root logger: one line to standard output. *)
Lemma root_statement level at_ env message line :
  DEBUG <= level ->
  format strftime (LogFormatter DEFAULT_PATTERN)
    (getSS_write message (EVA_LOG_LEVEL_event "root" level at_ env)) = Ok line ->
  on_log (EVA_LOG_LEVEL strftime root level at_ env message) (in_loop out text fs) = Ok (tt, in_loop (out +:+ line) text fs).
Proof.
  intros Hl Hf. apply (on_log_Ok _ (in_loop out text fs)). unfold EVA_LOG_LEVEL, LogWrapper_dtor, Logger_log. munfold.
  fold sys0. rewrite root_lookup. cbn [lg_level lg_name]. set (ev := getSS_write _ _) in *.
  assert (ev_level ev = level) as Elv by done. rewrite (proj2 (Z.leb_le DEBUG level)) by lia. cbn [wr_logger wr_event].
  rewrite Elv, root_lookup. cbn [lg_level lg_appenders]. rewrite (proj2 (Z.leb_le DEBUG level)) by lia. cbn [log_all]. munfold.
  unfold appender_log. munfold. change (appenders sys0 !! root_appender) with (Some (mkAppender StdoutLogAppender fmt DEBUG)).
  cbn [ap_level ap_formatter fmt]. rewrite Elv, (proj2 (Z.leb_le DEBUG level)) by lia. by rewrite Hf.
Qed.
End Round.

(** ** The whole program *)

Definition event (name : string) (level times line : Z) : LogEvent :=
  getSS_write "hello example" (EVA_LOG_LEVEL_event name level (mkSite file line) (e times line)).

(** The lines of round [times]. *)
Context (date : Z -> string) (path : string).
Context (dates : forall time, strftime "%Y-%m-%d %a %H:%M:%S" time = Some (date time)) (deep : skip_dirs 5 file = Some path).

Definition line (name : string) (level times n : Z) : string :=
  let ev := event name level times n in default_line (date (ev_time ev)) path ev.

Definition system_lines (times : Z) : string := line "system" DEBUG times 31 +:+ line "system" INFO times 32.
Definition round_lines (times : Z) : string := system_lines times +:+ line "root" INFO times 33.

Definition concat_text (f : Z -> string) (l : list Z) : string := foldr (fun x text => f x +:+ text) EmptyString l.

Lemma event_prints name level times n :
  format strftime (LogFormatter DEFAULT_PATTERN) (event name level times n) = Ok (line name level times n).
Proof. apply default_pattern_prints; [apply dates|exact deep]. Qed.

(** The rounds count down from [times - 1] to 0. *)
Definition rounds (n : nat) : list Z := reverse (Z.of_nat <$> seq 0 n).

Lemma rounds_S n : rounds (S n) = Z.of_nat n :: rounds n.
Proof. unfold rounds. rewrite seq_S, fmap_app, reverse_app. done. Qed.

Lemma logging_loop_eq n out text fs :
  logging_loop (S n) root (Z.of_nat n) (in_loop out text fs)
  = Ok (tt, in_loop (out +:+ concat_text round_lines (rounds n)) (text +:+ concat_text system_lines (rounds n)) fs).
Proof.
  revert out text. induction n as [|n IH]; intros out text.
  { cbn -[in_loop]. munfold. by rewrite !string_app_nil_r. }
  remember (S n) as k eqn:Hk. cbn [logging_loop]. replace (Z.of_nat k - 1) with (Z.of_nat n) by lia.
  rewrite (proj2 (Z.geb_le (Z.of_nat n) 0)) by lia. unfold mbind_M.
  unfold EVA_LOG_DEBUG, EVA_LOG_INFO.
  rewrite (logger_statement out text fs DEBUG _ _ _ (line "system" DEBUG (Z.of_nat n) 31)) by (done || apply event_prints).
  rewrite (logger_statement _ _ fs INFO _ _ _ (line "system" INFO (Z.of_nat n) 32)) by (done || apply event_prints).
  rewrite (root_statement _ _ fs INFO _ _ _ (line "root" INFO (Z.of_nat n) 33)) by (done || apply event_prints).
  subst k. rewrite IH, rounds_S. unfold concat_text. cbn [foldr]. unfold round_lines, system_lines.
  by rewrite !string_app_assoc.
Qed.

End Logging.

(** A path with five directories, and a calendar. *)
Definition demo_file : string := "/home/eva/src/EVA01/examples/logging.cpp".
Definition demo_env (times line : Z) : log_env := mkLogEnv 0 7 0 "UNKNOWN".

