(* ===== verification/ExampleThread.v ===== *)
(** * The example program src/examples/thread.cpp

    Five threads log 100 times each to two loggers, both statements under one
    [MutexGuard].  The loggers' appenders share standard output and the file
    test.log, and none of their own mutexes keeps the lines apart: the mutex of
    the program does. *)

From stdpp Require Import pretty.
From S2P Require Import Prelude Log LogProps LogInv Mutex LogThreads LogThreadsProps LogArrival.

Section ThreadExample.
Context (strftime : string -> Z -> option string) (can_open : string -> bool).

(** [__FILE__], and the clock that thread [t] reads in iteration [count] at a line. *)
Context (file : string) (clock : Z -> Z -> Z -> Z).

(** The loggers, their stdout appenders and their file appenders; [mu]. *)
Definition g_logger : ptr := 1%nat.
Definition g_stdout : ptr := 2%nat.
Definition s_logger : ptr := 3%nat.
Definition s_stdout : ptr := 4%nat.
Definition g_file : ptr := 5%nat.
Definition s_file : ptr := 6%nat.
Definition mu : ptr := 7%nat.

(** ** The program *)

(** The statics [g_logger] and [s_logger]. *)
Definition thread_statics : M log_process (ptr * ptr) :=
  let! g := EVA_ROOT_LOGGER g_logger g_stdout in
  let! s := EVA_LOGGER g_logger g_stdout s_logger s_stdout "system" in
  mret_M (g, s).

(** [main] before its threads. *)
Definition thread_main_setup (g s : ptr) : M log_process unit :=
  on_log (FileLogAppender_ctor can_open g_file "test.log") ;;;
  on_log (addLogAppender g g_file) ;;;
  on_log (FileLogAppender_ctor can_open s_file "test.log") ;;;
  on_log (addLogAppender s s_file).

Definition thread_setup : M log_process unit :=
  let! l := thread_statics in
  thread_main_setup l.1 l.2.

(** The two statements of an iteration of [func1], in the thread with id [t] and
    a name. *)
Definition statement (l : ptr) (t : Z) (name : string) (count line : Z) : log_call :=
  mkCall l INFO (mkSite file line) (mkLogEnv (clock t count line) t 0 name) (" Count: " +:+ pretty count).

Definition iteration (t : Z) (name : string) (count : Z) : block :=
  (Some mu, [statement g_logger t name count 18; statement s_logger t name count 19]).

(** [while (count < 100) { ... count++; }] *)
Fixpoint func1_loop (fuel : nat) (t : Z) (name : string) (count : Z) : list block :=
  match fuel with
  | O => []
  | S fuel => if count <? 100 then iteration t name count :: func1_loop fuel t name (count + 1) else []
  end.

(** [func1]; the loop tests its condition 101 times. *)
Definition func1 (t : Z) (name : string) : list block := func1_loop 101 t name 0.

(** The threads that [main] creates; [tids] are the ids the system gives them. *)
Definition thread_name (i : nat) : string := "thread_" +:+ pretty (Z.of_nat i).
Definition example_threads (tids : nat -> Z) : gmap Z (list block) :=
  list_to_map ((fun i => (tids i, func1 (tids i) (thread_name i))) <$> seq 0 5).

(** ** Its states *)

Definition fmt : option (list Item) := Some (LogFormatter DEFAULT_PATTERN).

Definition running (out : string) (fs : gmap string string) : log_sys :=
  mkLogSys
    (<[s_file := mkAppender (FileLogAppender "test.log" true) fmt DEBUG]>
    (<[g_file := mkAppender (FileLogAppender "test.log" true) fmt DEBUG]>
    (<[s_stdout := mkAppender StdoutLogAppender fmt DEBUG]>
    (<[g_stdout := mkAppender StdoutLogAppender fmt DEBUG]> ∅))))
    (<[s_logger := mkLogger "system" DEBUG (LogFormatter DEFAULT_PATTERN) [s_stdout; s_file]]>
    (<[g_logger := mkLogger "root" DEBUG (LogFormatter DEFAULT_PATTERN) [g_stdout; g_file]]> ∅))
    out fs {["system" := s_logger; "root" := g_logger]}.

Definition file_text (fs : gmap string string) : string := default EmptyString (fs !! "test.log").

Lemma thread_setup_eq fs :
  can_open "test.log" = true ->
  thread_setup (mkLogProcess (mkLogSys ∅ ∅ EmptyString fs ∅) None)
  = Ok (tt, mkLogProcess (running EmptyString (<["test.log" := file_text fs]> fs)) (Some g_logger)).
Proof.
  intros Ho. unfold thread_setup, thread_statics, thread_main_setup, EVA_ROOT_LOGGER, EVA_LOGGER, Instance_Get, LoggerManager_ctor, getLogger, on_log. munfold.
  cbn [lp_manager lp_log]. rewrite make_logger_eq. cbn [lp_manager lp_log m_loggers upd_field].
  rewrite lookup_insert_ne by done. rewrite lookup_empty, make_logger_eq. cbn [lp_log upd_field].
  rewrite FileLogAppender_ctor_eq, Ho. cbn [lp_log upd_field loggers appenders cout files m_loggers].
  set (fs1 := <["test.log" := _]> fs).
  rewrite (addLogAppender_new g_logger g_file (mkLogger "root" DEBUG (LogFormatter DEFAULT_PATTERN) [g_stdout])
    (FileLogAppender "test.log" true) DEBUG) by reflexivity.
  cbn [lp_log upd_field loggers appenders cout files m_loggers].
  rewrite FileLogAppender_ctor_eq, Ho. cbn [lp_log upd_field loggers appenders cout files m_loggers].
  assert (<["test.log" := default EmptyString (fs1 !! "test.log")]> fs1 = fs1) as ->.
  { apply insert_id. unfold fs1. by rewrite lookup_insert_eq. }
  rewrite (addLogAppender_new s_logger s_file (mkLogger "system" DEBUG (LogFormatter DEFAULT_PATTERN) [s_stdout])
    (FileLogAppender "test.log" true) DEBUG) by reflexivity.
  reflexivity.
Qed.

(** ** One iteration *)

Context (date : Z -> string) (path : string).
Context (dates : forall time, strftime "%Y-%m-%d %a %H:%M:%S" time = Some (date time)) (deep : skip_dirs 5 file = Some path).

(** The line of a statement. *)
Definition statement_line (name : string) (c : log_call) : string :=
  let ev := getSS_write (lc_message c) (EVA_LOG_LEVEL_event name (lc_level c) (lc_site c) (lc_env c)) in
  default_line (date (ev_time ev)) path ev.

Definition iteration_lines (t : Z) (name : string) (count : Z) : string :=
  statement_line "root" (statement g_logger t name count 18) +:+ statement_line "system" (statement s_logger t name count 19).

Lemma statement_prints name l t tname count n :
  let c := statement l t tname count n in
  format strftime (LogFormatter DEFAULT_PATTERN)
    (getSS_write (lc_message c) (EVA_LOG_LEVEL_event name (lc_level c) (lc_site c) (lc_env c))) = Ok (statement_line name c).
Proof. apply default_pattern_prints; [apply dates|exact deep]. Qed.

(** A statement on a logger with a stdout appender and a file appender. *)
Lemma run_statement l name a f t tname count n out fs :
  l = g_logger /\ name = "root" /\ a = g_stdout /\ f = g_file \/ l = s_logger /\ name = "system" /\ a = s_stdout /\ f = s_file ->
  let text := statement_line name (statement l t tname count n) in
  run_call strftime (statement l t tname count n) (running out fs)
  = Ok (tt, running (out +:+ text) (alter (fun x => x +:+ text) "test.log" fs)).
Proof.
  intros Hc text. pose proof (statement_prints name l t tname count n) as Hp. cbv zeta in Hp. fold text in Hp.
  unfold run_call, EVA_LOG_LEVEL, LogWrapper_dtor, Logger_log. munfold.
  assert (forall out fs, loggers (running out fs) !! l = Some (mkLogger name DEBUG (LogFormatter DEFAULT_PATTERN) [a; f])
    /\ appenders (running out fs) !! a = Some (mkAppender StdoutLogAppender fmt DEBUG)
    /\ appenders (running out fs) !! f = Some (mkAppender (FileLogAppender "test.log" true) fmt DEBUG)) as Hlook.
  { intros out' fs'. destruct Hc as [(-> & -> & -> & ->)|(-> & -> & -> & ->)]; by split. }
  change (lc_logger (statement l t tname count n)) with l. rewrite (proj1 (Hlook out fs)). cbn [lg_level lg_name].
  change (lc_level (statement l t tname count n)) with INFO in *. change (DEBUG <=? INFO) with true.
  cbn [wr_logger wr_event]. rewrite (proj1 (Hlook out fs)). cbn [lg_level lg_appenders].
  set (ev := getSS_write _ _) in *. change (ev_level ev) with INFO. change (DEBUG <=? INFO) with true.
  cbn [log_all]. munfold. unfold appender_log. munfold.
  rewrite (proj1 (proj2 (Hlook out fs))). cbn [ap_level ap_formatter fmt]. change (ev_level ev) with INFO.
  change (DEBUG <=? INFO) with true. rewrite Hp.
  assert (emit a text (running out fs) = running (out +:+ text) fs) as ->.
  { unfold emit. by rewrite (proj1 (proj2 (Hlook out fs))). }
  rewrite (proj2 (proj2 (Hlook (out +:+ text) fs))). cbn [ap_level ap_formatter fmt]. change (ev_level ev) with INFO.
  change (DEBUG <=? INFO) with true. rewrite Hp. unfold emit. by rewrite (proj2 (proj2 (Hlook (out +:+ text) fs))).
Qed.

Lemma run_iteration t name count out fs :
  run_calls strftime (iteration t name count).2 (running out fs)
  = Ok (tt, running (out +:+ iteration_lines t name count) (alter (fun x => x +:+ iteration_lines t name count) "test.log" fs)).
Proof.
  cbn [iteration snd run_calls]. unfold mbind_M, mret_M.
  rewrite (run_statement g_logger "root" g_stdout g_file t name count 18 out fs) by by left.
  rewrite (run_statement s_logger "system" s_stdout s_file t name count 19) by by right.
  unfold iteration_lines. rewrite string_app_assoc, alter_alter_eq. do 3 f_equal. apply alter_ext. intros x _. cbn.
  apply string_app_assoc.
Qed.

(** ** The threads *)

Lemma func1_loop_eq fuel t name count :
  0 <= count <= 100 -> 100 - count < Z.of_nat fuel ->
  func1_loop fuel t name count = iteration t name <$> seqZ count (100 - count).
Proof.
  revert count. induction fuel as [|fuel IH]; intros count Hc Hf; [lia|]. cbn [func1_loop].
  destruct (Z.ltb_spec count 100).
  - rewrite IH, (seqZ_cons count) by lia. cbn. do 3 f_equal; lia.
  - by replace (100 - count) with 0 by lia.
Qed.

(** The 100 iterations, in order; 101 tests are enough. *)
Lemma func1_eq t name : func1 t name = iteration t name <$> seqZ 0 100.
Proof. apply (func1_loop_eq 101); lia. Qed.

Lemma iteration_ok t name count out fs : Forall (call_ok strftime (running out fs)) (iteration t name count).2.
Proof.
  assert (forall l lname a f n,
    loggers (running out fs) !! l = Some (mkLogger lname DEBUG (LogFormatter DEFAULT_PATTERN) [a; f]) ->
    (exists k, appenders (running out fs) !! a = Some (mkAppender k fmt DEBUG)) ->
    (exists k, appenders (running out fs) !! f = Some (mkAppender k fmt DEBUG)) ->
    call_ok strftime (running out fs) (statement l t name count n)) as Hst.
  { intros l lname a f n Hl [k1 Ha] [k2 Hf]. eexists. split; [exact Hl|].
    repeat constructor; eexists _, (LogFormatter DEFAULT_PATTERN), (statement_line lname (statement l t name count n));
      (split; [eassumption|]); (split; [reflexivity|]); apply statement_prints. }
  repeat constructor; eapply Hst; try reflexivity; by eexists.
Qed.

Context (tids : nat -> Z) (tids_inj : forall i j, (i < 5)%nat -> (j < 5)%nat -> tids i = tids j -> i = j).

Lemma example_threads_Some t bs :
  example_threads tids !! t = Some bs <-> exists i, (i < 5)%nat /\ t = tids i /\ bs = func1 (tids i) (thread_name i).
Proof.
  unfold example_threads. rewrite <- elem_of_list_to_map.
  - rewrite list_elem_of_fmap. setoid_rewrite elem_of_seq. split.
    + intros (i & [= -> ->] & Hi). exists i. split; [lia|done].
    + intros (i & Hi & -> & ->). exists i. split; [done|lia].
  - rewrite <- list_fmap_compose. apply NoDup_fmap_2_strong; [|apply NoDup_seq].
    intros i j Hi%elem_of_seq Hj%elem_of_seq. apply tids_inj; lia.
Qed.

Lemma example_prog_ok out fs : prog_ok strftime (running out fs) (example_threads tids).
Proof.
  intros t bs (i & _ & _ & ->)%example_threads_Some. rewrite func1_eq. apply Forall_fmap, Forall_true.
  intros count. apply iteration_ok.
Qed.

Lemma example_guarded : guarded_by mu (example_threads tids).
Proof. intros t bs (i & _ & _ & ->)%example_threads_Some. rewrite func1_eq. by apply Forall_fmap, Forall_true. Qed.

(** ** The order of the iterations *)

(** Iteration [x.2] of thread [x.1], as a block of that thread. *)
Definition turn (x : nat * Z) : Z * list log_call := (tids x.1, (iteration (tids x.1) (thread_name x.1) x.2).2).
Definition turn_lines (x : nat * Z) : string := iteration_lines (tids x.1) (thread_name x.1) x.2.
Definition all_lines (order : list (nat * Z)) : string := foldr (fun x text => turn_lines x +:+ text) EmptyString order.

Lemma blocks_of_cons t t' calls order :
  blocks_of mu t ((t', calls) :: order) = (if decide (t' = t) then [(Some mu, calls)] else []) ++ blocks_of mu t order.
Proof. unfold blocks_of. rewrite filter_cons. cbn. by destruct (decide (t' = t)). Qed.

Lemma order_counts blocks (left_ : nat -> list Z) :
  Forall (fun b => exists i, (i < 5)%nat /\ b.1 = tids i) blocks ->
  (forall i, (i < 5)%nat -> blocks_of mu (tids i) blocks = iteration (tids i) (thread_name i) <$> left_ i) ->
  exists order, blocks = turn <$> order /\ Forall (fun x => (x.1 < 5)%nat) order
    /\ forall i, (i < 5)%nat -> (filter (fun x => x.1 = i) order).*2 = left_ i.
Proof.
  revert left_. induction blocks as [|[t calls] blocks IH]; intros left_ Hb Hl.
  - exists []. split; [done|]. split; [done|]. intros i Hi. specialize (Hl i Hi). by destruct (left_ i).
  - apply Forall_cons in Hb as [(i & Hi & Ht) Hb]. cbn in Ht. subst t. pose proof (Hl i Hi) as Hli.
    rewrite blocks_of_cons, decide_True in Hli by done. destruct (left_ i) as [|c cs] eqn:Ec; [done|].
    assert (calls = (iteration (tids i) (thread_name i) c).2 /\ blocks_of mu (tids i) blocks = iteration (tids i) (thread_name i) <$> cs)
      as [-> Hcs] by (by injection Hli).
    destruct (IH (fun j => if decide (j = i) then cs else left_ j) Hb) as (order & -> & Ho & Hf).
    { intros j Hj. destruct (decide (j = i)) as [->|Hne]; [done|]. specialize (Hl j Hj).
      rewrite blocks_of_cons, decide_False in Hl; [done|]. intros E. by apply Hne, tids_inj. }
    exists ((i, c) :: order). split; [done|]. split; [by apply Forall_cons|].
    intros j Hj. rewrite filter_cons. cbn. specialize (Hf j Hj).
    destruct (decide (i = j)) as [->|Hne]; cbn; rewrite Hf; destruct (decide (j = _)); congruence.
Qed.

Lemma run_turns order out fs :
  run_blocks strftime (turn <$> order) (running out fs)
  = Ok (tt, running (out +:+ all_lines order) (alter (fun x => x +:+ all_lines order) "test.log" fs)).
Proof.
  revert out fs. induction order as [|x order IH]; intros out fs.
  - cbn [fmap list_fmap run_blocks all_lines foldr]. unfold mret_M. rewrite string_app_nil_r, alter_id; [done|].
    intros y _. apply string_app_nil_r.
  - cbn [fmap list_fmap run_blocks turn]. unfold mbind_M. rewrite run_iteration, IH. cbn [all_lines foldr].
    rewrite string_app_assoc, alter_alter_eq. do 3 f_equal. apply alter_ext. intros y _. cbn. apply string_app_assoc.
Qed.

(** C11: what examples/thread.cpp writes.  If test.log can be opened, dates fit
    their buffer, [__FILE__] has five directories to drop and the five threads
    have different ids, then every interleaving of the threads, lock by lock and
    character by character, ends, and only with all five finished, so that the
    joins of [main] return.  At the end standard output and the file (behind what
    it had) hold the same text: 500 times the line of the root logger and the
    line of the logger "system" of one iteration, next to each other, in an order
    that has each thread's iterations 0 to 99 in order. *)
Theorem thread_example_output fs :
  can_open "test.log" = true ->
  exists p, thread_setup (mkLogProcess (mkLogSys ∅ ∅ EmptyString fs ∅) None) = Ok (tt, p)
    /\ let s0 := logt_init (lp_log p) (example_threads tids) in
       (exists bound, forall k s, nsteps (logt_step strftime) k s0 s -> (k <= bound)%nat)
       /\ forall s, star (logt_step strftime) s0 s ->
            (finished s \/ exists s', logt_step strftime s s')
            /\ (finished s -> exists order,
                  (forall i, (i < 5)%nat -> (filter (fun x => x.1 = i) order).*2 = seqZ 0 100)
                  /\ Forall (fun x => (x.1 < 5)%nat) order
                  /\ cout (lt_log s) = all_lines order
                  /\ files (lt_log s) !! "test.log" = Some (file_text fs +:+ all_lines order)).
Proof.
  intros Ho. eexists. split; [by apply thread_setup_eq|]. intros s0.
  set (g0 := running EmptyString (<["test.log" := file_text fs]> fs)).
  assert (prog_ok strftime g0 (example_threads tids)) as Hp by apply example_prog_ok.
  pose proof (logt_inv_init strftime g0 _ Hp) as Hi0. split.
  - exists (steps_left strftime s0). intros k s Hk. destruct (nsteps_bound strftime k s0 s Hi0 Hk). lia.
  - intros s Hs. destruct (logt_reachable strftime s0 s Hi0 Hs) as [Hi _]. split; [by apply finished_or_steps|].
    intros Hf. destruct (serial_finished strftime mu g0 _ Hp example_guarded s Hs Hf) as (blocks & Hr & Hb & Hin).
    destruct (order_counts blocks (fun _ => seqZ 0 100)) as (order & -> & Hlt & Hc).
    + eapply Forall_impl; [exact Hin|]. intros b [bs (i & Hi1 & Ht & _)%example_threads_Some]. by exists i.
    + intros i Hi1. rewrite <- (func1_eq (tids i)). apply Hb, example_threads_Some. by exists i.
    + unfold g0 in Hr. rewrite run_turns in Hr. injection Hr as <-. exists order. split; [done|]. split; [done|].
      split; [done|]. cbn [files running]. by rewrite lookup_alter_eq, lookup_insert_eq.
Qed.
End ThreadExample.

(** Five threads and a calendar. *)
Definition demo_tids (i : nat) : Z := 101 + Z.of_nat i.

Lemma thread_example_output_witness :
  exists p, thread_setup (fun _ => true) (mkLogProcess (mkLogSys ∅ ∅ EmptyString ∅ ∅) None) = Ok (tt, p)
    /\ exists s', logt_step lw_strftime
         (logt_init (lp_log p) (example_threads "/home/eva/src/EVA01/examples/thread.cpp" (fun _ _ _ => 0) demo_tids)) s'.
Proof.
  destruct (thread_example_output lw_strftime (fun _ => true) "/home/eva/src/EVA01/examples/thread.cpp" (fun _ _ _ => 0)
    (fun _ => "now") "examples/thread.cpp" (fun _ => eq_refl) eq_refl demo_tids) with (fs := ∅ : gmap string string)
    as (p & Hp & _ & Hs).
  - intros i j _ _ E. apply Nat2Z.inj. unfold demo_tids in E. lia.
  - reflexivity.
  - exists p. split; [exact Hp|]. destruct (proj1 (Hs _ (star_refl _ _))) as [Hf|Hst]; [|exact Hst].
    exfalso. destruct (Hf 101 (mkLogThread None [] (func1 "/home/eva/src/EVA01/examples/thread.cpp" (fun _ _ _ => 0) 101 "thread_0") LOut))
      as (_ & _ & _ & Hb); [|discriminate Hb]. cbn [logt_init lt_threads]. rewrite lookup_fmap.
    assert (example_threads "/home/eva/src/EVA01/examples/thread.cpp" (fun _ _ _ => 0) demo_tids !! 101
      = Some (func1 "/home/eva/src/EVA01/examples/thread.cpp" (fun _ _ _ => 0) 101 "thread_0")) as -> by (vm_compute; reflexivity).
    reflexivity.
Defined.
