(* ===== verification/Thread.v ===== *)
(** * Threads and semaphores (src/src/thread.{h,cpp}, src/src/semaphore.{h,cpp})

    [Semaphore] over the POSIX object it wraps, the [Thread] objects, the
    thread-local variables of every operating-system thread, and the statements
    of [Thread::Thread] and [Thread::run] as separate steps, so that the
    handshake between creator and child is a theorem about interleavings.  A
    deleted [Thread] leaves the heap: touching it afterwards is [Undefined].
    The client calls [SetName] from inside its callback, joins and deletes. *)

From S2P Require Import Prelude.

(** ** Semaphore *)

(** glibc: SEM_VALUE_MAX is INT_MAX. *)
Definition SEM_VALUE_MAX : Z := 2 ^ 31 - 1.

(** [Semaphore::Semaphore]: [sem_init] fails with EINVAL above the maximum. *)
Definition Semaphore_ctor (count : Z) : res Z :=
  if u32 count <=? SEM_VALUE_MAX then Ok (u32 count) else Thrown "sem_init error".

(** [Semaphore::wait]: blocks ([None]) at zero; a signal handler interrupts a
    blocked [sem_wait], which then fails with EINTR. *)
Definition Semaphore_wait (interrupted : bool) (sem : Z) : option (res Z) :=
  if 0 <? sem then Some (Ok (sem - 1))
  else if interrupted then Some (Thrown "sem_wait error") else None.

(** [Semaphore::notify]: [sem_post] fails with EOVERFLOW at the maximum. *)
Definition Semaphore_notify (sem : Z) : res Z :=
  if sem <? SEM_VALUE_MAX then Ok (sem + 1) else Thrown "sem_post error".

(** ** Thread *)

Record Thread := mkThread {
  m_thread : Z;          (* pthread_t, 0 when joined *)
  m_id : Z;              (* pid_t *)
  m_cb : closure;
  m_name : string;
  m_semaphore : Z;
}.
#[export] Instance eta_Thread : Eta Thread :=
  fun x => mkThread (m_thread x) (m_id x) (m_cb x) (m_name x) (m_semaphore x).

(** The thread-local variables of thread.cpp, and the name the kernel has. *)
Record tls := mkTls {
  t_thread : option ptr;
  t_thread_name : string;
  os_name : string;
}.
#[export] Instance eta_tls : Eta tls := fun x => mkTls (t_thread x) (t_thread_name x) (os_name x).

Definition tls_init : tls := mkTls None "UNKNOWN" "".

(** Where a thread is in [Thread::run]: before the statement named. *)
Inductive run_pc :=
| RunSetThis | RunSetTlsName | RunSetId | RunSetName | RunNotify | RunCb | RunInCb | RunReturned.

#[export] Instance run_pc_eq_dec : EqDecision run_pc.
Proof. solve_decision. Defined.

Record os_thread := mkOs {
  os_tls : tls;
  os_arg : ptr;           (* the argument of run *)
  os_pc : run_pc;
}.
#[export] Instance eta_os_thread : Eta os_thread := fun x => mkOs (os_tls x) (os_arg x) (os_pc x).

Record tsys := mkTsys {
  th_heap : gmap ptr Thread;
  th_next : ptr;
  th_os : gmap Z os_thread;      (* the threads pthread_create started *)
  th_built : gset ptr;           (* objects whose constructor has returned *)
}.
#[export] Instance eta_tsys : Eta tsys := fun x => mkTsys (th_heap x) (th_next x) (th_os x) (th_built x).

Definition tsys_init : tsys := mkTsys ∅ 0%nat ∅ ∅.

Definition at_thread (site : string) (p : ptr) : M tsys Thread := mderef site (fun s => th_heap s !! p).
Definition put_thread (p : ptr) (t : Thread) : M tsys unit := mmodify (fun s => s <| th_heap := <[p := t]> (th_heap s) |>).
Definition put_os (tid : Z) (o : os_thread) : M tsys unit := mmodify (fun s => s <| th_os := <[tid := o]> (th_os s) |>).
Definition at_os (tid : Z) : M tsys os_thread := mderef "no such thread" (fun s => th_os s !! tid).

(** [Thread::Thread], thread.cpp 9-18: the members, the default name and
    [pthread_create], which returns [rc] and starts [tid] when it is 0. *)
Definition Thread_ctor_create (cb : closure) (name : string) (rc tid : Z) : M tsys ptr :=
  let! s := mget in
  match Semaphore_ctor 0 with
  | Ok sem =>
      let p := th_next s in
      let name := if bool_decide (name = "") then "UNKNOWN" else name in
      if truthy rc then mfail (Thrown "pthread_create failed")
      else
        mput (s <| th_next := S p |> <| th_heap := <[p := mkThread tid (-1) cb name sem]> (th_heap s) |>
                <| th_os := <[tid := mkOs tls_init p RunSetThis]> (th_os s) |>) ;;;
        mret_M p
  | _ => mfail (Thrown "sem_init error")
  end.

(** [Thread::Thread], thread.cpp 20: [m_semaphore.wait()]. *)
Definition Thread_ctor_wait (interrupted : bool) (p : ptr) (s : tsys) : option (res (unit * tsys)) :=
  match th_heap s !! p with
  | None => Some (Undefined "thread.cpp:20")
  | Some t =>
      match Semaphore_wait interrupted (m_semaphore t) with
      | None => None
      | Some (Ok sem) =>
          Some (Ok (tt, s <| th_heap := <[p := t <| m_semaphore := sem |>]> (th_heap s) |>
                          <| th_built := {[p]} ∪ th_built s |>))
      | Some _ => Some (Thrown "sem_wait error")
      end
  end.

(** [Thread::SetName] on the calling thread [tid]. *)
Definition SetName (tid : Z) (name : string) : M tsys unit :=
  if bool_decide (name = "") then mret_M tt
  else
    let! o := at_os tid in
    (match t_thread (os_tls o) with
     | Some p => let! t := at_thread "thread.cpp:34" p in put_thread p (t <| m_name := name |>)
     | None => mret_M tt
     end) ;;;
    put_os tid (o <| os_tls := (os_tls o) <| t_thread_name := name |> <| os_name := String.substring 0 15 name |> |>).

(** [Thread::run] on thread [tid]: the statement at its program counter.  The
    call of the callback takes it to [RunInCb]; its return ends the thread. *)
Definition run_step (tid : Z) : M tsys unit :=
  let! o := at_os tid in
  let p := os_arg o in
  match os_pc o with
  | RunSetThis => put_os tid (o <| os_tls := (os_tls o) <| t_thread := Some p |> |> <| os_pc := RunSetTlsName |>)
  | RunSetTlsName =>
      let! t := at_thread "thread.cpp:59" p in
      put_os tid (o <| os_tls := (os_tls o) <| t_thread_name := m_name t |> |> <| os_pc := RunSetId |>)
  | RunSetId =>
      let! t := at_thread "thread.cpp:60" p in
      put_thread p (t <| m_id := tid |>) ;;; put_os tid (o <| os_pc := RunSetName |>)
  | RunSetName =>
      SetName tid (t_thread_name (os_tls o)) ;;;
      let! o := at_os tid in put_os tid (o <| os_pc := RunNotify |>)
  | RunNotify =>
      let! t := at_thread "thread.cpp:64" p in
      match Semaphore_notify (m_semaphore t) with
      | Ok sem => put_thread p (t <| m_semaphore := sem |>) ;;; put_os tid (o <| os_pc := RunCb |>)
      | _ => mfail (Thrown "sem_post error")
      end
  | RunCb => let! t := at_thread "thread.cpp:65" p in put_os tid (o <| os_pc := RunInCb |>)
  | RunInCb => put_os tid (o <| os_pc := RunReturned |>)
  | RunReturned => mret_M tt
  end.

(** [Thread::join]: [pthread_join] waits ([None]) until the thread has
    returned; [rc] is its result. *)
Definition Thread_join (rc : Z) (p : ptr) (s : tsys) : option (res (unit * tsys)) :=
  match th_heap s !! p with
  | None => Some (Undefined "thread.cpp:42")
  | Some t =>
      if truthy (m_thread t) then
        if truthy rc then Some (Thrown "pthread_join failed")
        else match th_os s !! m_thread t with
             | Some o => if bool_decide (os_pc o = RunReturned)
                         then Some (put_thread p (t <| m_thread := 0 |>) s) else None
             | None => Some (Undefined "pthread_join")
             end
      else Some (Ok (tt, s))
  end.

(** [Thread::~Thread] and the end of the object: a thread not joined is
    detached and goes on. *)
Definition Thread_dtor (p : ptr) : M tsys unit :=
  let! t := at_thread "thread.cpp:51" p in
  mmodify (fun s => s <| th_heap := delete p (th_heap s) |>).

(** ** Interleavings *)

Inductive th_action :=
| AStart (cb : closure) (name : string) (tid : Z)  (* a constructor, up to pthread_create *)
| AWait (p : ptr)                                  (* its wait *)
| ARun (tid : Z)                                   (* a statement of run *)
| ASetName (tid : Z) (name : string)               (* a call in the callback of tid *)
| AJoin (p : ptr)
| ADtor (p : ptr).

(** What can happen next.  The kernel gives a new thread an unused id; a client
    joins or deletes an object whose constructor has returned, and has a
    callback of its own to call [SetName] from. *)
Definition may (a : th_action) (s : tsys) : bool :=
  match a with
  | AStart _ _ tid => (0 <? tid) && bool_decide (th_os s !! tid = None)
  | AWait p => bool_decide (p ∉ th_built s) && bool_decide (is_Some (th_heap s !! p))
  | ARun tid => bool_decide (is_Some (th_os s !! tid))
  | ASetName tid _ => bool_decide (os_pc <$> th_os s !! tid = Some RunInCb)
  | AJoin p | ADtor p => bool_decide (p ∈ th_built s) && bool_decide (is_Some (th_heap s !! p))
  end.

(** The client joins a thread before it deletes the object. *)
Definition joined_first (a : th_action) (s : tsys) : Prop :=
  match a with ADtor p => m_thread <$> th_heap s !! p = Some 0 | _ => True end.

(** The action, when no system call fails; [None] is a call that waits. *)
Definition th_do (a : th_action) (s : tsys) : option (res (unit * tsys)) :=
  match a with
  | AStart cb name tid => Some ((let! _ := Thread_ctor_create cb name 0 tid in mret_M tt) s)
  | AWait p => Thread_ctor_wait false p s
  | ARun tid => Some (run_step tid s)
  | ASetName tid name => Some (SetName tid name s)
  | AJoin p => Thread_join 0 p s
  | ADtor p => Some (Thread_dtor p s)
  end.

Definition th_step (s s' : tsys) : Prop :=
  exists a, may a s = true /\ joined_first a s /\ th_do a s = Some (Ok (tt, s')).

(** What ties a thread to its object, statement by statement. *)
Record linked (tid : Z) (o : os_thread) (t : Thread) (built : bool) : Prop := {
  ln_this : os_pc o <> RunSetThis -> t_thread (os_tls o) = Some (os_arg o);
  ln_name : os_pc o ∉ [RunSetThis; RunSetTlsName] -> t_thread_name (os_tls o) = m_name t;
  ln_id : os_pc o ∉ [RunSetThis; RunSetTlsName; RunSetId] -> m_id t = tid;
  ln_os : os_pc o ∈ [RunNotify; RunCb; RunInCb; RunReturned] -> os_name (os_tls o) = String.substring 0 15 (m_name t);
  ln_nonempty : m_name t <> "";
  ln_built : built = true -> os_pc o ∈ [RunCb; RunInCb; RunReturned];
  ln_sem : m_semaphore t = if negb built && bool_decide (os_pc o ∈ [RunCb; RunInCb; RunReturned]) then 1 else 0;
  ln_thread : m_thread t = tid \/ m_thread t = 0 /\ os_pc o = RunReturned;
}.

Record th_inv (s : tsys) : Prop := {
  ti_bound : forall p, is_Some (th_heap s !! p) \/ p ∈ th_built s -> (p < th_next s)%nat;
  ti_os : forall tid o, th_os s !! tid = Some o -> 0 < tid /\ (os_arg o < th_next s)%nat;
  ti_inj : forall tid1 tid2 o1 o2, th_os s !! tid1 = Some o1 -> th_os s !! tid2 = Some o2 ->
    os_arg o1 = os_arg o2 -> tid1 = tid2;
  ti_owner : forall p, is_Some (th_heap s !! p) -> exists tid o, th_os s !! tid = Some o /\ os_arg o = p;
  ti_alive : forall tid o, th_os s !! tid = Some o -> os_pc o <> RunReturned -> is_Some (th_heap s !! os_arg o);
  ti_link : forall tid o t, th_os s !! tid = Some o -> th_heap s !! os_arg o = Some t ->
    linked tid o t (bool_decide (os_arg o ∈ th_built s));
}.

(** A step of one thread, of the wait for it or of the join of it changes only
    that thread, its object and whether the constructor has returned. *)
Lemma th_inv_update s tid o o' t t' built' :
  th_inv s -> th_os s !! tid = Some o -> th_heap s !! os_arg o = Some t -> os_arg o' = os_arg o ->
  built' ∈ [th_built s; {[os_arg o]} ∪ th_built s] ->
  linked tid o' t' (bool_decide (os_arg o ∈ built')) ->
  th_inv (mkTsys (<[os_arg o := t']> (th_heap s)) (th_next s) (<[tid := o']> (th_os s)) built').
Proof.
  intros [Hb Ho Hi Hw Ha Hl] Htid Hp Harg Hbuilt Hlink.
  assert (forall q, q ∈ built' <-> q ∈ th_built s \/ (q = os_arg o /\ os_arg o ∈ built')) as Hbu.
  { intros q. apply list_elem_of_In in Hbuilt. destruct Hbuilt as [<-|[<-|[]]]; set_solver. }
  assert (forall tid1 o1, <[tid := o']> (th_os s) !! tid1 = Some o1 ->
            exists o2, th_os s !! tid1 = Some o2 /\ os_arg o1 = os_arg o2 /\ (tid1 = tid /\ o1 = o' \/ tid1 <> tid /\ o1 = o2)) as Hos.
  { intros tid1 o1 [(<- & <-)|(Hn & H1)]%lookup_insert_Some; [exists o; split; [done|]; auto|exists o1; split; [done|]; auto]. }
  split; cbn [th_heap th_next th_os th_built].
  - intros q [Hq|Hq].
    + apply Hb. left. destruct (decide (os_arg o = q)) as [<-|Hn]; [by exists t|by rewrite lookup_insert_ne in Hq].
    + apply Hbu in Hq as [Hq|(-> & _)]; apply Hb; [by right|left; by exists t].
  - intros tid1 o1 (o2 & H2 & -> & _)%Hos. by apply (Ho tid1).
  - intros tid1 tid2 o1 o2 (o3 & H3 & E3 & _)%Hos (o4 & H4 & E4 & _)%Hos E. apply (Hi _ _ o3 o4); congruence.
  - intros q Hq. assert (is_Some (th_heap s !! q)) as (tid1 & o1 & H1 & E1)%Hw.
    { destruct (decide (os_arg o = q)) as [<-|Hn]; [by exists t|by rewrite lookup_insert_ne in Hq]. }
    exists tid1. destruct (decide (tid1 = tid)) as [->|Hn]; [exists o'; rewrite lookup_insert_eq|exists o1; rewrite lookup_insert_ne by done].
    + split; [done|]. congruence.
    + done.
  - intros tid1 o1 (o2 & H2 & E2 & H3)%Hos Hpc. rewrite E2. destruct (decide (os_arg o = os_arg o2)) as [<-|Hn].
    + rewrite lookup_insert_eq. by eexists.
    + rewrite lookup_insert_ne by done. apply (Ha tid1); [done|]. destruct H3 as [(-> & ->)|(_ & ->)]; congruence.
  - intros tid1 o1 t1 (o2 & H2 & E2 & H3)%Hos Ht1. destruct H3 as [(-> & ->)|(Hn & ->)].
    + rewrite Harg in *. rewrite lookup_insert_eq in Ht1. by injection Ht1 as <-.
    + assert (os_arg o <> os_arg o2) as Hne by (intros E; apply Hn; by apply (Hi _ _ o2 o)).
      rewrite lookup_insert_ne in Ht1 by done. rewrite (bool_decide_ext _ (os_arg o2 ∈ th_built s)); [by apply Hl|].
      rewrite Hbu. naive_solver.
Qed.

Lemma th_inv_init : th_inv tsys_init.
Proof.
  split; cbn; intros; repeat match goal with H : _ !! _ = Some _ |- _ => by rewrite lookup_empty in H end.
  - destruct H as [[? H]|H]; [by rewrite lookup_empty in H|set_solver].
  - destruct H as [? H]. by rewrite lookup_empty in H.
Qed.

(** The thread and the object of an action on either. *)
Lemma th_inv_thread s tid o :
  th_inv s -> th_os s !! tid = Some o -> os_pc o <> RunReturned ->
  exists t, th_heap s !! os_arg o = Some t /\ linked tid o t (bool_decide (os_arg o ∈ th_built s)).
Proof. intros Hi Ho Hpc. destruct (ti_alive s Hi tid o Ho Hpc) as [t Ht]. exists t. eauto using ti_link. Qed.

Lemma th_inv_object s p t :
  th_inv s -> th_heap s !! p = Some t ->
  exists tid o, th_os s !! tid = Some o /\ os_arg o = p /\ linked tid o t (bool_decide (p ∈ th_built s)).
Proof.
  intros Hi Hp. destruct (ti_owner s Hi p) as (tid & o & Ho & <-); [by eexists|]. exists tid, o. eauto using ti_link.
Qed.

(** The same update when the object, the thread or the set stays as it is. *)
Lemma th_inv_put_os s tid o o' t :
  th_inv s -> th_os s !! tid = Some o -> th_heap s !! os_arg o = Some t -> os_arg o' = os_arg o ->
  linked tid o' t (bool_decide (os_arg o ∈ th_built s)) -> th_inv (s <| th_os := <[tid := o']> (th_os s) |>).
Proof.
  intros Hi Ho Hp Ha Hl. pose proof (th_inv_update s tid o o' t t (th_built s) Hi Ho Hp Ha ltac:(left) Hl) as H.
  by rewrite (insert_id (th_heap s)) in H.
Qed.

Lemma th_inv_put_thread s tid o t t' built' :
  th_inv s -> th_os s !! tid = Some o -> th_heap s !! os_arg o = Some t ->
  built' ∈ [th_built s; {[os_arg o]} ∪ th_built s] -> linked tid o t' (bool_decide (os_arg o ∈ built')) ->
  th_inv (mkTsys (<[os_arg o := t']> (th_heap s)) (th_next s) (th_os s) built').
Proof.
  intros Hi Ho Hp Hb Hl. pose proof (th_inv_update s tid o o t t' built' Hi Ho Hp eq_refl Hb Hl) as H.
  by rewrite (insert_id (th_os s)) in H.
Qed.

Lemma SetName_ok s tid o t name :
  th_inv s -> th_os s !! tid = Some o -> th_heap s !! os_arg o = Some t ->
  os_pc o ∈ [RunSetName; RunInCb] ->
  exists s', SetName tid name s = Ok (tt, s') /\ th_inv s'
    /\ exists o' t', th_os s' !! tid = Some o' /\ os_arg o' = os_arg o /\ os_pc o' = os_pc o
         /\ th_heap s' !! os_arg o = Some t' /\ th_built s' = th_built s
         /\ (name <> "" -> os_name (os_tls o') = String.substring 0 15 (m_name t')).
Proof.
  intros Hi Ho Hp Hpc. unfold SetName, at_os, at_thread, put_thread, put_os. munfold.
  destruct (bool_decide (name = "")) eqn:En; [exists s; split; [reflexivity|]; split; [done|]; by exists o, t; apply bool_decide_eq_true in En|]. apply bool_decide_eq_false in En.
  pose proof (ti_link s Hi tid o t Ho Hp) as Hl.
  assert (os_pc o <> RunSetThis) as Hne by (intros E; rewrite E in Hpc; set_solver).
  rewrite Ho, (ln_this _ _ _ _ Hl Hne), Hp. eexists. split; [reflexivity|]. split.
  - apply (th_inv_update s tid o _ t _ (th_built s)); [done..|left|].
    destruct Hl. split; cbn; auto.
  - cbn. rewrite !lookup_insert_eq. eexists _, _. split; [reflexivity|]. auto.
Qed.

(** A change of a thread past the object it works on. *)
Ltac relink :=
  match goal with
  | Hl : linked _ _ _ _, E : os_pc _ = _ |- linked _ _ _ _ =>
      destruct Hl as [H1 H2 H3 H4 H5 H6 H7 H8]; rewrite E in *; split; cbn;
      try first [done | set_solver | rewrite ?bool_decide_false in * by set_solver; set_solver]
  end.

Lemma run_step_ok s tid o :
  th_inv s -> th_os s !! tid = Some o -> exists s', run_step tid s = Ok (tt, s') /\ th_inv s'.
Proof.
  intros Hi Ho. unfold run_step, at_os, at_thread, put_thread, put_os.
  destruct (decide (os_pc o = RunReturned)) as [E|E]; [munfold; rewrite Ho, E; eauto|].
  destruct (th_inv_thread s tid o Hi Ho E) as (t & Ht & Hl). rename E into Hret.
  destruct (os_pc o) eqn:E.
  - munfold. rewrite Ho, E. eexists. split; [reflexivity|]. apply (th_inv_put_os s tid o _ t); [done..|]. relink.
  - munfold. rewrite Ho, E, Ht. eexists. split; [reflexivity|]. apply (th_inv_put_os s tid o _ t); [done..|]. relink.
  - munfold. rewrite Ho, E, Ht. eexists. split; [reflexivity|].
    apply (th_inv_update s tid o _ t _ (th_built s)); [done..|left|]. relink.
  - destruct (SetName_ok s tid o t (t_thread_name (os_tls o)) Hi Ho Ht)
      as (s' & Hs & Hi' & o' & t' & Ho' & Ha & Hpc & Ht' & Hb & Hos); [rewrite E; set_solver|].
    unfold mbind_M at 1. unfold mderef at 1. rewrite Ho, E. cbv beta iota. unfold mbind_M at 1. rewrite Hs.
    munfold. rewrite Ho'. eexists. split; [reflexivity|]. rewrite <- Ha in Ht'.
    apply (th_inv_put_os s' tid o' _ t'); [done..|].
    pose proof (ti_link s' Hi' tid o' t' Ho' Ht') as Hl'. rewrite E in Hpc.
    assert (t_thread_name (os_tls o) <> "") as Hne.
    { rewrite (ln_name _ _ _ _ Hl) by (rewrite E; set_solver). apply (ln_nonempty _ _ _ _ Hl). }
    specialize (Hos Hne). clear Hl Hret E. relink.
  - munfold. rewrite Ho, E, Ht. pose proof Hl as [_ _ _ _ _ Hb Hsem _]. rewrite E in Hb, Hsem.
    assert (bool_decide (os_arg o ∈ th_built s) = false) as Hnb.
    { destruct (bool_decide _) eqn:Eb in Hb |- *; [|done]. specialize (Hb eq_refl). set_solver. }
    rewrite Hnb in Hsem. cbn in Hsem. rewrite Hsem. eexists. split; [reflexivity|].
    apply (th_inv_update s tid o _ t _ (th_built s)); [done..|left|]. rewrite Hnb in *. relink.
  - munfold. rewrite Ho, E, Ht. eexists. split; [reflexivity|]. apply (th_inv_put_os s tid o _ t); [done..|]. relink.
  - munfold. rewrite Ho, E. eexists. split; [reflexivity|]. apply (th_inv_put_os s tid o _ t); [done..|]. relink.
  - done.
Qed.

Lemma AStart_ok s cb name tid :
  th_inv s -> 0 < tid -> th_os s !! tid = None ->
  exists s', Thread_ctor_create cb name 0 tid s = Ok (th_next s, s') /\ th_inv s'.
Proof.
  intros Hi Htid Hn. unfold Thread_ctor_create. munfold. cbn -[insert]. eexists. split; [reflexivity|].
  destruct Hi as [Hb Ho Hj Hw Ha Hl].
  assert (th_heap s !! th_next s = None) as Hf.
  { destruct (th_heap s !! th_next s) eqn:E; [|done]. assert (th_next s < th_next s)%nat; [apply Hb; left; by eexists|lia]. }
  assert (th_next s ∉ th_built s) as Hnb by (intros E; assert (th_next s < th_next s)%nat; [apply Hb; by right|lia]).
  assert (forall tid1 o1, th_os s !! tid1 = Some o1 -> os_arg o1 <> th_next s) as Hfr by (intros ? ? ?%Ho; lia).
  split; cbn [th_heap th_next th_os th_built].
  - intros p [Hp|Hp]; [|specialize (Hb p (or_intror Hp)); lia].
    destruct (decide (p = th_next s)) as [->|E]; [lia|]. rewrite lookup_insert_ne in Hp by done. specialize (Hb p (or_introl Hp)). lia.
  - intros tid1 o1 [(<- & <-)|(_ & H1)]%lookup_insert_Some; [cbn; lia|]. apply Ho in H1. lia.
  - intros tid1 tid2 o1 o2 [(<- & <-)|(E1 & H1)]%lookup_insert_Some [(<- & <-)|(E2 & H2)]%lookup_insert_Some E; cbn in E.
    + done.
    + by apply Hfr in H2.
    + by apply Hfr in H1.
    + by apply (Hj _ _ o1 o2).
  - intros p Hp. destruct (decide (p = th_next s)) as [->|E].
    + exists tid. eexists. by rewrite lookup_insert_eq.
    + rewrite lookup_insert_ne in Hp by done. destruct (Hw p Hp) as (tid1 & o1 & H1 & <-). exists tid1, o1.
      rewrite lookup_insert_ne; [done|congruence].
  - intros tid1 o1 [(<- & <-)|(E1 & H1)]%lookup_insert_Some Hpc; [cbn; rewrite lookup_insert_eq; by eexists|].
    rewrite lookup_insert_ne; [by apply (Ha tid1)|]. by apply not_eq_sym, (Hfr tid1).
  - intros tid1 o1 t1 [(<- & <-)|(E1 & H1)]%lookup_insert_Some Ht1.
    + cbn [os_arg] in *. rewrite lookup_insert_eq in Ht1. injection Ht1 as <-. rewrite (bool_decide_false (th_next s ∈ th_built s)) by done.
      clear. split; cbn; try done.
      * intros Hx. exfalso. apply Hx. left.
      * intros Hx. exfalso. apply Hx. left.
      * intros Hx. exfalso. set_solver.
      * by case_bool_decide.
      * by left.
    + rewrite lookup_insert_ne in Ht1; [by apply Hl|]. by apply not_eq_sym, (Hfr tid1).
Qed.

Lemma AWait_ok s p t :
  th_inv s -> th_heap s !! p = Some t -> p ∉ th_built s ->
  Thread_ctor_wait false p s = None \/ exists s', Thread_ctor_wait false p s = Some (Ok (tt, s')) /\ th_inv s'.
Proof.
  intros Hi Hp Hb. unfold Thread_ctor_wait, Semaphore_wait. rewrite Hp.
  destruct (th_inv_object s p t Hi Hp) as (tid & o & Ho & <- & Hl).
  rewrite bool_decide_false in Hl by done. destruct (Z.ltb_spec 0 (m_semaphore t)) as [Hs|Hs]; [right|by left].
  eexists. split; [reflexivity|]. apply (th_inv_put_thread s tid o t); [done..|set_solver|].
  rewrite bool_decide_true by set_solver. destruct Hl as [H1 H2 H3 H4 H5 H6 H7 H8]. cbn in H7.
  case_bool_decide; [|lia]. split; cbn; auto. lia.
Qed.

Lemma AJoin_ok s p t :
  th_inv s -> th_heap s !! p = Some t ->
  Thread_join 0 p s = None \/ exists s', Thread_join 0 p s = Some (Ok (tt, s')) /\ th_inv s'.
Proof.
  intros Hi Hp. unfold Thread_join, put_thread. munfold. rewrite Hp.
  destruct (th_inv_object s p t Hi Hp) as (tid & o & Ho & <- & Hl).
  destruct (truthy (m_thread t)) eqn:Et; [|right; eauto]. cbn [truthy Z.eqb negb].
  destruct Hl as [H1 H2 H3 H4 H5 H6 H7 [H8|(H8 & _)]]; [|by rewrite H8 in Et].
  rewrite H8, Ho. destruct (decide (os_pc o = RunReturned)) as [Hr|Hr];
    [right; rewrite bool_decide_true by done|left; by rewrite bool_decide_false]. eexists. split; [reflexivity|].
  apply (th_inv_put_thread s tid o t); [done..|left|]. split; cbn; auto.
Qed.

Lemma ADtor_ok s p t :
  th_inv s -> th_heap s !! p = Some t -> m_thread t = 0 -> exists s', Thread_dtor p s = Ok (tt, s') /\ th_inv s'.
Proof.
  intros Hi Hp H0. unfold Thread_dtor, at_thread. munfold. rewrite Hp. eexists. split; [reflexivity|].
  destruct (th_inv_object s p t Hi Hp) as (tid & o & Ho & <- & Hl).
  assert (os_pc o = RunReturned) as Hr.
  { destruct (ln_thread _ _ _ _ Hl) as [E|(_ & E)]; [|done]. apply (ti_os s Hi) in Ho. lia. }
  destruct Hi as [Hb Ho' Hj Hw Ha Hk]. split; cbn [th_heap th_next th_os th_built upd_field].
  - intros q [Hq|Hq]; apply Hb; [|by right]. left. destruct Hq as [x [_ Hx]%lookup_delete_Some]. by exists x.
  - done.
  - done.
  - intros q [x [_ Hx]%lookup_delete_Some]. apply Hw. by eexists.
  - intros tid1 o1 H1 Hpc. rewrite lookup_delete_ne; [by apply (Ha tid1)|]. intros E. apply Hpc.
    assert (tid = tid1) as <- by (by apply (Hj _ _ o o1)). congruence.
  - intros tid1 o1 t1 H1 [_ Ht1]%lookup_delete_Some. by apply Hk.
Qed.

(** Every action that may happen either waits or ends normally. *)
Lemma th_do_ok a s :
  th_inv s -> may a s = true -> joined_first a s ->
  th_do a s = None \/ exists s', th_do a s = Some (Ok (tt, s')) /\ th_inv s'.
Proof.
  intros Hi Hm Hj. destruct a as [cb name tid|p|tid|tid name|p|p]; cbn in Hm, Hj |- *.
  - apply andb_prop in Hm as [Hm1%Z.ltb_lt Hm2%bool_decide_eq_true]. right.
    destruct (AStart_ok s cb name tid Hi Hm1 Hm2) as (s' & Hs & Hi'). exists s'. by unfold mbind_M; rewrite Hs.
  - apply andb_prop in Hm as [Hm1%bool_decide_eq_true [t Hm2]%bool_decide_eq_true]. by apply (AWait_ok s p t).
  - apply bool_decide_eq_true in Hm as [o Ho]. right. destruct (run_step_ok s tid o Hi Ho) as (s' & Hs & Hi').
    exists s'. by rewrite Hs.
  - apply bool_decide_eq_true, fmap_Some in Hm as (o & Ho & Hpc). right.
    destruct (th_inv_thread s tid o Hi Ho) as (t & Ht & _); [congruence|].
    destruct (SetName_ok s tid o t name Hi Ho Ht) as (s' & Hs & Hi' & _); [rewrite <- Hpc; set_solver|].
    exists s'. by rewrite Hs.
  - apply andb_prop in Hm as [_ [t Hm2]%bool_decide_eq_true]. by apply (AJoin_ok s p t).
  - apply fmap_Some in Hj as (t & Ht & H0). right. destruct (ADtor_ok s p t Hi Ht) as (s' & Hs & Hi'); [done|].
    exists s'. by rewrite Hs.
Qed.

Lemma th_reachable_inv s : star th_step tsys_init s -> th_inv s.
Proof.
  intros Hs. eapply star_invariant; [|exact Hs|apply th_inv_init]. intros a b Hi (x & Hm & Hj & Hd).
  destruct (th_do_ok x a Hi Hm Hj) as [E|(s' & E & Hi')]; rewrite Hd in E; [done|]. by injection E as <-.
Qed.


(** A run of actions from a state. *)
Fixpoint th_run (l : list th_action) (s : tsys) : option (res (unit * tsys)) :=
  match l with
  | [] => Some (Ok (tt, s))
  | a :: l => if may a s then match th_do a s with Some (Ok (_, s')) => th_run l s' | r => r end else None
  end.

Definition no_dtor (a : th_action) : bool := match a with ADtor _ => false | _ => true end.

Lemma th_run_star l s s' :
  forallb no_dtor l = true -> th_run l s = Some (Ok (tt, s')) -> star th_step s s'.
Proof.
  revert s. induction l as [|a l IH]; intros s Hn Hr; cbn in *.
  - injection Hr as <-. constructor.
  - apply andb_prop in Hn as [Ha Hn]. destruct (may a s) eqn:Em; [|done].
    destruct (th_do a s) as [[[[] s1]| | | | ]|] eqn:Ed; try done.
    eapply star_step; [|by apply (IH s1)]. exists a. split; [done|]. split; [by destruct a|done].
Qed.

(** The constructor of an object for thread 41, to its end. *)
Definition demo_started : list th_action :=
  [AStart (User 1) "worker" 41; ARun 41; ARun 41; ARun 41; ARun 41; ARun 41; AWait 0%nat].

Definition state_of (r : option (res (unit * tsys))) : tsys :=
  match r with Some (Ok (_, s)) => s | _ => tsys_init end.

Definition demo_threads : tsys := state_of (th_run demo_started tsys_init).

Lemma demo_threads_reachable : star th_step tsys_init demo_threads.
Proof. apply (th_run_star demo_started); vm_compute; reflexivity. Qed.


(** the constructor waits for the thread to be set up, not for it to have
    read the callback: when a client deletes the [Thread] (or lets it go out of
    scope) right after constructing it, without joining, the detached thread
    reads [t->m_cb] from a freed object. *)
Theorem detached_thread_uses_freed_object s tid :
  star th_step tsys_init s ->
  (forall o, th_os s !! tid = Some o -> os_pc o = RunCb -> os_arg o ∈ th_built s ->
     exists s', Thread_dtor (os_arg o) s = Ok (tt, s') /\ run_step tid s' = Undefined "thread.cpp:65").
Proof.
  intros Hi%th_reachable_inv o Ho Hpc Hb. destruct (th_inv_thread s tid o Hi Ho) as (t & Ht & _); [congruence|].
  unfold Thread_dtor, run_step, at_thread, at_os. munfold. rewrite Ht. eexists. split; [reflexivity|].
  cbn [th_os th_heap upd_field]. rewrite Ho, Hpc. cbn [th_os th_heap upd_field]. by rewrite lookup_delete_eq.
Qed.

Lemma detached_thread_uses_freed_object_witness :
  exists s', Thread_dtor 0%nat demo_threads = Ok (tt, s') /\ run_step 41 s' = Undefined "thread.cpp:65".
Proof.
  apply (detached_thread_uses_freed_object demo_threads 41 demo_threads_reachable (mkOs (mkTls (Some 0%nat) "worker" "worker") 0%nat RunCb)).
  - vm_compute. reflexivity.
  - reflexivity.
  - apply (bool_decide_unpack _). vm_compute. exact I.
Defined.
