(* ===== verification/Util.v ===== *)
(** * Utilities (src/src/util.{h,cpp})

    The clock, [SleepMs] over the hooked [usleep], and the backtrace helpers
    with what [backtrace_symbols] returns as an argument.  [GetThreadId] is the
    kernel's; the other files take the thread id as an argument. *)

From Stdlib Require Import Ascii.
From S2P Require Import Prelude Timer Hook.

(** [GetCurrentMs]: [tv_sec * 1000ul + tv_usec / 1000]. *)
Definition GetCurrentMs (tv_sec tv_usec : Z) : Z := u64 (u64 (u64 tv_sec * 1000) + u64 (Z.quot tv_usec 1000)).

(** [SleepMs]: the argument of [usleep], an [int] product converted to
    [useconds_t]. *)
Definition SleepMs_usec (ms : Z) : res Z :=
  let p := ms * 1000 in
  if (- 2 ^ 31 <=? p) && (p <? 2 ^ 31) then Ok (u32 p) else Undefined "util.cpp:15".

(** The loop of [Backtrace]: [strings] are the [s] symbols, [bt] the vector. *)
Fixpoint Backtrace_loop (fuel : nat) (i : Z) (strings bt : list string) : list string :=
  match fuel with
  | O => bt
  | S fuel => if i <? Z.of_nat (length strings)
              then Backtrace_loop fuel (i + 1) strings (bt ++ [default "" (strings !! Z.to_nat i)])
              else bt
  end.

(** [Backtrace]: [skip] is converted to [size_t]; no symbols is the error
    branch.  The loop runs at most once per symbol. *)
Definition Backtrace (symbols : option (list string)) (skip : Z) (bt : list string) : list string :=
  match symbols with
  | None => bt
  | Some strings => Backtrace_loop (length strings) (u64 skip) strings bt
  end.

(** [BacktraceToString] *)
Definition BacktraceToString (symbols : option (list string)) (skip : Z) (prefix : string) : string :=
  String.concat "" ((fun l => prefix +:+ l +:+ String "010"%char EmptyString) <$> Backtrace symbols skip []).

Lemma Backtrace_loop_drop strings fuel i bt :
  0 <= i -> (length strings - Z.to_nat i <= fuel)%nat ->
  Backtrace_loop fuel i strings bt = bt ++ drop (Z.to_nat i) strings.
Proof.
  revert i bt. induction fuel as [|fuel IH]; intros i bt Hi Hf; cbn.
  - by rewrite drop_ge, app_nil_r by lia.
  - destruct (Z.ltb_spec i (Z.of_nat (length strings))) as [Hl|Hl]; [|by rewrite drop_ge, app_nil_r by lia].
    rewrite IH by lia. destruct (lookup_lt_is_Some_2 strings (Z.to_nat i)) as [x Hx]; [lia|].
    rewrite (drop_S strings x (Z.to_nat i)) by done. rewrite Hx. cbn. rewrite <- app_assoc. cbn.
    replace (Z.to_nat (i + 1)) with (S (Z.to_nat i)) by lia. done.
Qed.

(** the utilities.  [GetCurrentMs], within 2^53 seconds of the
    epoch, is the clock rounded down to milliseconds, so never more than one
    behind; a hooked [SleepMs] of 0 to 2147483 ms arms a timer of
    exactly that period, and of more overflows an [int]; and a backtrace skips
    its first entries, all of them when [skip] is negative. *)
Theorem util_functions :
  (forall s us, 0 <= s < 2 ^ 53 -> 0 <= us < 1000000 ->
     GetCurrentMs s us * 1000 <= s * 1000000 + us < (GetCurrentMs s us + 1) * 1000)
  /\ (forall ms, 0 <= ms -> match SleepMs_usec ms with
                           | Ok us => usleep_period us = ms /\ ms <= 2147483
                           | _ => 2147483 < ms
                           end)
  /\ (forall strings skip bt, - 2 ^ 31 <= skip < 2 ^ 31 -> Z.of_nat (length strings) < 2 ^ 31 ->
        Backtrace (Some strings) skip bt = bt ++ if skip <? 0 then [] else drop (Z.to_nat skip) strings).
Proof.
  split; [|split].
  - intros s us Hs Hu. unfold GetCurrentMs. rewrite Z.quot_div_nonneg by lia.
    pose proof (Z.div_mod us 1000 ltac:(lia)). pose proof (Z.mod_pos_bound us 1000 ltac:(lia)).
    rewrite (u64_small s) by (unfold is_u64; lia). rewrite (u64_small (s * 1000)) by (unfold is_u64; lia).
    rewrite (u64_small (us / 1000)) by (unfold is_u64; lia). rewrite u64_small by (unfold is_u64; lia). lia.
  - intros ms Hms. unfold SleepMs_usec. destruct (Z.leb_spec (- 2 ^ 31) (ms * 1000)); [|lia].
    destruct (Z.ltb_spec (ms * 1000) (2 ^ 31)); cbn [andb]; [|lia].
    rewrite u32_small by (unfold is_u32; lia). unfold usleep_period. rewrite Z.quot_mul by lia. lia.
  - intros strings skip bt Hskip Hlen. unfold Backtrace.
    rewrite Backtrace_loop_drop by (unfold u64; pose proof (Z.mod_pos_bound skip (2 ^ 64)); lia). f_equal.
    destruct (Z.ltb_spec skip 0).
    + unfold u64. rewrite <- (Z.mod_add skip 1), Z.mod_small by lia. by rewrite drop_ge by lia.
    + by rewrite u64_small by (unfold is_u64; lia).
Qed.
